(* ===== verification/_CoqProject ===== *)
-Q . S2P
Prelude.v
GoStrings.v
GoNet.v
GoBytes.v
Float64.v
GoFmt.v
GoTime.v
GoParse.v
Types.v
Sha256.v
Probe.v
Config.v
ConfigLoad.v
ConfigError.v
ConfigTypes.v
Prober.v
TcpSyn.v
Tcp.v
Udp.v
Dns.v
Http.v
Icmp.v
Otlp.v
Stdout.v
MetricsDoc.v
Pipeline.v
Log.v
Server.v
Scheduler.v
System.v
Provenance.v
Main.v
Observability.v
Liveness.v
Gauge.v
Order.v
Serving.v
Boot.v
Smoke.v
