(* ===== verification/Prelude.v ===== *)
(** * trimon: a verification development (root file)

    trimon is a network monitor: probes (ICMP, TCP connect and SYN, UDP, DNS,
    HTTP) run on a schedule against a list of targets, every run yields results,
    the results go through one buffered channel to the exporters, and the probe
    set can be replaced at run time by an HTTP request.  This library models the
    Go sources under src/ definition by definition and proves what makes them
    correct.  Names are the source's wherever Rocq allows it.

    ** Parts of the program and the files that model them

    - The Go language and standard library as far as the code uses it:
      [Prelude] (outcomes [res] = value, error or panic; loops with early
      return; integers at their width), [GoStrings] (strings, quoting, case
      mapping), [GoNet] (textual IP addresses, JoinHostPort), [GoBytes]
      (big-endian words), [Float64] (binary64 arithmetic, executable, with the
      rounding facts the statistics need), [Sha256] (executable SHA-256),
      [GoFmt] (fixed-point verbs, RFC 3339 timestamps with a proved calendar,
      JSON values), [GoTime] (Duration.String and ParseDuration, proved inverse),
      [GoParse] (slicing with its panics, Split, TrimSpace, Fields, Trim,
      ParseFloat).
    - pkg/types/types.go: [Types] (status, configurations, results, Measured).
    - internal/probe/targets.go, run.go, stats.go: [Probe] (ExpandTargets,
      RunWorkItems, NewResult, StatusFromLoss, RunLoop, RTTStats).
    - internal/probe/prober.go: [Prober]: the interface as a class, its promise
      on results ([result_ok]) as the class law, and the closure the TCP and UDP
      probers share.
    - internal/probe/tcp/syn.go: [TcpSyn]; tcp/tcp.go: [Tcp]; udp/udp.go: [Udp];
      dns/dns.go: [Dns]; http/http.go: [Http]; icmp/icmp.go: [Icmp].  Each ends
      with an instance of the interface law.
    - internal/config/schema.go, validate.go, protocols.go: [Config];
      config.go: [ConfigLoad]; [ConfigError] holds the text of the errors,
      [ConfigTypes] the machine types of a loaded configuration.
    - internal/exporter/otlp: [Otlp] (registration, transports, measurements,
      attribute sets); internal/exporter/stdout: [Stdout] (JSON records and text
      lines); internal/metricsdoc and cmd/gen-metrics-docs: [MetricsDoc].
    - internal/pipeline/pipeline.go and internal/exporter/exporter.go:
      [Pipeline]; internal/server/server.go: [Server] (construction, start,
      routes, handlers with what they log, the configuration dump);
      internal/scheduler/scheduler.go: [Scheduler].
    - cmd/trimon/main.go: [Log] (buildLogger and the levels of log/slog), [System]
      (all goroutines as one step relation), [Provenance] (where goroutines and
      results come from), [Main] (the probe factory and the wired program),
      [Observability] (the counters of the running program), [Liveness] (the
      shutdown always ends), [Gauge] (the goroutine gauge), [Order] (one goroutine
      per probe, results in order), [Serving] (the reload callback, the state of
      the server and the system together) and [Boot] (flags, the start-up with its
      exits, the program end to end).
    - test/smoke/parse.go: [Smoke] (the metrics page parser and its assertions).

    ** How state and effects are represented

    Pure functions are Rocq functions.  Fallible functions return [res].  What
    the code gets from outside (resolver, sockets, clock, file system, YAML
    decoder, miekg/dns, pro-bing, net/http's transport, the OpenTelemetry SDK,
    otlptranslator, Unicode tables) is an
    argument: a record of functions or a script of what each call returns;
    where the code relies on documented behaviour of such a part, it is a named
    hypothesis ([range_ok], [probing_stats], [keeps_global], [typed_decoder],
    [attribute_sets]).  Goroutines are
    state machines; a [step] of [System] is one move of main, of the reload
    handler, of a worker or of the pipeline, or the arrival of a signal or of a
    reload request, split wherever the Go code takes a lock, blocks, runs a probe,
    or touches the shared channel; a receive of the pipeline and the dispatch of
    what it received are two moves, a dispatch to all exporters is one.  A signal
    goes to main's channel once [signal.Notify] has run and kills the process
    before that.  History fields ([accepted], [exported], [produced], [dropped],
    [dropRecords], [exportCalls], [exportErrors], [handled]) record what has
    happened and are read by no transition, except that an exporter may depend on
    its earlier calls: the stdout exporter's JSON encoder keeps its first write
    error.

    ** Calm executions

    The step relations [step] and [serveStep] have every interleaving, and the
    accounting theorems hold of all of them.  The reload handler races with the
    start and the shutdown of main ([reload_before_start_leaks],
    [reload_during_shutdown_panics]), so the theorems on safety, liveness, order
    and what is served are about [calmStep] and [calmServe]: a reload is in
    progress only while main serves and no signal has been delivered.  They also
    suppose [runnable] configurations: valid ones with positive HTTP intervals
    ([http_interval_panics] shows why) and counts below 2^53.

    ** What the theorems show

    - Configuration: an accepted probe or a loaded configuration satisfies the
      invariant its clients use; validation is idempotent, independent of map
      order and exact on timings; loading reads exactly the eligible files and
      cannot panic while the decoder keeps the global block; every number of a
      loaded configuration fits its Go type and the range validation enforces;
      the message of a failed load names the file at fault and its cause.
    - Probing: target expansion refines its documented specification; the
      fan-out is independent of the completion order; the attempt loop and each
      prober derive the documented status and port state from the attempts made,
      with the loss computed in binary64; SYN segments carry a checksum that
      equals RFC 1071's and verifies at the receiver, and round-trip through the
      parser; the read loop reports exactly the first deciding packet.
    - Concurrency: the pipeline is first-in first-out and drains completely;
      Stop cannot hang on a worker; every result is accounted for in every
      execution, and one is dropped only when the channel is full; in calm
      executions no probe has two goroutines at work, not even across a reload,
      and its results are exported in the order its runs returned them; in calm
      executions main's shutdown order is safe and, in every interleaving without
      a further reload, main inevitably returns with
      everything accepted exported ([inevitably]: on all paths, with a bounded
      number of further ticks, and no state on the way is stuck).  [Boot] puts
      this together with the start-up into one theorem about the program.
    - Telemetry: the exporter registers exactly the instruments of
      docs/metrics.md; the gauges have the documented values for every result
      that keeps the probers' promise; series identify probes; the counters of
      the running program account for every result and for every failed export;
      the JSON records agree with the gauges; the documentation generator replaces its block only and is
      idempotent.
    - The HTTP server: /healthz degrades exactly above nine tenths of the
      channel; a reload applies completely or not at all, and the concurrent
      callback refines the sequential handler: in calm executions, through any
      number of reloads, the probes that run are those of the configuration GET /config shows, and the
      goroutine gauge counts them; the configuration dump parses back exactly for
      ICMP probes.
    - The smoke test: parsing a plain page in the text exposition format (no
      comma, quote, backslash, brace or line feed in a label value) gives back its
      series, and its two assertions mean what they say.
    - Defects, as theorems about the code as it is: the reload races at start-up
      and shutdown, the ticker panic of HTTP probes, the int64 overflow of the
      timing check, the nil dereference on a null global block, the blind port
      range of the SYN parser, the zone literals that are never probed, the
      fingerprint collision, the HTTPS status without loss, the labels that
      replace the identity of a series, the ignored CA file, the text lines that
      show unmeasured values, and the JSON output that never recovers from a
      failed write.

    ** Bounds and fuel

    Counts are below 2^53, where integers convert exactly to binary64 (a probe
    with more attempts cannot be configured to finish).  [foldSum] has fuel 3:
    two rounds fold any 32-bit sum ([foldSum_rep]).  The loops of the attempt,
    read and drain phases are structural or come with a decreasing measure.
    [ParseDuration] has one round of fuel per character, and every round
    consumes one; the smoke parser is structural on its text and its lines.
    Channel capacities are up to 2^50 in the health check.  Segment lengths
    are below 2^16, the largest an IPv4 packet can hold.

    ** Not modelled

    The text of JSON and YAML documents (JSON is modelled as values, YAML decoding
    and encoding are arguments); the text of log lines (which entries are written,
    at which level, is modelled where a handler or main writes them); the tracer
    provider, which main sets to a no-op; the socket and the serving loop of
    net/http (the server is up or down, and a handler is a function of the
    request); the tests and the container and build files.  Of the Go sources
    themselves only imports, comments and accessors that return one stored value
    have no definition of their own. *)

From stdpp Require Export base sets gmap strings list.
From Stdlib Require Export ZArith Lia.

#[global] Open Scope Z_scope.

(** ** Go outcomes

    A Go function that returns [(T, error)] either returns a value, returns a
    non-nil error, or panics (nil dereference, send on a closed channel, a
    ticker with a non-positive period ...).  [res E A] keeps the three apart. *)

Inductive go_panic :=
  | NilDereference
  | SendOnClosedChannel
  | CloseOfClosedChannel
  | NonPositiveTickerInterval
  | IndexOutOfRange.

#[global] Instance go_panic_eq_dec : EqDecision go_panic.
Proof. solve_decision. Defined.

Inductive res (E A : Type) :=
  | Ok (a : A)
  | Err (e : E)
  | Panic (p : go_panic).
Arguments Ok {E A} _.
Arguments Err {E A} _.
Arguments Panic {E A} _.

#[global] Instance res_ret {E} : MRet (res E) := fun A a => Ok a.

#[global] Instance res_bind {E} : MBind (res E) := fun A B k c =>
  match c with
  | Ok a => k a
  | Err e => Err e
  | Panic p => Panic p
  end.

(** [wrapErr w c] is [fmt.Errorf("...: %w", err)] applied to the error of [c]. *)
Definition wrapErr {E F A : Type} (w : E -> F) (c : res E A) : res F A :=
  match c with
  | Ok a => Ok a
  | Err e => Err (w e)
  | Panic p => Panic p
  end.

Definition is_ok {E A : Type} (c : res E A) : bool :=
  match c with Ok _ => true | _ => false end.

Declare Scope go_scope.
Delimit Scope go_scope with go.
#[global] Open Scope go_scope.

(** [if b { return err }; k] *)
Notation "'failif' b 'with' e ;; k" := (if b then Err e else k)
  (at level 100, b at level 99, e at level 99, k at level 200, right associativity,
   format "'[v' 'failif'  b  'with'  e ;;  '/' k ']'") : go_scope.

(** The loop [for _, x := range l { if err := f(x); err != nil { return err } }]. *)
Fixpoint forEach {E A : Type} (f : A -> res E unit) (l : list A) : res E unit :=
  match l with
  | [] => Ok ()
  | x :: l' => f x ≫= fun _ => forEach f l'
  end.

(** ** Machine integers *)

Definition wrap64 (z : Z) : Z := (z + 2 ^ 63) mod 2 ^ 64 - 2 ^ 63.
Definition uint8 (z : Z) : Z := z mod 2 ^ 8.
Definition uint16 (z : Z) : Z := z mod 2 ^ 16.
Definition uint32 (z : Z) : Z := z mod 2 ^ 32.
Definition in_int64 (z : Z) : Prop := - 2 ^ 63 <= z < 2 ^ 63.

(** ** Automation *)

Create HintDb trimon.

(** Break a hypothesis [c = Ok a] about a chain of binds and guards into the
    facts that let it succeed. *)
Ltac res_inv_step :=
  match goal with
  | H : Ok _ = Ok _ |- _ => injection H as H; try subst
  | H : Err _ = Err _ |- _ => injection H as H; try subst
  | H : Panic _ = Panic _ |- _ => injection H as H; try subst
  | H : Ok _ = Err _ |- _ => discriminate H
  | H : Ok _ = Panic _ |- _ => discriminate H
  | H : Err _ = Ok _ |- _ => discriminate H
  | H : Err _ = Panic _ |- _ => discriminate H
  | H : Panic _ = Ok _ |- _ => discriminate H
  | H : Panic _ = Err _ |- _ => discriminate H
  | H : (if ?b then _ else _) = _ |- _ => destruct b eqn:?
  | H : (?c ≫= _) = _ |- _ => unfold mbind, res_bind in H
  | H : mret _ = _ |- _ => unfold mret, res_ret in H
  | H : wrapErr _ ?c = _ |- _ => unfold wrapErr in H
  | H : match ?c with Ok _ => _ | Err _ => _ | Panic _ => _ end = _ |- _ =>
      destruct c eqn:?
  | H : match ?c with Some _ => _ | None => _ end = _ |- _ => destruct c eqn:?
  | H : match ?c with inl _ => _ | inr _ => _ end = _ |- _ => destruct c eqn:?
  | H : match ?c with (_, _) => _ end = _ |- _ => destruct c eqn:?
  end.
Ltac res_inv := repeat (res_inv_step; try done).

(** Case analysis on the first [if] of the goal. *)
Ltac goal_if :=
  match goal with
  | |- context [if ?b then _ else _] =>
      lazymatch b with context [if _ then _ else _] => fail | _ => destruct b eqn:? end
  end.

(** Turn boolean comparisons in hypotheses into propositions for [lia]. *)
Ltac bool_prop :=
  repeat match goal with
  | H : (_ <=? _)%Z = true |- _ => apply Z.leb_le in H
  | H : (_ <=? _)%Z = false |- _ => apply Z.leb_gt in H
  | H : (_ <? _)%Z = true |- _ => apply Z.ltb_lt in H
  | H : (_ <? _)%Z = false |- _ => apply Z.ltb_ge in H
  | H : (_ =? _)%Z = true |- _ => apply Z.eqb_eq in H
  | H : (_ =? _)%Z = false |- _ => apply Z.eqb_neq in H
  | H : (_ =? _)%string = true |- _ => apply String.eqb_eq in H
  | H : (_ =? _)%string = false |- _ => apply String.eqb_neq in H
  | H : (_ && _)%bool = true |- _ => apply andb_true_iff in H as [? ?]
  | H : (_ || _)%bool = false |- _ => apply orb_false_iff in H as [? ?]
  | H : negb _ = true |- _ => apply negb_true_iff in H
  | H : negb _ = false |- _ => apply negb_false_iff in H
  | H : bool_decide _ = true |- _ => apply bool_decide_eq_true_1 in H
  | H : bool_decide _ = false |- _ => apply bool_decide_eq_false_1 in H
  end.

(** ** Facts about outcomes *)

Lemma wrapErr_ok {E F A} (w : E -> F) (c : res E A) a :
  wrapErr w c = Ok a <-> c = Ok a.
Proof. destruct c; simpl; split; congruence. Qed.

Lemma forEach_ok {E A} (f : A -> res E unit) (l : list A) :
  forEach f l = Ok () <-> Forall (fun x => f x = Ok ()) l.
Proof.
  induction l as [|x l IH]; simpl; [done|].
  unfold mbind, res_bind. rewrite Forall_cons.
  destruct (f x) as [[]| |] eqn:?; rewrite ?IH; split; [done| | | | |]; intros; naive_solver.
Qed.

(** ** Computations that cannot panic *)

Definition no_panic {E A} (c : res E A) : Prop := forall p, c <> Panic p.

Lemma no_panic_ok {E A} (a : A) : no_panic (E := E) (Ok a).
Proof. done. Qed.
Lemma no_panic_err {E A} (e : E) : no_panic (A := A) (Err e).
Proof. done. Qed.
Lemma no_panic_bind {E A B} (c : res E A) (k : A -> res E B) :
  no_panic c -> (forall a, no_panic (k a)) -> no_panic (c ≫= k).
Proof. intros H Hk p. destruct c; simpl; [apply Hk|done|]. intros [= ->]. by apply (H p). Qed.
Lemma no_panic_wrap {E F A} (w : E -> F) (c : res E A) : no_panic c -> no_panic (wrapErr w c).
Proof. intros H p. destruct c; simpl; [done..|]. intros [= ->]. by apply (H p). Qed.
Lemma no_panic_forEach {E A} (f : A -> res E unit) l :
  (forall x, no_panic (f x)) -> no_panic (forEach f l).
Proof. intros H. induction l; simpl; [done|]. by apply no_panic_bind. Qed.
Lemma no_panic_if {E A} (b : bool) (c d : res E A) : no_panic c -> no_panic d -> no_panic (if b then c else d).
Proof. by destruct b. Qed.

Create HintDb nopanic.
#[export] Hint Resolve no_panic_ok no_panic_err no_panic_bind no_panic_wrap
  no_panic_forEach no_panic_if : nopanic.

(** Case analysis down to constructors, for validators without loops. *)
Ltac solve_no_panic :=
  repeat first [ progress intros
               | progress auto with nopanic
               | apply no_panic_bind
               | apply no_panic_wrap
               | apply no_panic_forEach
               | progress case_match ].

(** ** Facts about machine integers *)

Lemma wrap64_id z : in_int64 z -> wrap64 z = z.
Proof. unfold in_int64, wrap64. intros. rewrite Z.mod_small; lia. Qed.

Lemma wrap64_range z : in_int64 (wrap64 z).
Proof.
  unfold in_int64, wrap64.
  pose proof (Z.mod_pos_bound (z + 2 ^ 63) (2 ^ 64)). lia.
Qed.

Lemma uint8_id z : 0 <= z < 2 ^ 8 -> uint8 z = z.
Proof. apply Z.mod_small. Qed.
Lemma uint16_id z : 0 <= z < 2 ^ 16 -> uint16 z = z.
Proof. apply Z.mod_small. Qed.
Lemma uint32_id z : 0 <= z < 2 ^ 32 -> uint32 z = z.
Proof. apply Z.mod_small. Qed.

Lemma uint8_range z : 0 <= uint8 z < 2 ^ 8.
Proof. apply Z.mod_pos_bound. lia. Qed.
Lemma uint16_range z : 0 <= uint16 z < 2 ^ 16.
Proof. apply Z.mod_pos_bound. lia. Qed.
Lemma uint32_range z : 0 <= uint32 z < 2 ^ 32.
Proof. apply Z.mod_pos_bound. lia. Qed.

#[export] Hint Resolve wrap64_range uint8_range uint16_range uint32_range : trimon.

(** ** Inevitability *)

Section Inevitable.
Context {A : Type} (R : A -> A -> Prop).

(** Every path of [R]-moves from [a] gets to [Q], and none gets stuck before. *)
Inductive inevitably (Q : A -> Prop) (a : A) : Prop :=
  | inev_done : Q a -> inevitably Q a
  | inev_step : (exists b, R a b) -> (forall b, R a b -> inevitably Q b) -> inevitably Q a.

(** An invariant under which some move is possible until [Q] holds and every move
    goes down a well-founded order makes [Q] inevitable. *)
Lemma inevitably_wf (I Q : A -> Prop) (lt : A -> A -> Prop) :
  well_founded lt -> (forall a, I a -> Q a \/ exists b, R a b) ->
  (forall a b, I a -> R a b -> I b /\ lt b a) -> forall a, I a -> inevitably Q a.
Proof.
  intros Hwf Hp Hs a. induction (Hwf a) as [a _ IH]. intros Ha.
  destruct (Hp a Ha) as [HQ|Hb]; [by apply inev_done|]. apply inev_step; [done|].
  intros b Hb'. destruct (Hs a b Ha Hb'). by apply IH.
Qed.

Lemma inevitably_impl (Q Q' : A -> Prop) a : (forall b, Q b -> Q' b) -> inevitably Q a -> inevitably Q' a.
Proof. intros HQ. induction 1; eauto using inev_done, inev_step. Qed.
End Inevitable.
