(* ===== verification/GoStrings.v ===== *)
(** * The parts of Go's [strings], [bytes], [strconv] and [path/filepath] that
    the program calls.

    A Go string is a sequence of bytes: Rocq's [string] over [ascii] is exactly
    that.  The Unicode tables behind [strings.ToUpper], [strings.ToLower] and
    [strings.EqualFold] and the %q verb are consulted only when a byte above
    0x7F occurs; they are the fields of [UnicodeTables], an argument of the
    functions. *)

From S2P Require Import Prelude.
From Stdlib Require Import Ascii.

Definition code (c : ascii) : Z := Z.of_N (N_of_ascii c).
Definition chr (z : Z) : ascii := ascii_of_N (Z.to_N z).

(** Go's [len(s)]. *)
Definition len (s : string) : Z := Z.of_nat (String.length s).

Fixpoint existsb_str (p : ascii -> bool) (s : string) : bool :=
  match s with
  | EmptyString => false
  | String c s' => p c || existsb_str p s'
  end.

Definition forallb_str (p : ascii -> bool) (s : string) : bool :=
  negb (existsb_str (fun c => negb (p c)) s).

Definition contains_char (c : ascii) (s : string) : bool := existsb_str (Ascii.eqb c) s.

(** [strings.ContainsAny(s, chars)] for ASCII [chars]. *)
Definition ContainsAny (s chars : string) : bool :=
  existsb_str (fun c => contains_char c chars) s.

(** [strings.HasPrefix] *)
Fixpoint HasPrefix (s prefix : string) {struct prefix} : bool :=
  match prefix, s with
  | EmptyString, _ => true
  | String p prefix', String c s' => Ascii.eqb p c && HasPrefix s' prefix'
  | String _ _, EmptyString => false
  end.

Fixpoint take (n : nat) (s : string) : string :=
  match n, s with
  | S n', String c s' => String c (take n' s')
  | _, _ => EmptyString
  end.

Fixpoint drop (n : nat) (s : string) : string :=
  match n, s with
  | S n', String _ s' => drop n' s'
  | _, _ => s
  end.

(** [strings.TrimSuffix(s, suffix)] *)
Definition TrimSuffix (s suffix : string) : string :=
  let k := (String.length s - String.length suffix)%nat in
  if (String.length suffix <=? String.length s)%nat && (drop k s =? suffix)%string
  then take k s else s.

(** [filepath.Ext]: the suffix from the last dot of the last path element. *)
Fixpoint ext_from (s : string) (cur : option string) : string :=
  match s with
  | EmptyString => match cur with Some e => e | None => EmptyString end
  | String c s' =>
      if Ascii.eqb c "."%char then ext_from s' (Some s)
      else if Ascii.eqb c "/"%char then ext_from s' None
      else ext_from s' cur
  end.
Definition Ext (path : string) : string := ext_from path None.

(** [strings.Join] *)
Fixpoint Join (l : list string) (sep : string) : string :=
  match l with
  | [] => EmptyString
  | [s] => s
  | s :: l' => s +:+ sep +:+ Join l' sep
  end.

(** ** Case mapping *)

Record UnicodeTables := {
  mapUpper : string -> string;          (* strings.Map(unicode.ToUpper, s) *)
  mapLower : string -> string;          (* strings.Map(unicode.ToLower, s) *)
  foldEqual : string -> string -> bool; (* the simple-folding loop of EqualFold *)
  quoteRunes : string -> string         (* strconv.Quote of a string with runes above 0x7F *)
}.

Definition isASCII (c : ascii) : bool := code c <? 128.
Definition toUpperASCII (c : ascii) : ascii :=
  if (97 <=? code c) && (code c <=? 122) then chr (code c - 32) else c.
Definition toLowerASCII (c : ascii) : ascii :=
  if (65 <=? code c) && (code c <=? 90) then chr (code c + 32) else c.

Fixpoint map_str (f : ascii -> ascii) (s : string) : string :=
  match s with
  | EmptyString => EmptyString
  | String c s' => String (f c) (map_str f s')
  end.

Definition ToUpper (u : UnicodeTables) (s : string) : string :=
  if forallb_str isASCII s then map_str toUpperASCII s else mapUpper u s.
Definition ToLower (u : UnicodeTables) (s : string) : string :=
  if forallb_str isASCII s then map_str toLowerASCII s else mapLower u s.

(** [strings.EqualFold]: the ASCII fast path, leaving for the folding tables at
    the first position where either string has a non-ASCII byte. *)
Fixpoint EqualFold (u : UnicodeTables) (s t : string) : bool :=
  match s, t with
  | EmptyString, EmptyString => true
  | String c s', String d t' =>
      if negb (isASCII c && isASCII d) then foldEqual u s t
      else if Ascii.eqb c d then EqualFold u s' t'
      else
        let lo := Z.min (code c) (code d) in
        let hi := Z.max (code c) (code d) in
        if (65 <=? lo) && (lo <=? 90) && (hi =? lo + 32) then EqualFold u s' t' else false
  | _, _ => false
  end.

(** ** [strconv.Itoa] *)

Fixpoint digits_fuel (fuel : nat) (n : Z) (acc : string) : string :=
  match fuel with
  | O => acc
  | S fuel' =>
      let acc' := String (chr (48 + n mod 10)) acc in
      if n / 10 =? 0 then acc' else digits_fuel fuel' (n / 10) acc'
  end.
Definition Itoa (n : Z) : string :=
  if n <? 0 then "-" +:+ digits_fuel (S (Z.to_nat (Z.log2 (- n)))) (- n) ""
  else digits_fuel (S (Z.to_nat (Z.log2 n))) n "".

(** ** The %q verb ([strconv.Quote]) *)

Definition hexDigit (n : Z) : ascii := chr (if n <? 10 then 48 + n else 87 + n).

Definition quoteChar (c : ascii) : string :=
  let z := code c in
  let esc (d : ascii) := String "\"%char (String d "") in
  if z =? 34 then esc c
  else if z =? 92 then esc c
  else if (32 <=? z) && (z <? 127) then String c ""
  else if z =? 7 then esc "a"%char
  else if z =? 8 then esc "b"%char
  else if z =? 12 then esc "f"%char
  else if z =? 10 then esc "n"%char
  else if z =? 13 then esc "r"%char
  else if z =? 9 then esc "t"%char
  else if z =? 11 then esc "v"%char
  else String "\"%char (String "x"%char (String (hexDigit (z / 16)) (String (hexDigit (z mod 16)) ""))).

Fixpoint quoteBody (s : string) : string :=
  match s with
  | EmptyString => EmptyString
  | String c s' => quoteChar c +:+ quoteBody s'
  end.

Definition Quote (u : UnicodeTables) (s : string) : string :=
  if forallb_str isASCII s
  then String (chr 34) (quoteBody s +:+ String (chr 34) "")
  else quoteRunes u s.

(** ** Facts *)

Lemma existsb_str_spec p s :
  existsb_str p s = true <-> exists c, c ∈ String.list_ascii_of_string s /\ p c = true.
Proof.
  induction s as [|c s IH]; simpl.
  - split; [done|]. intros (c & Hc & _). by apply not_elem_of_nil in Hc.
  - rewrite orb_true_iff, IH. setoid_rewrite elem_of_cons. naive_solver.
Qed.

Lemma forallb_str_spec p s :
  forallb_str p s = true <-> Forall (fun c => p c = true) (String.list_ascii_of_string s).
Proof.
  unfold forallb_str. rewrite negb_true_iff, <- not_true_iff_false, existsb_str_spec.
  rewrite Forall_forall. split.
  - intros H c Hc. destruct (p c) eqn:E; [done|]. destruct H. exists c. split; [done|]. by rewrite E.
  - intros H (c & Hc & E). by rewrite (H c Hc) in E.
Qed.

Lemma HasPrefix_spec s p : HasPrefix s p = true <-> exists t, s = p +:+ t.
Proof.
  revert s. induction p as [|c p IH]; intros s; simpl; [split; [by eexists|done]|].
  destruct s as [|d s].
  - split; [done|]. intros [? ?]; discriminate.
  - rewrite andb_true_iff, Ascii.eqb_eq, IH. split.
    + intros [-> [t ->]]. eauto.
    + intros [t [= -> ->]]. eauto.
Qed.

Lemma app_assoc_str (a b c : string) : (a +:+ b) +:+ c = a +:+ (b +:+ c).
Proof. induction a as [|x a IH]; [done|]. exact (f_equal (String x) IH). Qed.

Lemma HasPrefix_app (p t : string) : HasPrefix (p +:+ t) p = true.
Proof. apply HasPrefix_spec. eauto. Qed.

Lemma HasPrefix_refl s : HasPrefix s s = true.
Proof. induction s; simpl; [done|]. by rewrite Ascii.eqb_refl. Qed.

Lemma EqualFold_refl u s :
  forallb_str isASCII s = true -> EqualFold u s s = true.
Proof.
  rewrite forallb_str_spec. induction s as [|c s IH]; simpl; [done|].
  rewrite Forall_cons. intros [-> ?]. rewrite Ascii.eqb_refl. simpl. auto.
Qed.

#[export] Hint Resolve HasPrefix_refl : trimon.

Example Itoa_8080 : Itoa 8080 = "8080". Proof. reflexivity. Qed.
Example Itoa_0 : Itoa 0 = "0". Proof. reflexivity. Qed.
Example Ext_tar : Ext "a/b.c/x.tar.gz" = ".gz". Proof. reflexivity. Qed.
Example Ext_none : Ext "a.b/c" = "". Proof. reflexivity. Qed.
