(* ===== verification/GoNet.v ===== *)
(** * The parts of Go's [net] package that are pure functions of their input:
    textual IP addresses, [IP.To4], [IP.Equal], [IP.String] for IPv4 and
    [JoinHostPort].

    [ParseIP] follows [net/netip.ParseAddr]: the first '.', ':' or '%' of the
    text selects the IPv4 or the IPv6 parser, an IPv6 zone makes the result
    nil, and an IPv4 address is stored in its 16-byte mapped form.  An [IP] is
    the list of its bytes; a nil [IP] is [None]. *)

From S2P Require Import Prelude.
From S2P Require Import GoStrings.
From Stdlib Require Import Ascii.

Abbreviation IP := (list Z).

(** ** IPv4 text *)

(** The loop of [parseIPv4Fields]: [val] and [digLen] describe the current
    octet, [fields] the completed ones (latest first). *)
Fixpoint parseIPv4_loop (s : string) (val digLen : Z) (fields : list Z) : option (list Z) :=
  match s with
  | EmptyString =>
      if (digLen =? 0) then None
      else if (length fields =? 3)%nat then Some (reverse (val :: fields)) else None
  | String c s' =>
      if (48 <=? code c) && (code c <=? 57) then
        if (digLen =? 1) && (val =? 0) then None
        else
          let val' := val * 10 + (code c - 48) in
          if 255 <? val' then None else parseIPv4_loop s' val' (digLen + 1) fields
      else if Ascii.eqb c "."%char then
        if digLen =? 0 then None
        else if (length fields =? 3)%nat then None
        else parseIPv4_loop s' 0 0 (val :: fields)
      else None
  end.
Definition parseIPv4 (s : string) : option (list Z) := parseIPv4_loop s 0 0 [].

(** ** IPv6 text *)

Definition hexVal (c : ascii) : option Z :=
  let z := code c in
  if (48 <=? z) && (z <=? 57) then Some (z - 48)
  else if (97 <=? z) && (z <=? 102) then Some (z - 87)
  else if (65 <=? z) && (z <=? 70) then Some (z - 55)
  else None.

(** The inner loop over one hex group: its value, the number of digits read and
    the rest of the text; [None] when the group has more than four digits. *)
Fixpoint hexGroup (s : string) (off : Z) (acc : Z) : option (Z * Z * string) :=
  match s with
  | EmptyString => Some (acc, off, s)
  | String c s' =>
      match hexVal c with
      | None => Some (acc, off, s)
      | Some d => if 3 <? off then None else hexGroup s' (off + 1) (acc * 16 + d)
      end
  end.

(** The outer loop of [parseIPv6].  [bytes] are the bytes parsed so far,
    [ellipsis] the position of "::" if seen.  Eight rounds fill sixteen bytes,
    so a fuel of nine never runs out. *)
Fixpoint parseIPv6_loop (fuel : nat) (s : string) (bytes : list Z) (ellipsis : option nat)
  : option (list Z * option nat * string) :=
  match fuel with
  | O => Some (bytes, ellipsis, s)
  | S fuel' =>
    if (16 <=? length bytes)%nat then Some (bytes, ellipsis, s) else
    match hexGroup s 0 0 with
    | None => None
    | Some (acc, off, rest) =>
      if off =? 0 then None
      else match rest with
      | EmptyString => Some (bytes ++ [acc / 256; acc mod 256], ellipsis, EmptyString)
      | String c rest' =>
        if Ascii.eqb c "."%char then
          if (match ellipsis with None => negb (length bytes =? 12)%nat | _ => false end) then None
          else if (16 <? length bytes + 4)%nat then None
          else match parseIPv4 s with
               | None => None
               | Some v4 => Some (bytes ++ v4, ellipsis, EmptyString)
               end
        else if negb (Ascii.eqb c ":"%char) then None
        else
          let bytes' := bytes ++ [acc / 256; acc mod 256] in
          match rest' with
          | EmptyString => None
          | String c2 rest'' =>
            if Ascii.eqb c2 ":"%char then
              match ellipsis with
              | Some _ => None
              | None =>
                  match rest'' with
                  | EmptyString => Some (bytes', Some (length bytes'), EmptyString)
                  | _ => parseIPv6_loop fuel' rest'' bytes' (Some (length bytes'))
                  end
              end
            else parseIPv6_loop fuel' rest' bytes' ellipsis
          end
      end
    end
  end.

Definition expandEllipsis (bytes : list Z) (e : nat) : list Z :=
  firstn e bytes ++ replicate (16 - length bytes) 0 ++ skipn e bytes.

Definition parseIPv6 (s : string) : option (list Z) :=
  let finish (r : option (list Z * option nat * string)) :=
    match r with
    | Some (bytes, ellipsis, EmptyString) =>
        if (length bytes <? 16)%nat then
          match ellipsis with
          | Some e => Some (expandEllipsis bytes e)
          | None => None
          end
        else match ellipsis with Some _ => None | None => Some bytes end
    | _ => None
    end in
  match s with
  | String c (String d s') =>
      if Ascii.eqb c ":"%char && Ascii.eqb d ":"%char then
        match s' with
        | EmptyString => Some (replicate 16 0)
        | _ => finish (parseIPv6_loop 9 s' [] (Some 0%nat))
        end
      else finish (parseIPv6_loop 9 s [] None)
  | _ => finish (parseIPv6_loop 9 s [] None)
  end.

(** ** [net.ParseIP] *)

Definition v4InV6Prefix : list Z := replicate 10 0 ++ [255; 255].

Fixpoint selectParser (s whole : string) : option (list Z) :=
  match s with
  | EmptyString => None
  | String c s' =>
      if Ascii.eqb c "."%char then
        match parseIPv4 whole with Some v4 => Some (v4InV6Prefix ++ v4) | None => None end
      else if Ascii.eqb c ":"%char then
        (* an address with a zone is valid for netip but nil for net.ParseIP *)
        if contains_char "%"%char whole then None else parseIPv6 whole
      else if Ascii.eqb c "%"%char then None
      else selectParser s' whole
  end.
Definition ParseIP (s : string) : option IP := selectParser s s.

(** [IP.To4] (of a nil IP too). *)
Definition To4 (ip : option IP) : option IP :=
  match ip with
  | None => None
  | Some b =>
      if (length b =? 4)%nat then Some b
      else if (length b =? 16)%nat && bool_decide (firstn 12 b = v4InV6Prefix)
      then Some (skipn 12 b) else None
  end.

(** [IP.Equal]: an IPv4 address and its IPv6-mapped form are equal. *)
Definition ipEqual (a b : option IP) : bool :=
  match a, b with
  | None, None => true
  | Some x, Some y =>
      if (length x =? length y)%nat then bool_decide (x = y)
      else if (length x =? 4)%nat && (length y =? 16)%nat
      then bool_decide (firstn 12 y = v4InV6Prefix) && bool_decide (x = skipn 12 y)
      else if (length x =? 16)%nat && (length y =? 4)%nat
      then bool_decide (firstn 12 x = v4InV6Prefix) && bool_decide (skipn 12 x = y)
      else false
  | _, _ => false
  end.

(** [IP.String] of a 4-byte address. *)
Definition ip4String (ip : IP) : string := Join (Itoa <$> ip) ".".

(** [IP.String]: dotted quad for an IPv4 (or mapped) address, the RFC 5952 form
    for IPv6, "<nil>" for nil and "?hex" for any other length. *)
Fixpoint hexDigits (fuel : nat) (n : Z) (acc : string) : string :=
  match fuel with
  | O => acc
  | S f => let acc' := String (hexDigit (n mod 16)) acc in
           if n / 16 =? 0 then acc' else hexDigits f (n / 16) acc'
  end.

Definition group (b : list Z) (i : nat) : Z := nth (2 * i) b 0 * 256 + nth (2 * i + 1) b 0.

Fixpoint zeroRun (fuel : nat) (b : list Z) (j : nat) : nat :=
  match fuel with
  | O => j
  | S f => if (j <? 8)%nat && (group b j =? 0) then zeroRun f b (S j) else j
  end.

(** The leftmost longest run of at least two zero groups. *)
Definition longestZeros (b : list Z) : nat * nat :=
  foldl (fun best i =>
    let j := zeroRun 8 b i in
    if (2 <=? j - i)%nat && (snd best - fst best <? j - i)%nat then (i, j) else best)
  (255, 255)%nat (seq 0 8).

Fixpoint printGroups (fuel : nat) (b : list Z) (zs ze i : nat) : string :=
  match fuel with
  | O => ""
  | S f =>
      if (8 <=? i)%nat then ""
      else if (i =? zs)%nat then
        "::" +:+ (if (8 <=? ze)%nat then ""
                  else hexDigits 4 (group b ze) "" +:+ printGroups f b zs ze (S ze))
      else (if (0 <? i)%nat then ":" else "") +:+ hexDigits 4 (group b i) "" +:+ printGroups f b zs ze (S i)
  end.

Fixpoint hexBytes (b : list Z) : string :=
  match b with
  | [] => ""
  | x :: b' => String (hexDigit (x / 16)) (String (hexDigit (x mod 16)) (hexBytes b'))
  end.

Definition ipString (ip : option IP) : string :=
  match ip with
  | None | Some [] => "<nil>"
  | Some b =>
      match To4 ip with
      | Some p4 => ip4String p4
      | None =>
          if (length b =? 16)%nat then
            let '(zs, ze) := longestZeros b in printGroups 9 b zs ze 0
          else "?" +:+ hexBytes b
      end
  end.
#[global] Arguments ipString : simpl never.

(** [net.JoinHostPort]: an IPv6 literal (anything with a colon) is bracketed. *)
Definition JoinHostPort (host port : string) : string :=
  if contains_char ":"%char host then "[" +:+ host +:+ "]:" +:+ port
  else host +:+ ":" +:+ port.

(** ** Facts *)

Definition is_byte (z : Z) : Prop := 0 <= z < 256.

Lemma parseIPv4_loop_bytes s val digLen fields v4 :
  0 <= val <= 255 -> Forall is_byte fields ->
  parseIPv4_loop s val digLen fields = Some v4 ->
  length v4 = 4%nat /\ Forall is_byte v4.
Proof.
  revert val digLen fields. induction s as [|c s IH]; intros val digLen fields Hv Hf; simpl.
  - repeat goal_if; try done. intros [= <-]. bool_prop.
    rewrite length_reverse. simpl. split; [by f_equal; apply Nat.eqb_eq|].
    rewrite Forall_reverse. constructor; [unfold is_byte; lia|done].
  - repeat goal_if; try done; bool_prop; apply IH; try lia; try done.
    constructor; [unfold is_byte; lia|done].
Qed.

Lemma parseIPv4_bytes s v4 :
  parseIPv4 s = Some v4 -> length v4 = 4%nat /\ Forall is_byte v4.
Proof. apply parseIPv4_loop_bytes; [lia|done]. Qed.

Lemma ipEqual_refl ip : ipEqual ip ip = true.
Proof. destruct ip; simpl; [|done]. by rewrite Nat.eqb_refl, bool_decide_true. Qed.

Example ParseIP_v4 : ParseIP "192.0.2.1" = Some (v4InV6Prefix ++ [192; 0; 2; 1]).
Proof. reflexivity. Qed.
Example ParseIP_v6 :
  ParseIP "2001:db8::1" = Some [32; 1; 13; 184; 0; 0; 0; 0; 0; 0; 0; 0; 0; 0; 0; 1].
Proof. reflexivity. Qed.
Example ParseIP_mapped : To4 (ParseIP "::ffff:192.0.2.1") = Some [192; 0; 2; 1].
Proof. reflexivity. Qed.
Example ParseIP_leading_zero : ParseIP "192.0.02.1" = None. Proof. reflexivity. Qed.
Example ParseIP_host : ParseIP "example.com" = None. Proof. reflexivity. Qed.
Example ParseIP_zone : ParseIP "fe80::1%eth0" = None. Proof. reflexivity. Qed.
Example ParseIP_short : ParseIP "1.2.3" = None. Proof. reflexivity. Qed.
Example ParseIP_full : ParseIP "1:2:3:4:5:6:7:8" =
  Some [0; 1; 0; 2; 0; 3; 0; 4; 0; 5; 0; 6; 0; 7; 0; 8]. Proof. reflexivity. Qed.
Example ParseIP_ellipsis_full : ParseIP "1:2:3:4:5:6:7::" =
  Some [0; 1; 0; 2; 0; 3; 0; 4; 0; 5; 0; 6; 0; 7; 0; 0]. Proof. reflexivity. Qed.
Example ParseIP_too_many : ParseIP "1:2:3:4:5:6:7:8:9" = None. Proof. reflexivity. Qed.
Example ip4String_ex : ip4String [192; 0; 2; 1] = "192.0.2.1". Proof. reflexivity. Qed.
Example JoinHostPort_v6 : JoinHostPort "::1" "53" = "[::1]:53". Proof. reflexivity. Qed.
Example ipString_v6 : ipString (ParseIP "2001:db8:0:0:1:0:0:1") = "2001:db8::1:0:0:1".
Proof. reflexivity. Qed.
Example ipString_loopback : ipString (ParseIP "::1") = "::1". Proof. reflexivity. Qed.
Example ipString_zero : ipString (ParseIP "::") = "::". Proof. reflexivity. Qed.
Example ipString_tail : ipString (ParseIP "fe80::") = "fe80::". Proof. reflexivity. Qed.
Example ipString_v4 : ipString (ParseIP "192.0.2.1") = "192.0.2.1". Proof. reflexivity. Qed.
