(* ===== verification/GoBytes.v ===== *)
(** * Byte slices and [encoding/binary.BigEndian].

    A byte slice is a list of integers in [0, 256). *)

From S2P Require Import Prelude.
From S2P Require Import GoNet.
From Stdlib Require Import Zbitwise.

Definition PutUint16 (v : Z) : list Z := [uint8 (Z.shiftr v 8); uint8 v].
Definition PutUint32 (v : Z) : list Z :=
  [uint8 (Z.shiftr v 24); uint8 (Z.shiftr v 16); uint8 (Z.shiftr v 8); uint8 v].

(** [b[i]]; the callers check the length first. *)
Definition byteAt (b : list Z) (i : nat) : Z := nth i b 0.
Definition slice (b : list Z) (lo hi : nat) : list Z := firstn (hi - lo) (skipn lo b).

Definition Uint16 (b : list Z) : Z := Z.lor (byteAt b 1) (Z.shiftl (byteAt b 0) 8).
Definition Uint32 (b : list Z) : Z :=
  Z.lor (Z.lor (byteAt b 3) (Z.shiftl (byteAt b 2) 8))
        (Z.lor (Z.shiftl (byteAt b 1) 16) (Z.shiftl (byteAt b 0) 24)).

Definition bytes (b : list Z) : Prop := Forall is_byte b.

(** Disjoint bits add up. *)
Lemma lor_add_disjoint a b n :
  0 <= n -> 0 <= a < 2 ^ n -> Z.lor a (Z.shiftl b n) = a + b * 2 ^ n.
Proof.
  intros Hn Ha. rewrite <- Z.shiftl_mul_pow2 by done. rewrite <- Z.add_lor_land.
  replace (Z.land a (Z.shiftl b n)) with 0; [lia|]. symmetry. apply Z.bits_inj'. intros i Hi.
  rewrite Z.land_spec, Z.bits_0, Z.shiftl_spec by done.
  destruct (Z.lt_ge_cases i n).
  - rewrite (Z.testbit_neg_r b) by lia. apply andb_false_r.
  - replace (Z.testbit a i) with false; [done|]. symmetry.
    destruct (decide (a = 0)) as [->|]; [apply Z.bits_0|].
    apply Z.bits_above_log2; [lia|]. apply Z.log2_lt_pow2; [lia|].
    apply Z.lt_le_trans with (2 ^ n); [lia|]. by apply Z.pow_le_mono_r; lia.
Qed.

Lemma is_byte_uint8 z : is_byte (uint8 z).
Proof. apply uint8_range. Qed.

Lemma Uint16_PutUint16 v rest : Uint16 (PutUint16 v ++ rest) = uint16 v.
Proof.
  unfold Uint16, PutUint16, byteAt. simpl.
  rewrite lor_add_disjoint by (try lia; apply uint8_range).
  unfold uint8, uint16. rewrite Z.shiftr_div_pow2 by lia.
  change (2 ^ 16) with (2 ^ 8 * 2 ^ 8). rewrite Z.rem_mul_r by lia. lia.
Qed.

Lemma Uint32_PutUint32 v rest : Uint32 (PutUint32 v ++ rest) = uint32 v.
Proof.
  unfold Uint32, PutUint32, byteAt. simpl.
  pose proof (uint8_range v). pose proof (uint8_range (Z.shiftr v 8)).
  pose proof (uint8_range (Z.shiftr v 16)). pose proof (uint8_range (Z.shiftr v 24)).
  rewrite lor_add_disjoint by lia.
  replace (Z.lor (Z.shiftl (uint8 (Z.shiftr v 16)) 16) (Z.shiftl (uint8 (Z.shiftr v 24)) 24))
    with (Z.shiftl (uint8 (Z.shiftr v 16) + uint8 (Z.shiftr v 24) * 2 ^ 8) 16).
  2: { rewrite <- lor_add_disjoint, Z.shiftl_lor, Z.shiftl_shiftl by lia. done. }
  rewrite lor_add_disjoint by lia. unfold uint8, uint32. rewrite !Z.shiftr_div_pow2 by lia.
  change (2 ^ 32) with (2 ^ 8 * (2 ^ 8 * (2 ^ 8 * 2 ^ 8))). rewrite !Z.rem_mul_r by lia.
  rewrite !Z.div_div by lia. change (2 ^ 8 * 2 ^ 8 * 2 ^ 8) with (2 ^ 24).
  change (2 ^ 8 * 2 ^ 8) with (2 ^ 16).
  generalize (v / 2 ^ 24), (v / 2 ^ 16), (v / 2 ^ 8). intros. lia.
Qed.

(** A 16-bit word of two bytes. *)
Lemma Uint16_bytes a b : is_byte a -> is_byte b -> Uint16 [a; b] = a * 256 + b.
Proof. intros Ha Hb. unfold Uint16, byteAt. simpl. rewrite lor_add_disjoint by (unfold is_byte in *; lia). lia. Qed.

Lemma Uint16_range a b : is_byte a -> is_byte b -> 0 <= Uint16 [a; b] < 2 ^ 16.
Proof. intros Ha Hb. rewrite Uint16_bytes by done. unfold is_byte in *. lia. Qed.
