(* ===== verification/Float64.v ===== *)
(** * IEEE-754 binary64, the type behind Go's [float64].

    The operations are those of the Standard Library's [SpecFloat] at
    [prec = 53], [emax = 1024]: executable functions on integers with
    round-to-nearest-even, infinities, signed zeros and NaN, the arithmetic a
    Go [float64] has on the supported targets.  The second half of the file
    proves the facts the clients need: rounding never crosses a representable
    number, it is monotone, and comparisons follow the values. *)

From S2P Require Import Prelude.
From Stdlib Require Export SpecFloat.

Abbreviation float64 := spec_float.

Definition prec : Z := 53.
Definition emax : Z := 1024.

Definition fadd : float64 -> float64 -> float64 := SFadd prec emax.
Definition fsub : float64 -> float64 -> float64 := SFsub prec emax.
Definition fmul : float64 -> float64 -> float64 := SFmul prec emax.
Definition fdiv : float64 -> float64 -> float64 := SFdiv prec emax.
Definition fsqrt : float64 -> float64 := SFsqrt prec emax.

(** Go's [==], [<], [<=] on floats: all false when an operand is NaN. *)
Definition feqb : float64 -> float64 -> bool := SFeqb.
Definition fltb : float64 -> float64 -> bool := SFltb.
Definition fleb : float64 -> float64 -> bool := SFleb.

(** The conversion [float64(i)] of an integer. *)
Definition f64 (z : Z) : float64 := binary_normalize prec emax z 0 false.

#[global] Arguments fadd : simpl never.
#[global] Arguments fsub : simpl never.
#[global] Arguments fmul : simpl never.
#[global] Arguments fdiv : simpl never.
#[global] Arguments fsqrt : simpl never.
#[global] Arguments f64 : simpl never.

Definition NaN : float64 := S754_nan.

Definition isNaN (x : float64) : bool :=
  match x with S754_nan => true | _ => false end.

#[global] Instance float64_eq_dec : EqDecision float64.
Proof. solve_decision. Defined.

Example f64_third : fmul (fdiv (f64 1) (f64 3)) (f64 3) = f64 1. Proof. reflexivity. Qed.
Example f64_tenths : feqb (fadd (fdiv (f64 1) (f64 10)) (fdiv (f64 2) (f64 10)))
                          (fdiv (f64 3) (f64 10)) = false. Proof. reflexivity. Qed.

(** ** Digits *)

Abbreviation dg := digits2_pos.

Lemma digits2_pos_bounds p :
  2 ^ (Z.pos (dg p) - 1) <= Z.pos p < 2 ^ Z.pos (dg p).
Proof.
  induction p as [p IH|p IH|]; simpl; [| |lia].
  all: rewrite Pos2Z.inj_succ; replace (Z.succ (Z.pos (dg p)) - 1) with (Z.pos (dg p) - 1 + 1) by lia;
       unfold Z.succ; rewrite !Z.pow_add_r by lia; lia.
Qed.

Lemma digits2_pos_unique p d :
  0 < d -> 2 ^ (d - 1) <= Z.pos p < 2 ^ d -> Z.pos (dg p) = d.
Proof.
  intros Hd [H1 H2]. destruct (digits2_pos_bounds p) as [H3 H4].
  assert (2 ^ (d - 1) < 2 ^ Z.pos (dg p)) as Ha by lia.
  assert (2 ^ (Z.pos (dg p) - 1) < 2 ^ d) as Hb by lia.
  apply Z.pow_lt_mono_r_iff in Ha; [|lia..]. apply Z.pow_lt_mono_r_iff in Hb; lia.
Qed.

(** ** Locations of an exact value

    [inb A m w l] says that the value [A] lies in [[m*w, (m+1)*w)] at location
    [l], where [w] is the weight of the last bit of [m].  For an exact value
    that is a quotient, both sides are scaled by the divisor. *)

Definition inb (A m w : Z) (l : location) : Prop :=
  match l with
  | loc_Exact => A = m * w
  | loc_Inexact Lt => m * w < A /\ 2 * A < 2 * (m * w) + w
  | loc_Inexact Eq => 2 * A = 2 * (m * w) + w
  | loc_Inexact Gt => 2 * (m * w) + w < 2 * A /\ A < m * w + w
  end.

Lemma inb_floor A m w l : 0 < w -> inb A m w l -> m * w <= A < m * w + w.
Proof. intros Hw H. destruct l as [|[]]; simpl in H; lia. Qed.

Lemma shr_1_inb A w r :
  0 < w -> 0 <= shr_m r ->
  inb A (shr_m r) w (loc_of_shr_record r) ->
  shr_m (shr_1 r) = shr_m r / 2 /\
  inb A (shr_m (shr_1 r)) (2 * w) (loc_of_shr_record (shr_1 r)).
Proof.
  intros Hw Hm H. destruct r as [m r s]. cbn [shr_m] in *.
  assert (Hd : forall b q, 2 * q + Z.b2z b = m -> q = m / 2)
    by (intros [] q; simpl; intros; Z.div_mod_to_equations; lia).
  destruct m as [|[p|p|]|p]; cbn [shr_1 shr_m] in *; [| | | |lia].
  - split; [done|]. destruct r, s; cbn [loc_of_shr_record inb orb] in *; lia.
  - split; [by apply (Hd true)|]. replace (Z.pos p~1 * w) with (2 * (Z.pos p * w) + w) in H by lia.
    replace (Z.pos p * (2 * w)) with (2 * (Z.pos p * w)) by lia.
    generalize dependent (Z.pos p * w). intros. destruct r, s; cbn [loc_of_shr_record inb orb] in *; lia.
  - split; [by apply (Hd false)|]. replace (Z.pos p~0 * w) with (2 * (Z.pos p * w)) in H by lia.
    replace (Z.pos p * (2 * w)) with (2 * (Z.pos p * w)) by lia.
    generalize dependent (Z.pos p * w). intros. destruct r, s; cbn [loc_of_shr_record inb orb] in *; lia.
  - split; [done|]. destruct r, s; cbn [loc_of_shr_record inb orb] in *; lia.
Qed.

Lemma iter_pos_nat {X} (f : X -> X) p x :
  iter_pos f p x = Nat.iter (Pos.to_nat p) f x.
Proof.
  revert x. induction p as [p IH|p IH|]; intros x; cbn [iter_pos].
  - rewrite !IH, <- Nat.iter_succ_r, <- Nat.iter_add. f_equal. lia.
  - rewrite !IH, <- Nat.iter_add. f_equal. lia.
  - done.
Qed.

Lemma loc_of_shr_record_of_loc m l : loc_of_shr_record (shr_record_of_loc m l) = l.
Proof. by destruct l as [|[]]. Qed.

Lemma shr_m_of_loc m l : shr_m (shr_record_of_loc m l) = m.
Proof. by destruct l as [|[]]. Qed.

Lemma shr_iter_inb A w r (n : nat) :
  0 < w -> 0 <= shr_m r -> inb A (shr_m r) w (loc_of_shr_record r) ->
  let r' := Nat.iter n shr_1 r in
  shr_m r' = shr_m r / 2 ^ Z.of_nat n /\
  inb A (shr_m r') (2 ^ Z.of_nat n * w) (loc_of_shr_record r').
Proof.
  intros Hw Hm H. induction n as [|n [IH1 IH2]].
  - cbn -[Z.div Z.mul Z.pow]. rewrite Z.div_1_r, Z.mul_1_l. done.
  - assert (0 <= shr_m (Nat.iter n shr_1 r)).
    { rewrite IH1. apply Z.div_pos; [done|]. apply Z.pow_pos_nonneg; lia. }
    destruct (shr_1_inb A (2 ^ Z.of_nat n * w) (Nat.iter n shr_1 r)) as [H1 H2]; auto.
    { apply Z.mul_pos_pos; [apply Z.pow_pos_nonneg; lia|done]. }
    cbn [Nat.iter nat_rect]. rewrite Nat2Z.inj_succ, Z.pow_succ_r by lia.
    change (nat_rect _ _ _ n) with (Nat.iter n shr_1 r) in *.
    split.
    + rewrite H1, IH1, Z.div_div; [f_equal; lia| |lia]. apply Z.pow_nonzero; lia.
    + by rewrite <- Z.mul_assoc.
Qed.

Lemma shr_inb A w r e n :
  0 < w -> 0 <= n -> 0 <= shr_m r -> inb A (shr_m r) w (loc_of_shr_record r) ->
  exists r', shr r e n = (r', e + n) /\ shr_m r' = shr_m r / 2 ^ n /\
    inb A (shr_m r') (2 ^ n * w) (loc_of_shr_record r').
Proof.
  intros Hw Hn Hm H. destruct n as [|p|p]; [| |lia].
  - exists r. cbn -[Z.div Z.mul Z.pow]. rewrite Z.div_1_r, Z.mul_1_l, Z.add_0_r. done.
  - unfold shr. rewrite iter_pos_nat.
    eexists. split; [done|]. rewrite <- (positive_nat_Z p). by apply shr_iter_inb.
Qed.

(** Round-to-nearest-even is within half a unit of the exact value. *)
Lemma round_nearest_even_half A m w l :
  0 < w -> inb A m w l ->
  let R := round_nearest_even m l in
  m <= R <= m + 1 /\ 2 * Z.abs (A - R * w) <= w.
Proof.
  intros Hw H. destruct l as [|[]]; cbn [round_nearest_even inb] in *.
  - lia.
  - destruct (Z.even m); lia.
  - lia.
  - lia.
Qed.

(** ** Normal numbers

    Values are counted in units of [2^-k] for a [k] at least as large as every
    exponent in sight is negative, so that they are integers. *)

Definition norm (k v : Z) : Prop :=
  exists m e, 2 ^ 52 <= m < 2 ^ 53 /\ -1074 <= e /\ - k <= e /\ v = m * 2 ^ (e + k).

Definition nearest (k A B v : Z) : Prop :=
  forall g, norm k g -> Z.abs (A - v * B) <= Z.abs (A - g * B).

(** [fpos k x v]: [x] is a positive normal float of value [v]. *)
Definition fpos (k : Z) (x : float64) (v : Z) : Prop :=
  exists m e, x = S754_finite false m e /\ 2 ^ 52 <= Z.pos m < 2 ^ 53 /\
    -1074 <= e <= 971 /\ - k <= e /\ v = Z.pos m * 2 ^ (e + k).

Lemma fpos_norm k x v : fpos k x v -> norm k v.
Proof. intros (m & e & -> & ? & ? & ? & ->). by exists (Z.pos m), e; repeat split; try lia. Qed.

Lemma nearest_mult A R w c :
  0 < w -> 2 * Z.abs (A - R * w) <= w -> Z.abs (A - R * w) <= Z.abs (A - c * w).
Proof. intros. destruct (decide (c = R)) as [->|]; [done|]. nia. Qed.

(** A representable number below the binade of [A] is no nearer than the
    binade's own end point. *)
Lemma norm_nearest k A B M e R :
  0 < B -> - k <= e -> 2 ^ 52 <= M ->
  M * (B * 2 ^ (e + k)) <= A -> 2 * Z.abs (A - R * (B * 2 ^ (e + k))) <= B * 2 ^ (e + k) ->
  nearest k A B (R * 2 ^ (e + k)).
Proof.
  intros HB Hk HM HA HR g (mg & eg & Hmg & _ & Hkg & ->).
  assert (0 < 2 ^ (e + k)) as Hp by (apply Z.pow_pos_nonneg; lia).
  set (w := B * 2 ^ (e + k)) in *. assert (0 < w) as Hw by (subst w; lia).
  replace (R * 2 ^ (e + k) * B) with (R * w) by (subst w; ring).
  destruct (Z.le_gt_cases e eg) as [He|He].
  - replace (mg * 2 ^ (eg + k) * B) with (mg * 2 ^ (eg - e) * w).
    { by apply nearest_mult. }
    subst w. replace (eg + k) with (eg - e + (e + k)) by lia.
    rewrite (Z.pow_add_r 2 (eg - e) (e + k)) by lia. ring.
  - assert (mg * 2 ^ (eg + k) * B <= 2 ^ 52 * w) as Hg.
    { subst w. replace (e + k) with ((e - eg - 1) + (1 + (eg + k))) by lia.
      rewrite (Z.pow_add_r 2 (e - eg - 1)), (Z.pow_add_r 2 1 (eg + k)) by lia.
      assert (1 <= 2 ^ (e - eg - 1)) by (apply (Z.pow_le_mono_r 2 0); lia).
      assert (0 < 2 ^ (eg + k)) by (apply Z.pow_pos_nonneg; lia).
      transitivity (2 ^ 53 * 2 ^ (eg + k) * B); [nia|].
      replace (2 ^ 53) with (2 ^ 52 * 2) by done. nia. }
    pose proof (nearest_mult A R w (2 ^ 52) Hw HR) as Hn.
    assert (2 ^ 52 * w <= M * w) by nia. lia.
Qed.

Lemma fexp_normal d e :
  -1074 <= d + e - 53 -> fexp prec emax (d + e) = d + e - 53.
Proof. unfold fexp, emin, prec, emax. lia. Qed.

(** The second normalisation of [binary_round_aux] only absorbs the carry. *)
Lemma shr_fexp_exact R e :
  2 ^ 52 <= R <= 2 ^ 53 -> -1074 <= e ->
  exists r' m' e', shr_fexp prec emax R e loc_Exact = (r', e') /\ shr_m r' = Z.pos m' /\
    2 ^ 52 <= Z.pos m' < 2 ^ 53 /\ e <= e' <= e + 1 /\ Z.pos m' * 2 ^ (e' - e) = R.
Proof.
  intros HR He. destruct R as [|p|p]; [lia| |lia]. unfold shr_fexp. cbn [Zdigits2].
  destruct (decide (Z.pos p = 2 ^ 53)) as [Hc|Hc].
  - injection Hc as ->. change (Z.pos (dg _)) with 54.
    rewrite fexp_normal by lia. replace (54 + e - 53 - e) with 1 by lia.
    eexists _, (2 ^ 52)%positive, (e + 1). split; [reflexivity|].
    replace (e + 1 - e) with 1 by lia. repeat split; lia.
  - assert (Z.pos (dg p) = 53) as Hd by (apply digits2_pos_unique; lia).
    rewrite Hd, fexp_normal by lia. replace (53 + e - 53 - e) with 0 by lia.
    eexists _, p, e. split; [reflexivity|]. rewrite Z.sub_diag. repeat split; lia.
Qed.

Lemma div_binade m :
  53 <= Z.pos (dg m) -> 2 ^ 52 <= Z.pos m / 2 ^ (Z.pos (dg m) - 53) < 2 ^ 53.
Proof.
  intros Hd. destruct (digits2_pos_bounds m) as [H1 H2].
  assert (0 < 2 ^ (Z.pos (dg m) - 53)) by (apply Z.pow_pos_nonneg; lia). split.
  - apply Z.div_le_lower_bound; [done|]. rewrite <- Z.pow_add_r by lia.
    by replace (Z.pos (dg m) - 53 + 52) with (Z.pos (dg m) - 1) by lia.
  - apply Z.div_lt_upper_bound; [done|]. rewrite <- Z.pow_add_r by lia.
    by replace (Z.pos (dg m) - 53 + 53) with (Z.pos (dg m)) by lia.
Qed.

(** Rounding a positive value with at least 53 significant bits gives the
    nearest normal number. *)
Lemma round_aux_nearest k A B m ex l :
  0 < B -> 53 <= Z.pos (dg m) -> - k <= ex ->
  -1074 <= ex + (Z.pos (dg m) - 53) < 971 ->
  inb A (Z.pos m) (B * 2 ^ (ex + k)) l ->
  exists v, fpos k (binary_round_aux prec emax false (Z.pos m) ex l) v /\ nearest k A B v.
Proof.
  intros HB Hd Hk He Hin. set (n := Z.pos (dg m) - 53) in *.
  assert (0 < 2 ^ (ex + k)) by (apply Z.pow_pos_nonneg; lia).
  destruct (shr_inb A (B * 2 ^ (ex + k)) (shr_record_of_loc (Z.pos m) l) ex n) as (r & Hr & HM & Hr').
  { lia. } { lia. } { by rewrite shr_m_of_loc. } { by rewrite shr_m_of_loc, loc_of_shr_record_of_loc. }
  rewrite shr_m_of_loc in HM. pose proof (div_binade m Hd) as HMb. fold n in HMb. rewrite <- HM in HMb.
  replace (2 ^ n * (B * 2 ^ (ex + k))) with (B * 2 ^ (ex + n + k)) in Hr'.
  2: { replace (ex + n + k) with (n + (ex + k)) by lia. rewrite (Z.pow_add_r 2 n (ex + k)) by lia. ring. }
  assert (0 < 2 ^ (ex + n + k)) by (apply Z.pow_pos_nonneg; lia).
  destruct (round_nearest_even_half A (shr_m r) (B * 2 ^ (ex + n + k)) (loc_of_shr_record r))
    as [HR Hhalf]; [lia|done|].
  set (R := round_nearest_even (shr_m r) (loc_of_shr_record r)) in *.
  destruct (shr_fexp_exact R (ex + n)) as (r2 & m2 & e2 & Hs & Hm2 & Hb2 & He2 & HRv); [lia|lia|].
  exists (R * 2 ^ (ex + n + k)). split.
  - exists m2, e2. split.
    + unfold binary_round_aux, shr_fexp at 1. cbn [Zdigits2].
      rewrite fexp_normal by lia.
      replace (Z.pos (dg m) + ex - 53 - ex) with n by lia. rewrite Hr. cbv beta iota.
      fold R. rewrite Hs. cbv beta iota. rewrite Hm2.
      by replace (e2 <=? emax - prec) with true by (unfold emax, prec; symmetry; apply Z.leb_le; lia).
    + split; [done|]. split; [lia|]. split; [lia|]. rewrite <- HRv, <- Z.mul_assoc.
      rewrite <- Z.pow_add_r by lia. do 2 f_equal. lia.
  - apply (norm_nearest k A B (shr_m r) (ex + n)); try done; try lia.
    apply inb_floor in Hr'; lia.
Qed.

(** ** Operations on positive normal numbers *)

Lemma pow2_pos n : 0 <= n -> 0 < 2 ^ n.
Proof. intros. apply Z.pow_pos_nonneg; lia. Qed.

Lemma pos_iter_xO m d : Z.pos (Pos.iter xO m d) = Z.pos m * 2 ^ Z.pos d.
Proof.
  induction d as [|d IH] using Pos.peano_ind; [simpl; lia|].
  rewrite Pos.iter_succ, Pos2Z.inj_succ, Z.pow_succ_r by lia. lia.
Qed.

Lemma digits2_pos_shift p q d :
  0 <= d -> Z.pos q = Z.pos p * 2 ^ d -> Z.pos (dg q) = Z.pos (dg p) + d.
Proof.
  intros Hd Hq. destruct (digits2_pos_bounds p).
  pose proof (pow2_pos d Hd). apply digits2_pos_unique; [lia|].
  replace (Z.pos (dg p) + d - 1) with (Z.pos (dg p) - 1 + d) by lia.
  rewrite !Z.pow_add_r by lia. rewrite Hq. nia.
Qed.

Lemma binary_round_nearest k m e :
  - k <= e -> - k <= e + (Z.pos (dg m) - 53) -> -1074 <= e + (Z.pos (dg m) - 53) < 971 ->
  exists v, fpos k (binary_round prec emax false m e) v /\
    nearest k (Z.pos m * 2 ^ (e + k)) 1 v.
Proof.
  intros Hk Hk' He. unfold binary_round.
  replace (Z.pos (dg m) + e) with (e + Z.pos (dg m)) by lia. rewrite fexp_normal by lia.
  unfold shl_align. destruct (e + Z.pos (dg m) - 53 - e) as [|p|p] eqn:Hs.
  1,2: apply round_aux_nearest; [lia..|cbn [inb]; ring].
  assert (Z.pos (dg (Pos.iter xO m p)) = 53) as Hd.
  { rewrite (digits2_pos_shift m _ (Z.pos p)); [lia|lia|apply pos_iter_xO]. }
  apply round_aux_nearest; [lia..|]. cbn [inb]. rewrite pos_iter_xO, Z.mul_1_l, <- Z.mul_assoc.
  rewrite <- Z.pow_add_r by lia. do 2 f_equal. lia.
Qed.

Lemma nearest_ratio k A B A' B' v :
  0 < B -> 0 < B' -> A * B' = A' * B -> nearest k A B v -> nearest k A' B' v.
Proof.
  intros HB HB' Heq Hn g Hg. specialize (Hn g Hg).
  apply (Z.mul_le_mono_pos_l _ _ B); [done|].
  assert (forall u, B * Z.abs (A' - u * B') = B' * Z.abs (A - u * B)) as Hu.
  { intros u. rewrite <- (Z.abs_eq B), <- (Z.abs_eq B'), <- !Z.abs_mul by lia.
    rewrite (Z.abs_eq B), (Z.abs_eq B') by lia. f_equal. nia. }
  rewrite !Hu. by apply Z.mul_le_mono_nonneg_l; [lia|].
Qed.

Lemma new_location_inb q r b P :
  0 < P -> 0 <= r < b -> inb ((q * b + r) * P) q (b * P) (new_location b r).
Proof.
  intros HP Hr. unfold new_location.
  assert (q * (b * P) = q * b * P) as Hq by ring.
  assert (forall x y, x < y -> x * P < y * P) as Hlt by (intros; nia).
  destruct (Z.even b) eqn:Hb; unfold new_location_even, new_location_odd;
    (destruct (Z.eqb_spec r 0) as [->|Hr0]; [cbn [inb]; ring|]).
  - destruct (Z.compare_spec (2 * r) b); cbn [inb]; rewrite Hq; try nia.
  - rewrite <- Z.negb_odd, negb_false_iff, Z.odd_spec in Hb. destruct Hb as [c Hc].
    destruct (Z.compare_spec (2 * r + 1) b); cbn [inb]; rewrite Hq; nia.
Qed.

Lemma fpos_digits m : 2 ^ 52 <= Z.pos m < 2 ^ 53 -> Z.pos (dg m) = 53.
Proof. intros. apply digits2_pos_unique; lia. Qed.

(** The exponent of a float of known magnitude. *)
Lemma fpos_exponent k m e a b :
  2 ^ 52 <= Z.pos m < 2 ^ 53 -> - k <= e -> 0 <= a -> 0 <= b ->
  2 ^ a <= Z.pos m * 2 ^ (e + k) < 2 ^ b -> a - 53 < e + k < b - 52.
Proof.
  intros Hm Hk Ha Hb [H1 H2]. pose proof (pow2_pos (e + k)). split.
  - assert (2 ^ a < 2 ^ (53 + (e + k))) as H3 by (rewrite Z.pow_add_r by lia; nia).
    apply Z.pow_lt_mono_r_iff in H3; lia.
  - assert (2 ^ (52 + (e + k)) < 2 ^ b) as H3 by (rewrite Z.pow_add_r by lia; nia).
    apply Z.pow_lt_mono_r_iff in H3; lia.
Qed.

(** From here on values are in units of [2^-600], and [mid] is the range of
    magnitudes between [2^-200] and [2^200]: the quotients and products below
    cannot overflow or underflow. *)

Definition K : Z := 600.
Definition mid (v : Z) : Prop := 2 ^ 400 <= v < 2 ^ 800.
Definition fis (x : float64) (v : Z) : Prop := fpos K x v.

Lemma fdiv_nearest x y vx vy :
  fis x vx -> fis y vy -> mid vx -> mid vy ->
  exists v, fis (fdiv x y) v /\ nearest K (vx * 2 ^ K) vy v.
Proof.
  intros (mx & ex & -> & Hmx & Hex & Hkx & ->) (my & ey & -> & Hmy & Hey & Hky & ->) Hx Hy.
  apply fpos_exponent in Hx; [|done..]. apply fpos_exponent in Hy; [|done..].
  unfold fdiv, SFdiv, SFdiv_core_binary, K in *. cbn [Zdigits2 xorb].
  rewrite !fpos_digits by done.
  replace (fexp prec emax (53 + ex - (53 + ey))) with (ex - ey - 53)
    by (unfold fexp, emin, prec, emax; lia).
  rewrite Z.min_l by lia. replace (ex - ey - (ex - ey - 53)) with 53 by lia.
  rewrite Z.shiftl_mul_pow2 by lia.
  pose proof (Z_div_mod (Z.pos mx * 2 ^ 53) (Z.pos my) ltac:(lia)) as Hqr.
  destruct (Z.div_eucl _ _) as [q r]. destruct Hqr as [Hq Hr].
  assert (2 ^ 52 <= q) as Hq1 by nia. assert (q < 2 ^ 54) as Hq2 by nia.
  destruct q as [|q|q]; [lia| |lia].
  assert (53 <= Z.pos (dg q) <= 54) as Hdq.
  { destruct (digits2_pos_bounds q) as [Hb1 Hb2]. split.
    - assert (2 ^ 52 < 2 ^ Z.pos (dg q)) as H by lia. apply Z.pow_lt_mono_r_iff in H; lia.
    - assert (2 ^ (Z.pos (dg q) - 1) < 2 ^ 54) as H by lia. apply Z.pow_lt_mono_r_iff in H; lia. }
  destruct (round_aux_nearest 600 (Z.pos mx * 2 ^ 53 * 2 ^ (ex - ey - 53 + 600)) (Z.pos my)
    q (ex - ey - 53) (new_location (Z.pos my) r)) as (v & Hv & Hn); try lia.
  { rewrite Hq. replace (Z.pos my * Z.pos q + r) with (Z.pos q * Z.pos my + r) by ring.
    apply new_location_inb; [apply pow2_pos; lia|done]. }
  exists v. split; [exact Hv|].
  revert Hn. pose proof (pow2_pos (ey + 600)). apply nearest_ratio; [lia|nia|].
  replace (ex - ey - 53 + 600) with (ex - ey + 547) by lia.
  replace (Z.pos mx * 2 ^ (ex + 600) * 2 ^ 600) with (Z.pos mx * 2 ^ 53 * (2 ^ (ex - ey + 547) * 2 ^ (ey + 600))).
  - ring.
  - rewrite <- Z.pow_add_r by lia. replace (ex - ey + 547 + (ey + 600)) with (ex + 600 + 547) by lia.
    rewrite (Z.pow_add_r 2 (ex + 600) 547) by lia.
    change (2 ^ 600) with (2 ^ 547 * 2 ^ 53). ring.
Qed.

Lemma fmul_nearest x y vx vy :
  fis x vx -> fis y vy -> mid vx -> mid vy ->
  exists v, fis (fmul x y) v /\ nearest K (vx * vy) (2 ^ K) v.
Proof.
  intros (mx & ex & -> & Hmx & Hex & Hkx & ->) (my & ey & -> & Hmy & Hey & Hky & ->) Hx Hy.
  apply fpos_exponent in Hx; [|done..]. apply fpos_exponent in Hy; [|done..].
  unfold fmul, SFmul, K in *. cbn [xorb].
  assert (105 <= Z.pos (dg (mx * my)) <= 106) as Hd.
  { destruct (digits2_pos_bounds (mx * my)) as [Hb1 Hb2]. rewrite Pos2Z.inj_mul in *. split.
    - assert (2 ^ 104 < 2 ^ Z.pos (dg (mx * my))) as H by nia. apply Z.pow_lt_mono_r_iff in H; lia.
    - assert (2 ^ (Z.pos (dg (mx * my)) - 1) < 2 ^ 106) as H by nia. apply Z.pow_lt_mono_r_iff in H; lia. }
  destruct (round_aux_nearest 600 (Z.pos (mx * my) * 2 ^ (ex + ey + 600)) 1 (mx * my) (ex + ey) loc_Exact)
    as (v & Hv & Hn); try lia.
  { cbn [inb]. ring. }
  exists v. split; [exact Hv|]. revert Hn. apply nearest_ratio; [lia|done|].
  rewrite Pos2Z.inj_mul, Z.mul_1_r, <- Z.mul_assoc, <- Z.pow_add_r by lia.
  replace (ex + ey + 600 + 600) with ((ex + 600) + (ey + 600)) by lia.
  rewrite (Z.pow_add_r 2 (ex + 600)) by lia. ring.
Qed.

Lemma shl_align_fst m e e' :
  e' <= e -> Z.pos (fst (shl_align m e e')) = Z.pos m * 2 ^ (e - e').
Proof.
  intros He. unfold shl_align. destruct (e' - e) as [|p|p] eqn:Hs; cbn [fst].
  - replace (e - e') with 0 by lia. lia.
  - lia.
  - rewrite pos_iter_xO. do 2 f_equal. lia.
Qed.

Lemma digits_of_range m e a b :
  - K <= e -> 0 <= a -> 0 <= b -> 2 ^ a <= Z.pos m * 2 ^ (e + K) < 2 ^ b ->
  a < Z.pos (dg m) + (e + K) <= b.
Proof.
  intros He Ha Hb [H1 H2]. destruct (digits2_pos_bounds m) as [H3 H4].
  pose proof (pow2_pos (e + K)). split.
  - assert (2 ^ a < 2 ^ (Z.pos (dg m) + (e + K))) as H5 by (rewrite Z.pow_add_r by lia; nia).
    apply Z.pow_lt_mono_r_iff in H5; lia.
  - assert (2 ^ (Z.pos (dg m) - 1 + (e + K)) < 2 ^ b) as H5 by (rewrite Z.pow_add_r by lia; nia).
    apply Z.pow_lt_mono_r_iff in H5; lia.
Qed.

Lemma binary_round_mid m e :
  - K <= e -> mid (Z.pos m * 2 ^ (e + K)) ->
  exists v, fis (binary_round prec emax false m e) v /\ nearest K (Z.pos m * 2 ^ (e + K)) 1 v.
Proof.
  intros He Hm. apply digits_of_range in Hm; [|unfold K in *; lia..].
  apply binary_round_nearest; unfold K in *; lia.
Qed.

Lemma fsub_nearest x y vx vy :
  fis x vx -> fis y vy -> mid (vx - vy) ->
  exists v, fis (fsub x y) v /\ nearest K (vx - vy) 1 v.
Proof.
  intros (mx & ex & -> & Hmx & Hex & Hkx & ->) (my & ey & -> & Hmy & Hey & Hky & ->) Hd.
  unfold fsub, SFsub. cbn [cond_Zopp]. rewrite !shl_align_fst by lia.
  set (ez := Z.min ex ey). assert (- K <= ez) by lia.
  assert (Z.pos mx * 2 ^ (ex + K) - Z.pos my * 2 ^ (ey + K)
          = (Z.pos mx * 2 ^ (ex - ez) - Z.pos my * 2 ^ (ey - ez)) * 2 ^ (ez + K)) as Heq.
  { rewrite Z.mul_sub_distr_r, <- !Z.mul_assoc, <- !Z.pow_add_r by lia.
    replace (ex - ez + (ez + K)) with (ex + K) by lia.
    by replace (ey - ez + (ez + K)) with (ey + K) by lia. }
  rewrite Heq in *. pose proof (pow2_pos (ez + K) ltac:(lia)).
  destruct (Z.pos mx * 2 ^ (ex - ez) - Z.pos my * 2 ^ (ey - ez)) as [|d|d].
  1, 3: unfold mid in Hd; lia.
  cbn [binary_normalize]. by apply binary_round_mid.
Qed.

(** ** Consequences of being nearest *)

Lemma nearest_ge A B v g :
  0 < B -> norm K g -> nearest K A B v -> g * B <= A -> g <= v.
Proof. intros HB Hg Hn H. specialize (Hn g Hg). nia. Qed.

Lemma nearest_le A B v g :
  0 < B -> norm K g -> nearest K A B v -> A <= g * B -> v <= g.
Proof. intros HB Hg Hn H. specialize (Hn g Hg). nia. Qed.

Lemma nearest_exact A B v g :
  0 < B -> norm K g -> nearest K A B v -> A = g * B -> v = g.
Proof. intros HB Hg Hn H. specialize (Hn g Hg). nia. Qed.

(** Rounding is monotone (strictly ordered inputs; equal inputs round equally
    because the operations are functions). *)
Lemma nearest_mono A B v v' A' :
  0 < B -> norm K v -> norm K v' -> nearest K A B v -> nearest K A' B v' -> A < A' -> v <= v'.
Proof.
  intros HB Hv Hv' Hn Hn' HA. specialize (Hn v' Hv'). specialize (Hn' v Hv).
  destruct (Z.le_gt_cases v v') as [|Hgt]; [done|]. exfalso.
  assert (v' * B < v * B) by nia. lia.
Qed.

Lemma norm_pow m e :
  2 ^ 52 <= m < 2 ^ 53 -> - K <= e -> norm K (m * 2 ^ (e + K)).
Proof. intros. exists m, e. unfold K in *. repeat split; lia. Qed.

Lemma fis_norm x v : fis x v -> norm K v.
Proof. apply fpos_norm. Qed.

Lemma fis_pos x v : fis x v -> 0 < v.
Proof. intros (m & e & _ & ? & ? & ? & ->). pose proof (pow2_pos (e + K)). nia. Qed.

Lemma exponent_order m1 e1 m2 e2 :
  2 ^ 52 <= m1 < 2 ^ 53 -> 2 ^ 52 <= m2 < 2 ^ 53 -> - K <= e1 -> e1 < e2 ->
  m1 * 2 ^ (e1 + K) < m2 * 2 ^ (e2 + K).
Proof.
  intros H1 H2 Hk He. replace (e2 + K) with (e2 - e1 - 1 + (1 + (e1 + K))) by lia.
  rewrite (Z.pow_add_r 2 (e2 - e1 - 1)), (Z.pow_add_r 2 1) by lia.
  pose proof (pow2_pos (e1 + K) ltac:(lia)) as HP.
  assert (1 <= 2 ^ (e2 - e1 - 1)) as HQ by (apply (Z.pow_le_mono_r 2 0); lia).
  generalize dependent (2 ^ (e1 + K)). generalize dependent (2 ^ (e2 - e1 - 1)). intros Q HQ P HP.
  apply Z.lt_le_trans with (m2 * 2 * P); [|nia].
  apply Z.mul_lt_mono_pos_r; [done|]. change (2 ^ 53) with (2 ^ 52 * 2) in *. lia.
Qed.

Lemma fcompare_fis x y vx vy :
  fis x vx -> fis y vy -> SFcompare x y = Some (vx ?= vy).
Proof.
  intros (mx & ex & -> & Hmx & Hex & Hkx & ->) (my & ey & -> & Hmy & Hey & Hky & ->).
  cbn [SFcompare]. f_equal. destruct (Z.compare_spec ex ey) as [->|Hlt|Hgt].
  - pose proof (pow2_pos (ey + K)). change (Pos.compare_cont Eq mx my) with (Z.pos mx ?= Z.pos my).
    destruct (Z.compare_spec (Z.pos mx) (Z.pos my)); symmetry;
      [apply Z.compare_eq_iff|apply Z.compare_lt_iff|apply Z.compare_gt_iff]; nia.
  - symmetry. apply Z.compare_lt_iff. by apply exponent_order.
  - symmetry. apply Z.compare_gt_iff. by apply exponent_order.
Qed.

Lemma fleb_fis x y vx vy : fis x vx -> fis y vy -> fleb x y = (vx <=? vy).
Proof.
  intros Hx Hy. unfold fleb, SFleb. rewrite (fcompare_fis _ _ _ _ Hx Hy).
  unfold Z.leb. by destruct (vx ?= vy).
Qed.

Lemma fis_inj x y v : fis x v -> fis y v -> x = y.
Proof.
  intros (mx & ex & -> & Hmx & Hex & Hkx & Hv) (my & ey & -> & Hmy & Hey & Hky & Hv').
  assert (ex = ey) as ->.
  { destruct (Z.lt_trichotomy ex ey) as [Hl|[->|Hl]]; [|done|].
    - pose proof (exponent_order _ _ _ _ Hmx Hmy Hkx Hl). lia.
    - pose proof (exponent_order _ _ _ _ Hmy Hmx Hky Hl). lia. }
  pose proof (pow2_pos (ey + K)). assert (Z.pos mx = Z.pos my) by nia. congruence.
Qed.

(** Integers below [2^53] convert exactly. *)
Lemma norm_int n : 1 <= n < 2 ^ 53 -> norm K (n * 2 ^ K).
Proof.
  intros Hn. destruct n as [|p|p]; [lia| |lia].
  destruct (digits2_pos_bounds p) as [H1 H2].
  assert (Z.pos (dg p) <= 53) as Hd.
  { assert (2 ^ (Z.pos (dg p) - 1) < 2 ^ 53) as H by lia. apply Z.pow_lt_mono_r_iff in H; lia. }
  exists (Z.pos p * 2 ^ (53 - Z.pos (dg p))), (Z.pos (dg p) - 53). unfold K. repeat split; try lia.
  - change 52 with (53 - 1).
    replace (53 - 1) with (Z.pos (dg p) - 1 + (53 - Z.pos (dg p))) by lia.
    rewrite Z.pow_add_r by lia. pose proof (pow2_pos (53 - Z.pos (dg p))). nia.
  - replace (2 ^ 53) with (2 ^ (Z.pos (dg p) + (53 - Z.pos (dg p)))) by (f_equal; lia).
    rewrite Z.pow_add_r by lia. pose proof (pow2_pos (53 - Z.pos (dg p))). nia.
  - rewrite <- Z.mul_assoc, <- Z.pow_add_r by lia. do 2 f_equal. lia.
Qed.

Lemma mid_int n : 1 <= n < 2 ^ 100 -> mid (n * 2 ^ K).
Proof. unfold mid, K. intros. split; [|]; nia. Qed.

Lemma f64_fis n : 1 <= n < 2 ^ 53 -> fis (f64 n) (n * 2 ^ K).
Proof.
  intros Hn. pose proof (norm_int n Hn) as Hno. destruct n as [|p|p]; [lia| |lia].
  unfold f64. cbn [binary_normalize].
  destruct (binary_round_mid p 0) as (v & Hv & Hnear); [unfold K; lia| |].
  { apply mid_int. lia. }
  change (0 + K) with K in Hnear.
  by rewrite (nearest_exact _ 1 v (Z.pos p * 2 ^ K)) in Hv by (done || lia).
Qed.

(** ** Non-negative values, zero included *)

Definition fnn (x : float64) (v : Z) : Prop :=
  (v = 0 /\ x = S754_zero false) \/ fis x v.

Lemma fnn_f64 n : 0 <= n < 2 ^ 53 -> fnn (f64 n) (n * 2 ^ K).
Proof.
  intros Hn. destruct (decide (n = 0)) as [->|]; [by left|]. right. apply f64_fis. lia.
Qed.

Lemma fleb_fnn x y vx vy : fnn x vx -> fnn y vy -> fleb x y = (vx <=? vy).
Proof.
  intros [[-> ->]|Hx] [[-> ->]|Hy].
  - done.
  - pose proof (fis_pos _ _ Hy). destruct Hy as (m & e & -> & _).
    symmetry. by apply Z.leb_le; lia.
  - pose proof (fis_pos _ _ Hx). destruct Hx as (m & e & -> & _).
    symmetry. apply Z.leb_gt. lia.
  - by apply fleb_fis.
Qed.

Lemma fis_nonzero x v : fis x v -> feqb x (S754_zero false) = false.
Proof. by intros (m & e & -> & _). Qed.

(** The quotient of two integers below [2^53]. *)
Lemma fdiv_ints a b :
  1 <= a < 2 ^ 53 -> 1 <= b < 2 ^ 53 ->
  exists v, fis (fdiv (f64 a) (f64 b)) v /\ nearest K (a * 2 ^ K) b v.
Proof.
  intros Ha Hb.
  destruct (fdiv_nearest (f64 a) (f64 b) (a * 2 ^ K) (b * 2 ^ K)) as (v & Hv & Hn);
    try (by apply f64_fis); try (apply mid_int; lia).
  exists v. split; [done|]. revert Hn. pose proof (pow2_pos K ltac:(done)).
  apply nearest_ratio; [nia|lia|ring].
Qed.

(** [1 - a/b] for integers: zero exactly when [a = b], one exactly when
    [a = 0], strictly in between otherwise.  The bound [2^53] is what makes
    it true: [1/b] is then not lost next to one. *)
Lemma loss_ratio_full b : 1 <= b < 2 ^ 53 ->
  fsub (f64 1) (fdiv (f64 b) (f64 b)) = S754_zero false.
Proof.
  intros Hb. destruct (fdiv_ints b b Hb Hb) as (v & Hv & Hn).
  rewrite (nearest_exact (b * 2 ^ K) b v (1 * 2 ^ K)) in Hv; [|lia| |done|ring].
  - rewrite (fis_inj _ (f64 1) _ Hv); [done|]. by apply f64_fis.
  - by apply norm_int.
Qed.

Lemma loss_ratio_none b : 1 <= b < 2 ^ 53 ->
  fsub (f64 1) (fdiv (f64 0) (f64 b)) = f64 1.
Proof.
  intros Hb. destruct (f64_fis b Hb) as (m & e & -> & _). done.
Qed.

(** A proper fraction of integers keeps a distance to zero and one. *)
Lemma fdiv_proper a b : 1 <= a < b -> b < 2 ^ 53 ->
  exists q, fis (fdiv (f64 a) (f64 b)) q /\ 2 ^ (-53 + K) <= q <= (2 ^ 53 - 1) * 2 ^ (-53 + K).
Proof.
  intros Ha Hb. destruct (fdiv_ints a b) as (q & Hq & Hn); [lia..|].
  assert (norm K ((2 ^ 53 - 1) * 2 ^ (-53 + K))) as Hhi by (apply norm_pow; [done|unfold K; lia]).
  assert (norm K (2 ^ 52 * 2 ^ (-105 + K))) as Hlo by (apply norm_pow; [done|unfold K; lia]).
  assert (2 ^ K = 2 ^ 53 * 2 ^ (-53 + K)) as HK by done.
  assert (0 < 2 ^ (-53 + K)) as HP by done.
  exists q. split; [done|]. split.
  - change (2 ^ (-53 + K)) with (2 ^ 52 * 2 ^ (-105 + K)).
    apply (nearest_ge (a * 2 ^ K) b); [lia|done..|].
    change (2 ^ 52 * 2 ^ (-105 + K)) with (2 ^ (-53 + K)). rewrite HK. nia.
  - apply (nearest_le (a * 2 ^ K) b); [lia|done..|]. rewrite HK. nia.
Qed.

Lemma loss_ratio_partial a b : 1 <= a < b -> b < 2 ^ 53 ->
  exists v, fis (fsub (f64 1) (fdiv (f64 a) (f64 b))) v /\ v < 2 ^ K.
Proof.
  intros Ha Hb. destruct (fdiv_proper a b Ha Hb) as (q & Hq & Hq1 & Hq2).
  assert (norm K ((2 ^ 53 - 1) * 2 ^ (-53 + K))) as Hhi by (apply norm_pow; [done|unfold K; lia]).
  assert (2 ^ K = 2 ^ 53 * 2 ^ (-53 + K)) as HK by done.
  destruct (fsub_nearest (f64 1) _ (1 * 2 ^ K) q (f64_fis 1 ltac:(done)) Hq) as (v & Hv & Hnv).
  { unfold mid. assert (2 ^ 400 <= 2 ^ (-53 + K)) by done. assert (2 ^ K < 2 ^ 800) by done. lia. }
  exists v. split; [done|]. apply Z.le_lt_trans with ((2 ^ 53 - 1) * 2 ^ (-53 + K)); [|done].
  apply (nearest_le (1 * 2 ^ K - q) 1); [lia|done..|]. lia.
Qed.

Lemma fnn_inj x y v : fnn x v -> fnn y v -> x = y.
Proof.
  intros [[-> ->]|Hx] [[H ->]|Hy]; try done.
  - by apply fis_pos in Hy.
  - subst. by apply fis_pos in Hx.
  - by eapply fis_inj.
Qed.

(** Multiplication by a positive constant is monotone. *)
Lemma fmul_mono x y c vx vy vc :
  fnn x vx -> fnn y vy -> fis c vc -> mid vc -> (vx = 0 \/ mid vx) -> (vy = 0 \/ mid vy) ->
  vx <= vy -> fleb (fmul x c) (fmul y c) = true.
Proof.
  intros Hx Hy Hc Hmc Hmx Hmy Hle.
  assert (forall z vz, fnn z vz -> (vz = 0 \/ mid vz) ->
    exists v, fnn (fmul z c) v /\ ((vz = 0 /\ v = 0) \/ (fis (fmul z c) v /\ nearest K (vz * vc) (2 ^ K) v))) as Hmul.
  { intros z vz [[-> ->]|Hz] Hmz.
    - destruct Hc as (m & e & -> & _). exists 0. split; [by left|by left].
    - destruct Hmz as [->|Hmz]; [by apply fis_pos in Hz|].
      destruct (fmul_nearest _ _ _ _ Hz Hc Hmz Hmc) as (v & Hv & Hn).
      exists v. split; [by right|by right]. }
  destruct (Hmul x vx Hx Hmx) as (p & Hp & Hpn). destruct (Hmul y vy Hy Hmy) as (q & Hq & Hqn).
  destruct (decide (vx = vy)) as [->|Hne].
  { rewrite (fnn_inj _ _ _ Hx Hy). rewrite (fleb_fnn _ _ _ _ Hq Hq). apply Z.leb_refl. }
  rewrite (fleb_fnn _ _ _ _ Hp Hq). apply Z.leb_le.
  destruct Hpn as [[-> ->]|[Hp' Hpn]].
  { destruct Hqn as [[_ ->]|[Hq' _]]; [done|]. apply fis_pos in Hq'. lia. }
  destruct Hqn as [[-> _]|[Hq' Hqn]].
  { destruct Hx as [[-> _]|Hx]; [done|]. apply fis_pos in Hx. lia. }
  apply (nearest_mono (vx * vc) (2 ^ K) p q (vy * vc)); try done; try (by eapply fis_norm).
  apply fis_pos in Hc. nia.
Qed.

(** A quotient of small integers lies in the middle range and between any two
    integer bounds of the exact quotient. *)
Lemma fdiv_ints_bounds a b lo hi :
  1 <= a < 2 ^ 53 -> 1 <= b < 2 ^ 53 -> 0 <= lo < 2 ^ 53 -> 1 <= hi < 2 ^ 53 ->
  lo * b <= a <= hi * b ->
  exists v, fis (fdiv (f64 a) (f64 b)) v /\ mid v /\ lo * 2 ^ K <= v <= hi * 2 ^ K.
Proof.
  intros Ha Hb Hlo Hhi Hq. destruct (fdiv_ints a b Ha Hb) as (v & Hv & Hn).
  assert (0 < 2 ^ (-53 + K)) as HP by done.
  assert (2 ^ K = 2 ^ 53 * 2 ^ (-53 + K)) as HK by done.
  assert (v <= hi * 2 ^ K) as H1.
  { apply (nearest_le (a * 2 ^ K) b); [lia|by apply norm_int|done|]. rewrite HK. nia. }
  assert (2 ^ 52 * 2 ^ (-105 + K) <= v) as H2.
  { apply (nearest_ge (a * 2 ^ K) b); [lia| |done|]; [by apply norm_pow|].
    change (2 ^ 52 * 2 ^ (-105 + K)) with (2 ^ (-53 + K)). rewrite HK. nia. }
  assert (lo * 2 ^ K <= v) as H3.
  { destruct (decide (lo = 0)) as [->|]; [apply fis_pos in Hv; lia|].
    apply (nearest_ge (a * 2 ^ K) b); [lia|apply norm_int; lia|done|]. rewrite HK. nia. }
  exists v. split; [done|]. split; [|lia]. unfold mid.
  assert (2 ^ 400 <= 2 ^ 52 * 2 ^ (-105 + K)) by done.
  assert (2 ^ 53 * 2 ^ K < 2 ^ 800) by done.
  assert (hi * 2 ^ K <= 2 ^ 53 * 2 ^ K) by (apply Z.mul_le_mono_nonneg_r; [done|lia]). lia.
Qed.

(** ** Percentages: [x / 100] of a loss computed as [lost / sent * 100] *)

(** A value nearer to [g] than to [h] does not round to [h] or beyond. *)
Lemma nearest_lt A B v g h :
  0 < B -> norm K g -> nearest K A B v -> 2 * A < (g + h) * B -> g < h -> v < h.
Proof. intros HB Hg Hn H Hgh. specialize (Hn g Hg). nia. Qed.

Lemma percent_full b : 1 <= b < 2 ^ 53 ->
  fdiv (fmul (fdiv (f64 b) (f64 b)) (f64 100)) (f64 100) = f64 1.
Proof.
  intros Hb. destruct (fdiv_ints b b Hb Hb) as (v & Hv & Hn).
  rewrite (nearest_exact (b * 2 ^ K) b v (1 * 2 ^ K)) in Hv; [|lia| |done|ring].
  - rewrite (fis_inj _ (f64 1) _ Hv); [reflexivity|]. by apply f64_fis.
  - by apply norm_int.
Qed.

Lemma percent_none b : 1 <= b < 2 ^ 53 ->
  fdiv (fmul (fdiv (f64 0) (f64 b)) (f64 100)) (f64 100) = S754_zero false.
Proof. intros Hb. destruct (f64_fis b Hb) as (m & e & -> & _). reflexivity. Qed.

Lemma percent_partial a b : 1 <= a < b -> b < 2 ^ 53 ->
  exists v, fis (fdiv (fmul (fdiv (f64 a) (f64 b)) (f64 100)) (f64 100)) v /\ v < 2 ^ K.
Proof.
  intros Ha Hb. destruct (fdiv_proper a b Ha Hb) as (q & Hq & Hq1 & Hq2).
  set (w := 2 ^ (-53 + K)) in *. assert (2 ^ K = 2 ^ 53 * w) as HK by done. assert (0 < w) as Hw by done.
  assert (2 ^ 400 <= w) as Hlo by done. assert (100 * 2 ^ K < 2 ^ 800) as Hhi by done.
  assert (norm K ((100 * 2 ^ 46 - 1) * 2 ^ (-46 + K))) as H2 by (apply norm_pow; [done|unfold K; lia]).
  assert (2 ^ (-46 + K) = 128 * w) as H2w by done. rewrite H2w in H2. clear H2w.
  assert (norm K ((2 ^ 53 - 1) * w)) as H1 by (apply norm_pow; [done|unfold K; lia]).
  pose proof (f64_fis 100 ltac:(done)) as H100.
  destruct (fmul_nearest _ _ q (100 * 2 ^ K) Hq H100) as (p & Hp & Hnp);
    [unfold mid; lia|apply mid_int; lia|].
  assert (q <= p) as Hqp by (apply (nearest_ge (q * (100 * 2 ^ K)) (2 ^ K)); [lia|by eapply fis_norm|done|nia]).
  assert (p < 100 * 2 ^ K - 71 * w) as Hp1.
  { eapply nearest_lt; [|exact H2|exact Hnp| |]; [lia| |]; rewrite ?HK; nia. }
  destruct (fdiv_nearest _ _ p (100 * 2 ^ K) Hp H100) as (v & Hv & Hnv);
    [unfold mid; lia|apply mid_int; lia|].
  exists v. split; [done|]. eapply nearest_lt; [|exact H1|exact Hnv| |]; [lia| |]; rewrite ?HK in *; nia.
Qed.
