(* ===== verification/GoFmt.v ===== *)
(** * fmt and time: the verbs and layouts the exporters print with.

    [fmtFixed p x] is the verb [%.pf]: the exact decimal value of the binary64
    number rounded to [p] places, half to even.  [formatRFC3339] is
    [Time.UTC().Format(time.RFC3339)] of an instant given in nanoseconds since
    the Unix epoch; its calendar is proved to invert the day count. *)

From S2P Require Import Prelude.
From S2P Require Import GoStrings.
From S2P Require Import Float64.

(** ** Fixed-point verbs *)

(** [n / d] rounded to the nearest integer, half to even. *)
Definition divHalfEven (n d : Z) : Z :=
  let q := n / d in
  let r := n mod d in
  if 2 * r <? d then q else if d <? 2 * r then q + 1 else if Z.even q then q else q + 1.

(** The decimal digits of [n], at least [k] of them. *)
Definition padDigits (k : nat) (n : Z) : string :=
  let s := Itoa n in
  String.concat "" (repeat "0" (k - String.length s)) +:+ s.

Definition fixedDigits (p : nat) (n : Z) : string :=
  let s := padDigits (S p) n in
  match p with
  | O => s
  | S _ => GoStrings.take (String.length s - p) s +:+ "." +:+ GoStrings.drop (String.length s - p) s
  end.

(** [m * 2^e * 10^p], rounded. *)
Definition scaled (p : nat) (m : positive) (e : Z) : Z :=
  if 0 <=? e then Z.pos m * 2 ^ e * 10 ^ Z.of_nat p
  else divHalfEven (Z.pos m * 10 ^ Z.of_nat p) (2 ^ (- e)).

Definition fmtFixed (p : nat) (x : float64) : string :=
  match x with
  | S754_nan => "NaN"
  | S754_infinity false => "+Inf"
  | S754_infinity true => "-Inf"
  | S754_zero sg => (if sg then "-" else "") +:+ fixedDigits p 0
  | S754_finite sg m e => (if sg then "-" else "") +:+ fixedDigits p (scaled p m e)
  end.

Example fmt_third : fmtFixed 2 (fdiv (f64 1) (f64 3)) = "0.33". Proof. reflexivity. Qed.
Example fmt_large : fmtFixed 2 (f64 12345) = "12345.00". Proof. reflexivity. Qed.
Example fmt_even : fmtFixed 0 (fdiv (f64 5) (f64 2)) = "2". Proof. reflexivity. Qed.
Example fmt_small : fmtFixed 2 (fdiv (f64 (-1)) (f64 1000)) = "-0.00". Proof. reflexivity. Qed.
Example fmt_cents : fmtFixed 2 (fdiv (f64 1005) (f64 1000)) = "1.00". Proof. reflexivity. Qed.

(** ** The calendar *)

(** Days since 1970-01-01 to (year, month, day), proleptic Gregorian: years are
    counted from March, in eras of 400 years, centuries and leap cycles; the last
    day of a cycle belongs to its last year. *)
Definition yearOfEraDay (doe : Z) : Z * Z :=
  let c := Z.min 3 (doe / 36524) in
  let r1 := doe - 36524 * c in
  let q := r1 / 1461 in
  let r2 := r1 - 1461 * q in
  let y1 := Z.min 3 (r2 / 365) in
  (100 * c + 4 * q + y1, r2 - 365 * y1).

(** The month, counted from March, and the day of the month. *)
Definition monthOfYearDay (doy : Z) : Z * Z :=
  let mp := (5 * doy + 2) / 153 in
  (mp, doy - (153 * mp + 2) / 5 + 1).

Definition civil (days : Z) : Z * Z * Z :=
  let z := days + 719468 in
  let '(yoe, doy) := yearOfEraDay (z mod 146097) in
  let '(mp, d) := monthOfYearDay doy in
  let m := if mp <? 10 then mp + 3 else mp - 9 in
  let y := yoe + 400 * (z / 146097) in
  ((if m <=? 2 then y + 1 else y), m, d).

Definition isLeap (y : Z) : bool := (y mod 4 =? 0) && (negb (y mod 100 =? 0) || (y mod 400 =? 0)).

Definition daysIn (y m : Z) : Z :=
  if m =? 2 then (if isLeap y then 29 else 28)
  else if (m =? 4) || (m =? 6) || (m =? 9) || (m =? 11) then 30 else 31.

(** Days from 0000-03-01 to the first of the month, for a year of the era. *)
Definition eraDays (y m : Z) : Z :=
  let y' := if m <=? 2 then y - 1 else y in
  let mp := if m <=? 2 then m + 9 else m - 3 in
  365 * y' + y' / 4 - y' / 100 + y' / 400 + (153 * mp + 2) / 5.

Definition daysOf (y m d : Z) : Z := eraDays y m + d - 1 - 719468.

(** Lengths of the months from March; February is last. *)
Definition goodYearDay (doy : Z) : bool :=
  let '(mp, d) := monthOfYearDay doy in
  ((153 * mp + 2) / 5 + d - 1 =? doy) && (0 <=? mp) && (mp <=? 11) && (1 <=? d) &&
  (d <=? (if (mp =? 11) then (if doy =? 365 then 29 else 28)
          else if (mp =? 1) || (mp =? 3) || (mp =? 6) || (mp =? 8) then 30 else 31)).

Fixpoint allBelow (n : nat) (p : Z -> bool) : bool :=
  match n with O => true | S n' => p (Z.of_nat n') && allBelow n' p end.

Lemma allBelow_spec n p : allBelow n p = true -> forall z, 0 <= z < Z.of_nat n -> p z = true.
Proof.
  induction n as [|n IH]; [lia|]. cbn [allBelow]. rewrite andb_true_iff. intros [H1 H2] z Hz.
  destruct (decide (z = Z.of_nat n)) as [->|]; [done|]. apply IH; [done|lia].
Qed.

Lemma year_days_good : allBelow 366 goodYearDay = true.
Proof. vm_compute. reflexivity. Qed.

Lemma yearOfEraDay_spec doe :
  0 <= doe < 146097 ->
  let '(yoe, doy) := yearOfEraDay doe in
  0 <= yoe < 400 /\ 0 <= doy < 366 /\ doe = 365 * yoe + yoe / 4 - yoe / 100 + doy /\
  (doy = 365 -> isLeap (yoe + 1) = true).
Proof.
  intros H. unfold yearOfEraDay. cbv zeta.
  set (c := Z.min 3 (doe / 36524)). set (r1 := doe - 36524 * c).
  set (q := r1 / 1461). set (r2 := r1 - 1461 * q). set (y1 := Z.min 3 (r2 / 365)).
  assert (0 <= c <= 3 /\ 0 <= r1 <= 36524 /\ (r1 = 36524 -> c = 3)) as (Hc & Hr1 & Hlast)
    by (unfold r1, c; Z.div_mod_to_equations; lia).
  assert (0 <= q <= 24 /\ 0 <= r2 <= 1460 /\ r1 = 1461 * q + r2) as (Hq & Hr2 & E1)
    by (unfold r2, q; Z.div_mod_to_equations; lia).
  assert (0 <= y1 <= 3 /\ 0 <= r2 - 365 * y1 <= 365 /\ (r2 - 365 * y1 = 365 -> y1 = 3)) as (Hy & Hd & Hlast')
    by (unfold y1; Z.div_mod_to_equations; lia).
  assert ((100 * c + 4 * q + y1) / 4 = 25 * c + q) as -> by (Z.div_mod_to_equations; lia).
  assert ((100 * c + 4 * q + y1) / 100 = c) as -> by (Z.div_mod_to_equations; lia).
  split_and!; try lia.
  intros E. assert (y1 = 3 /\ r2 = 1460) as [E2 E3] by lia. rewrite E2.
  unfold isLeap. apply andb_true_iff. split; [apply Z.eqb_eq; Z.div_mod_to_equations; lia|].
  destruct (decide (q = 24)) as [E4|E4].
  - assert (c = 3) as -> by lia. rewrite E4. done.
  - assert ((100 * c + 4 * q + 3 + 1) mod 100 <> 0) as E5%Z.eqb_neq
      by (intros E5; Z.div_mod_to_equations; lia).
    by rewrite E5.
Qed.

Lemma isLeap_shift y k : isLeap (y + 400 * k) = isLeap y.
Proof.
  unfold isLeap.
  assert ((y + 400 * k) mod 4 = y mod 4) as -> by (Z.div_mod_to_equations; lia).
  assert ((y + 400 * k) mod 100 = y mod 100) as -> by (Z.div_mod_to_equations; lia).
  by assert ((y + 400 * k) mod 400 = y mod 400) as -> by (Z.div_mod_to_equations; lia).
Qed.

Lemma year_days_shift y k :
  365 * (y + 400 * k) + (y + 400 * k) / 4 - (y + 400 * k) / 100 + (y + 400 * k) / 400 =
  365 * y + y / 4 - y / 100 + y / 400 + 146097 * k.
Proof. Z.div_mod_to_equations; lia. Qed.

(** Every day has a date of the calendar, and the date determines the day. *)
Lemma civil_daysOf days :
  let '(y, m, d) := civil days in
  daysOf y m d = days /\ 1 <= m <= 12 /\ 1 <= d <= daysIn y m.
Proof.
  unfold civil. cbv zeta. set (k := (days + 719468) / 146097).
  pose proof (Z.mod_pos_bound (days + 719468) 146097 ltac:(lia)) as Hb.
  assert (days = (days + 719468) mod 146097 + 146097 * k - 719468) as Hdays
    by (pose proof (Z.div_mod (days + 719468) 146097); unfold k; lia).
  apply yearOfEraDay_spec in Hb. destruct (yearOfEraDay _) as [yoe doy]. destruct Hb as (Hy & Hd & E & Hl).
  pose proof (allBelow_spec _ _ year_days_good doy ltac:(lia)) as Hg. unfold goodYearDay in Hg.
  destruct (monthOfYearDay doy) as [mp d].
  assert (yoe / 400 = 0) as Hy0 by (apply Z.div_small; lia).
  unfold daysOf, eraDays, daysIn. destruct (Z.ltb_spec mp 10).
  - bool_prop. assert (mp + 3 <=? 2 = false) as -> by (apply Z.leb_gt; lia).
    rewrite year_days_shift, Hy0, Z.add_simpl_r.
    assert (mp =? 11 = false) as E11 by (apply Z.eqb_neq; lia). rewrite E11 in *.
    split; [lia|]. split; [lia|]. split; [lia|].
    assert (mp + 3 =? 2 = false) as -> by (apply Z.eqb_neq; lia).
    repeat match goal with |- context [?a =? ?b] => destruct (Z.eqb_spec a b) end;
    repeat match goal with H : context [mp =? ?b] |- _ => destruct (Z.eqb_spec mp b) in H end; simpl in *; lia.
  - bool_prop. assert (mp - 9 <=? 2 = true) as -> by (apply Z.leb_le; lia).
    replace (yoe + 400 * k + 1 - 1) with (yoe + 400 * k) by lia.
    rewrite year_days_shift, Hy0. replace (mp - 9 + 9) with mp by lia.
    split; [lia|]. split; [lia|]. split; [lia|].
    replace (yoe + 400 * k + 1) with (yoe + 1 + 400 * k) by lia. rewrite isLeap_shift.
    destruct (Z.eqb_spec doy 365) as [E365|]; [rewrite (Hl E365)|destruct (isLeap _)];
    repeat match goal with |- context [?a =? ?b] => destruct (Z.eqb_spec a b) end;
    repeat match goal with H : context [mp =? ?b] |- _ => destruct (Z.eqb_spec mp b) in H end; simpl in *; lia.
Qed.

(** ** Timestamps *)

Definition formatRFC3339 (ns : Z) : string :=
  let secs := ns / 1000000000 in
  let '(y, m, d) := civil (secs / 86400) in
  let s := secs mod 86400 in
  padDigits 4 y +:+ "-" +:+ padDigits 2 m +:+ "-" +:+ padDigits 2 d +:+ "T" +:+
  padDigits 2 (s / 3600) +:+ ":" +:+ padDigits 2 (s / 60 mod 60) +:+ ":" +:+ padDigits 2 (s mod 60) +:+ "Z".

Example rfc3339_epoch : formatRFC3339 0 = "1970-01-01T00:00:00Z". Proof. reflexivity. Qed.
Example rfc3339_leap : formatRFC3339 (1709210096 * 1000000000 + 7) = "2024-02-29T12:34:56Z". Proof. reflexivity. Qed.

(** ** JSON documents (encoding/json)

    Documents at the level of values: an object is the list of its members in
    the order of the struct's fields; a Go map is a [JMap] (encoding/json sorts
    its keys).  [Encode] fails on a NaN or an infinity and then writes nothing. *)

Inductive JSON :=
  | JString (s : string)
  | JFloat (x : float64)
  | JInt (n : Z)
  | JBool (b : bool)
  | JStrings (l : list string)
  | JMap (m : gmap string string)
  | JObject (members : list (string * JSON))
  | JArray (l : list JSON).

Definition finite (x : float64) : bool :=
  match x with S754_nan => false | S754_infinity _ => false | _ => true end.

(** The error of [Encode], for the first value it cannot represent. *)
Fixpoint encodeError (j : JSON) : option string :=
  let first := fun acc (e : option string) => match e with Some _ => e | None => acc end in
  match j with
  | JFloat x => if finite x then None else Some ("json: unsupported value: " +:+ fmtFixed 0 x)
  | JObject members => fold_right (fun m acc => first acc (encodeError (snd m))) None members
  | JArray l => fold_right (fun m acc => first acc (encodeError m)) None l
  | _ => None
  end.

(** The [omitempty] tag on strings and pointers. *)
Definition omitString (key s : string) : list (string * JSON) :=
  if (s =? "")%string then [] else [(key, JString s)].
Definition omitNil (key : string) (x : option float64) : list (string * JSON) :=
  match x with None => [] | Some v => [(key, JFloat v)] end.

(** The member of an object. *)
Fixpoint member (key : string) (members : list (string * JSON)) : option JSON :=
  match members with
  | [] => None
  | (k, v) :: rest => if (k =? key)%string then Some v else member key rest
  end.
