(* ===== verification/GoTime.v ===== *)
(** * time.Duration: printing and parsing.

    [DurationString] is [Duration.String] and [ParseDuration] is
    [time.ParseDuration], fractions computed in binary64 as there.  The file
    proves that parsing inverts printing on every int64, which is what makes
    the durations of the /config dump readable as configuration. *)

From S2P Require Import Prelude.
From S2P Require Import GoStrings.
From S2P Require Import Float64.
From Stdlib Require Import Ascii.

Definition Nanosecond : Z := 1.
Definition Microsecond_ : Z := 1000.
Definition Millisecond_ : Z := 1000000.
Definition Second_ : Z := 1000000000.
Definition Minute_ : Z := 60 * Second_.
Definition Hour_ : Z := 60 * Minute_.

(** ** Printing *)

(** [fmtFrac]: the fraction [v / 10^prec] in front of [acc], without trailing
    zeros, and the integer part; the point is dropped with an empty fraction. *)
Fixpoint fmtFrac (prec : nat) (v : Z) (print : bool) (acc : string) : string * Z :=
  match prec with
  | O => (if print then "." +:+ acc else acc, v)
  | S p =>
      let digit := v mod 10 in
      let print' := print || negb (digit =? 0) in
      fmtFrac p (v / 10) print' (if print' then String (chr (48 + digit)) acc else acc)
  end.

Definition microSign : string := String (chr 194) (String (chr 181) "").

Definition formatUnder (u : Z) (prec : nat) (unit : string) : string :=
  let '(frac, v) := fmtFrac prec u false unit in Itoa v +:+ frac.

Definition formatAbs (u : Z) : string :=
  if u <? Second_ then
    if u =? 0 then "0s"
    else if u <? Microsecond_ then formatUnder u 0 "ns"
    else if u <? Millisecond_ then formatUnder u 3 (microSign +:+ "s")
    else formatUnder u 6 "ms"
  else
    let '(frac, secs) := fmtFrac 9 u false "s" in
    let tail := Itoa (secs mod 60) +:+ frac in
    let minutes := secs / 60 in
    if 0 <? minutes then
      let tail := Itoa (minutes mod 60) +:+ "m" +:+ tail in
      let hours := minutes / 60 in
      if 0 <? hours then Itoa hours +:+ "h" +:+ tail else tail
    else tail.

Definition DurationString (d : Z) : string :=
  if d <? 0 then "-" +:+ formatAbs (- d) else formatAbs d.

(** ** Parsing *)

Inductive durError := InvalidDuration | MissingUnit | UnknownUnit (u : string).

Definition isDigit (c : ascii) : bool := (48 <=? code c) && (code c <=? 57).

(** [leadingInt]: [None] when the number exceeds 2^63. *)
Fixpoint leadingInt (x : Z) (s : string) : option (Z * string) :=
  match s with
  | EmptyString => Some (x, s)
  | String c s' =>
      if negb (isDigit c) then Some (x, s)
      else if 2 ^ 63 / 10 <? x then None
      else let x' := x * 10 + (code c - 48) in
           if 2 ^ 63 <? x' then None else leadingInt x' s'
  end.

(** [leadingFraction]: digits beyond 2^63 are skipped. *)
Fixpoint leadingFraction (x : Z) (scale : float64) (overflow : bool) (s : string) : Z * float64 * string :=
  match s with
  | EmptyString => (x, scale, s)
  | String c s' =>
      if negb (isDigit c) then (x, scale, s)
      else if overflow then leadingFraction x scale true s'
      else if (2 ^ 63 - 1) / 10 <? x then leadingFraction x scale true s'
      else let y := x * 10 + (code c - 48) in
           if 2 ^ 63 <? y then leadingFraction x scale true s'
           else leadingFraction y (fmul scale (f64 10)) false s'
  end.

(** The unit: everything up to the next digit or point. *)
Fixpoint spanUnit (s : string) : string * string :=
  match s with
  | EmptyString => ("", "")
  | String c s' =>
      if Ascii.eqb c "."%char || isDigit c then ("", s)
      else let '(u, rest) := spanUnit s' in (String c u, rest)
  end.

(** U+03BC, the Greek letter. *)
Definition muLetter : string := String (chr 206) (String (chr 188) "").

Definition unitMap (u : string) : option Z :=
  if (u =? "ns")%string then Some Nanosecond
  else if (u =? "us")%string || (u =? microSign +:+ "s")%string || (u =? muLetter +:+ "s")%string
       then Some Microsecond_
  else if (u =? "ms")%string then Some Millisecond_
  else if (u =? "s")%string then Some Second_
  else if (u =? "m")%string then Some Minute_
  else if (u =? "h")%string then Some Hour_
  else None.

(** The conversion [uint64(x)] of a non-negative float. *)
Definition truncZ (x : float64) : Z :=
  match x with
  | S754_finite false m e => if 0 <=? e then Z.pos m * 2 ^ e else Z.pos m / 2 ^ (- e)
  | _ => 0
  end.

(** What follows the digits of one component. *)
Definition fractionPart (s : string) : Z * float64 * string * bool :=
  match s with
  | String c s' =>
      if Ascii.eqb c "."%char then
        let '(f, scale, rest) := leadingFraction 0 (f64 1) false s' in
        (f, scale, rest, negb (String.length rest =? String.length s')%nat)
      else (0, f64 1, s, false)
  | EmptyString => (0, f64 1, s, false)
  end.

Definition startsNumber (s : string) : bool :=
  match s with String c _ => Ascii.eqb c "."%char || isDigit c | EmptyString => false end.

(** One round of the loop: the value of the component in nanoseconds, and the
    rest. *)
Definition component (s : string) : res durError (Z * string) :=
  failif negb (startsNumber s) with InvalidDuration;;
  match leadingInt 0 s with
  | None => Err InvalidDuration
  | Some (v, s1) =>
      let pre := negb (String.length s1 =? String.length s)%nat in
      let '(f, scale, s2, post) := fractionPart s1 in
      failif negb pre && negb post with InvalidDuration;;
      let '(u, s3) := spanUnit s2 in
      failif (u =? "")%string with MissingUnit;;
      match unitMap u with
      | None => Err (UnknownUnit u)
      | Some unit =>
          failif 2 ^ 63 / unit <? v with InvalidDuration;;
          let v' := v * unit in
          if 0 <? f then
            let v'' := v' + truncZ (fmul (f64 f) (fdiv (f64 unit) scale)) in
            failif 2 ^ 63 <? v'' with InvalidDuration;;
            Ok (v'', s3)
          else Ok (v', s3)
      end
  end.

(** The loop; every round consumes at least one character. *)
Fixpoint parseLoop (fuel : nat) (d : Z) (s : string) : res durError Z :=
  match fuel with
  | O => Err InvalidDuration
  | S fuel' =>
      if (s =? "")%string then Ok d else
      component s ≫= fun '(v, rest) =>
      let d' := (d + v) mod 2 ^ 64 in              (* uint64 *)
      failif 2 ^ 63 <? d' with InvalidDuration;;
      parseLoop fuel' d' rest
  end.

Definition ParseDuration (s : string) : res durError Z :=
  let '(neg, s1) :=
    match s with
    | String c s' => if Ascii.eqb c "-"%char then (true, s') else if Ascii.eqb c "+"%char then (false, s') else (false, s)
    | EmptyString => (false, s)
    end in
  if (s1 =? "0")%string then Ok 0 else
  failif (s1 =? "")%string with InvalidDuration;;
  d ← parseLoop (S (String.length s1)) 0 s1;
  if neg then Ok (wrap64 (- d))
  else failif 2 ^ 63 - 1 <? d with InvalidDuration;; Ok d.

Example duration_print : DurationString 5445500000000 = "1h30m45.5s". Proof. reflexivity. Qed.
Example duration_micro : DurationString (-1500) = "-1.5" +:+ microSign +:+ "s". Proof. reflexivity. Qed.
Example duration_min : DurationString (- 2 ^ 63) = "-2562047h47m16.854775808s". Proof. reflexivity. Qed.
Example duration_parse : ParseDuration "1.5h" = Ok (90 * Minute_). Proof. vm_compute. reflexivity. Qed.
Example duration_bad : ParseDuration "10" = Err MissingUnit. Proof. vm_compute. reflexivity. Qed.
Example duration_day : ParseDuration "1d" = Err (UnknownUnit "d"). Proof. vm_compute. reflexivity. Qed.

(** ** Digits *)

Lemma code_digit n : 0 <= n < 10 -> code (chr (48 + n)) = 48 + n /\ isDigit (chr (48 + n)) = true.
Proof.
  intros H. assert (code (chr (48 + n)) = 48 + n) as E.
  { unfold code, chr. rewrite N_ascii_embedding by lia. lia. }
  split; [done|]. unfold isDigit. rewrite E. apply andb_true_iff. split; apply Z.leb_le; lia.
Qed.

(** [s] does not begin with a digit. *)
Definition noDigit (s : string) : Prop := match s with String c _ => isDigit c = false | _ => True end.
Definition beginsDigit (s : string) : Prop := match s with String c _ => isDigit c = true | _ => False end.

Lemma leadingInt_stop x s : noDigit s -> leadingInt x s = Some (x, s).
Proof. destruct s as [|c s]; simpl; [done|]. by intros ->. Qed.

Lemma leadingInt_step x n s :
  0 <= n < 10 -> 0 <= x -> x * 10 + n <= 2 ^ 63 ->
  leadingInt x (String (chr (48 + n)) s) = leadingInt (x * 10 + n) s.
Proof.
  intros Hn Hx Hb. destruct (code_digit n Hn) as [Ec Ed]. cbn [leadingInt]. rewrite Ed, Ec. cbn [negb].
  replace (48 + n - 48) with n by lia.
  assert (2 ^ 63 / 10 <? x = false) as -> by (apply Z.ltb_ge; apply Z.div_le_lower_bound; lia).
  by assert (2 ^ 63 <? x * 10 + n = false) as -> by (apply Z.ltb_ge; lia).
Qed.

(** Enough fuel for the digits of [n]: they are no more than its bits. *)
Lemma log2_fuel n f : 0 <= n < 2 ^ Z.of_nat (S f) -> n / 10 <> 0 -> 0 <= n / 10 < 2 ^ Z.of_nat f.
Proof.
  intros H Hn. rewrite Nat2Z.inj_succ, Z.pow_succ_r in H by lia.
  split; [apply Z.div_pos; lia|]. apply Z.div_lt_upper_bound; lia.
Qed.

Lemma digits_read f n acc :
  0 <= n < 2 ^ Z.of_nat f -> (1 <= f)%nat ->
  (n <= 2 ^ 63 -> leadingInt 0 (digits_fuel f n acc) = leadingInt n acc) /\
  beginsDigit (digits_fuel f n acc) /\ (String.length acc < String.length (digits_fuel f n acc))%nat.
Proof.
  revert n acc. induction f as [|f IH]; intros n acc Hn Hf; [lia|]. cbn [digits_fuel].
  pose proof (Z.mod_pos_bound n 10 ltac:(lia)) as Hm. pose proof (Z.div_mod n 10 ltac:(lia)) as Hdm.
  destruct (Z.eqb_spec (n / 10) 0) as [E|E].
  - split_and!; [|by apply code_digit|simpl; lia]. intros Hb. rewrite leadingInt_step by lia. f_equal. lia.
  - destruct f as [|f]; [exfalso; apply E; apply Z.div_small; change (2 ^ Z.of_nat 1) with 2 in Hn; lia|].
    destruct (IH (n / 10) (String (chr (48 + n mod 10)) acc)) as (H1 & H2 & H3); [by apply log2_fuel|lia|].
    split_and!; [|done|cbn [String.length] in H3; lia]. intros Hb.
    assert (0 <= n / 10) by (apply Z.div_pos; lia).
    rewrite H1 by lia. rewrite leadingInt_step by lia. f_equal. lia.
Qed.

Lemma Itoa_digits n : 0 <= n -> Itoa n = digits_fuel (S (Z.to_nat (Z.log2 n))) n "" /\
  0 <= n < 2 ^ Z.of_nat (S (Z.to_nat (Z.log2 n))).
Proof.
  intros Hn. unfold Itoa. assert (n <? 0 = false) as -> by (apply Z.ltb_ge; lia). split; [done|].
  split; [done|]. rewrite Nat2Z.inj_succ, Z2Nat.id by apply Z.log2_nonneg.
  destruct (decide (n = 0)) as [->|]; [done|]. apply Z.log2_spec. lia.
Qed.

Lemma digits_app f n acc rest : digits_fuel f n (acc +:+ rest) = digits_fuel f n acc +:+ rest.
Proof.
  revert n acc. induction f as [|f IH]; intros n acc; [done|]. cbn [digits_fuel].
  destruct (_ =? _); [done|]. apply (IH (n / 10) (String (chr (48 + n mod 10)) acc)).
Qed.

(** Reading back a printed integer. *)
Lemma leadingInt_Itoa n rest :
  0 <= n <= 2 ^ 63 -> noDigit rest -> leadingInt 0 (Itoa n +:+ rest) = Some (n, rest).
Proof.
  intros Hn Hr. destruct (Itoa_digits n) as [-> Hf]; [lia|].
  rewrite <- digits_app. change ("" +:+ rest) with rest.
  destruct (digits_read (S (Z.to_nat (Z.log2 n))) n rest Hf ltac:(lia)) as [H _]. rewrite H by lia.
  by apply leadingInt_stop.
Qed.

Lemma Itoa_begins n rest :
  0 <= n -> beginsDigit (Itoa n +:+ rest) /\ (String.length rest < String.length (Itoa n +:+ rest))%nat.
Proof.
  intros Hn. destruct (Itoa_digits n) as [-> Hf]; [lia|]. rewrite <- digits_app. change ("" +:+ rest) with rest.
  apply digits_read; [done|lia].
Qed.

(** ** Fractions *)

(** The scale after [k] digits. *)
Fixpoint scaleAfter (k : nat) : float64 :=
  match k with O => f64 1 | S k' => fmul (scaleAfter k') (f64 10) end.

Lemma leadingFraction_step x scale n s :
  0 <= n < 10 -> 0 <= x -> x * 10 + n < 2 ^ 63 ->
  leadingFraction x scale false (String (chr (48 + n)) s) = leadingFraction (x * 10 + n) (fmul scale (f64 10)) false s.
Proof.
  intros Hn Hx Hb. destruct (code_digit n Hn) as [Ec Ed]. cbn [leadingFraction]. rewrite Ed, Ec. cbn [negb].
  replace (48 + n - 48) with n by lia.
  assert ((2 ^ 63 - 1) / 10 <? x = false) as -> by (apply Z.ltb_ge; apply Z.div_le_lower_bound; lia).
  by assert (2 ^ 63 <? x * 10 + n = false) as -> by (apply Z.ltb_ge; lia).
Qed.

Lemma leadingFraction_stop x scale s : noDigit s -> leadingFraction x scale false s = (x, scale, s).
Proof. destruct s as [|c s]; simpl; [done|]. by intros ->. Qed.

(** Digits already printed: [acc] holds [k] digits of value [f] before [rest]. *)
Definition fractionText (acc rest : string) (k : nat) (f : Z) : Prop :=
  0 <= f < 10 ^ Z.of_nat k /\
  forall x scale, 0 <= x -> x * 10 ^ Z.of_nat k + f < 2 ^ 63 ->
    leadingFraction x scale false acc =
    leadingFraction (x * 10 ^ Z.of_nat k + f) (Nat.iter k (fun s => fmul s (f64 10)) scale) false rest.

Lemma fractionText_cons acc rest k f n :
  fractionText acc rest k f -> 0 <= n < 10 ->
  fractionText (String (chr (48 + n)) acc) rest (S k) (n * 10 ^ Z.of_nat k + f).
Proof.
  intros [Hf H] Hn. unfold fractionText. rewrite Nat2Z.inj_succ, Z.pow_succ_r by lia.
  set (p := 10 ^ Z.of_nat k) in *. split; [nia|]. intros x scale Hx Hb.
  assert (0 < p) by (unfold p; apply Z.pow_pos_nonneg; lia).
  rewrite leadingFraction_step by nia. rewrite H by nia. f_equal; [|by rewrite Nat.iter_succ_r]. lia.
Qed.

Lemma mod_pow10_succ v p :
  v mod 10 ^ Z.of_nat (S p) = (v / 10) mod 10 ^ Z.of_nat p * 10 + v mod 10 /\
  v / 10 ^ Z.of_nat (S p) = v / 10 / 10 ^ Z.of_nat p.
Proof.
  rewrite Nat2Z.inj_succ, Z.pow_succ_r by lia.
  assert (0 < 10 ^ Z.of_nat p) by (apply Z.pow_pos_nonneg; lia). split.
  - rewrite Z.rem_mul_r by lia. lia.
  - by rewrite Z.div_div by lia.
Qed.

Lemma fmtFrac_printing p v acc rest k f :
  fractionText acc rest k f ->
  exists acc', fmtFrac p v true acc = ("." +:+ acc', v / 10 ^ Z.of_nat p) /\
    fractionText acc' rest (p + k) (v mod 10 ^ Z.of_nat p * 10 ^ Z.of_nat k + f).
Proof.
  revert v acc k f. induction p as [|p IH]; intros v acc k f Ht.
  - exists acc. cbn [fmtFrac]. change (10 ^ Z.of_nat 0) with 1. rewrite Z.div_1_r, Z.mod_1_r. split; [done|].
    by rewrite Nat.add_0_l, Z.mul_0_l, Z.add_0_l.
  - destruct (mod_pow10_succ v p) as [-> ->]. cbn [fmtFrac orb].
    pose proof (Z.mod_pos_bound v 10 ltac:(lia)) as Hm.
    destruct (IH (v / 10) _ _ _ (fractionText_cons _ _ _ _ _ Ht Hm)) as (acc' & E & H).
    exists acc'. split; [exact E|]. replace (S p + k)%nat with (p + S k)%nat by lia.
    replace (((v / 10) mod 10 ^ Z.of_nat p * 10 + v mod 10) * 10 ^ Z.of_nat k + f)
      with ((v / 10) mod 10 ^ Z.of_nat p * 10 ^ Z.of_nat (S k) + (v mod 10 * 10 ^ Z.of_nat k + f)); [done|].
    rewrite Nat2Z.inj_succ, Z.pow_succ_r by lia. ring.
Qed.

Lemma fmtFrac_spec p v rest :
  exists text, fmtFrac p v false rest = (text, v / 10 ^ Z.of_nat p) /\
    ((v mod 10 ^ Z.of_nat p = 0 /\ text = rest) \/
     exists k acc f, (k <= p)%nat /\ text = "." +:+ acc /\ fractionText acc rest k f /\ 0 < f /\
       f * 10 ^ Z.of_nat (p - k) = v mod 10 ^ Z.of_nat p).
Proof.
  revert v. induction p as [|p IH]; intros v.
  - exists rest. change (10 ^ Z.of_nat 0) with 1. rewrite Z.div_1_r, Z.mod_1_r. auto.
  - destruct (mod_pow10_succ v p) as [-> ->]. cbn [fmtFrac orb].
    pose proof (Z.mod_pos_bound v 10 ltac:(lia)) as Hm.
    destruct (Z.eqb_spec (v mod 10) 0) as [E|E]; cbn [negb].
    + destruct (IH (v / 10)) as (text & -> & [[H ->]|(k & acc & f & Hk & -> & Ht & Hf & Hv)]).
      * exists rest. split; [done|]. left. split; [lia|done].
      * eexists. split; [done|]. right. exists k, acc, f. split_and!; [lia|done|done|done|].
        replace (S p - k)%nat with (S (p - k)) by lia. rewrite Nat2Z.inj_succ, Z.pow_succ_r by lia. lia.
    + assert (fractionText rest rest 0 0) as H0.
      { split; [done|]. intros x scale _ _. change (10 ^ Z.of_nat 0) with 1. by rewrite Z.mul_1_r, Z.add_0_r. }
      pose proof (fractionText_cons _ _ _ _ _ H0 Hm) as H1. change (10 ^ Z.of_nat 0) with 1 in H1.
      destruct (fmtFrac_printing p (v / 10) _ _ _ _ H1) as (acc' & -> & Ht).
      eexists. split; [done|]. right. eexists (p + 1)%nat, acc', _. split_and!; [lia|done|exact Ht| |].
      * pose proof (Z.mod_pos_bound (v / 10) (10 ^ Z.of_nat p) ltac:(apply Z.pow_pos_nonneg; lia)).
        change (10 ^ Z.of_nat 1) with 10. lia.
      * replace (S p - (p + 1))%nat with 0%nat by lia. change (10 ^ Z.of_nat 0) with 1.
        change (10 ^ Z.of_nat 1) with 10. lia.
Qed.

(** ** The float arithmetic of fractions is exact here *)

Lemma fmul_ints a b : 1 <= a -> 1 <= b -> a * b < 2 ^ 53 -> fmul (f64 a) (f64 b) = f64 (a * b).
Proof.
  intros Ha Hb Hab. assert (a < 2 ^ 53 /\ b < 2 ^ 53) as [? ?] by nia.
  destruct (fmul_nearest (f64 a) (f64 b) (a * 2 ^ K) (b * 2 ^ K)) as (v & Hv & Hn);
    try (apply f64_fis; lia); try (apply mid_int; lia).
  rewrite (nearest_exact (a * 2 ^ K * (b * 2 ^ K)) (2 ^ K) v (a * b * 2 ^ K)) in Hv; [|done| |done|ring].
  - apply (fis_inj _ _ _ Hv). apply f64_fis. nia.
  - apply norm_int. nia.
Qed.

Lemma truncZ_f64 n : 1 <= n < 2 ^ 53 -> truncZ (f64 n) = n.
Proof.
  intros Hn. destruct (f64_fis n Hn) as (m & e & -> & _ & _ & He & E). unfold truncZ, K in *.
  destruct (Z.leb_spec 0 e) as [H|H].
  - rewrite Z.pow_add_r in E by lia. assert (0 < 2 ^ 600) by done. nia.
  - replace 600 with (- e + (e + 600)) in E at 1 by lia. rewrite Z.pow_add_r in E by lia.
    assert (0 < 2 ^ (e + 600)) by (apply Z.pow_pos_nonneg; lia).
    assert (0 < 2 ^ (- e)) by (apply Z.pow_pos_nonneg; lia).
    assert (Z.pos m = n * 2 ^ (- e)) as -> by nia. apply Z.div_mul. lia.
Qed.

Definition scaleOf (k : nat) : float64 := Nat.iter k (fun s => fmul s (f64 10)) (f64 1).

Lemma unit_scale (P k : nat) : In P [0; 3; 6; 9]%nat -> (k <= P)%nat ->
  fdiv (f64 (10 ^ Z.of_nat P)) (scaleOf k) = f64 (10 ^ Z.of_nat (P - k)).
Proof.
  intros HP Hk. simpl in HP. destruct HP as [<-|[<-|[<-|[<-|[]]]]].
  all: do 10 (destruct k as [|k]; [vm_compute; reflexivity|try lia]).
  all: lia.
Qed.

Lemma fraction_value (P k : nat) f :
  In P [0; 3; 6; 9]%nat -> (k <= P)%nat -> 0 < f < 10 ^ Z.of_nat k ->
  truncZ (fmul (f64 f) (fdiv (f64 (10 ^ Z.of_nat P)) (scaleOf k))) = f * 10 ^ Z.of_nat (P - k).
Proof.
  intros HP Hk Hf. rewrite unit_scale by done.
  assert (0 < 10 ^ Z.of_nat (P - k)) by (apply Z.pow_pos_nonneg; lia).
  assert (10 ^ Z.of_nat k * 10 ^ Z.of_nat (P - k) <= 10 ^ 9) as Hb.
  { rewrite <- Z.pow_add_r by lia. apply Z.pow_le_mono_r; [lia|].
    simpl in HP. destruct HP as [<-|[<-|[<-|[<-|[]]]]]; lia. }
  assert (f * 10 ^ Z.of_nat (P - k) < 2 ^ 53) by (assert (10 ^ 9 < 2 ^ 53) by done; nia).
  rewrite fmul_ints by lia. apply truncZ_f64. nia.
Qed.

(** ** One component *)

Lemma append_empty s : s +:+ "" = s.
Proof. induction s as [|c s IH]; [done|]. change (String c (s +:+ "") = String c s). by rewrite IH. Qed.

Lemma length_append_le s t : (String.length t <= String.length (s +:+ t))%nat.
Proof.
  induction s as [|c s IH]; [done|]. change (String c s +:+ t) with (String c (s +:+ t)). cbn. lia.
Qed.

Lemma beginsDigit_starts s : beginsDigit s -> startsNumber s = true.
Proof. destruct s as [|c s]; simpl; [done|]. intros ->. by rewrite orb_true_r. Qed.

(** The rest of the input after a unit. *)
Definition unitEnds (s : string) : Prop := s = "" \/ beginsDigit s.

Lemma spanUnit_stop s : unitEnds s -> spanUnit s = ("", s).
Proof. intros [->|H]; [done|]. destruct s as [|c s]; simpl in *; [done|]. rewrite H. by rewrite orb_true_r. Qed.

Fixpoint unitText (u : string) : bool :=
  match u with
  | EmptyString => true
  | String c u' => negb (Ascii.eqb c "."%char || isDigit c) && unitText u'
  end.

Lemma spanUnit_app u rest : unitText u = true -> unitEnds rest -> spanUnit (u +:+ rest) = (u, rest).
Proof.
  intros Hu Hr. induction u as [|c u IH]; simpl in *; [by apply spanUnit_stop|].
  apply andb_true_iff in Hu as [Hc Hu]. apply negb_true_iff in Hc. rewrite Hc, IH by done. done.
Qed.

(** The units the printer uses. *)
Definition printedUnits : list (string * Z) :=
  [("ns", Nanosecond); (microSign +:+ "s", Microsecond_); ("ms", Millisecond_); ("s", Second_); ("m", Minute_); ("h", Hour_)].

Lemma printedUnit_span u U rest :
  (u, U) ∈ printedUnits -> unitEnds rest ->
  unitMap u = Some U /\ spanUnit (u +:+ rest) = (u, rest) /\ noDigit (u +:+ rest) /\
  fractionPart (u +:+ rest) = (0, f64 1, u +:+ rest, false) /\ (u =? "")%string = false /\ 0 < U.
Proof.
  intros Hu Hr. unfold printedUnits in Hu. rewrite !elem_of_cons, elem_of_nil in Hu.
  destruct Hu as [[= -> ->]|[[= -> ->]|[[= -> ->]|[[= -> ->]|[[= -> ->]|[[= -> ->]|[]]]]]]].
  all: split; [reflexivity|]; split; [by apply spanUnit_app|]; done.
Qed.

Lemma component_int v u U rest :
  (u, U) ∈ printedUnits -> unitEnds rest -> 0 <= v -> v * U <= 2 ^ 63 ->
  component (Itoa v +:+ u +:+ rest) = Ok (v * U, rest).
Proof.
  intros Hu Hr Hv Hb. destruct (printedUnit_span u U rest Hu Hr) as (E1 & E2 & E3 & E4 & E5 & HU).
  destruct (Itoa_begins v (u +:+ rest) Hv) as [Hs Hl]. unfold component.
  rewrite (beginsDigit_starts _ Hs), leadingInt_Itoa by (done || nia). cbn [negb].
  rewrite (proj2 (Nat.eqb_neq _ _)) by lia. rewrite E4, E2, E5, E1. cbn [negb andb].
  assert (2 ^ 63 / U <? v = false) as -> by (apply Z.ltb_ge, Z.div_le_lower_bound; lia). done.
Qed.

Lemma component_frac (P : nat) v w u :
  (u, 10 ^ Z.of_nat P) ∈ printedUnits -> In P [0; 3; 6; 9]%nat -> 0 <= v ->
  v * 10 ^ Z.of_nat P + w mod 10 ^ Z.of_nat P <= 2 ^ 63 ->
  component (Itoa v +:+ fst (fmtFrac P w false u)) = Ok (v * 10 ^ Z.of_nat P + w mod 10 ^ Z.of_nat P, "").
Proof.
  intros Hu HP Hv Hb. assert (0 < 10 ^ Z.of_nat P) as HU by (apply Z.pow_pos_nonneg; lia).
  pose proof (Z.mod_pos_bound w _ HU) as Hw.
  destruct (fmtFrac_spec P w u) as (text & -> & [[E ->]|(k & acc & f & Hk & -> & Ht & Hf & E)]); cbn [fst].
  { rewrite E, Z.add_0_r in *. pose proof (component_int v u _ "" Hu (or_introl eq_refl) Hv Hb) as H.
    by rewrite append_empty in H. }
  destruct (printedUnit_span u _ "" Hu (or_introl eq_refl)) as (E1 & E2 & E3 & _ & E5 & _).
  rewrite append_empty in E2, E3. destruct Ht as [Hfb Ht].
  destruct (Itoa_begins v ("." +:+ acc) Hv) as [Hs Hl]. unfold component.
  rewrite (beginsDigit_starts _ Hs), leadingInt_Itoa by (done || nia). cbn [negb].
  rewrite (proj2 (Nat.eqb_neq _ _)) by lia.
  assert (f < 2 ^ 63) as Hf63.
  { assert (1 <= 10 ^ Z.of_nat (P - k)) by (apply (Z.pow_le_mono_r 10 0); lia).
    assert (10 ^ Z.of_nat P < 2 ^ 63) by (simpl in HP; destruct HP as [<-|[<-|[<-|[<-|[]]]]]; done).
    nia. }
  change (fractionPart ("." +:+ acc)) with
    (let '(f, scale, rest) := leadingFraction 0 (f64 1) false acc in
     (f, scale, rest, negb (String.length rest =? String.length acc)%nat)).
  rewrite Ht by lia. rewrite Z.mul_0_l, Z.add_0_l, (leadingFraction_stop _ _ u E3). fold (scaleOf k).
  cbn [negb andb]. rewrite E2, E5, E1.
  assert (2 ^ 63 / 10 ^ Z.of_nat P <? v = false) as -> by (apply Z.ltb_ge, Z.div_le_lower_bound; lia).
  assert (0 <? f = true) as -> by (apply Z.ltb_lt; lia).
  rewrite fraction_value, E by (done || lia).
  assert (2 ^ 63 <? v * 10 ^ Z.of_nat P + w mod 10 ^ Z.of_nat P = false) as -> by (apply Z.ltb_ge; lia). done.
Qed.

(** ** The loop *)

Lemma parseLoop_step fuel d s v rest :
  s <> "" -> component s = Ok (v, rest) -> 0 <= d + v <= 2 ^ 63 ->
  parseLoop (S fuel) d s = parseLoop fuel (d + v) rest.
Proof.
  intros Hs Hc Hb. cbn [parseLoop]. rewrite (proj2 (String.eqb_neq _ _) Hs), Hc. cbn.
  rewrite Z.mod_small by lia. by assert (2 ^ 63 <? d + v = false) as -> by (apply Z.ltb_ge; lia).
Qed.

Lemma parseLoop_end fuel d : parseLoop (S fuel) d "" = Ok d.
Proof. done. Qed.

(** Printed text [s] with [n] components of total value [v]: parsing it adds
    [v]. *)
Definition reads (s : string) (n : nat) (v : Z) : Prop :=
  beginsDigit s /\ (n <= String.length s)%nat /\
  forall fuel d, (n < fuel)%nat -> 0 <= d -> d + v <= 2 ^ 63 -> parseLoop fuel d s = Ok (d + v).

Lemma beginsDigit_nonempty s : beginsDigit s -> s <> "".
Proof. by intros H ->. Qed.

Lemma reads_last (P : nat) v w u :
  (u, 10 ^ Z.of_nat P) ∈ printedUnits -> In P [0; 3; 6; 9]%nat -> 0 <= v ->
  reads (Itoa v +:+ fst (fmtFrac P w false u)) 1 (v * 10 ^ Z.of_nat P + w mod 10 ^ Z.of_nat P).
Proof.
  intros Hu HP Hv. assert (0 < 10 ^ Z.of_nat P) as HU by (apply Z.pow_pos_nonneg; lia).
  pose proof (Z.mod_pos_bound w _ HU) as Hw.
  destruct (Itoa_begins v (fst (fmtFrac P w false u)) Hv) as [Hb Hl]. split; [done|]. split; [lia|].
  intros fuel d Hf Hd Hs. destruct fuel as [|[|fuel]]; [lia..|].
  rewrite (parseLoop_step (S fuel) d _ _ _ (beginsDigit_nonempty _ Hb) (component_frac P v w u Hu HP Hv ltac:(lia))) by lia.
  apply parseLoop_end.
Qed.

Lemma reads_int v u U rest n x :
  (u, U) ∈ printedUnits -> 0 <= v -> 0 <= x -> reads rest n x ->
  reads (Itoa v +:+ u +:+ rest) (S n) (v * U + x).
Proof.
  intros Hu Hv Hx (Hb & Hl & Hp).
  destruct (printedUnit_span u U rest Hu (or_intror Hb)) as (_ & _ & _ & _ & _ & HU).
  destruct (Itoa_begins v (u +:+ rest) Hv) as [Hb' Hl'].
  assert (String.length rest <= String.length (u +:+ rest))%nat by apply length_append_le.
  split; [done|]. split; [lia|]. intros fuel d Hf Hd Hs. destruct fuel as [|fuel]; [lia|].
  rewrite (parseLoop_step fuel d _ (v * U) rest (beginsDigit_nonempty _ Hb')).
  - rewrite Hp by nia. f_equal. lia.
  - apply component_int; [done|by right|done|nia].
  - nia.
Qed.

Lemma unit_in u U : (u, U) ∈ printedUnits <-> bool_decide ((u, U) ∈ printedUnits) = true.
Proof. by rewrite bool_decide_eq_true. Qed.

Lemma reads_under u (P : nat) unit :
  (unit, 10 ^ Z.of_nat P) ∈ printedUnits -> In P [0; 3; 6; 9]%nat -> 0 <= u -> reads (formatUnder u P unit) 1 u.
Proof.
  intros Hu HP H0. assert (0 < 10 ^ Z.of_nat P) as HU by (apply Z.pow_pos_nonneg; lia).
  unfold formatUnder. destruct (fmtFrac_spec P u unit) as (text & E & _).
  pose proof (reads_last P (u / 10 ^ Z.of_nat P) u unit Hu HP ltac:(apply Z.div_pos; lia)) as H.
  rewrite E in *. cbn [fst] in H. pose proof (Z.div_mod u (10 ^ Z.of_nat P)) as Hd.
  replace (u / 10 ^ Z.of_nat P * 10 ^ Z.of_nat P + u mod 10 ^ Z.of_nat P) with u in H by lia. done.
Qed.

Lemma reads_formatAbs u : 0 <= u -> exists n, reads (formatAbs u) n u.
Proof.
  intros Hu. unfold formatAbs. destruct (Z.ltb_spec u Second_) as [Hs|Hs].
  - destruct (Z.eqb_spec u 0) as [->|Hn].
    { exists 1%nat. change "0s" with (Itoa 0 +:+ fst (fmtFrac 9 0 false "s")).
      apply (reads_last 9 0 0 "s"); [by apply unit_in|simpl; tauto|done]. }
    exists 1%nat. destruct (u <? Microsecond_); [|destruct (u <? Millisecond_)].
    all: apply reads_under; [by apply unit_in|simpl; tauto|done].
  - destruct (fmtFrac_spec 9 u "s") as (frac & E & _). pose proof (fun v => reads_last 9 v u "s") as Hlast.
    rewrite E in *. cbn [fst] in Hlast. change (10 ^ Z.of_nat 9) with Second_ in *.
    set (secs := u / Second_) in *.
    assert (0 <= secs /\ u = secs * Second_ + u mod Second_) as [Hsec Eu].
    { split; [apply Z.div_pos; unfold Second_ in *; lia|].
      pose proof (Z.div_mod u Second_ ltac:(done)) as D0. fold secs in D0. lia. }
    pose proof (Z.mod_pos_bound u Second_ ltac:(done)) as Hmod.
    pose proof (Z.div_mod secs 60 ltac:(lia)) as D1. pose proof (Z.mod_pos_bound secs 60 ltac:(lia)) as M1.
    assert (0 <= secs / 60) as P1 by (apply Z.div_pos; lia).
    specialize (Hlast (secs mod 60) ltac:(by apply unit_in) ltac:(simpl; tauto) ltac:(lia)).
    cbv zeta. destruct (Z.ltb_spec 0 (secs / 60)).
    + pose proof (Z.div_mod (secs / 60) 60 ltac:(lia)) as D2. pose proof (Z.mod_pos_bound (secs / 60) 60 ltac:(lia)) as M2.
      assert (0 <= secs / 60 / 60) as P2 by (apply Z.div_pos; lia).
      assert (0 <= secs mod 60 * Second_ + u mod Second_) as N1 by (unfold Second_ in *; lia).
      pose proof (reads_int (secs / 60 mod 60) "m" Minute_ _ _ _ ltac:(by apply unit_in) ltac:(lia) N1 Hlast) as Hm.
      destruct (Z.ltb_spec 0 (secs / 60 / 60)).
      * assert (0 <= secs / 60 mod 60 * Minute_ + (secs mod 60 * Second_ + u mod Second_)) as N2
          by (unfold Minute_, Second_ in *; lia).
        pose proof (reads_int (secs / 60 / 60) "h" Hour_ _ _ _ ltac:(by apply unit_in) ltac:(lia) N2 Hm) as Hh.
        exists 3%nat. rewrite Eu. unfold Hour_, Minute_ in *.
        replace (secs * Second_ + u mod Second_) with
          (secs / 60 / 60 * (60 * (60 * Second_)) + (secs / 60 mod 60 * (60 * Second_) + (secs mod 60 * Second_ + u mod Second_)));
          [done|]. unfold Second_ in *. lia.
      * exists 2%nat. rewrite Eu. unfold Minute_ in *.
        replace (secs * Second_ + u mod Second_) with
          (secs / 60 mod 60 * (60 * Second_) + (secs mod 60 * Second_ + u mod Second_)); [done|].
        unfold Second_ in *. lia.
    + exists 1%nat. rewrite Eu. replace (secs * Second_) with (secs mod 60 * Second_) by (f_equal; lia). done.
Qed.

(** Parsing inverts printing, on every duration. *)
Lemma ParseDuration_String d : in_int64 d -> ParseDuration (DurationString d) = Ok d.
Proof.
  unfold in_int64. intros Hd.
  assert (forall u, 0 <= u <= 2 ^ 63 -> exists c s, formatAbs u = String c s /\ isDigit c = true /\
    (formatAbs u =? "0")%string = false /\ parseLoop (S (String.length (formatAbs u))) 0 (formatAbs u) = Ok u) as Habs.
  { intros u Hu. destruct (reads_formatAbs u ltac:(lia)) as (n & Hb & Hl & Hp).
    specialize (Hp (S (String.length (formatAbs u))) 0 ltac:(lia) ltac:(lia) ltac:(lia)).
    destruct (formatAbs u) as [|c s] eqn:E; [done|]. exists c, s. split_and!; [done|done| |done].
    apply String.eqb_neq. intros E0. rewrite E0 in Hp. vm_compute in Hp. done. }
  unfold ParseDuration, DurationString. destruct (Z.ltb_spec d 0) as [Hn|Hn].
  - destruct (Habs (- d)) as (c & s & E & _ & E0 & Hp); [lia|].
    change ("-" +:+ formatAbs (- d)) with (String "-" (formatAbs (- d))). cbv match. cbn [Ascii.eqb Bool.eqb].
    rewrite E0, Hp. rewrite E at 1. cbn. rewrite Z.opp_involutive. f_equal. apply wrap64_id. unfold in_int64. lia.
  - destruct (Habs d) as (c & s & E & Hc & E0 & Hp); [lia|]. rewrite E in *.
    assert (Ascii.eqb c "-" = false) as -> by (destruct (Ascii.eqb_spec c "-") as [->|]; done).
    assert (Ascii.eqb c "+" = false) as -> by (destruct (Ascii.eqb_spec c "+") as [->|]; done).
    rewrite E0, Hp. cbn. by assert (2 ^ 63 - 1 <? d = false) as -> by (apply Z.ltb_ge; lia).
Qed.
