(* ===== verification/GoParse.v ===== *)
(** * strings and strconv: splitting, trimming and reading numbers.

    Strings are byte strings; a Unicode space is recognised by its UTF-8
    encoding, which can only occur where a rune starts.  [ParseFloat] reads the
    decimal and hexadecimal syntax of Go and rounds the exact value once. *)

From S2P Require Import Prelude.
From S2P Require Import GoStrings.
From S2P Require Import Float64.
From S2P Require Import GoFmt.
From S2P Require Import GoTime.
From Stdlib Require Import Ascii.

(** ** Slices and searching *)

(** [s[lo:hi]] *)
Definition sliceOf {E} (s : string) (lo hi : nat) : res E string :=
  if ((lo <=? hi) && (hi <=? String.length s))%nat
  then Ok (GoStrings.take (hi - lo) (GoStrings.drop lo s)) else Panic IndexOutOfRange.

(** [strings.IndexByte]; [None] is -1. *)
Fixpoint IndexByte (s : string) (c : ascii) : option nat :=
  match s with
  | EmptyString => None
  | String d s' => if (d =? c)%char then Some O else S <$> IndexByte s' c
  end.

(** [strings.Split] at a one-byte separator. *)
Fixpoint Split (s : string) (sep : ascii) : list string :=
  match s with
  | EmptyString => [""]
  | String c s' =>
      let parts := Split s' sep in
      if (c =? sep)%char then "" :: parts
      else match parts with x :: xs => String c x :: xs | [] => [String c ""] end
  end.

(** ** White space *)

Definition bytesStr (l : list Z) : string := String.string_of_list_ascii (chr <$> l).

(** [unicode.IsSpace]: the encodings of the runes with the White_Space property. *)
Definition spaces : list string := bytesStr <$>
  ([[9]; [10]; [11]; [12]; [13]; [32]; [194; 133]; [194; 160]; [225; 154; 128]] ++
   ((fun z => [226; 128; z]) <$> [128; 129; 130; 131; 132; 133; 134; 135; 136; 137; 138; 168; 169; 175]) ++
   [[226; 129; 159]; [227; 128; 128]]).

(** The length of the space [s] begins with; 0 if it begins with none. *)
Definition spaceWidth (s : string) : nat :=
  match List.find (HasPrefix s) spaces with Some sp => String.length sp | None => O end.

(** [skip] bytes of the space being read are left. *)
Fixpoint trimLeftSpace (skip : nat) (s : string) : string :=
  match s with
  | EmptyString => EmptyString
  | String _ s' =>
      match skip with
      | S k => trimLeftSpace k s'
      | O => match spaceWidth s with O => s | S k => trimLeftSpace k s' end
      end
  end.

Fixpoint trimRightSpace (s : string) : string :=
  match s with
  | EmptyString => EmptyString
  | String c s' => let t := String c (trimRightSpace s') in if existsb (String.eqb t) spaces then "" else t
  end.

Definition TrimSpace (s : string) : string := trimRightSpace (trimLeftSpace 0 s).

Definition flush (cur : string) (rest : list string) : list string :=
  match cur with EmptyString => rest | _ => cur :: rest end.

Fixpoint fieldsFrom (skip : nat) (cur : string) (s : string) : list string :=
  match s with
  | EmptyString => flush cur []
  | String c s' =>
      match skip with
      | S k => fieldsFrom k cur s'
      | O => match spaceWidth s with
             | O => fieldsFrom 0 (cur +:+ String c "") s'
             | S k => flush cur (fieldsFrom k "" s')
             end
      end
  end.

Definition Fields (s : string) : list string := fieldsFrom 0 "" s.

(** [strings.Trim] with a one-byte cutset. *)
Fixpoint trimLeftByte (c : ascii) (s : string) : string :=
  match s with String d s' => if (d =? c)%char then trimLeftByte c s' else s | _ => s end.
Fixpoint trimRightByte (c : ascii) (s : string) : string :=
  match s with
  | EmptyString => EmptyString
  | String d s' => let t := String d (trimRightByte c s') in if (t =? String c "")%string then "" else t
  end.
Definition TrimByte (s : string) (c : ascii) : string := trimRightByte c (trimLeftByte c s).

Example split_lines : Split "a,b,,c" "," = ["a"; "b"; ""; "c"]. Proof. reflexivity. Qed.
Example fields_runs : Fields ("  up" +:+ bytesStr [194; 160; 9] +:+ "1  7 ") = ["up"; "1"; "7"]. Proof. reflexivity. Qed.
Example trim_both : TrimSpace (bytesStr [32; 227; 128; 128] +:+ "a b" +:+ bytesStr [194; 133; 10]) = "a b". Proof. reflexivity. Qed.
Example trim_quotes : TrimByte (bytesStr [34; 120; 34; 34]) (chr 34) = "x". Proof. reflexivity. Qed.

(** ** [strconv.ParseFloat(s, 64)] *)

Definition lower (c : ascii) : ascii := toLowerASCII c.

(** A sign and what follows it. *)
Definition splitSign (s : string) : bool * string :=
  match s with
  | String c s' => if (c =? "-")%char then (true, s') else if (c =? "+")%char then (false, s') else (false, s)
  | _ => (false, s)
  end.

(** [special]: infinities, signed or not, and NaN, in any case. *)
Definition special (s : string) : option float64 :=
  let '(neg, t) := splitSign s in
  let low := map_str lower t in
  if ((low =? "inf") || (low =? "infinity"))%string then Some (S754_infinity neg)
  else if (map_str lower s =? "nan")%string then Some NaN else None.

Definition digitValue (hex : bool) (c : ascii) : option Z :=
  if isDigit c then Some (code c - 48)
  else if hex && (97 <=? code (lower c)) && (code (lower c) <=? 102) then Some (code (lower c) - 87)
  else None.

(** The digits of the mantissa as one integer, how many of them follow the
    point, whether there is one at all, and the unread rest. *)
Fixpoint readMantissa (hex : bool) (m frac : Z) (sawdot sawdigits : bool) (s : string) : Z * Z * bool * string :=
  match s with
  | EmptyString => (m, frac, sawdigits, s)
  | String c s' =>
      if (c =? "_")%char then readMantissa hex m frac sawdot sawdigits s'
      else if (c =? ".")%char then
        if sawdot then (m, frac, sawdigits, s) else readMantissa hex m frac true sawdigits s'
      else match digitValue hex c with
           | Some d => readMantissa hex (m * (if hex then 16 else 10) + d) (if sawdot then frac + 1 else frac) sawdot true s'
           | None => (m, frac, sawdigits, s)
           end
  end.

(** The digits of an exponent, which stops growing at 10000. *)
Fixpoint readExponent (e : Z) (s : string) : Z * string :=
  match s with
  | EmptyString => (e, s)
  | String c s' =>
      if (c =? "_")%char then readExponent e s'
      else if isDigit c then readExponent (if e <? 10000 then e * 10 + (code c - 48) else e) s'
      else (e, s)
  end.

(** The optional exponent (required after a hexadecimal mantissa), which must be
    all that is left. *)
Definition exponentOf (hex : bool) (s : string) : option Z :=
  match s with
  | EmptyString => if hex then None else Some 0
  | String c s' =>
      if (lower c =? (if hex then "p" else "e"))%char then
        let '(neg, t) := splitSign s' in
        match t with
        | String d _ =>
            if isDigit d then
              let '(e, rest) := readExponent 0 t in
              match rest with EmptyString => Some (if (neg : bool) then - e else e) | _ => None end
            else None
        | EmptyString => None
        end
      else None
  end.

(** [underscoreOK]: only between digits, or between a base prefix and a digit. *)
Inductive seen := SawStart | SawDigit | SawUnderscore | SawOther.

Fixpoint underscores (hex : bool) (saw : seen) (s : string) : bool :=
  match s with
  | EmptyString => match saw with SawUnderscore => false | _ => true end
  | String c s' =>
      if (match digitValue hex c with Some _ => true | None => false end) then underscores hex SawDigit s'
      else if (c =? "_")%char then match saw with SawDigit => underscores hex SawUnderscore s' | _ => false end
      else match saw with SawUnderscore => false | _ => underscores hex SawOther s' end
  end.

Definition basePrefix (s : string) : option (ascii * string) :=
  match s with
  | String z (String b s') => if (z =? "0")%char then Some (lower b, s') else None
  | _ => None
  end.

Definition underscoreOK (s : string) : bool :=
  let t := snd (splitSign s) in
  match basePrefix t with
  | Some (b, t') => if ((b =? "b") || (b =? "o") || (b =? "x"))%char
                    then underscores (b =? "x")%char SawDigit t' else underscores false SawStart t
  | None => underscores false SawStart t
  end.

(** [num / den], rounded once. *)
Definition roundRatio (neg : bool) (num den : positive) : float64 :=
  fdiv (S754_finite neg num 0) (S754_finite false den 0).

(** [m * base^e]; an overflow is an error. *)
Definition makeFloat (neg : bool) (m base e : Z) : option float64 :=
  match m with
  | Zpos p =>
      let x := roundRatio neg (p * Z.to_pos (base ^ Z.max e 0)) (Z.to_pos (base ^ Z.max (- e) 0)) in
      match x with S754_infinity _ => None | _ => Some x end
  | _ => Some (S754_zero neg)
  end.

Definition readFloat (s : string) : option float64 :=
  let '(neg, t) := splitSign s in
  let '(hex, digits) :=
    match basePrefix t with
    | Some (b, String c t') => if (b =? "x")%char then (true, String c t') else (false, t)
    | _ => (false, t)
    end in
  let '(m, frac, sawdigits, rest) := readMantissa hex 0 0 false false digits in
  if negb sawdigits then None
  else match exponentOf hex rest with
       | None => None
       | Some e =>
           if contains_char "_" s && negb (underscoreOK s) then None
           else if (hex : bool) then makeFloat neg m 2 (e - 4 * frac) else makeFloat neg m 10 (e - frac)
       end.

(** The value, or [None] for a syntax or range error. *)
Definition ParseFloat (s : string) : option float64 :=
  match special s with Some x => Some x | None => readFloat s end.

Example parse_decimal : ParseFloat "12.5" = Some (fdiv (f64 25) (f64 2)). Proof. reflexivity. Qed.
Example parse_exp : ParseFloat "-1.5e+3" = Some (f64 (-1500)). Proof. reflexivity. Qed.
Example parse_tenth : ParseFloat "0.1" = Some (fdiv (f64 1) (f64 10)). Proof. reflexivity. Qed.
Example parse_inf : ParseFloat "+Inf" = Some (S754_infinity false). Proof. reflexivity. Qed.
Example parse_signed_nan : ParseFloat "-NaN" = None. Proof. reflexivity. Qed.
Example parse_hex : ParseFloat "0x1.8p1" = Some (f64 3). Proof. reflexivity. Qed.
Example parse_under : ParseFloat "1_000" = Some (f64 1000). Proof. reflexivity. Qed.
Example parse_under_bad : ParseFloat "1__0" = None. Proof. reflexivity. Qed.
Example parse_range : ParseFloat "1e999" = None. Proof. vm_compute. reflexivity. Qed.
Example parse_tiny : ParseFloat "1e-400" = Some (S754_zero false). Proof. vm_compute. reflexivity. Qed.
Example parse_denormal : ParseFloat "5e-324" = Some (S754_finite false 1 (-1074)). Proof. vm_compute. reflexivity. Qed.
Example parse_halfway : ParseFloat "9007199254740993" = Some (f64 9007199254740992). Proof. vm_compute. reflexivity. Qed.
Example parse_trailing : ParseFloat "1x" = None. Proof. reflexivity. Qed.

(** ** Facts: searching and slicing *)

Definition without (c : ascii) (s : string) : Prop := contains_char c s = false.

Lemma contains_char_app c s t : contains_char c (s +:+ t) = contains_char c s || contains_char c t.
Proof. unfold contains_char. induction s as [|d s IH]; [done|]. simpl. rewrite IH. by destruct (c =? d)%char. Qed.

Lemma without_app c s t : without c (s +:+ t) <-> without c s /\ without c t.
Proof. unfold without. rewrite contains_char_app. apply orb_false_iff. Qed.

Lemma without_cons c d s : without c (String d s) <-> c <> d /\ without c s.
Proof.
  unfold without, contains_char. simpl. rewrite orb_false_iff. by rewrite Ascii.eqb_neq.
Qed.

Lemma without_forall c p s : forallb_str p s = true -> p c = false -> without c s.
Proof.
  rewrite forallb_str_spec. intros H Hp. unfold without. apply not_true_iff_false. unfold contains_char.
  rewrite existsb_str_spec. intros (d & Hd & E). apply Ascii.eqb_eq in E as <-.
  rewrite Forall_forall in H. by rewrite (H c Hd) in Hp.
Qed.

Lemma IndexByte_app s c t : without c s -> IndexByte (s +:+ String c t) c = Some (String.length s).
Proof.
  induction s as [|d s IH]; simpl; [by rewrite Ascii.eqb_refl|].
  rewrite without_cons. intros [Hd Hs]. rewrite (proj2 (Ascii.eqb_neq d c)) by congruence. by rewrite IH.
Qed.

Lemma IndexByte_none s c : without c s -> IndexByte s c = None.
Proof.
  induction s as [|d s IH]; simpl; [done|]. rewrite without_cons. intros [Hd Hs].
  rewrite (proj2 (Ascii.eqb_neq d c)) by congruence. by rewrite IH.
Qed.

Lemma take_app_len s t : GoStrings.take (String.length s) (s +:+ t) = s.
Proof. induction s as [|c s IH]; simpl; [by destruct t|]. by rewrite IH. Qed.

Lemma drop_app_len s t : GoStrings.drop (String.length s) (s +:+ t) = t.
Proof. induction s as [|c s IH]; simpl; [by destruct t|done]. Qed.

Lemma length_app_str s t : String.length (s +:+ t) = (String.length s + String.length t)%nat.
Proof. induction s as [|c s IH]; simpl; [done|]. by rewrite IH. Qed.

Lemma take_all s : GoStrings.take (String.length s) s = s.
Proof. rewrite <- (append_empty s) at 2. apply take_app_len. Qed.

(** The slices around [m] in [a ++ m ++ b]. *)
Lemma sliceOf_app {E} a m b lo hi :
  lo = String.length a -> hi = String.length (a +:+ m) ->
  sliceOf (E := E) (a +:+ m +:+ b) lo hi = Ok m.
Proof.
  intros -> ->. unfold sliceOf. rewrite !length_app_str.
  destruct (Nat.leb_spec (String.length a) (String.length a + String.length m)); [|lia].
  destruct (Nat.leb_spec (String.length a + String.length m) (String.length a + (String.length m + String.length b))); [|lia].
  simpl. rewrite drop_app_len. do 2 f_equal.
  replace (String.length a + String.length m - String.length a)%nat with (String.length m) by lia. apply take_app_len.
Qed.

Lemma sliceOf_ok {E} s lo hi :
  (lo <= hi)%nat -> (hi <= String.length s)%nat -> exists t, sliceOf (E := E) s lo hi = Ok t.
Proof.
  intros H1 H2. unfold sliceOf. rewrite (proj2 (Nat.leb_le _ _) H1), (proj2 (Nat.leb_le _ _) H2). simpl. eauto.
Qed.

Lemma IndexByte_lt s c i : IndexByte s c = Some i -> (i < String.length s)%nat.
Proof.
  revert i. induction s as [|d s IH]; intros i; simpl; [done|]. destruct (d =? c)%char; [intros [= <-]; lia|].
  destruct (IndexByte s c) as [k|]; [|done]. intros [= <-]. specialize (IH k eq_refl). lia.
Qed.

(** Two different bytes are first found at different places. *)
Lemma IndexByte_ne s c d i : IndexByte s c = Some i -> IndexByte s d = Some i -> c = d.
Proof.
  revert i. induction s as [|x s IH]; intros i; simpl; [done|].
  destruct (Ascii.eqb_spec x c), (Ascii.eqb_spec x d); try congruence.
  - intros [= <-]. by destruct (IndexByte s d).
  - intros H1 [= <-]. by destruct (IndexByte s c).
  - destruct (IndexByte s c) as [k|] eqn:Ek; [|done]. destruct (IndexByte s d) as [l|] eqn:El; [|done].
    intros [= <-] [= <-]. by eapply IH.
Qed.

(** ** Facts: splitting and trimming *)

Lemma Split_nonempty s sep : Split s sep <> [].
Proof. destruct s as [|c s]; simpl; [done|]. destruct (_ =? _)%char; [done|]. by destruct (Split s sep). Qed.

Lemma Split_one s sep : without sep s -> Split s sep = [s].
Proof.
  induction s as [|c s IH]; simpl; [done|]. rewrite without_cons. intros [Hc Hs].
  rewrite (proj2 (Ascii.eqb_neq c sep)) by congruence. by rewrite IH.
Qed.

Lemma Split_app s sep t : without sep s -> Split (s +:+ String sep t) sep = s :: Split t sep.
Proof.
  induction s as [|c s IH]; simpl; [by rewrite Ascii.eqb_refl|]. rewrite without_cons. intros [Hc Hs].
  rewrite (proj2 (Ascii.eqb_neq c sep)) by congruence. by rewrite IH.
Qed.

Lemma Split_Join parts sep :
  parts <> [] -> Forall (without sep) parts -> Split (Join parts (String sep "")) sep = parts.
Proof.
  intros Hne H. induction H as [|x parts Hx Hp IH]; [done|]. destruct parts as [|y parts]; [by apply Split_one|].
  change (Split (x +:+ String sep (Join (y :: parts) (String sep ""))) sep = x :: y :: parts).
  rewrite Split_app by done. by rewrite IH.
Qed.

(** A byte no space begins or ends with. *)
Definition firstByte (s : string) : option ascii := match s with String c _ => Some c | _ => None end.
Fixpoint lastByte (s : string) : option ascii :=
  match s with EmptyString => None | String c EmptyString => Some c | String _ s' => lastByte s' end.

Definition solid (c : ascii) : bool :=
  negb (existsb (fun sp => bool_decide (firstByte sp = Some c) || bool_decide (lastByte sp = Some c)) spaces).

Lemma solid_spec c sp : solid c = true -> In sp spaces -> firstByte sp <> Some c /\ lastByte sp <> Some c.
Proof.
  unfold solid. rewrite negb_true_iff, <- not_true_iff_false, existsb_exists. intros H Hin.
  split; intros E; apply H; exists sp; (split; [done|]); rewrite E, (bool_decide_true (Some c = Some c)) by done; [done|apply orb_true_r].
Qed.

Lemma spaces_nonempty : Forall (fun sp => sp <> "") spaces.
Proof. apply (bool_decide_unpack _). vm_compute. exact I. Qed.

Lemma spaceWidth_solid c s : solid c = true -> spaceWidth (String c s) = O.
Proof.
  intros Hc. unfold spaceWidth. destruct (List.find _ spaces) as [sp|] eqn:E; [|done].
  apply find_some in E as [Hin Hp]. destruct (solid_spec c sp Hc Hin) as [Hf _].
  destruct sp as [|d sp]; [done|]. simpl in Hp. apply andb_true_iff in Hp as [Hd _].
  apply Ascii.eqb_eq in Hd as <-. done.
Qed.

Lemma trimRightSpace_solid s c : lastByte s = Some c -> solid c = true -> trimRightSpace s = s.
Proof.
  intros Hl Hc. assert (forall sp, In sp spaces -> lastByte sp <> Some c) as Hs
    by (intros sp Hin; by apply (solid_spec c sp)).
  clear Hc. revert Hl. induction s as [|d s IH]; [done|]. intros Hl. cbn [trimRightSpace].
  assert (trimRightSpace s = s) as ->; [destruct s; [done|by apply IH]|].
  destruct (existsb (String.eqb (String d s)) spaces) eqn:E; [|done]. apply existsb_exists in E as (sp & Hin & Heq).
  apply String.eqb_eq in Heq as <-. by apply Hs in Hin.
Qed.

Lemma TrimSpace_solid c s d :
  solid c = true -> lastByte (String c s) = Some d -> solid d = true -> TrimSpace (String c s) = String c s.
Proof.
  intros Hc Hl Hd. unfold TrimSpace. cbn [trimLeftSpace]. rewrite spaceWidth_solid by done.
  by eapply trimRightSpace_solid.
Qed.

Lemma lastByte_app s c t : lastByte (s +:+ String c t) = lastByte (String c t).
Proof.
  induction s as [|d s IH]; [done|]. change (String d s +:+ String c t) with (String d (s +:+ String c t)).
  cbn [lastByte]. rewrite IH. by destruct s.
Qed.

Lemma Fields_solid s : s <> "" -> forallb_str solid s = true -> Fields s = [s].
Proof.
  intros Hne Hs. unfold Fields. rewrite forallb_str_spec in Hs.
  assert (forall cur, fieldsFrom 0 cur s = flush (cur +:+ s) []) as H; [|rewrite H; by destruct s].
  induction s as [|c s IH]; intros cur; [by rewrite append_empty|].
  simpl in Hs. apply Forall_cons in Hs as [Hc Hs].
  cbn [fieldsFrom]. rewrite spaceWidth_solid by done. destruct s as [|d s].
  { done. }
  rewrite IH by done. by rewrite app_assoc_str.
Qed.

Lemma trimRightByte_last c s : without c s -> trimRightByte c (s +:+ String c "") = s.
Proof.
  induction s as [|d s IH]; [by simpl; rewrite Ascii.eqb_refl|]. rewrite without_cons. intros [Hd Hs].
  change (String d s +:+ String c "") with (String d (s +:+ String c "")). cbn [trimRightByte].
  rewrite IH by done. destruct (String.eqb_spec (String d s) (String c "")); [congruence|done].
Qed.

(** A quoted value without quotes inside. *)
Lemma TrimByte_quoted c s : without c s -> TrimByte (String c (s +:+ String c "")) c = s.
Proof.
  intros Hs. unfold TrimByte. cbn [trimLeftByte]. rewrite Ascii.eqb_refl.
  destruct s as [|d s]; simpl; [by rewrite Ascii.eqb_refl|]. pose proof Hs as Hs'. apply without_cons in Hs as [Hd Hs].
  rewrite (proj2 (Ascii.eqb_neq d c)) by congruence. apply (trimRightByte_last c (String d s)). done.
Qed.
