(* ===== verification/Types.v ===== *)
(** * pkg/types: statuses, probe configuration, probe results and the
    [Measured] view of a result that every exporter renders. *)

From S2P Require Import Prelude.
From S2P Require Import Float64.

(** ** Status *)

Inductive Status := StatusSuccess | StatusPartial | StatusFailure | StatusError | StatusUnset.

#[global] Instance Status_eq_dec : EqDecision Status.
Proof. solve_decision. Defined.

(** [Status] is a Go string type; a result whose status was never assigned
    holds the empty string, [StatusUnset]. *)
Definition statusString (s : Status) : string :=
  match s with
  | StatusSuccess => "success"
  | StatusPartial => "partial"
  | StatusFailure => "failure"
  | StatusError => "error"
  | StatusUnset => ""
  end.

Definition IsSuccess (s : Status) : bool := bool_decide (s = StatusSuccess).
Definition IsUp (s : Status) : bool :=
  bool_decide (s = StatusSuccess) || bool_decide (s = StatusPartial).
Definition IsError (s : Status) : bool := bool_decide (s = StatusError).

Definition ProbeTypeICMP : string := "icmp".
Definition ProbeTypeTCP : string := "tcp".
Definition ProbeTypeUDP : string := "udp".
Definition ProbeTypeDNS : string := "dns".
Definition ProbeTypeHTTP : string := "http".

(** ** Configuration *)

Record HTTPConfig := {
  http_Scheme : string;
  http_Port : Z;
  http_Path : string;
  http_Method : string;
  http_ExpectedStatus : Z;
  http_FollowRedirects : bool;
  http_TLSExpiryWarningDays : Z
}.

Definition TCPModeConnect : string := "connect".
Definition TCPModeSYN : string := "syn".

Record TCPConfig := { tcp_Port : Z; tcp_Mode : string }.

Record UDPConfig := {
  udp_Port : Z;
  udp_Payload : string;
  udp_ExpectedResponse : string
}.

Record DNSConfig := {
  dns_RecordType : string;
  dns_Resolver : string;
  dns_ExpectedAnswer : list string
}.

(** Durations are int64 nanoseconds.  A Go map may be nil: [Labels] is an
    option. *)
Record ProbeConfig := {
  Name : string;
  Type_ : string;
  Targets : list string;
  MaxResolvedIPs : Z;
  SourceIP : string;
  Interval : Z;
  PacketInterval : Z;
  Timeout : Z;
  Count : Z;
  Labels : option (gmap string string);
  HTTP : option HTTPConfig;
  TCP : option TCPConfig;
  UDP : option UDPConfig;
  DNS : option DNSConfig
}.

(** ** Results *)

Record ProbeResult := {
  Timestamp : Z;
  ProbeName : string;
  Target : string;
  FQDN : string;
  res_SourceIP : string;
  ProbeType : string;
  PacketsSent : Z;
  PacketsReceived : Z;
  RTTMinMS : float64;
  RTTMeanMS : float64;
  RTTMaxMS : float64;
  RTTStddevMS : float64;
  DurationMS : float64;
  PacketLossRatio : float64;
  PortOpen : option bool;
  res_Status : Status;
  ErrorMsg : string;
  ErrorType : string;
  res_Labels : option (gmap string string)
}.

(** The zero [float64]. *)
Definition f64_zero : float64 := S754_zero false.

(** Field updates, one per group of assignments the probers make. *)

Definition setError (r : ProbeResult) (errType errMsg : string) : ProbeResult :=
  {| Timestamp := Timestamp r; ProbeName := ProbeName r; Target := Target r; FQDN := FQDN r;
     res_SourceIP := res_SourceIP r; ProbeType := ProbeType r;
     PacketsSent := PacketsSent r; PacketsReceived := PacketsReceived r;
     RTTMinMS := RTTMinMS r; RTTMeanMS := RTTMeanMS r; RTTMaxMS := RTTMaxMS r;
     RTTStddevMS := RTTStddevMS r; DurationMS := DurationMS r;
     PacketLossRatio := PacketLossRatio r; PortOpen := PortOpen r;
     res_Status := StatusError; ErrorMsg := errMsg; ErrorType := errType;
     res_Labels := res_Labels r |}.

Definition setCounts (r : ProbeResult) (sent received : Z) : ProbeResult :=
  {| Timestamp := Timestamp r; ProbeName := ProbeName r; Target := Target r; FQDN := FQDN r;
     res_SourceIP := res_SourceIP r; ProbeType := ProbeType r;
     PacketsSent := sent; PacketsReceived := received;
     RTTMinMS := RTTMinMS r; RTTMeanMS := RTTMeanMS r; RTTMaxMS := RTTMaxMS r;
     RTTStddevMS := RTTStddevMS r; DurationMS := DurationMS r;
     PacketLossRatio := PacketLossRatio r; PortOpen := PortOpen r;
     res_Status := res_Status r; ErrorMsg := ErrorMsg r; ErrorType := ErrorType r;
     res_Labels := res_Labels r |}.

Definition setLoss (r : ProbeResult) (loss : float64) (s : Status) : ProbeResult :=
  {| Timestamp := Timestamp r; ProbeName := ProbeName r; Target := Target r; FQDN := FQDN r;
     res_SourceIP := res_SourceIP r; ProbeType := ProbeType r;
     PacketsSent := PacketsSent r; PacketsReceived := PacketsReceived r;
     RTTMinMS := RTTMinMS r; RTTMeanMS := RTTMeanMS r; RTTMaxMS := RTTMaxMS r;
     RTTStddevMS := RTTStddevMS r; DurationMS := DurationMS r;
     PacketLossRatio := loss; PortOpen := PortOpen r;
     res_Status := s; ErrorMsg := ErrorMsg r; ErrorType := ErrorType r;
     res_Labels := res_Labels r |}.

Definition setRTT (r : ProbeResult) (mn mean mx sd : float64) : ProbeResult :=
  {| Timestamp := Timestamp r; ProbeName := ProbeName r; Target := Target r; FQDN := FQDN r;
     res_SourceIP := res_SourceIP r; ProbeType := ProbeType r;
     PacketsSent := PacketsSent r; PacketsReceived := PacketsReceived r;
     RTTMinMS := mn; RTTMeanMS := mean; RTTMaxMS := mx; RTTStddevMS := sd;
     DurationMS := DurationMS r;
     PacketLossRatio := PacketLossRatio r; PortOpen := PortOpen r;
     res_Status := res_Status r; ErrorMsg := ErrorMsg r; ErrorType := ErrorType r;
     res_Labels := res_Labels r |}.

Definition setDuration (r : ProbeResult) (d : float64) : ProbeResult :=
  {| Timestamp := Timestamp r; ProbeName := ProbeName r; Target := Target r; FQDN := FQDN r;
     res_SourceIP := res_SourceIP r; ProbeType := ProbeType r;
     PacketsSent := PacketsSent r; PacketsReceived := PacketsReceived r;
     RTTMinMS := RTTMinMS r; RTTMeanMS := RTTMeanMS r; RTTMaxMS := RTTMaxMS r;
     RTTStddevMS := RTTStddevMS r; DurationMS := d;
     PacketLossRatio := PacketLossRatio r; PortOpen := PortOpen r;
     res_Status := res_Status r; ErrorMsg := ErrorMsg r; ErrorType := ErrorType r;
     res_Labels := res_Labels r |}.

Definition setPortOpen (r : ProbeResult) (b : bool) : ProbeResult :=
  {| Timestamp := Timestamp r; ProbeName := ProbeName r; Target := Target r; FQDN := FQDN r;
     res_SourceIP := res_SourceIP r; ProbeType := ProbeType r;
     PacketsSent := PacketsSent r; PacketsReceived := PacketsReceived r;
     RTTMinMS := RTTMinMS r; RTTMeanMS := RTTMeanMS r; RTTMaxMS := RTTMaxMS r;
     RTTStddevMS := RTTStddevMS r; DurationMS := DurationMS r;
     PacketLossRatio := PacketLossRatio r; PortOpen := Some b;
     res_Status := res_Status r; ErrorMsg := ErrorMsg r; ErrorType := ErrorType r;
     res_Labels := res_Labels r |}.

(** [result.Status], [result.ErrorType] and [result.ErrorMsg] without a change
    of the loss. *)
Definition setStatus (r : ProbeResult) (s : Status) : ProbeResult :=
  setLoss r (PacketLossRatio r) s.

Definition setErrorInfo (r : ProbeResult) (s : Status) (errType errMsg : string) : ProbeResult :=
  setStatus (setError r errType errMsg) s.

(** ** Measured *)

Record RTT := { MinMS : float64; MeanMS : float64; MaxMS : float64; StddevMS : float64 }.

Record Measured := {
  m_RTT : option RTT;
  m_Loss : option float64;
  m_Duration : option float64;
  m_PortOpen : option bool
}.

Definition measured (r : ProbeResult) : Measured :=
  {| m_RTT :=
       if negb (ProbeType r =? ProbeTypeHTTP)%string && (0 <? PacketsReceived r)
       then Some {| MinMS := RTTMinMS r; MeanMS := RTTMeanMS r;
                    MaxMS := RTTMaxMS r; StddevMS := RTTStddevMS r |}
       else None;
     m_Loss := if negb (IsError (res_Status r)) then Some (PacketLossRatio r) else None;
     m_Duration :=
       if (ProbeType r =? ProbeTypeHTTP)%string && fltb f64_zero (DurationMS r)
       then Some (DurationMS r) else None;
     m_PortOpen := PortOpen r |}.
