(* ===== verification/Sha256.v ===== *)
(** * Go's [crypto/sha256] and [encoding/hex], as used by the configuration
    fingerprint: FIPS 180-4 SHA-256 over byte lists, executable, checked on the
    published test vectors. *)

From S2P Require Import Prelude.
From S2P Require Import GoStrings.

Definition rotr (x n : Z) : Z := Z.lor (Z.shiftr x n) (uint32 (Z.shiftl x (32 - n))).
Definition add32 (x y : Z) : Z := uint32 (x + y).

Definition Ch (x y z : Z) : Z := Z.lxor (Z.land x y) (Z.land (Z.lxor x (2 ^ 32 - 1)) z).
Definition Maj (x y z : Z) : Z := Z.lxor (Z.lxor (Z.land x y) (Z.land x z)) (Z.land y z).
Definition Sigma0 (x : Z) : Z := Z.lxor (Z.lxor (rotr x 2) (rotr x 13)) (rotr x 22).
Definition Sigma1 (x : Z) : Z := Z.lxor (Z.lxor (rotr x 6) (rotr x 11)) (rotr x 25).
Definition sigma0 (x : Z) : Z := Z.lxor (Z.lxor (rotr x 7) (rotr x 18)) (Z.shiftr x 3).
Definition sigma1 (x : Z) : Z := Z.lxor (Z.lxor (rotr x 17) (rotr x 19)) (Z.shiftr x 10).

(** ** The constants

    FIPS 180-4 defines them as the first 32 bits of the fractional parts of the
    cube roots of the first 64 primes, and of the square roots of the first 8. *)

Definition isPrime (n : nat) : bool :=
  (2 <=? n)%nat && forallb (fun d => negb (n mod d =? 0)%nat) (seq 2 (n - 2)).

Definition primes : list Z := Z.of_nat <$> List.filter isPrime (seq 2 310).

(** The integer [d]-th root, bit by bit from bit 40 down. *)
Definition iroot (d n : Z) : Z :=
  foldl (fun r k => let r' := r + 2 ^ Z.of_nat k in if r' ^ d <=? n then r' else r) 0 (rev (seq 0 41)).

Definition rootFraction (d p : Z) : Z := uint32 (iroot d (p * 2 ^ (32 * d))).

Definition roundConstants : list Z := Eval vm_compute in rootFraction 3 <$> primes.
Definition initialHash : list Z := Eval vm_compute in rootFraction 2 <$> firstn 8 primes.

(** Big-endian bytes of a word, and back. *)
Fixpoint bytesBE (n : nat) (z : Z) : list Z :=
  match n with
  | O => []
  | S n' => Z.shiftr z (8 * Z.of_nat n') mod 256 :: bytesBE n' z
  end.
Definition wordBE (b : list Z) : Z := foldl (fun acc x => acc * 256 + x) 0 b.

Definition pad (msg : list Z) : list Z :=
  let n := Z.of_nat (length msg) in
  let zeros := Z.to_nat ((55 - n) mod 64) in
  msg ++ [128] ++ replicate zeros 0 ++ bytesBE 8 (8 * n).

(** The message schedule, newest word first. *)
Fixpoint extend (n : nat) (w : list Z) : list Z :=
  match n with
  | O => w
  | S n' =>
      let at_ i := nth i w 0 in
      extend n' (add32 (add32 (sigma1 (at_ 1%nat)) (at_ 6%nat)) (add32 (sigma0 (at_ 14%nat)) (at_ 15%nat)) :: w)
  end.

Definition shaRound (st : list Z) (kw : Z * Z) : list Z :=
  match st with
  | [a; b; c; d; e; f; g; h] =>
      let t1 := add32 (add32 h (Sigma1 e)) (add32 (Ch e f g) (add32 (fst kw) (snd kw))) in
      let t2 := add32 (Sigma0 a) (Maj a b c) in
      [add32 t1 t2; a; b; c; add32 d t1; e; f; g]
  | _ => st
  end.

Definition words (block : list Z) : list Z :=
  (fun i => wordBE (firstn 4 (skipn (4 * i) block))) <$> seq 0 16.

Definition compress (H block : list Z) : list Z :=
  let w := reverse (extend 48 (reverse (words block))) in
  zip_with add32 H (foldl shaRound H (zip roundConstants w)).

Fixpoint blocks (fuel : nat) (m : list Z) : list (list Z) :=
  match fuel with
  | O => []
  | S f => match m with [] => [] | _ => firstn 64 m :: blocks f (skipn 64 m) end
  end.

Definition sha256 (msg : list Z) : list Z :=
  let m := pad msg in
  concat (bytesBE 4 <$> foldl compress initialHash (blocks (length m) m)).

(** [hex.EncodeToString] *)
Fixpoint EncodeToString (b : list Z) : string :=
  match b with
  | [] => ""
  | x :: b' => String (hexDigit (x / 16)) (String (hexDigit (x mod 16)) (EncodeToString b'))
  end.

Definition bytesOf (s : string) : list Z := code <$> String.list_ascii_of_string s.

Example sha256_empty : EncodeToString (sha256 []) =
  "e3b0c44298fc1c149afbf4c8996fb92427ae41e4649b934ca495991b7852b855".
Proof. vm_compute. reflexivity. Qed.
Example sha256_abc : EncodeToString (sha256 (bytesOf "abc")) =
  "ba7816bf8f01cfea414140de5dae2223b00361a396177a9cb410ff61f20015ad".
Proof. vm_compute. reflexivity. Qed.
Example sha256_two_blocks :
  EncodeToString (sha256 (bytesOf "abcdbcdecdefdefgefghfghighijhijkijkljklmklmnlmnomnopnopq")) =
  "248d6a61d20638b8e5c026930c3e6039a33ce45964ff2167f6ecedd419db06c1".
Proof. vm_compute. reflexivity. Qed.

Lemma code_inj c d : code c = code d -> c = d.
Proof.
  unfold code. intros H. apply N2Z.inj in H.
  rewrite <- (Ascii.ascii_N_embedding c), <- (Ascii.ascii_N_embedding d). by rewrite H.
Qed.

Lemma bytesOf_inj s t : bytesOf s = bytesOf t -> s = t.
Proof.
  unfold bytesOf. intros H. apply (list_fmap_eq_inj _ code_inj) in H.
  rewrite <- (String.string_of_list_ascii_of_string s), <- (String.string_of_list_ascii_of_string t).
  by rewrite H.
Qed.

Lemma bytesOf_app s t : bytesOf (s +:+ t) = bytesOf s ++ bytesOf t.
Proof. unfold bytesOf. induction s; simpl; [done|]. by f_equal. Qed.
