(* ===== verification/Probe.v ===== *)
(** * internal/probe: target expansion, the fan-out over work items, the base
    result, the attempt loop and the RTT statistics shared by the probers.

    - [ExpandTargets] (targets.go) takes the resolver as an argument;
    - [RunWorkItems] (run.go) is modelled with an explicit completion order of
      its goroutines, each of which writes its own slot of the result slice;
    - [RunLoop] (run.go) threads a world [W]: [attempt] is the prober's closure
      and [pause] the select on [ctx.Done()] and [time.After], returning whether
      [ctx.Err() != nil] afterwards. *)

From S2P Require Import Prelude.
From S2P Require Import GoStrings.
From S2P Require Import GoNet.
From S2P Require Import Float64.
From S2P Require Import Types.

(** ** targets.go *)

Record WorkItem := { wi_IP : string; wi_FQDN : string }.

#[global] Instance WorkItem_eq_dec : EqDecision WorkItem.
Proof. solve_decision. Defined.

(** A host lookup: an error text or the addresses. *)
Abbreviation lookup_result := (string + list string)%type.

(** The inner loop over the resolved addresses of one FQDN. *)
Fixpoint resolvedItems (entry : string) (maxResolvedIPs : Z) (addrs : list string)
    (seen : gset string) : list WorkItem :=
  match addrs with
  | [] => []
  | addr :: rest =>
      if bool_decide (addr ∈ seen) then resolvedItems entry maxResolvedIPs rest seen
      else
        let seen' := {[addr]} ∪ seen in
        {| wi_IP := addr; wi_FQDN := entry |} ::
        (if (0 <? maxResolvedIPs) && (maxResolvedIPs <=? Z.of_nat (size seen')) then []
         else resolvedItems entry maxResolvedIPs rest seen')
  end.

Definition expandEntry (LookupHost : string -> lookup_result) (maxResolvedIPs : Z)
    (entry : string) : list WorkItem :=
  match ParseIP entry with
  | Some _ => [{| wi_IP := entry; wi_FQDN := "" |}]
  | None =>
      match LookupHost entry with
      | inl _ | inr [] => [{| wi_IP := entry; wi_FQDN := entry |}]
      | inr addrs => resolvedItems entry maxResolvedIPs addrs ∅
      end
  end.

Definition ExpandTargets (LookupHost : string -> lookup_result) (targets : list string)
    (maxResolvedIPs : Z) : list WorkItem :=
  foldl (fun items entry => items ++ expandEntry LookupHost maxResolvedIPs entry) [] targets.

(** ** run.go: RunWorkItems *)

(** [probeOne i wi] is what the [i]-th goroutine computes; [order] is the order
    in which the goroutines store their result before [wg.Wait()] returns. *)
Definition zeroResult : ProbeResult :=
  {| Timestamp := 0; ProbeName := ""; Target := ""; FQDN := ""; res_SourceIP := "";
     ProbeType := ""; PacketsSent := 0; PacketsReceived := 0;
     RTTMinMS := f64_zero; RTTMeanMS := f64_zero; RTTMaxMS := f64_zero; RTTStddevMS := f64_zero;
     DurationMS := f64_zero; PacketLossRatio := f64_zero; PortOpen := None;
     res_Status := StatusUnset; ErrorMsg := ""; ErrorType := ""; res_Labels := None |}.

Definition storeResult {A} (items : list A) (probeOne : nat -> A -> ProbeResult)
    (results : list ProbeResult) (idx : nat) : list ProbeResult :=
  match items !! idx with
  | Some wi => <[idx := probeOne idx wi]> results
  | None => results
  end.

(** [results := make(...)], the goroutines, [wg.Wait()]. *)
Definition fanOut {A} (items : list A) (probeOne : nat -> A -> ProbeResult) (order : list nat)
    : list ProbeResult :=
  foldl (storeResult items probeOne) (replicate (length items) zeroResult) order.

Definition RunWorkItems (LookupHost : string -> lookup_result) (targets : list string)
    (maxResolvedIPs : Z) (probeOne : nat -> WorkItem -> ProbeResult) (order : list nat)
    : option (list ProbeResult) :=
  let items := ExpandTargets LookupHost targets maxResolvedIPs in
  match items with
  | [] => None
  | _ => Some (fanOut items probeOne order)
  end.

(** ** run.go: NewResult and StatusFromLoss *)

Definition NewResult (u : UnicodeTables) (now : Z) (cfg : ProbeConfig) (wi : WorkItem) (probeType : string)
    : ProbeResult * bool :=
  let result :=
    {| Timestamp := now; ProbeName := Name cfg; Target := wi_IP wi; FQDN := wi_FQDN wi;
       res_SourceIP := SourceIP cfg; ProbeType := probeType;
       PacketsSent := 0; PacketsReceived := 0;
       RTTMinMS := f64_zero; RTTMeanMS := f64_zero; RTTMaxMS := f64_zero;
       RTTStddevMS := f64_zero; DurationMS := f64_zero; PacketLossRatio := f64_zero;
       PortOpen := None; res_Status := StatusUnset; ErrorMsg := ""; ErrorType := "";
       res_Labels := Labels cfg |} in
  if negb (wi_FQDN wi =? "")%string && (wi_IP wi =? wi_FQDN wi)%string
  then (setError result "resolve_error" ("resolve target " +:+ Quote u (wi_FQDN wi) +:+ ": lookup failed"), false)
  else (result, true).

Definition StatusFromLoss (lossRatio : float64) : Status :=
  if feqb lossRatio f64_zero then StatusSuccess
  else if fleb (f64 1) lossRatio then StatusFailure
  else StatusPartial.

(** ** stats.go *)

(** The constant [msPerNano = 1.0 / 1e6], rounded once. *)
Definition msPerNano : float64 := fdiv (f64 1) (f64 1000000).

Definition minMaxSum (acc : Z * Z * Z) (s : Z) : Z * Z * Z :=
  let '(mn, mx, sum) := acc in
  (if s <? mn then s else mn, if mx <? s then s else mx, wrap64 (sum + s)).

Definition RTTStats (samples : list Z) : float64 * float64 * float64 * float64 :=
  match samples with
  | [] => (f64_zero, f64_zero, f64_zero, f64_zero)
  | s0 :: _ =>
      let '(minRTT, maxRTT, sum) := foldl minMaxSum (s0, s0, 0) samples in
      let n := f64 (Z.of_nat (length samples)) in
      let mean := fdiv (f64 sum) n in
      let variance :=
        foldl (fun v s => let d := fsub (f64 s) mean in fadd v (fmul d d)) f64_zero samples in
      (fmul (f64 minRTT) msPerNano, fmul mean msPerNano, fmul (f64 maxRTT) msPerNano,
       fmul (fsqrt (fdiv variance n)) msPerNano)
  end.

(** ** run.go: RunLoop *)

Record Attempt := { a_RTT : Z; Received : bool; a_Err : option string }.

Record LoopState := {
  ls_sent : Z;
  ls_received : Z;
  ls_samples : list Z;
  ls_lastErr : option string
}.

Definition countSent (st : LoopState) : LoopState :=
  {| ls_sent := ls_sent st + 1; ls_received := ls_received st;
     ls_samples := ls_samples st; ls_lastErr := ls_lastErr st |}.
Definition countReceived (rtt : Z) (st : LoopState) : LoopState :=
  {| ls_sent := ls_sent st; ls_received := ls_received st + 1;
     ls_samples := ls_samples st ++ [rtt]; ls_lastErr := ls_lastErr st |}.
Definition setLastErr (e : string) (st : LoopState) : LoopState :=
  {| ls_sent := ls_sent st; ls_received := ls_received st;
     ls_samples := ls_samples st; ls_lastErr := Some e |}.

Section RunLoop.
Context {W : Type}.
Variable attempt : W -> Attempt * W.
Variable pause : W -> bool * W.

(** The [for i := 0; i < count; i++] loop; [n] iterations are left and [first]
    is [i == 0]. *)
Fixpoint attemptLoop (n : nat) (first : bool) (st : LoopState) (w : W) : LoopState * W :=
  match n with
  | O => (st, w)
  | S n' =>
      let '(cancelled, w1) := if first then (false, w) else pause w in
      if cancelled then (st, w1) else
      let '(a, w2) := attempt w1 in
      let st1 := countSent st in
      match a_Err a with
      | Some e => (setLastErr e st1, w2)
      | None =>
          if negb (Received a) then attemptLoop n' false st1 w2
          else attemptLoop n' false (countReceived (a_RTT a) st1) w2
      end
  end.

(** What follows the loop: the two error cases, then loss, status and stats. *)
Definition finishLoop (result : ProbeResult) (st : LoopState) : ProbeResult * bool :=
  let result := setCounts result (ls_sent st) (ls_received st) in
  match ls_lastErr st, ls_received st =? 0 with
  | Some e, true => (setError result "probe_error" e, false)
  | _, _ =>
      if ls_sent st =? 0 then
        (setError result "cancelled" "no attempts made before context cancellation", false)
      else
        let loss := fsub (f64 1) (fdiv (f64 (ls_received st)) (f64 (ls_sent st))) in
        let result := setLoss result loss (StatusFromLoss loss) in
        if 0 <? ls_received st then
          let '(mn, mean, mx, sd) := RTTStats (ls_samples st) in
          (setRTT result mn mean mx sd, true)
        else (result, true)
  end.

Definition RunLoop (result : ProbeResult) (count : Z) (w : W) : ProbeResult * bool * W :=
  let st0 := {| ls_sent := PacketsSent result; ls_received := PacketsReceived result;
                ls_samples := []; ls_lastErr := None |} in
  let '(st, w') := attemptLoop (Z.to_nat count) true st0 w in
  let '(result', ok) := finishLoop result st in
  (result', ok, w').

(** The attempts the loop makes, in order: the history its counters summarise. *)
Fixpoint attempts (n : nat) (first : bool) (w : W) : list Attempt :=
  match n with
  | O => []
  | S n' =>
      let '(cancelled, w1) := if first then (false, w) else pause w in
      if cancelled then [] else
      let '(a, w2) := attempt w1 in
      a :: match a_Err a with Some _ => [] | None => attempts n' false w2 end
  end.
End RunLoop.

(** ** Abstract description of a run

    A run is the list of its attempts; [verdict] is the status the
    documentation promises for it. *)

Definition gotReply (a : Attempt) : bool :=
  match a_Err a with None => Received a | Some _ => false end.
Definition replies (l : list Attempt) : list Attempt := List.filter gotReply l.
Definition fatalErr (l : list Attempt) : option string := head (omap a_Err l).

Definition verdict (err : option string) (received sent : Z) : Status :=
  match err, received =? 0 with
  | Some _, true => StatusError
  | _, _ => if received =? sent then StatusSuccess
            else if received =? 0 then StatusFailure else StatusPartial
  end.

(** ** The attempt loop *)

Section LoopFacts.
Context {W : Type}.
Variable attempt : W -> Attempt * W.
Variable pause : W -> bool * W.

Lemma attempts_length n first w :
  (length (attempts attempt pause n first w) <= n)%nat.
Proof.
  revert first w. induction n as [|n IH]; intros first w; simpl; [done|].
  destruct (if first then _ else _) as [c w1]. destruct c; simpl; [lia|].
  destruct (attempt w1) as [a w2]. simpl. destruct (a_Err a); simpl; [lia|].
  specialize (IH false w2). lia.
Qed.

Lemma attempts_first n w : attempts attempt pause (S n) true w <> [].
Proof. simpl. by destruct (attempt w). Qed.

Lemma attemptLoop_counts n first st w :
  let l := attempts attempt pause n first w in
  let st' := fst (attemptLoop attempt pause n first st w) in
  ls_sent st' = ls_sent st + Z.of_nat (length l) /\
  ls_received st' = ls_received st + Z.of_nat (length (replies l)) /\
  ls_samples st' = ls_samples st ++ (a_RTT <$> replies l) /\
  ls_lastErr st' = match fatalErr l with Some e => Some e | None => ls_lastErr st end.
Proof.
  revert first st w. induction n as [|n IH]; intros first st w; simpl.
  { rewrite app_nil_r. repeat split; lia. }
  destruct (if first then _ else _) as [[] w1]; simpl.
  { rewrite app_nil_r. repeat split; lia. }
  destruct (attempt w1) as [a w2]. unfold replies, fatalErr in *.
  assert (gotReply a = match a_Err a with None => Received a | Some _ => false end) as Hg by done.
  cbn [List.filter]. rewrite Hg.
  destruct (a_Err a) as [e|] eqn:Ea; cbn [omap list_omap]; rewrite Ea; simpl.
  - rewrite app_nil_r. repeat split; lia.
  - destruct (Received a) eqn:Er; simpl.
    + destruct (IH false (countReceived (a_RTT a) (countSent st)) w2) as (H1 & H2 & H3 & H4).
      rewrite H1, H2, H3, H4. simpl. rewrite <- app_assoc. repeat split; lia.
    + destruct (IH false (countSent st) w2) as (H1 & H2 & H3 & H4).
      rewrite H1, H2, H3, H4. simpl. repeat split; lia.
Qed.
End LoopFacts.

Lemma replies_length l : (length (replies l) <= length l)%nat.
Proof. apply List.filter_length_le. Qed.

Lemma fatalErr_not_all l : fatalErr l <> None -> (length (replies l) < length l)%nat.
Proof.
  induction l as [|a l IH]; simpl; [done|]. unfold fatalErr, replies in *. simpl.
  unfold gotReply at 1. destruct (a_Err a); simpl; intros H.
  - pose proof (replies_length l). unfold replies in *. lia.
  - specialize (IH H). destruct (Received a); simpl; lia.
Qed.

(** ** Loss and status *)

Lemma StatusFromLoss_counts received sent :
  0 <= received <= sent -> 1 <= sent < 2 ^ 53 ->
  StatusFromLoss (fsub (f64 1) (fdiv (f64 received) (f64 sent))) = verdict None received sent.
Proof.
  intros Hr Hs. unfold verdict.
  destruct (Z.eqb_spec received sent) as [->|Hne].
  { by rewrite loss_ratio_full. }
  destruct (Z.eqb_spec received 0) as [->|Hnz].
  { by rewrite loss_ratio_none. }
  destruct (loss_ratio_partial received sent) as (v & Hv & Hlt); [lia..|].
  unfold StatusFromLoss. unfold f64_zero. rewrite (fis_nonzero _ _ Hv).
  rewrite (fleb_fis _ _ _ _ (f64_fis 1 ltac:(done)) Hv), Z.mul_1_l.
  by replace (2 ^ K <=? v) with false by (symmetry; apply Z.leb_gt; lia).
Qed.

Lemma finishLoop_fields result st :
  let r := fst (finishLoop result st) in
  PacketsSent r = ls_sent st /\ PacketsReceived r = ls_received st /\
  ProbeName r = ProbeName result /\ Target r = Target result /\ FQDN r = FQDN result /\
  ProbeType r = ProbeType result /\ res_SourceIP r = res_SourceIP result /\
  res_Labels r = res_Labels result /\ Timestamp r = Timestamp result /\
  PortOpen r = PortOpen result /\ DurationMS r = DurationMS result.
Proof.
  unfold finishLoop. destruct (RTTStats (ls_samples st)) as [[[? ?] ?] ?].
  by destruct (ls_lastErr st), (ls_received st =? 0); simpl; repeat goal_if.
Qed.

(** The verdict of the code after the loop, for counters that can occur. *)
Lemma finishLoop_verdict result st :
  0 <= ls_received st <= ls_sent st -> 1 <= ls_sent st < 2 ^ 53 ->
  res_Status (fst (finishLoop result st)) = verdict (ls_lastErr st) (ls_received st) (ls_sent st) /\
  snd (finishLoop result st) = negb (IsError (res_Status (fst (finishLoop result st)))).
Proof.
  intros Hr Hs. pose proof (StatusFromLoss_counts _ _ Hr Hs) as Hst.
  assert (ls_sent st =? 0 = false) as Hz by (apply Z.eqb_neq; lia).
  unfold finishLoop. rewrite Hz, Hst. destruct (RTTStats (ls_samples st)) as [[[? ?] ?] ?].
  unfold verdict. destruct (ls_lastErr st) as [e|], (ls_received st =? 0) eqn:E0;
    [done| | |]; repeat goal_if; done.
Qed.

Section RunLoopTheorems.
Context {W : Type} (attempt : W -> Attempt * W) (pause : W -> bool * W).

(** The loop's result as a function of the attempts it made. *)
Lemma RunLoop_history result count w :
  PacketsSent result = 0 -> PacketsReceived result = 0 ->
  let l := attempts attempt pause (Z.to_nat count) true w in
  fst (RunLoop attempt pause result count w) =
  finishLoop result {| ls_sent := Z.of_nat (length l);
                       ls_received := Z.of_nat (length (replies l));
                       ls_samples := a_RTT <$> replies l;
                       ls_lastErr := fatalErr l |}.
Proof.
  intros Hs Hr l. unfold RunLoop. rewrite Hs, Hr.
  set (st0 := {| ls_sent := 0; ls_received := 0; ls_samples := []; ls_lastErr := None |}).
  pose proof (attemptLoop_counts attempt pause (Z.to_nat count) true st0 w) as (H1 & H2 & H3 & H4).
  destruct (attemptLoop _ _ _ _ st0 w) as [st w'] eqn:E. fold l in H1, H2, H3, H4. simpl in *.
  destruct st as [a b c d]. simpl in *. subst.
  assert (match fatalErr l with Some e => Some e | None => None end = fatalErr l) as ->
    by by destruct (fatalErr l).
  by destruct (finishLoop _ _).
Qed.

Lemma attempts_bounds count w :
  1 <= count ->
  let l := attempts attempt pause (Z.to_nat count) true w in
  1 <= Z.of_nat (length l) <= count.
Proof.
  intros Hc l. pose proof (attempts_length attempt pause (Z.to_nat count) true w).
  assert (l <> []) as Hl.
  { subst l. destruct (Z.to_nat count) eqn:E; [lia|]. apply attempts_first. }
  fold l in H. destruct l; [done|]. simpl in *. lia.
Qed.

(** C12: [RunLoop] on a fresh result makes between one and [count] attempts,
    counts every attempt as sent and every usable reply as received, and its
    status is: error (with [ok = false]) exactly when a fatal error occurred and
    nothing was received; otherwise success when every attempt was answered,
    failure when none was, partial in between.  The loss is computed in
    binary64 and the statement holds for every count below 2^53. *)
Theorem RunLoop_verdict (result : ProbeResult) (count : Z) (w : W) :
  PacketsSent result = 0 -> PacketsReceived result = 0 -> 1 <= count < 2 ^ 53 ->
  let l := attempts attempt pause (Z.to_nat count) true w in
  let sent := Z.of_nat (length l) in
  let received := Z.of_nat (length (replies l)) in
  let '(r, ok, _) := RunLoop attempt pause result count w in
  PacketsSent r = sent /\ PacketsReceived r = received /\
  1 <= sent <= count /\ 0 <= received <= sent /\
  res_Status r = verdict (fatalErr l) received sent /\
  ok = negb (IsError (res_Status r)).
Proof.
  intros Hs Hr Hc l sent received.
  pose proof (RunLoop_history result count w Hs Hr) as Hh. fold l in Hh.
  pose proof (attempts_bounds count w ltac:(lia)) as Hb. fold l in Hb.
  pose proof (replies_length l) as Hrl.
  destruct (RunLoop _ _ _ _ _) as [[r ok] w']. simpl in Hh.
  match type of Hh with _ = finishLoop _ ?st => set (s := st) in * end.
  pose proof (finishLoop_fields result s) as (F1 & F2 & _).
  pose proof (finishLoop_verdict result s) as Hv.
  rewrite <- Hh in F1, F2, Hv. simpl in *.
  destruct Hv as [Hv1 Hv2]; [lia|lia|]. repeat split; try done; lia.
Qed.

(** with a positive count the attempt loop never reports "cancelled": the
    context is not consulted before the first attempt, so a run whose context
    is already done still makes one attempt and is judged by it. *)
Theorem RunLoop_never_cancelled (result : ProbeResult) (count : Z) (w : W) :
  PacketsSent result = 0 -> PacketsReceived result = 0 -> 1 <= count ->
  ErrorType result = "" ->
  let '(r, _, _) := RunLoop attempt pause result count w in ErrorType r <> "cancelled".
Proof.
  intros Hs Hr Hc He. pose proof (RunLoop_history result count w Hs Hr) as Hh.
  pose proof (attempts_bounds count w ltac:(lia)) as Hb. simpl in Hb.
  destruct (RunLoop _ _ _ _ _) as [[r ok] w']. cbn [fst] in Hh.
  unfold finishLoop in Hh. cbn [ls_sent ls_received ls_samples ls_lastErr] in Hh.
  destruct (RTTStats _) as [[[? ?] ?] ?].
  destruct (Z.eqb_spec (Z.of_nat (length (attempts attempt pause (Z.to_nat count) true w))) 0) as [|_]; [lia|].
  repeat case_match; injection Hh as -> ->; simpl; by rewrite ?He.
Qed.
End RunLoopTheorems.

(** A run of three attempts 1 ms apart whose second attempt is lost. *)
Definition demoAttempt (w : nat) : Attempt * nat :=
  ({| a_RTT := (Z.of_nat w + 1) * 1000000; Received := negb (w =? 1)%nat; a_Err := None |}, S w).
Definition demoPause (w : nat) : bool * nat := (false, w).

Lemma RunLoop_verdict_witness :
  let '(r, ok, _) := RunLoop demoAttempt demoPause zeroResult 3 0%nat in
  PacketsSent r = 3 /\ PacketsReceived r = 2 /\ res_Status r = StatusPartial /\ ok = true.
Proof.
  pose proof (RunLoop_verdict demoAttempt demoPause zeroResult 3 0%nat
    eq_refl eq_refl ltac:(lia)) as H.
  vm_compute in H. vm_compute. destruct H as (H1 & H2 & _ & _ & H3 & H4). auto.
Defined.

Lemma RunLoop_never_cancelled_witness :
  let '(r, _, _) := RunLoop demoAttempt (fun w => (true, w)) zeroResult 3 0%nat in
  ErrorType r <> "cancelled".
Proof.
  pose proof (RunLoop_never_cancelled demoAttempt (fun w => (true, w)) zeroResult 3 0%nat
    eq_refl eq_refl ltac:(lia) eq_refl) as H.
  exact H.
Defined.

(** ** Target expansion *)

(** The first occurrences of the addresses that are not in [seen]. *)
Fixpoint distinct (seen : gset string) (addrs : list string) : list string :=
  match addrs with
  | [] => []
  | a :: rest => if decide (a ∈ seen) then distinct seen rest
                 else a :: distinct ({[a]} ∪ seen) rest
  end.

(** What targets.go documents: a literal IP stands for itself, an unresolvable
    name yields one marker item, a resolvable name yields its distinct
    addresses in lookup order, at most [maxResolvedIPs] of them if positive. *)
Definition expandSpec (LookupHost : string -> lookup_result) (maxResolvedIPs : Z)
    (entry : string) : list WorkItem :=
  match ParseIP entry, LookupHost entry with
  | Some _, _ => [{| wi_IP := entry; wi_FQDN := "" |}]
  | None, inl _ | None, inr [] => [{| wi_IP := entry; wi_FQDN := entry |}]
  | None, inr addrs =>
      let ips := distinct ∅ addrs in
      (fun ip => {| wi_IP := ip; wi_FQDN := entry |}) <$>
        (if 0 <? maxResolvedIPs then firstn (Z.to_nat maxResolvedIPs) ips else ips)
  end.

Lemma distinct_elem seen addrs a :
  a ∈ distinct seen addrs <-> a ∈ addrs /\ a ∉ seen.
Proof.
  revert seen. induction addrs as [|b addrs IH]; intros seen; simpl.
  { split; [by intros ?%not_elem_of_nil|by intros [?%not_elem_of_nil _]]. }
  case_decide; rewrite ?elem_of_cons, IH; [|rewrite not_elem_of_union, elem_of_singleton];
    destruct (decide (a = b)) as [->|]; tauto.
Qed.

Lemma distinct_NoDup seen addrs : NoDup (distinct seen addrs).
Proof.
  revert seen. induction addrs as [|b addrs IH]; intros seen; simpl; [constructor|].
  case_decide; [done|]. constructor; [|done].
  rewrite distinct_elem, not_elem_of_union, elem_of_singleton. tauto.
Qed.

Lemma resolvedItems_distinct entry maxIPs addrs seen :
  (0 < maxIPs -> Z.of_nat (size seen) < maxIPs) ->
  resolvedItems entry maxIPs addrs seen =
  (fun ip => {| wi_IP := ip; wi_FQDN := entry |}) <$>
    (if 0 <? maxIPs then firstn (Z.to_nat (maxIPs - Z.of_nat (size seen))) (distinct seen addrs)
     else distinct seen addrs).
Proof.
  revert seen. induction addrs as [|a addrs IH]; intros seen Hs; simpl.
  { destruct (0 <? maxIPs); [by rewrite firstn_nil|done]. }
  case_bool_decide as Ha; [by rewrite decide_True, IH|]. rewrite decide_False by done.
  assert (Z.of_nat (size ({[a]} ∪ seen : gset string)) = Z.of_nat (size seen) + 1) as Hsz.
  { rewrite size_union, size_singleton; [lia|]. by apply disjoint_singleton_l. }
  rewrite Hsz. destruct (Z.ltb_spec 0 maxIPs) as [Hm|Hm]; simpl.
  - specialize (Hs Hm).
    replace (Z.to_nat (maxIPs - Z.of_nat (size seen)))
      with (S (Z.to_nat (maxIPs - (Z.of_nat (size seen) + 1)))) by lia. cbn [firstn fmap list_fmap].
    f_equal. destruct (Z.leb_spec maxIPs (Z.of_nat (size seen) + 1)).
    + by replace (Z.to_nat (maxIPs - (Z.of_nat (size seen) + 1))) with O by lia.
    + rewrite IH, Hsz by (rewrite Hsz; lia).
      by replace (0 <? maxIPs) with true by (symmetry; apply Z.ltb_lt; lia).
  - f_equal. rewrite IH by lia. by replace (0 <? maxIPs) with false by (symmetry; apply Z.ltb_ge; lia).
Qed.

Lemma expandEntry_spec LookupHost maxIPs entry :
  expandEntry LookupHost maxIPs entry = expandSpec LookupHost maxIPs entry.
Proof.
  unfold expandEntry, expandSpec. destruct (ParseIP entry); [done|].
  destruct (LookupHost entry) as [|[|a addrs]]; [done..|].
  rewrite resolvedItems_distinct, size_empty by (rewrite size_empty; lia).
  by rewrite Z.sub_0_r.
Qed.

Lemma foldl_app_concat {A B} (f : A -> list B) (l : list A) (acc : list B) :
  foldl (fun items x => items ++ f x) acc l = acc ++ concat (f <$> l).
Proof.
  revert acc. induction l as [|x l IH]; intros acc; simpl; [by rewrite app_nil_r|].
  by rewrite IH, app_assoc.
Qed.

Lemma ExpandTargets_concat LookupHost targets maxIPs :
  ExpandTargets LookupHost targets maxIPs = concat (expandSpec LookupHost maxIPs <$> targets).
Proof.
  unfold ExpandTargets. rewrite foldl_app_concat. simpl. f_equal.
  apply list_fmap_ext. intros. apply expandEntry_spec.
Qed.

Lemma expandSpec_nonempty LookupHost maxIPs entry : expandSpec LookupHost maxIPs entry <> [].
Proof.
  unfold expandSpec. destruct (ParseIP entry); [done|].
  destruct (LookupHost entry) as [|[|a addrs]]; [done..|].
  cbn [distinct]. rewrite decide_False by apply not_elem_of_empty.
  destruct (Z.ltb_spec 0 maxIPs); [|done].
  by destruct (Z.to_nat maxIPs) eqn:E; [lia|].
Qed.

(** C25: the expansion of a target list is, entry by entry and in order, the
    documented one ([expandSpec]): first occurrences of the resolved addresses,
    cut at [maxResolvedIPs]; every entry contributes at least one item, and the
    addresses of one entry are pairwise distinct. *)
Theorem ExpandTargets_refines LookupHost targets maxIPs :
  ExpandTargets LookupHost targets maxIPs = concat (expandSpec LookupHost maxIPs <$> targets) /\
  (forall entry, expandSpec LookupHost maxIPs entry <> []) /\
  (forall entry, NoDup (wi_IP <$> expandSpec LookupHost maxIPs entry)) /\
  (forall entry, 0 < maxIPs ->
     Z.of_nat (length (expandSpec LookupHost maxIPs entry)) <= maxIPs).
Proof.
  split; [apply ExpandTargets_concat|]. split; [apply expandSpec_nonempty|].
  assert (forall e (ips : list string), wi_IP <$> ((fun ip => {| wi_IP := ip; wi_FQDN := e |}) <$> ips) = ips) as Hid.
  { intros e ips. rewrite <- list_fmap_compose. apply list_fmap_id. }
  split; intros entry.
  - unfold expandSpec. destruct (ParseIP entry); [apply NoDup_singleton|].
    destruct (LookupHost entry) as [|[|a addrs]]; [apply NoDup_singleton..|].
    rewrite Hid. destruct (0 <? maxIPs); [|apply distinct_NoDup].
    eapply sublist_NoDup; [apply distinct_NoDup|apply sublist_take].
  - intros Hm. unfold expandSpec. destruct (ParseIP entry); [simpl; lia|].
    destruct (LookupHost entry) as [|[|a addrs]]; [simpl; lia..|].
    rewrite length_fmap. destruct (Z.ltb_spec 0 maxIPs); [|lia].
    rewrite length_firstn. lia.
Qed.

(** ** The fan-out *)

Lemma foldl_storeResult_length {A} (items : list A) probeOne order results :
  length (foldl (storeResult items probeOne) results order) = length results.
Proof.
  revert results. induction order as [|i order IH]; intros results; simpl; [done|].
  rewrite IH. unfold storeResult. destruct (items !! i); [apply length_insert|done].
Qed.

Lemma foldl_storeResult_lookup {A} (items : list A) probeOne order results i wi :
  items !! i = Some wi -> length results = length items -> NoDup order ->
  foldl (storeResult items probeOne) results order !! i =
  if decide (i ∈ order) then Some (probeOne i wi) else results !! i.
Proof.
  intros Hi. revert results. induction order as [|j order IH]; intros results Hl Hn; simpl; [done|].
  apply NoDup_cons in Hn as [Hj Hn].
  assert (length (storeResult items probeOne results j) = length items) as Hl'.
  { unfold storeResult. destruct (items !! j); [by rewrite length_insert|done]. }
  rewrite IH by done. unfold storeResult.
  destruct (decide (i = j)) as [->|Hne].
  - rewrite decide_False by done. rewrite decide_True by (constructor).
    rewrite Hi. apply list_lookup_insert_eq. rewrite Hl. by apply lookup_lt_Some in Hi.
  - destruct (decide (i ∈ order)).
    + by rewrite decide_True by (by constructor).
    + rewrite decide_False by (rewrite elem_of_cons; tauto).
      destruct (items !! j); [by rewrite list_lookup_insert_ne|done].
Qed.

Lemma fanOut_imap {A} (items : list A) probeOne order :
  order ≡ₚ seq 0 (length items) -> fanOut items probeOne order = imap probeOne items.
Proof.
  intros Hperm. apply list_eq_same_length with (length items).
  - by rewrite length_imap.
  - unfold fanOut. by rewrite foldl_storeResult_length, length_replicate.
  - intros i x y Hlt. destruct (lookup_lt_is_Some_2 items i Hlt) as [wi Hwi].
    unfold fanOut. rewrite foldl_storeResult_lookup with (wi := wi).
    + rewrite decide_True.
      * rewrite list_lookup_imap, Hwi. simpl. congruence.
      * rewrite Hperm. apply elem_of_seq. lia.
    + done.
    + by rewrite length_replicate.
    + rewrite Hperm. apply NoDup_seq.
Qed.

Lemma RunWorkItems_imap LookupHost targets maxIPs probeOne order :
  let items := ExpandTargets LookupHost targets maxIPs in
  order ≡ₚ seq 0 (length items) ->
  RunWorkItems LookupHost targets maxIPs probeOne order =
  match targets with [] => None | _ => Some (imap probeOne items) end.
Proof.
  intros items Hperm. unfold RunWorkItems. fold items.
  assert (items = [] <-> targets = []) as Hnil.
  { subst items. rewrite ExpandTargets_concat. destruct targets as [|t targets]; simpl; [done|].
    split; [|done]. intros [H _]%app_eq_nil. by apply expandSpec_nonempty in H. }
  destruct targets as [|t targets]; [by rewrite (proj2 Hnil)|].
  destruct items as [|it items'] eqn:Hit; [by discriminate (proj1 Hnil eq_refl)|].
  by rewrite fanOut_imap.
Qed.

(** C26: whatever the order in which the goroutines of one run finish, the
    fan-out returns exactly one result per work item, at the item's position;
    with no target it returns nil. *)
Theorem RunWorkItems_any_order LookupHost targets maxIPs probeOne order :
  let items := ExpandTargets LookupHost targets maxIPs in
  order ≡ₚ seq 0 (length items) ->
  RunWorkItems LookupHost targets maxIPs probeOne order =
  match targets with [] => None | _ => Some (imap probeOne items) end.
Proof. exact (RunWorkItems_imap LookupHost targets maxIPs probeOne order). Qed.

Definition demoLookup (host : string) : lookup_result :=
  if (host =? "dual.example")%string then inr ["192.0.2.1"; "192.0.2.2"; "192.0.2.1"]
  else inl "no such host".

Lemma RunWorkItems_any_order_witness :
  RunWorkItems demoLookup ["198.51.100.7"; "dual.example"] 0
    (fun i wi => setCounts zeroResult (Z.of_nat i) 0) [2; 0; 1]%nat
  = Some [setCounts zeroResult 0 0; setCounts zeroResult 1 0; setCounts zeroResult 2 0].
Proof.
  pose proof (RunWorkItems_any_order demoLookup ["198.51.100.7"; "dual.example"] 0
    (fun i wi => setCounts zeroResult (Z.of_nat i) 0) [2; 0; 1]%nat) as H.
  cbv zeta in H. rewrite H; [vm_compute; reflexivity|].
  change (seq 0 _) with [0; 1; 2]%nat. apply Permutation_sym.
  apply (Permutation_trans (l' := [0; 2; 1]%nat)).
  - constructor. apply perm_swap.
  - apply perm_swap.
Defined.

(** ** RTT statistics *)

Lemma sum_nonneg samples : Forall (fun s => 0 <= s) samples -> 0 <= foldr Z.add 0 samples.
Proof. induction 1; simpl; lia. Qed.

Lemma foldl_minMaxSum samples mn mx sum :
  mn <= mx -> 0 <= sum -> Forall (fun s => 0 <= s) samples ->
  sum + foldr Z.add 0 samples < 2 ^ 63 ->
  exists mn' mx', foldl minMaxSum (mn, mx, sum) samples = (mn', mx', sum + foldr Z.add 0 samples) /\
    mn' <= mn /\ mx <= mx' /\ Forall (fun s => mn' <= s <= mx') samples /\
    (mn' = mn \/ mn' ∈ samples) /\ (mx' = mx \/ mx' ∈ samples).
Proof.
  revert mn mx sum. induction samples as [|s samples IH]; intros mn mx sum Hm H0 Hf Hlt; simpl.
  { exists mn, mx. rewrite Z.add_0_r. repeat split; try lia; auto. }
  apply Forall_cons in Hf as [Hs Hf]. simpl in Hlt.
  pose proof (sum_nonneg _ Hf) as Hp. rewrite wrap64_id by (unfold in_int64; lia).
  destruct (IH (if s <? mn then s else mn) (if mx <? s then s else mx) (sum + s))
    as (mn' & mx' & -> & H1 & H2 & H3 & H4 & H5).
  { repeat goal_if; bool_prop; lia. } { lia. } { done. } { lia. }
  exists mn', mx'. rewrite Z.add_assoc. split; [done|].
  assert (mn' <= s /\ mn' <= mn) by (destruct (s <? mn) eqn:?; bool_prop; lia).
  assert (s <= mx' /\ mx <= mx') by (destruct (mx <? s) eqn:?; bool_prop; lia).
  split; [lia|]. split; [lia|]. split; [constructor; [lia|done]|].
  rewrite !elem_of_cons. destruct (s <? mn), (mx <? s); naive_solver.
Qed.

Lemma sum_bounds samples mn mx :
  Forall (fun s => mn <= s <= mx) samples ->
  mn * Z.of_nat (length samples) <= foldr Z.add 0 samples <= mx * Z.of_nat (length samples).
Proof. induction 1; simpl; [lia|]. rewrite Nat2Z.inj_succ. nia. Qed.

Lemma elem_le_sum samples s :
  Forall (fun s => 0 <= s) samples -> s ∈ samples -> s <= foldr Z.add 0 samples.
Proof.
  intros Hf Hs. revert Hf. induction Hs as [|? ? ? ? IH]; intros [? Hf]%Forall_cons; simpl.
  - pose proof (sum_nonneg _ Hf). lia.
  - specialize (IH Hf). lia.
Qed.

Lemma msPerNano_fis : exists v, fis msPerNano v /\ mid v.
Proof.
  destruct (fdiv_ints_bounds 1 1000000 0 1) as (v & Hv & Hm & _); [lia..|]. by exists v.
Qed.

(** C36: for non-negative samples whose sum stays below 2^53 ns (about 104
    days), the reported minimum, mean and maximum are ordered as binary64
    numbers, and minimum and maximum are those of the samples. *)
Theorem RTTStats_ordered samples :
  samples <> [] -> Forall (fun s => 0 <= s) samples -> foldr Z.add 0 samples < 2 ^ 53 ->
  Z.of_nat (length samples) < 2 ^ 53 ->
  exists lo hi mean sd,
    RTTStats samples = (fmul (f64 lo) msPerNano, mean, fmul (f64 hi) msPerNano, sd) /\
    lo ∈ samples /\ hi ∈ samples /\ Forall (fun s => lo <= s <= hi) samples /\
    fleb (fmul (f64 lo) msPerNano) mean = true /\ fleb mean (fmul (f64 hi) msPerNano) = true.
Proof.
  intros Hne Hf Hsum Hlen. destruct samples as [|s0 rest]; [done|].
  set (samples := s0 :: rest) in *.
  assert (0 <= s0) as H0 by by inversion Hf.
  destruct (foldl_minMaxSum samples s0 s0 0) as (lo & hi & Hfold & _ & _ & Hall & Hlo & Hhi);
    [lia|lia|done|lia|].
  assert (lo ∈ samples) as Hlo' by (destruct Hlo as [->|]; [constructor|done]).
  assert (hi ∈ samples) as Hhi' by (destruct Hhi as [->|]; [constructor|done]).
  pose proof (sum_bounds _ _ _ Hall) as Hsb.
  assert (0 <= lo) as Hlo0 by by eapply Forall_forall in Hf.
  set (sum := foldr Z.add 0 samples) in *. set (n := Z.of_nat (length samples)) in *.
  assert (1 <= n) as Hn by (subst n samples; simpl; lia).
  assert (RTTStats samples =
    let mean := fdiv (f64 sum) (f64 n) in
    (fmul (f64 lo) msPerNano, fmul mean msPerNano, fmul (f64 hi) msPerNano,
     fmul (fsqrt (fdiv (foldl (fun v s => let d := fsub (f64 s) mean in fadd v (fmul d d))
                          f64_zero samples) (f64 n))) msPerNano)) as ->.
  { unfold RTTStats. subst samples. cbv match. by rewrite Hfold. }
  do 4 eexists. split; [reflexivity|]. split; [done|]. split; [done|]. split; [done|].
  destruct msPerNano_fis as (c & Hc & Hmc).
  assert (lo <= hi) as Hlh by (eapply Forall_forall in Hall; [|exact Hlo']; lia).
  destruct (decide (sum = 0)) as [Hz|Hz].
  - assert (lo = 0 /\ hi = 0) as [-> ->].
    { pose proof (elem_le_sum _ _ Hf Hhi'). fold sum in H. lia. }
    rewrite Hz. destruct (f64_fis n) as (m & e & -> & _); [lia|].
    destruct Hc as (m' & e' & -> & _). done.
  - assert (1 <= hi < 2 ^ 53) as Hhib.
    { split; [nia|]. pose proof (elem_le_sum _ _ Hf Hhi'). fold sum in H. lia. }
    destruct (fdiv_ints_bounds sum n lo hi) as (v & Hv & Hmv & Hb); [lia..|].
    assert (forall z, 0 <= z < 2 ^ 53 -> z * 2 ^ K = 0 \/ mid (z * 2 ^ K)) as Hmid.
    { intros z Hz'. destruct (decide (z = 0)) as [->|]; [by left|]. right. apply mid_int. lia. }
    split.
    + apply (fmul_mono _ _ _ (lo * 2 ^ K) v c);
        [apply fnn_f64; lia|by right|done|done|apply Hmid; lia|by right|lia].
    + apply (fmul_mono _ _ _ v (hi * 2 ^ K) c);
        [by right|apply fnn_f64; lia|done|done|by right|apply Hmid; lia|lia].
Qed.

Lemma RTTStats_ordered_witness :
  exists lo hi mean sd,
    RTTStats [3000000; 1000000; 2000000] =
      (fmul (f64 lo) msPerNano, mean, fmul (f64 hi) msPerNano, sd) /\
    lo = 1000000 /\ hi = 3000000 /\ fleb (fmul (f64 lo) msPerNano) mean = true.
Proof.
  destruct (RTTStats_ordered [3000000; 1000000; 2000000]) as (lo & hi & mean & sd & H1 & H2 & H3 & H4 & H5 & _).
  - done.
  - repeat constructor; lia.
  - simpl; lia.
  - simpl; lia.
  - exists lo, hi, mean, sd. split; [done|]. apply Forall_cons in H4 as [? H4].
    apply Forall_cons in H4 as [? H4]. rewrite !elem_of_cons, elem_of_nil in H2, H3.
    split_and!; [lia|lia|done].
Defined.
