(* ===== verification/Config.v ===== *)
(** * internal/config: YAML shapes (schema.go), per-protocol validation
    (protocols.go), global and probe validation and the merge (validate.go).

    YAML decoding itself is a third-party package; the functions here start
    from the decoded raw structures.  What validation asks of its surroundings
    (host lookups, the local interface list, the iteration order of a Go map)
    is the record [ConfigEnv]. *)

From S2P Require Import Prelude.
From S2P Require Import GoStrings.
From S2P Require Import GoNet.
From S2P Require Import Types.
From S2P Require Import Probe.
From Stdlib Require Import Ascii.

(** ** schema.go *)

Record GlobalConfig := {
  g_Interval : Z;
  g_PacketInterval : Z;
  g_Timeout : Z;
  g_Count : Z;
  g_SourceIP : string
}.

Record StdoutExporterConfig := { stdout_Enabled : bool; stdout_Format : string }.

Record OTLPTLSConfig := { CertFile : string; KeyFile : string; CAFile : string }.

Record OTLPBatchConfig := { ExportInterval : Z; ExportTimeout : Z }.

Record OTLPRetryConfig := { retry_Enabled : bool; MaxElapsedTime : Z }.

Record OTLPExporterConfig := {
  otlp_Enabled : bool;
  Endpoint : string;
  Protocol : string;
  Insecure : bool;
  TLS : OTLPTLSConfig;
  Batch : OTLPBatchConfig;
  Retry : OTLPRetryConfig;
  ShutdownTimeout : Z
}.

Record ExportersConfig := { Stdout : StdoutExporterConfig; OTLP : OTLPExporterConfig }.
Record ServerConfig := { Listen : string }.
Record PipelineConfig := { BufferSize : Z }.

Record rawHTTPConfig := {
  rh_Scheme : string;
  rh_Port : Z;
  rh_Path : string;
  rh_Method : string;
  rh_ExpectedStatus : Z;
  rh_FollowRedirects : option bool;
  rh_TLSExpiryWarningDays : Z
}.
Record rawTCPConfig := { rt_Port : Z; rt_Mode : string }.
Record rawUDPConfig := { ru_Port : Z; ru_Payload : string; ru_ExpectedResponse : string }.
Record rawDNSConfig := { rd_RecordType : string; rd_Resolver : string; rd_ExpectedAnswer : list string }.

Record rawProbeConfig := {
  r_Name : string;
  r_Type : string;
  r_Targets : list string;
  r_MaxResolvedIPs : Z;
  r_SourceIP : string;
  r_Interval : option Z;
  r_PacketInterval : option Z;
  r_Timeout : option Z;
  r_Count : option Z;
  r_Labels : option (gmap string string);
  r_HTTP : option rawHTTPConfig;
  r_TCP : option rawTCPConfig;
  r_UDP : option rawUDPConfig;
  r_DNS : option rawDNSConfig
}.

(** [Probes] is nil when the key is absent. *)
Record rawProbeFile := { rf_Global : option GlobalConfig; rf_Probes : option (list rawProbeConfig) }.

Record rawOpsFile := { o_Exporters : ExportersConfig; o_Server : ServerConfig; o_Pipeline : PipelineConfig }.

(** ** Errors: one constructor per message, with the values it prints. *)

Inductive cfg_error :=
  | EProbeEvery | EPacketInterval | ETimeout | ECount
  | EPacketsDontFit (minDuration timeout : Z)
  | ETimeoutNotBelowInterval (timeout interval : Z)
  | EInGlobal (e : cfg_error)
  | EInProbe (name : string) (e : cfg_error)
  | EInFile (file : string) (e : cfg_error)
  | ENameRequired (index : Z)
  | ENameNotUnique (name : string)
  | ENameInTwoFiles (name prev file : string)
  | ETypeRequired
  | EUnknownType (type : string)
  | ETargetsRequired
  | ETargetUnresolved (entry cause : string)
  | ETargetNoAddresses (entry : string)
  | EQueryNameEmpty
  | EQueryNameSpace (entry : string)
  | EMaxResolvedIPs
  | ESourceIPInvalid (ip : string)
  | ESourceIPNotLocal (ip : string)
  | EInterfaces (cause : string)
  | ELabelKey (key : string)
  | ELabelValue (key : string)
  | EBlockRequired (type : string)
  | EHTTPScheme (got : string) | EHTTPPort (got : Z) | EHTTPMethod (got : string)
  | EHTTPStatus (got : Z) | EHTTPExpiryDays (got : Z)
  | ETCPPort (got : Z) | ETCPMode (got : string)
  | EUDPPort (got : Z) | EUDPExpectedWithoutPayload
  | EDNSRecordType (got : string) | EDNSResolver (cause : string)
  | EOTLPEndpoint | EOTLPProtocol (got : string) | EOTLPTLSPair | EOTLPShutdownTimeout
  | EStdoutFormat (got : string) | EBufferSize
  | EYAMLOps (cause : string) | EYAMLProbes (file cause : string)
  | EGlobalHasProbes (file : string) | EGlobalNotAllowed (file : string)
  | EReadOps (cause : string) | EReadDir (dir cause : string)
  | EReadFile (file cause : string) | ENoYAML (dir : string).

#[global] Instance cfg_error_eq_dec : EqDecision cfg_error.
Proof. solve_decision. Defined.

(** ** The environment of validation *)

Inductive NetAddr :=
  | IPNet (ip : option IP)
  | IPAddr (ip : option IP)
  | OtherAddr.

Record ConfigEnv := {
  LookupHost : string -> lookup_result;
  localInterfaceAddrs : string + list NetAddr;
  rangeLabels : gmap string string -> list (string * string);
  ResolveTCPAddr : string -> option string;
  unicodeTables : UnicodeTables
}.

(** ** validate.go: timings *)

Definition Millisecond : Z := 1000000.
Definition Second : Z := 1000000000.

Definition validateTimings (interval packetInterval timeout count : Z) : res cfg_error unit :=
  failif interval <=? 0 with EProbeEvery;;
  failif packetInterval <? Millisecond with EPacketInterval;;
  failif timeout <=? 0 with ETimeout;;
  failif count <=? 0 with ECount;;
  let minDuration := wrap64 (packetInterval * count) in
  failif timeout <=? minDuration with EPacketsDontFit minDuration timeout;;
  failif interval <=? timeout with ETimeoutNotBelowInterval timeout interval;;
  Ok ().

Definition validateGlobal (g : GlobalConfig) : res cfg_error unit :=
  wrapErr EInGlobal (validateTimings (g_Interval g) (g_PacketInterval g) (g_Timeout g) (g_Count g)).

(** ** validate.go: targets, source IP, labels *)

Definition knownProbeTypes : list string :=
  [ProbeTypeICMP; ProbeTypeHTTP; ProbeTypeTCP; ProbeTypeUDP; ProbeTypeDNS].

Definition validateOneTarget (env : ConfigEnv) (entry : string) : res cfg_error unit :=
  match ParseIP entry with
  | Some _ => Ok ()
  | None =>
      match LookupHost env entry with
      | inl cause => Err (ETargetUnresolved entry cause)
      | inr [] => Err (ETargetNoAddresses entry)
      | inr _ => Ok ()
      end
  end.

(** The characters " \t\r\n" and "\n\r\t" of the two [ContainsAny] calls. *)
Definition blankChars : string := String (chr 32) (String (chr 9) (String (chr 13) (String (chr 10) ""))).
Definition controlChars : string := String (chr 10) (String (chr 13) (String (chr 9) "")).

Definition validateDNSQueryName (entry : string) : res cfg_error unit :=
  failif (entry =? "")%string with EQueryNameEmpty;;
  failif ContainsAny entry blankChars with EQueryNameSpace entry;;
  Ok ().

Definition validateTargets (env : ConfigEnv) (r : rawProbeConfig) : res cfg_error unit :=
  failif (length (r_Targets r) =? 0)%nat with ETargetsRequired;;
  let validate := if (r_Type r =? ProbeTypeDNS)%string then validateDNSQueryName
                  else validateOneTarget env in
  forEach validate (r_Targets r).

(** The loop of [isLocalIP]: both address kinds compare by [IP.Equal]. *)
Definition addrMatches (ip : string) (a : NetAddr) : bool :=
  match a with
  | IPNet i | IPAddr i => ipEqual i (ParseIP ip)
  | OtherAddr => false
  end.

Definition isLocalIP (env : ConfigEnv) (ip : string) : res cfg_error bool :=
  match localInterfaceAddrs env with
  | inl cause => Err (EInterfaces cause)
  | inr addrs => Ok (existsb (addrMatches ip) addrs)
  end.

Definition resolveSourceIP (env : ConfigEnv) (r : rawProbeConfig) (global : GlobalConfig)
    : res cfg_error string :=
  let sourceIP := if (r_SourceIP r =? "")%string then g_SourceIP global else r_SourceIP r in
  if (sourceIP =? "")%string then Ok "" else
  match ParseIP sourceIP with
  | None => Err (ESourceIPInvalid sourceIP)
  | Some _ =>
      isLocal ← isLocalIP env sourceIP;
      failif negb isLocal with ESourceIPNotLocal sourceIP;;
      Ok sourceIP
  end.

Definition mergeTimings (r : rawProbeConfig) (global : GlobalConfig) : Z * Z * Z * Z :=
  (default (g_Interval global) (r_Interval r),
   default (g_PacketInterval global) (r_PacketInterval r),
   default (g_Timeout global) (r_Timeout r),
   default (g_Count global) (r_Count r)).

(** [^[a-zA-Z_][a-zA-Z0-9_.\-]*$] *)
Definition isLetter_ (c : ascii) : bool :=
  let z := code c in
  ((97 <=? z) && (z <=? 122)) || ((65 <=? z) && (z <=? 90)) || (z =? 95).
Definition isLabelChar (c : ascii) : bool :=
  let z := code c in
  isLetter_ c || ((48 <=? z) && (z <=? 57)) || (z =? 46) || (z =? 45).
Definition labelKeyRE (k : string) : bool :=
  match k with
  | EmptyString => false
  | String c k' => isLetter_ c && forallb_str isLabelChar k'
  end.

Definition validateLabel (kv : string * string) : res cfg_error unit :=
  let '(k, v) := kv in
  failif negb (labelKeyRE k) with ELabelKey k;;
  failif ContainsAny v controlChars with ELabelValue k;;
  Ok ().

(** Ranging over a nil map does nothing. *)
Definition validateLabels (env : ConfigEnv) (labels : option (gmap string string))
    : res cfg_error unit :=
  match labels with
  | None => Ok ()
  | Some m => forEach validateLabel (rangeLabels env m)
  end.

Definition validateOTLP (o : OTLPExporterConfig) : res cfg_error unit :=
  if negb (otlp_Enabled o) then Ok () else
  failif (Endpoint o =? "")%string with EOTLPEndpoint;;
  failif negb (Protocol o =? "grpc")%string && negb (Protocol o =? "http")%string
    with EOTLPProtocol (Protocol o);;
  failif negb (Bool.eqb (CertFile (TLS o) =? "")%string (KeyFile (TLS o) =? "")%string)
    with EOTLPTLSPair;;
  failif ShutdownTimeout o <=? 0 with EOTLPShutdownTimeout;;
  Ok ().

(** ** protocols.go *)

Definition portOutOfRange (p : Z) : bool := (p <? 1) || (65535 <? p).

(** The blocks of [validateHTTPConfig], one per field that can be rejected. *)
Definition httpScheme (u : UnicodeTables) (r : rawHTTPConfig) : res cfg_error string :=
  if (rh_Scheme r =? "")%string then Ok "http" else
  let s := ToLower u (rh_Scheme r) in
  failif negb (bool_decide (s ∈ ["http"; "https"])) with EHTTPScheme (rh_Scheme r);;
  Ok s.

Definition httpPort (r : rawHTTPConfig) : res cfg_error Z :=
  if rh_Port r =? 0 then Ok 0 else
  failif portOutOfRange (rh_Port r) with EHTTPPort (rh_Port r);;
  Ok (rh_Port r).

Definition httpMethod (u : UnicodeTables) (r : rawHTTPConfig) : res cfg_error string :=
  if (rh_Method r =? "")%string then Ok "GET" else
  let m := ToUpper u (rh_Method r) in
  failif negb (bool_decide (m ∈ ["GET"; "HEAD"; "POST"])) with EHTTPMethod (rh_Method r);;
  Ok m.

Definition httpStatus (r : rawHTTPConfig) : res cfg_error Z :=
  if rh_ExpectedStatus r =? 0 then Ok 0 else
  failif (rh_ExpectedStatus r <? 100) || (599 <? rh_ExpectedStatus r)
    with EHTTPStatus (rh_ExpectedStatus r);;
  Ok (rh_ExpectedStatus r).

Definition validateHTTPConfig (u : UnicodeTables) (r : rawHTTPConfig) : res cfg_error HTTPConfig :=
  scheme ← httpScheme u r;
  port ← httpPort r;
  method ← httpMethod u r;
  status ← httpStatus r;
  failif rh_TLSExpiryWarningDays r <? 0 with EHTTPExpiryDays (rh_TLSExpiryWarningDays r);;
  Ok {| http_Scheme := scheme; http_Port := port;
        http_Path := if (rh_Path r =? "")%string then "/" else rh_Path r;
        http_Method := method; http_ExpectedStatus := status;
        http_FollowRedirects := default true (rh_FollowRedirects r);
        http_TLSExpiryWarningDays := rh_TLSExpiryWarningDays r |}.

Definition validateTCPConfig (r : rawTCPConfig) : res cfg_error TCPConfig :=
  failif portOutOfRange (rt_Port r) with ETCPPort (rt_Port r);;
  let mode := if (rt_Mode r =? "")%string then TCPModeConnect else rt_Mode r in
  failif negb (bool_decide (mode ∈ [TCPModeConnect; TCPModeSYN])) with ETCPMode (rt_Mode r);;
  Ok {| tcp_Port := rt_Port r; tcp_Mode := mode |}.

Definition validateUDPConfig (r : rawUDPConfig) : res cfg_error UDPConfig :=
  failif portOutOfRange (ru_Port r) with EUDPPort (ru_Port r);;
  failif negb (ru_ExpectedResponse r =? "")%string && (ru_Payload r =? "")%string
    with EUDPExpectedWithoutPayload;;
  Ok {| udp_Port := ru_Port r; udp_Payload := ru_Payload r;
        udp_ExpectedResponse := ru_ExpectedResponse r |}.

Definition dnsRecordTypes : list string := ["A"; "AAAA"; "CNAME"; "MX"; "TXT"].

Definition dnsRecordType (u : UnicodeTables) (r : rawDNSConfig) : res cfg_error string :=
  if (rd_RecordType r =? "")%string then Ok "A" else
  let t := ToUpper u (rd_RecordType r) in
  failif negb (bool_decide (t ∈ dnsRecordTypes)) with EDNSRecordType (rd_RecordType r);;
  Ok t.

Definition dnsResolver (env : ConfigEnv) (r : rawDNSConfig) : res cfg_error unit :=
  if (rd_Resolver r =? "")%string then Ok () else
  match ResolveTCPAddr env (rd_Resolver r) with
  | Some cause => Err (EDNSResolver cause)
  | None => Ok ()
  end.

Definition validateDNSConfig (env : ConfigEnv) (r : rawDNSConfig) : res cfg_error DNSConfig :=
  recordType ← dnsRecordType (unicodeTables env) r;
  _ ← dnsResolver env r;
  Ok {| dns_RecordType := recordType; dns_Resolver := rd_Resolver r;
        dns_ExpectedAnswer := rd_ExpectedAnswer r |}.

Definition setProtocol (pc : ProbeConfig) (h : option HTTPConfig) (t : option TCPConfig)
    (d : option UDPConfig) (n : option DNSConfig) : ProbeConfig :=
  {| Name := Name pc; Type_ := Type_ pc; Targets := Targets pc; MaxResolvedIPs := MaxResolvedIPs pc;
     SourceIP := SourceIP pc; Interval := Interval pc; PacketInterval := PacketInterval pc;
     Timeout := Timeout pc; Count := Count pc; Labels := Labels pc;
     HTTP := h; TCP := t; UDP := d; DNS := n |}.

Definition validateProtocolConfig (env : ConfigEnv) (r : rawProbeConfig) (pc : ProbeConfig)
    : res cfg_error ProbeConfig :=
  if (r_Type r =? ProbeTypeICMP)%string then Ok pc
  else if (r_Type r =? ProbeTypeHTTP)%string then
    match r_HTTP r with
    | None => Err (EBlockRequired ProbeTypeHTTP)
    | Some h => cfg ← validateHTTPConfig (unicodeTables env) h;
                Ok (setProtocol pc (Some cfg) (TCP pc) (UDP pc) (DNS pc))
    end
  else if (r_Type r =? ProbeTypeTCP)%string then
    match r_TCP r with
    | None => Err (EBlockRequired ProbeTypeTCP)
    | Some t => cfg ← validateTCPConfig t;
                Ok (setProtocol pc (HTTP pc) (Some cfg) (UDP pc) (DNS pc))
    end
  else if (r_Type r =? ProbeTypeUDP)%string then
    match r_UDP r with
    | None => Err (EBlockRequired ProbeTypeUDP)
    | Some d => cfg ← validateUDPConfig d;
                Ok (setProtocol pc (HTTP pc) (TCP pc) (Some cfg) (DNS pc))
    end
  else if (r_Type r =? ProbeTypeDNS)%string then
    match r_DNS r with
    | None => Err (EBlockRequired ProbeTypeDNS)
    | Some n => cfg ← validateDNSConfig env n;
                Ok (setProtocol pc (HTTP pc) (TCP pc) (UDP pc) (Some cfg))
    end
  else Ok pc.

(** ** validate.go: the merge *)

Definition mergeAndValidateProbe (env : ConfigEnv) (r : rawProbeConfig) (global : GlobalConfig)
    : res cfg_error ProbeConfig :=
  wrapErr (EInProbe (r_Name r)) (
    failif (r_Type r =? "")%string with ETypeRequired;;
    failif negb (bool_decide (r_Type r ∈ knownProbeTypes)) with EUnknownType (r_Type r);;
    _ ← validateTargets env r;
    failif r_MaxResolvedIPs r <? 0 with EMaxResolvedIPs;;
    sourceIP ← resolveSourceIP env r global;
    let '(interval, packetInterval, timeout, count) := mergeTimings r global in
    _ ← (if negb (r_Type r =? ProbeTypeHTTP)%string
         then validateTimings interval packetInterval timeout count else Ok ());
    _ ← validateLabels env (r_Labels r);
    validateProtocolConfig env r
      {| Name := r_Name r; Type_ := r_Type r; Targets := r_Targets r;
         MaxResolvedIPs := r_MaxResolvedIPs r; SourceIP := sourceIP;
         Interval := interval; PacketInterval := packetInterval; Timeout := timeout;
         Count := count; Labels := r_Labels r;
         HTTP := None; TCP := None; UDP := None; DNS := None |}).

(** The loop of [mergeAndValidateProbes]; [i] is the index, [seen] the names. *)
Fixpoint mergeLoop (env : ConfigEnv) (global : GlobalConfig) (i : Z) (seen : gset string)
    (raws : list rawProbeConfig) : res cfg_error (list ProbeConfig) :=
  match raws with
  | [] => Ok []
  | r :: rest =>
      failif (r_Name r =? "")%string with ENameRequired i;;
      failif bool_decide (r_Name r ∈ seen) with ENameNotUnique (r_Name r);;
      pc ← mergeAndValidateProbe env r global;
      out ← mergeLoop env global (i + 1) ({[r_Name r]} ∪ seen) rest;
      Ok (pc :: out)
  end.

Definition mergeAndValidateProbes (env : ConfigEnv) (raws : list rawProbeConfig)
    (global : GlobalConfig) : res cfg_error (list ProbeConfig) :=
  mergeLoop env global 0 ∅ raws.

(** ** What an accepted configuration satisfies *)

Definition valid_port (p : Z) : Prop := 1 <= p <= 65535.

Definition wf_http (h : HTTPConfig) : Prop :=
  http_Scheme h ∈ ["http"; "https"] /\
  (http_Port h = 0 \/ valid_port (http_Port h)) /\
  http_Path h <> "" /\
  http_Method h ∈ ["GET"; "HEAD"; "POST"] /\
  (http_ExpectedStatus h = 0 \/ 100 <= http_ExpectedStatus h <= 599) /\
  0 <= http_TLSExpiryWarningDays h.

Definition wf_tcp (t : TCPConfig) : Prop :=
  valid_port (tcp_Port t) /\ tcp_Mode t ∈ [TCPModeConnect; TCPModeSYN].

Definition wf_udp (d : UDPConfig) : Prop :=
  valid_port (udp_Port d) /\ (udp_ExpectedResponse d <> "" -> udp_Payload d <> "").

Definition wf_dns (env : ConfigEnv) (n : DNSConfig) : Prop :=
  dns_RecordType n ∈ dnsRecordTypes /\
  (dns_Resolver n = "" \/ ResolveTCPAddr env (dns_Resolver n) = None).

(** Exactly the block of the probe's type is present, and it is valid. *)
Definition wf_blocks (env : ConfigEnv) (pc : ProbeConfig) : Prop :=
  (Type_ pc = ProbeTypeICMP /\ HTTP pc = None /\ TCP pc = None /\ UDP pc = None /\ DNS pc = None) \/
  (Type_ pc = ProbeTypeHTTP /\ (exists h, HTTP pc = Some h /\ wf_http h) /\
     TCP pc = None /\ UDP pc = None /\ DNS pc = None) \/
  (Type_ pc = ProbeTypeTCP /\ (exists t, TCP pc = Some t /\ wf_tcp t) /\
     HTTP pc = None /\ UDP pc = None /\ DNS pc = None) \/
  (Type_ pc = ProbeTypeUDP /\ (exists d, UDP pc = Some d /\ wf_udp d) /\
     HTTP pc = None /\ TCP pc = None /\ DNS pc = None) \/
  (Type_ pc = ProbeTypeDNS /\ (exists n, DNS pc = Some n /\ wf_dns env n) /\
     HTTP pc = None /\ TCP pc = None /\ UDP pc = None).

(** The documented timing rules, over the integers (no wrap-around). *)
Definition timings_ok (interval packetInterval timeout count : Z) : Prop :=
  Millisecond <= packetInterval /\ 0 < count /\
  packetInterval * count < timeout /\ timeout < interval.

Definition wf_label (kv : string * string) : Prop :=
  labelKeyRE (fst kv) = true /\ ContainsAny (snd kv) controlChars = false.

Definition wf_source (env : ConfigEnv) (ip : string) : Prop :=
  ip = "" \/ exists addrs a, localInterfaceAddrs env = inr addrs /\ a ∈ addrs /\
               ParseIP ip <> None /\ addrMatches ip a = true.

Definition wf_target (env : ConfigEnv) (type entry : string) : Prop :=
  if (type =? ProbeTypeDNS)%string
  then entry <> "" /\ ContainsAny entry blankChars = false
  else ParseIP entry <> None \/ exists a addrs, LookupHost env entry = inr (a :: addrs).

Definition wf_probe (env : ConfigEnv) (pc : ProbeConfig) : Prop :=
  Targets pc <> [] /\ Forall (wf_target env (Type_ pc)) (Targets pc) /\
  0 <= MaxResolvedIPs pc /\ wf_source env (SourceIP pc) /\
  (Type_ pc <> ProbeTypeHTTP -> 0 < Interval pc /\ 0 < Count pc /\
     (in_int64 (PacketInterval pc * Count pc) ->
      timings_ok (Interval pc) (PacketInterval pc) (Timeout pc) (Count pc))) /\
  (forall m, Labels pc = Some m -> forall k v, m !! k = Some v -> wf_label (k, v)) /\
  wf_blocks env pc.

(** ** Timings *)

Lemma validateTimings_ok interval packetInterval timeout count :
  validateTimings interval packetInterval timeout count = Ok () <->
  Millisecond <= packetInterval /\ 0 < count /\ 0 < timeout < interval /\
  wrap64 (packetInterval * count) < timeout.
Proof.
  unfold validateTimings. split.
  - intros H. res_inv. bool_prop. lia.
  - intros (? & ? & [? ?] & ?).
    repeat goal_if; bool_prop; try lia; done.
Qed.

Lemma timings_ok_positive i p t c : timings_ok i p t c -> 0 < p /\ 0 < c /\ 0 < t /\ 0 < i /\ p * c < i.
Proof. unfold timings_ok, Millisecond. nia. Qed.

(** as long as [packet_interval * count] is representable in an int64,
    the timing check accepts exactly the documented constraints: packet
    interval at least 1ms, positive count, all packets fit before the timeout,
    and the timeout is below the probe cadence (so the packets also fit in it). *)
Theorem validateTimings_exact interval packetInterval timeout count :
  in_int64 (packetInterval * count) ->
  validateTimings interval packetInterval timeout count = Ok () <->
  timings_ok interval packetInterval timeout count.
Proof.
  intros Hr. rewrite validateTimings_ok, wrap64_id by done. unfold timings_ok, Millisecond.
  split; [lia|]. intros (? & ? & ? & ?). repeat split; try lia; nia.
Qed.

(** the product is computed in int64 and wraps: there are accepted timings
    (all four fields representable) whose packets need more time than the
    timeout, in fact more than the probe cadence. *)
Theorem validateTimings_overflow :
  exists interval packetInterval timeout count,
    in_int64 interval /\ in_int64 packetInterval /\ in_int64 timeout /\ in_int64 count /\
    validateTimings interval packetInterval timeout count = Ok () /\
    interval < packetInterval * count.
Proof.
  exists (30 * Second), (1 * Second), (5 * Second), 9223372037.
  unfold in_int64, Second. repeat split; try lia; done.
Qed.

(** ** The per-protocol blocks *)

Lemma portOutOfRange_false p : portOutOfRange p = false <-> valid_port p.
Proof.
  unfold portOutOfRange, valid_port. rewrite orb_false_iff, !Z.ltb_ge. lia.
Qed.

Lemma httpScheme_in u r s : httpScheme u r = Ok s -> s ∈ ["http"; "https"].
Proof. unfold httpScheme. intros. res_inv; bool_prop; [repeat constructor|done]. Qed.

Lemma httpPort_range r p : httpPort r = Ok p -> p = 0 \/ valid_port p.
Proof. unfold httpPort. intros. res_inv; [by left|]. right. by apply portOutOfRange_false. Qed.

Lemma httpMethod_in u r m : httpMethod u r = Ok m -> m ∈ ["GET"; "HEAD"; "POST"].
Proof. unfold httpMethod. intros. res_inv; bool_prop; [repeat constructor|done]. Qed.

Lemma httpStatus_range r c : httpStatus r = Ok c -> c = 0 \/ 100 <= c <= 599.
Proof. unfold httpStatus. intros. res_inv; bool_prop; [by left|]. right. lia. Qed.

Lemma validateHTTPConfig_wf u r h : validateHTTPConfig u r = Ok h -> wf_http h.
Proof.
  unfold validateHTTPConfig. intros. res_inv. bool_prop. unfold wf_http; simpl.
  split; [by eapply httpScheme_in|]. split; [by eapply httpPort_range|].
  split; [goal_if; [done|by apply String.eqb_neq]|]. split; [by eapply httpMethod_in|].
  split; [by eapply httpStatus_range|lia].
Qed.

Lemma validateTCPConfig_wf r t : validateTCPConfig r = Ok t -> wf_tcp t.
Proof.
  unfold validateTCPConfig. intros. res_inv.
  all: bool_prop; split; [by apply portOutOfRange_false|done].
Qed.

Lemma validateUDPConfig_wf r d : validateUDPConfig r = Ok d -> wf_udp d.
Proof.
  unfold validateUDPConfig. intros. res_inv. split; simpl; [by apply portOutOfRange_false|].
  intros He Hp. rewrite Hp in *. apply andb_false_iff in Heqb0 as [?|?]; bool_prop; done.
Qed.

Lemma validateDNSConfig_wf env r n : validateDNSConfig env r = Ok n -> wf_dns env n.
Proof.
  unfold validateDNSConfig, dnsRecordType, dnsResolver. intros.
  res_inv; bool_prop; (split; simpl; [first [done|unfold dnsRecordTypes; repeat constructor]|]);
    first [by left|by right].
Qed.

#[export] Hint Resolve validateHTTPConfig_wf validateTCPConfig_wf validateUDPConfig_wf
  validateDNSConfig_wf : trimon.

(** ** Merging one probe *)

(** Go's [range] over a map visits every entry once, in an unspecified order. *)
Definition range_ok (env : ConfigEnv) : Prop :=
  forall m, rangeLabels env m ≡ₚ map_to_list m.

Lemma validateLabels_wf env labels :
  range_ok env ->
  validateLabels env labels = Ok () <->
  (forall m, labels = Some m -> forall k v, m !! k = Some v -> wf_label (k, v)).
Proof.
  intros Hr. destruct labels as [m|]; simpl; [|done].
  rewrite forEach_ok, (Hr m), Forall_forall. split.
  - intros H m' [= <-] k v Hk. specialize (H (k, v)). rewrite elem_of_map_to_list in H.
    specialize (H Hk). simpl in H. res_inv. bool_prop. done.
  - intros H [k v] Hk%elem_of_map_to_list. destruct (H m eq_refl k v Hk) as [H1 H2].
    simpl in *. by rewrite H1, H2.
Qed.

Lemma validateTargets_wf env r :
  validateTargets env r = Ok () <->
  r_Targets r <> [] /\ Forall (wf_target env (r_Type r)) (r_Targets r).
Proof.
  unfold validateTargets, wf_target. destruct (r_Targets r) as [|t ts]; [naive_solver|].
  cbn [length Nat.eqb]. rewrite forEach_ok.
  split; [intros H; split; [done|]|intros [_ H]]; apply (Forall_impl _ _ _ H); clear H; intros e;
    destruct (r_Type r =? ProbeTypeDNS)%string; unfold validateDNSQueryName, validateOneTarget.
  - intros. res_inv. bool_prop. done.
  - destruct (ParseIP e); [by left|]. destruct (LookupHost env e) as [|[|a l]]; try done. eauto.
  - intros [He ->]. by rewrite (proj2 (String.eqb_neq _ _) He).
  - destruct (ParseIP e); [done|]. by intros [?|(a & l & ->)].
Qed.

Lemma isLocalIP_true env ip :
  isLocalIP env ip = Ok true <->
  exists addrs a, localInterfaceAddrs env = inr addrs /\ a ∈ addrs /\ addrMatches ip a = true.
Proof.
  unfold isLocalIP. destruct (localInterfaceAddrs env) as [c|addrs]; [naive_solver|]. split.
  - intros [= (a & Ha & Hm)%existsb_exists]. exists addrs, a. by rewrite list_elem_of_In.
  - intros (l & a & [= <-] & Ha & Hm). f_equal. apply existsb_exists. exists a.
    by rewrite <- list_elem_of_In.
Qed.

(** The effective source address: the probe's own, else the global one. *)
Definition effectiveSource (r : rawProbeConfig) (g : GlobalConfig) : string :=
  if (r_SourceIP r =? "")%string then g_SourceIP g else r_SourceIP r.

Lemma resolveSourceIP_ok env r g ip :
  resolveSourceIP env r g = Ok ip <-> ip = effectiveSource r g /\ wf_source env ip.
Proof.
  unfold resolveSourceIP, effectiveSource, wf_source. 
  set (src := if (r_SourceIP r =? "")%string then g_SourceIP g else r_SourceIP r).
  destruct (src =? "")%string eqn:Es; bool_prop.
  { rewrite Es. split; [intros [= <-]; auto|]. by intros [-> _]. }
  destruct (ParseIP src) eqn:Ep.
  - split.
    + intros H. res_inv. bool_prop. subst. split; [done|]. right.
      apply isLocalIP_true in Heqr0 as (addrs & a & ? & ? & ?). exists addrs, a.
      repeat split; try done. by rewrite Ep.
    + intros [-> [?|(addrs & a & Ha & Hin & _ & Hm)]]; [done|].
      assert (isLocalIP env src = Ok true) as -> by (apply isLocalIP_true; eauto). done.
  - split; [done|]. intros [-> [?|(? & ? & _ & _ & ? & _)]]; done.
Qed.

Lemma known_types t : t ∈ knownProbeTypes ->
  t = ProbeTypeICMP \/ t = ProbeTypeHTTP \/ t = ProbeTypeTCP \/ t = ProbeTypeUDP \/ t = ProbeTypeDNS.
Proof. unfold knownProbeTypes. rewrite !elem_of_cons, elem_of_nil. tauto. Qed.

(** The protocol step keeps every other field and installs the right block. *)
Lemma validateProtocolConfig_wf env r pc pc' :
  Type_ pc = r_Type r -> r_Type r ∈ knownProbeTypes ->
  HTTP pc = None -> TCP pc = None -> UDP pc = None -> DNS pc = None ->
  validateProtocolConfig env r pc = Ok pc' ->
  pc' = setProtocol pc (HTTP pc') (TCP pc') (UDP pc') (DNS pc') /\ wf_blocks env pc'.
Proof.
  intros Ht Hk Hh Htc Hu Hd. unfold validateProtocolConfig, wf_blocks.
  destruct (known_types _ Hk) as [E|[E|[E|[E|E]]]]; rewrite E in *; simpl; intros H.
  - injection H as <-. split; [by destruct pc|]. left. tauto.
  - res_inv. simpl. split; [done|]. right; left. rewrite Ht, Htc, Hu, Hd. split_and!; try done; eexists; (split; [done|]); eauto with trimon.
  - res_inv. simpl. split; [done|]. do 2 right; left. rewrite Ht, Hh, Hu, Hd. split_and!; try done; eexists; (split; [done|]); eauto with trimon.
  - res_inv. simpl. split; [done|]. do 3 right; left. rewrite Ht, Hh, Htc, Hd. split_and!; try done; eexists; (split; [done|]); eauto with trimon.
  - res_inv. simpl. split; [done|]. do 4 right. rewrite Ht, Hh, Htc, Hu. split_and!; try done; eexists; (split; [done|]); eauto with trimon.
Qed.

(** The probe as merged, before its protocol block is attached. *)
Definition mergedBase (r : rawProbeConfig) (g : GlobalConfig) : ProbeConfig :=
  let '(interval, packetInterval, timeout, count) := mergeTimings r g in
  {| Name := r_Name r; Type_ := r_Type r; Targets := r_Targets r;
     MaxResolvedIPs := r_MaxResolvedIPs r; SourceIP := effectiveSource r g;
     Interval := interval; PacketInterval := packetInterval; Timeout := timeout;
     Count := count; Labels := r_Labels r;
     HTTP := None; TCP := None; UDP := None; DNS := None |}.

(** Exactly when a raw probe is accepted, and with what result. *)
Lemma mergeAndValidateProbe_ok env r g pc :
  range_ok env ->
  mergeAndValidateProbe env r g = Ok pc <->
  r_Type r ∈ knownProbeTypes /\
  (r_Targets r <> [] /\ Forall (wf_target env (r_Type r)) (r_Targets r)) /\
  0 <= r_MaxResolvedIPs r /\
  wf_source env (effectiveSource r g) /\
  (r_Type r <> ProbeTypeHTTP ->
     validateTimings (Interval (mergedBase r g)) (PacketInterval (mergedBase r g))
                     (Timeout (mergedBase r g)) (Count (mergedBase r g)) = Ok ()) /\
  (forall m, r_Labels r = Some m -> forall k v, m !! k = Some v -> wf_label (k, v)) /\
  validateProtocolConfig env r (mergedBase r g) = Ok pc.
Proof.
  intros Hrange. unfold mergeAndValidateProbe, mergedBase. rewrite wrapErr_ok.
  rewrite <- (validateLabels_wf env (r_Labels r) Hrange), <- validateTargets_wf.
  destruct (mergeTimings r g) as [[[i p] t] c] eqn:Em. simpl. split.
  - intros H. res_inv; bool_prop.
    all: repeat match goal with u : () |- _ => destruct u end.
    all: match goal with E : resolveSourceIP _ _ _ = Ok _ |- _ =>
           apply resolveSourceIP_ok in E as [-> ?] end.
    all: split_and!; try done; lia.
  - intros (Hk & Ht & Hm & Hs & Htim & Hl & Hp).
    assert (r_Type r =? "" = false)%string as ->.
    { apply String.eqb_neq. intros E. rewrite E in Hk.
      by destruct (known_types _ Hk) as [E'|[E'|[E'|[E'|E']]]]. }
    rewrite bool_decide_true by done. simpl. rewrite Ht. simpl.
    replace (r_MaxResolvedIPs r <? 0) with false by (symmetry; apply Z.ltb_ge; lia).
    rewrite (proj2 (resolveSourceIP_ok env r g (effectiveSource r g))) by done. simpl.
    destruct (r_Type r =? ProbeTypeHTTP)%string eqn:Eh; simpl.
    + by rewrite Hl.
    + apply String.eqb_neq in Eh. rewrite (Htim Eh). simpl. by rewrite Hl.
Qed.

Lemma wf_merged env r g pc :
  range_ok env -> mergeAndValidateProbe env r g = Ok pc ->
  wf_probe env pc /\
  pc = setProtocol (mergedBase r g) (HTTP pc) (TCP pc) (UDP pc) (DNS pc).
Proof.
  intros Hr (Hk & [Ht1 Ht2] & Hm & Hs & Htim & Hl & Hp)%mergeAndValidateProbe_ok; [|done].
  assert (Hbase : Type_ (mergedBase r g) = r_Type r /\ HTTP (mergedBase r g) = None /\
    TCP (mergedBase r g) = None /\ UDP (mergedBase r g) = None /\ DNS (mergedBase r g) = None)
    by (unfold mergedBase; by destruct (mergeTimings r g) as [[[? ?] ?] ?]).
  destruct Hbase as (B1 & B2 & B3 & B4 & B5).
  destruct (validateProtocolConfig_wf _ _ _ _ B1 Hk B2 B3 B4 B5 Hp) as [Hpc Hbl].
  split; [|done].
  assert (Hf : Targets pc = r_Targets r /\ Type_ pc = r_Type r /\
    MaxResolvedIPs pc = r_MaxResolvedIPs r /\ SourceIP pc = effectiveSource r g /\
    Labels pc = r_Labels r /\ Interval pc = Interval (mergedBase r g) /\
    PacketInterval pc = PacketInterval (mergedBase r g) /\
    Timeout pc = Timeout (mergedBase r g) /\ Count pc = Count (mergedBase r g))
    by (rewrite Hpc; unfold mergedBase; by destruct (mergeTimings r g) as [[[? ?] ?] ?]).
  destruct Hf as (F1 & F2 & F3 & F4 & F5 & F6 & F7 & F8 & F9).
  unfold wf_probe. rewrite F1, F2, F3, F4, F5, F6, F7, F8, F9.
  split_and!; try done. intros Hn. specialize (Htim Hn). apply validateTimings_ok in Htim.
  split; [lia|]. split; [lia|]. intros Hin. rewrite wrap64_id in Htim by done. unfold timings_ok. lia.
Qed.


(** ** Validation is idempotent *)

(** The raw probe that spells out an effective configuration. *)
Definition rawHTTP (h : HTTPConfig) : rawHTTPConfig :=
  {| rh_Scheme := http_Scheme h; rh_Port := http_Port h; rh_Path := http_Path h;
     rh_Method := http_Method h; rh_ExpectedStatus := http_ExpectedStatus h;
     rh_FollowRedirects := Some (http_FollowRedirects h);
     rh_TLSExpiryWarningDays := http_TLSExpiryWarningDays h |}.
Definition rawTCP (t : TCPConfig) : rawTCPConfig := {| rt_Port := tcp_Port t; rt_Mode := tcp_Mode t |}.
Definition rawUDP (d : UDPConfig) : rawUDPConfig :=
  {| ru_Port := udp_Port d; ru_Payload := udp_Payload d; ru_ExpectedResponse := udp_ExpectedResponse d |}.
Definition rawDNS (n : DNSConfig) : rawDNSConfig :=
  {| rd_RecordType := dns_RecordType n; rd_Resolver := dns_Resolver n;
     rd_ExpectedAnswer := dns_ExpectedAnswer n |}.
Definition toRaw (pc : ProbeConfig) : rawProbeConfig :=
  {| r_Name := Name pc; r_Type := Type_ pc; r_Targets := Targets pc;
     r_MaxResolvedIPs := MaxResolvedIPs pc; r_SourceIP := SourceIP pc;
     r_Interval := Some (Interval pc); r_PacketInterval := Some (PacketInterval pc);
     r_Timeout := Some (Timeout pc); r_Count := Some (Count pc); r_Labels := Labels pc;
     r_HTTP := rawHTTP <$> HTTP pc; r_TCP := rawTCP <$> TCP pc;
     r_UDP := rawUDP <$> UDP pc; r_DNS := rawDNS <$> DNS pc |}.

Lemma validateHTTPConfig_raw u h : wf_http h -> validateHTTPConfig u (rawHTTP h) = Ok h.
Proof.
  destruct h as [sc po pa me st fo da]. intros (Hs & Hp & Hpa & Hm & Hst & Hd); simpl in *.
  unfold validateHTTPConfig, rawHTTP. simpl.
  assert (httpScheme u (rawHTTP {| http_Scheme := sc; http_Port := po; http_Path := pa;
    http_Method := me; http_ExpectedStatus := st; http_FollowRedirects := fo;
    http_TLSExpiryWarningDays := da |}) = Ok sc) as H1.
  { rewrite !elem_of_cons, elem_of_nil in Hs. by destruct Hs as [->|[->|[]]]. }
  assert (httpMethod u (rawHTTP {| http_Scheme := sc; http_Port := po; http_Path := pa;
    http_Method := me; http_ExpectedStatus := st; http_FollowRedirects := fo;
    http_TLSExpiryWarningDays := da |}) = Ok me) as H2.
  { rewrite !elem_of_cons, elem_of_nil in Hm. by destruct Hm as [->|[->|[->|[]]]]. }
  unfold rawHTTP in *. simpl in *. rewrite H1, H2. unfold httpPort, httpStatus. simpl.
  destruct (Z.eqb_spec po 0) as [->|Hpo]; simpl.
  2: destruct Hp as [?|Hp]; [done|]; rewrite (proj2 (portOutOfRange_false po) Hp); simpl.
  all: destruct (Z.eqb_spec st 0) as [->|Hst0]; simpl.
  2, 4: destruct Hst as [?|Hst]; [done|];
    replace (st <? 100) with false by (symmetry; apply Z.ltb_ge; lia);
    replace (599 <? st) with false by (symmetry; apply Z.ltb_ge; lia); simpl.
  all: replace (da <? 0) with false by (symmetry; apply Z.ltb_ge; lia);
    by rewrite (proj2 (String.eqb_neq pa "") Hpa).
Qed.

Lemma validateTCPConfig_raw t : wf_tcp t -> validateTCPConfig (rawTCP t) = Ok t.
Proof.
  destruct t as [p m]. intros [Hp Hm]. unfold validateTCPConfig. simpl in *.
  rewrite (proj2 (portOutOfRange_false p) Hp).
  rewrite !elem_of_cons, elem_of_nil in Hm. by destruct Hm as [->|[->|[]]].
Qed.

Lemma validateUDPConfig_raw d : wf_udp d -> validateUDPConfig (rawUDP d) = Ok d.
Proof.
  destruct d as [p pl ex]. intros [Hp He]. unfold validateUDPConfig. simpl in *.
  rewrite (proj2 (portOutOfRange_false p) Hp).
  destruct (String.eqb_spec ex ""); simpl; [done|].
  by rewrite (proj2 (String.eqb_neq pl "") (He n)).
Qed.

Lemma validateDNSConfig_raw env n : wf_dns env n -> validateDNSConfig env (rawDNS n) = Ok n.
Proof.
  destruct n as [t r e]. intros [Ht Hr]. unfold validateDNSConfig. simpl in *.
  assert (dnsRecordType (unicodeTables env) (rawDNS {| dns_RecordType := t; dns_Resolver := r;
    dns_ExpectedAnswer := e |}) = Ok t) as ->.
  { unfold dnsRecordTypes in Ht. rewrite !elem_of_cons, elem_of_nil in Ht.
    by destruct Ht as [->|[->|[->|[->|[->|[]]]]]]. }
  unfold dnsResolver. simpl. destruct (String.eqb_spec r ""); [done|].
  by destruct Hr as [? | ->].
Qed.

Lemma validateProtocolConfig_raw env pc base :
  wf_blocks env pc ->
  HTTP base = None -> TCP base = None -> UDP base = None -> DNS base = None ->
  validateProtocolConfig env (toRaw pc) base
  = Ok (setProtocol base (HTTP pc) (TCP pc) (UDP pc) (DNS pc)).
Proof.
  intros Hb H1 H2 H3 H4. unfold validateProtocolConfig. simpl.
  destruct Hb as [Hb|[Hb|[Hb|[Hb|Hb]]]].
  - destruct Hb as (-> & -> & -> & -> & ->). destruct base; simpl in *; by subst.
  - destruct Hb as (-> & (h & -> & Hw) & -> & -> & ->). simpl.
    rewrite validateHTTPConfig_raw by done. simpl. by rewrite H2, H3, H4.
  - destruct Hb as (-> & (t & -> & Hw) & -> & -> & ->). simpl.
    rewrite validateTCPConfig_raw by done. simpl. by rewrite H1, H3, H4.
  - destruct Hb as (-> & (d & -> & Hw) & -> & -> & ->). simpl.
    rewrite validateUDPConfig_raw by done. simpl. by rewrite H1, H2, H4.
  - destruct Hb as (-> & (n & -> & Hw) & -> & -> & ->). simpl.
    rewrite validateDNSConfig_raw by done. simpl. by rewrite H1, H2, H3.
Qed.

Lemma effectiveSource_raw r g pc :
  SourceIP pc = effectiveSource r g -> effectiveSource (toRaw pc) g = effectiveSource r g.
Proof.
  unfold effectiveSource. simpl. intros ->.
  destruct (String.eqb_spec (r_SourceIP r) "") as [_|Hn].
  - by destruct (String.eqb_spec (g_SourceIP g) "") as [->|].
  - by rewrite (proj2 (String.eqb_neq _ _) Hn).
Qed.

Lemma mergeAndValidateProbe_toRaw env r g pc :
  range_ok env -> mergeAndValidateProbe env r g = Ok pc ->
  mergeAndValidateProbe env (toRaw pc) g = Ok pc.
Proof.
  intros Hr (Hk & Ht & Hm & Hs & Htim & Hl & Hp)%mergeAndValidateProbe_ok; [|done].
  assert (Hbase : forall r', Type_ (mergedBase r' g) = r_Type r' /\ HTTP (mergedBase r' g) = None /\
    TCP (mergedBase r' g) = None /\ UDP (mergedBase r' g) = None /\ DNS (mergedBase r' g) = None)
    by (intros r'; unfold mergedBase; by destruct (mergeTimings r' g) as [[[? ?] ?] ?]).
  destruct (Hbase r) as (B1 & B2 & B3 & B4 & B5).
  destruct (validateProtocolConfig_wf _ _ _ _ B1 Hk B2 B3 B4 B5 Hp) as [Hpc Hbl].
  assert (Hf : r_Targets (toRaw pc) = r_Targets r /\ r_Type (toRaw pc) = r_Type r /\
    r_MaxResolvedIPs (toRaw pc) = r_MaxResolvedIPs r /\ r_Labels (toRaw pc) = r_Labels r /\
    effectiveSource (toRaw pc) g = effectiveSource r g /\
    mergedBase (toRaw pc) g = mergedBase r g).
  { assert (SourceIP pc = effectiveSource r g) as Hsrc
      by (rewrite Hpc; unfold mergedBase; by destruct (mergeTimings r g) as [[[? ?] ?] ?]).
    apply effectiveSource_raw in Hsrc. rewrite Hsrc.
    unfold mergedBase at 1. rewrite Hsrc. clear Hsrc. rewrite Hpc. unfold mergedBase.
    by destruct (mergeTimings r g) as [[[? ?] ?] ?] eqn:E. }
  destruct Hf as (F1 & F2 & F3 & F4 & F5 & F6).
  apply mergeAndValidateProbe_ok; [done|]. rewrite F1, F2, F3, F4, F5, F6.
  split_and!; try done; try apply Ht.
  rewrite validateProtocolConfig_raw by done. by rewrite <- Hpc.
Qed.

(** C10: validation is idempotent: feeding an accepted configuration back, with
    every effective value spelled out, is accepted and changes nothing. *)
Theorem mergeAndValidateProbe_idempotent env r g pc :
  range_ok env -> mergeAndValidateProbe env r g = Ok pc ->
  mergeAndValidateProbe env (toRaw pc) g = Ok pc.
Proof. apply mergeAndValidateProbe_toRaw. Qed.

(** whether a label map is accepted does not depend on the order in which
    Go iterates over it. *)
Theorem validateLabels_order_irrelevant env env' labels :
  range_ok env -> range_ok env' ->
  validateLabels env labels = Ok () <-> validateLabels env' labels = Ok ().
Proof. intros H H'. by rewrite !validateLabels_wf. Qed.

(** ** Merging all probes of a file *)

Lemma mergeLoop_ok env g i seen raws out :
  mergeLoop env g i seen raws = Ok out <->
  Forall2 (fun r pc => mergeAndValidateProbe env r g = Ok pc) raws out /\
  Forall (fun r => r_Name r <> "") raws /\ NoDup (r_Name <$> raws) /\
  Forall (fun r => r_Name r ∉ seen) raws.
Proof.
  revert i seen out. induction raws as [|r raws IH]; intros i seen out; simpl.
  { split; [intros [= <-]|intros [?%Forall2_nil_inv_l _]; by subst].
    split_and!; try constructor. }
  rewrite !Forall_cons, NoDup_cons. split.
  - intros H. res_inv. bool_prop.
    match goal with E : mergeLoop _ _ _ _ _ = _ |- _ => apply IH in E as (H1 & H2 & H3 & H4) end.
    split_and!; try done; [by constructor| |].
    + rewrite list_elem_of_fmap. intros (r' & E & Hin). eapply Forall_forall in H4; [|exact Hin].
      set_solver.
    + eapply Forall_impl; [exact H4|]. intros r' Hn. set_solver.
  - intros (H1 & [Hn H2] & [Hnin H3] & [Hs H4]).
    apply Forall2_cons_inv_l in H1 as (pc & out' & Hpc & Hout & ->).
    rewrite (proj2 (String.eqb_neq _ _) Hn), bool_decide_false by done. rewrite Hpc. simpl.
    rewrite (proj2 (IH (i + 1) ({[r_Name r]} ∪ seen) out')); [done|].
    split_and!; try done. apply Forall_forall. intros r' Hr'. eapply Forall_forall in H4; [|exact Hr'].
    rewrite not_elem_of_union, elem_of_singleton. split; [|done].
    intros E. apply Hnin. rewrite <- E. apply list_elem_of_fmap. eauto.
Qed.

Lemma mergeAndValidateProbe_name env r g pc :
  mergeAndValidateProbe env r g = Ok pc -> Name pc = r_Name r.
Proof.
  unfold mergeAndValidateProbe. rewrite wrapErr_ok.
  destruct (mergeTimings r g) as [[[? ?] ?] ?]. intros H. res_inv.
  all: unfold validateProtocolConfig in *; res_inv; done.
Qed.

Lemma merged_names env g raws out :
  Forall2 (fun r pc => mergeAndValidateProbe env r g = Ok pc) raws out ->
  Name <$> out = r_Name <$> raws.
Proof.
  induction 1; simpl; [done|]. f_equal; [by eapply mergeAndValidateProbe_name|done].
Qed.

(** C9: the probes of one file are accepted exactly when every probe is
    accepted on its own, none has an empty name and the names are pairwise
    distinct; the output lists the merged probes in file order, under their own
    names. *)
Theorem mergeAndValidateProbes_exact env raws g out :
  mergeAndValidateProbes env raws g = Ok out <->
  Forall2 (fun r pc => mergeAndValidateProbe env r g = Ok pc) raws out /\
  Name <$> out = r_Name <$> raws /\ "" ∉ (Name <$> out) /\ NoDup (Name <$> out).
Proof.
  unfold mergeAndValidateProbes. rewrite mergeLoop_ok. split.
  - intros (H1 & H2 & H3 & _). pose proof (merged_names _ _ _ _ H1) as Hn. rewrite Hn.
    split_and!; try done. rewrite list_elem_of_fmap. intros (r & E & Hr).
    eapply Forall_forall in H2; [|exact Hr]. by rewrite <- E in H2.
  - intros (H1 & Hn & H2 & H3). rewrite Hn in H2, H3. split_and!; try done.
    + apply Forall_forall. intros r Hr E. apply H2. apply list_elem_of_fmap. eauto.
    + apply Forall_forall. intros r Hr. apply not_elem_of_empty.
Qed.

(** ** Concrete instances *)

Definition demoUnicode : UnicodeTables :=
  {| mapUpper := id; mapLower := id; foldEqual := String.eqb; quoteRunes := id |}.
Definition demoEnv : ConfigEnv :=
  {| LookupHost := demoLookup; localInterfaceAddrs := inr [IPNet (ParseIP "127.0.0.1")];
     rangeLabels := map_to_list; ResolveTCPAddr := fun _ => None; unicodeTables := demoUnicode |}.
Definition demoGlobal : GlobalConfig :=
  {| g_Interval := 30 * Second; g_PacketInterval := 1 * Second; g_Timeout := 5 * Second;
     g_Count := 3; g_SourceIP := "127.0.0.1" |}.
Definition demoRaw (name type : string) : rawProbeConfig :=
  {| r_Name := name; r_Type := type; r_Targets := ["192.0.2.1"; "dual.example"];
     r_MaxResolvedIPs := 1; r_SourceIP := ""; r_Interval := None; r_PacketInterval := None;
     r_Timeout := None; r_Count := Some 2; r_Labels := Some {["site" := "lab"]};
     r_HTTP := Some {| rh_Scheme := "HTTPS"; rh_Port := 0; rh_Path := ""; rh_Method := "head";
                       rh_ExpectedStatus := 0; rh_FollowRedirects := None;
                       rh_TLSExpiryWarningDays := 14 |};
     r_TCP := Some {| rt_Port := 443; rt_Mode := "" |}; r_UDP := None; r_DNS := None |}.
Definition demoProbe (name type : string) : ProbeConfig :=
  setProtocol (mergedBase (demoRaw name type) demoGlobal)
    None (Some {| tcp_Port := 443; tcp_Mode := "connect" |}) None None.

Lemma demo_range : range_ok demoEnv.
Proof. by intros m. Qed.

Lemma demo_merge : mergeAndValidateProbe demoEnv (demoRaw "web" "tcp") demoGlobal = Ok (demoProbe "web" "tcp").
Proof. vm_compute. reflexivity. Qed.

Lemma validateTimings_exact_witness :
  validateTimings (30 * Second) (1 * Second) (5 * Second) 3 = Ok () /\
  timings_ok (30 * Second) (1 * Second) (5 * Second) 3.
Proof.
  pose proof (validateTimings_exact (30 * Second) (1 * Second) (5 * Second) 3
    ltac:(unfold in_int64, Second; lia)) as H.
  split; [reflexivity|]. apply H. reflexivity.
Defined.


Lemma mergeAndValidateProbe_idempotent_witness :
  mergeAndValidateProbe demoEnv (toRaw (demoProbe "web" "tcp")) demoGlobal = Ok (demoProbe "web" "tcp").
Proof.
  exact (mergeAndValidateProbe_idempotent demoEnv (demoRaw "web" "tcp") demoGlobal _ demo_range demo_merge).
Defined.

Lemma validateLabels_order_irrelevant_witness :
  validateLabels demoEnv (Some {["site" := "lab"]}) = Ok ().
Proof.
  apply (validateLabels_order_irrelevant demoEnv
    {| LookupHost := demoLookup; localInterfaceAddrs := inl ""; rangeLabels := fun m => reverse (map_to_list m);
       ResolveTCPAddr := fun _ => None; unicodeTables := demoUnicode |}).
  - exact demo_range.
  - intros m. apply reverse_Permutation.
  - vm_compute. reflexivity.
Defined.
