(* ===== verification/ConfigLoad.v ===== *)
(** * internal/config/config.go: reading the probe directory, parsing the
    sources, the fingerprint, and [Load].

    The operating system ([os.ReadFile], [os.ReadDir], [filepath.Join]) is the
    record [OSEnv]; the YAML package is the pair of decoders of [YAML], each of
    which decodes a document onto an initial value and returns the result or an
    error text. *)

From S2P Require Import Prelude.
From S2P Require Import GoStrings.
From S2P Require Import GoNet.
From S2P Require Import Types.
From S2P Require Import Sha256.
From S2P Require Import Config.
From Stdlib Require Import Ascii.

Record Config := {
  Global : GlobalConfig;
  Exporters : ExportersConfig;
  Server : ServerConfig;
  Pipeline : PipelineConfig;
  Probes : list ProbeConfig;
  SHA256 : string
}.

Definition globalFileName : string := "_global.yaml".

Record probeSource := { src_name : string; src_data : string }.

Record DirEntry := { entry_name : string; IsDir : bool }.

Record OSEnv := {
  ReadFile : string -> string + string;
  ReadDir : string -> string + list DirEntry;
  JoinPath : string -> string -> string
}.

Record YAML := {
  UnmarshalProbes : rawProbeFile -> string -> string + rawProbeFile;
  UnmarshalOps : rawOpsFile -> string -> string + rawOpsFile
}.

(** ** readProbeDir *)

Definition skipEntry (e : DirEntry) : bool :=
  IsDir e || HasPrefix (entry_name e) "." || negb (Ext (entry_name e) =? ".yaml")%string.

Fixpoint readEntries (os : OSEnv) (dir : string) (entries : list DirEntry)
    : res cfg_error (list probeSource) :=
  match entries with
  | [] => Ok []
  | e :: rest =>
      if skipEntry e then readEntries os dir rest else
      match ReadFile os (JoinPath os dir (entry_name e)) with
      | inl cause => Err (EReadFile (JoinPath os dir (entry_name e)) cause)
      | inr data =>
          sources ← readEntries os dir rest;
          Ok ({| src_name := entry_name e; src_data := data |} :: sources)
      end
  end.

Definition readProbeDir (os : OSEnv) (dir : string) : res cfg_error (list probeSource) :=
  match ReadDir os dir with
  | inl cause => Err (EReadDir dir cause)
  | inr entries =>
      sources ← readEntries os dir entries;
      failif (length sources =? 0)%nat with ENoYAML dir;;
      Ok sources
  end.

(** ** fingerprint *)

(** The bytes written to the hash: name, NUL, content, NUL, for each source. *)
Definition sourceBytes (s : probeSource) : list Z :=
  bytesOf (src_name s) ++ [0] ++ bytesOf (src_data s) ++ [0].
Definition preimage (sources : list probeSource) : list Z := concat (sourceBytes <$> sources).
Definition fingerprint (sources : list probeSource) : string :=
  EncodeToString (sha256 (preimage sources)).

(** ** parseOpsFile *)

(** The defaults the ops document is decoded onto. *)
Definition opsDefaults : rawOpsFile :=
  {| o_Exporters :=
       {| Stdout := {| stdout_Enabled := false; stdout_Format := "json" |};
          OTLP := {| otlp_Enabled := false; Endpoint := ""; Protocol := "grpc"; Insecure := false;
                     TLS := {| CertFile := ""; KeyFile := ""; CAFile := "" |};
                     Batch := {| ExportInterval := 30 * Second; ExportTimeout := 10 * Second |};
                     Retry := {| retry_Enabled := true; MaxElapsedTime := 300 * Second |};
                     ShutdownTimeout := 10 * Second |} |};
     o_Server := {| Listen := "127.0.0.1:8080" |};
     o_Pipeline := {| BufferSize := 1000 |} |}.

Definition parseOpsFile (y : YAML) (data : string) : res cfg_error rawOpsFile :=
  match UnmarshalOps y opsDefaults data with
  | inl cause => Err (EYAMLOps cause)
  | inr raw =>
      let format := stdout_Format (Stdout (o_Exporters raw)) in
      failif negb (format =? "json")%string && negb (format =? "text")%string
        with EStdoutFormat format;;
      _ ← validateOTLP (OTLP (o_Exporters raw));
      failif BufferSize (o_Pipeline raw) <=? 0 with EBufferSize;;
      Ok raw
  end.

(** ** parseProbeSources *)

Definition globalDefaults : GlobalConfig :=
  {| g_Interval := 30 * Second; g_PacketInterval := 1 * Second; g_Timeout := 5 * Second;
     g_Count := 3; g_SourceIP := "" |}.

Record fragment := { f_file : string; f_raws : list rawProbeConfig }.

(** The first loop: decode every source, collecting the global section and the
    fragments.  [*raw.Global] panics when the decoder left the pointer nil. *)
Fixpoint decodeSources (y : YAML) (global : GlobalConfig) (sources : list probeSource)
    : res cfg_error (GlobalConfig * list fragment) :=
  match sources with
  | [] => Ok (global, [])
  | s :: rest =>
      let isGlobal := (src_name s =? globalFileName)%string in
      let init := {| rf_Global := if isGlobal then Some global else None; rf_Probes := None |} in
      match UnmarshalProbes y init (src_data s) with
      | inl cause => Err (EYAMLProbes (src_name s) cause)
      | inr raw =>
          if isGlobal then
            match rf_Probes raw with
            | Some _ => Err (EGlobalHasProbes (src_name s))
            | None =>
                match rf_Global raw with
                | None => Panic NilDereference
                | Some g => decodeSources y g rest
                end
            end
          else
            match rf_Global raw with
            | Some _ => Err (EGlobalNotAllowed (src_name s))
            | None =>
                '(g, frags) ← decodeSources y global rest;
                Ok (g, {| f_file := src_name s; f_raws := default [] (rf_Probes raw) |} :: frags)
            end
      end
  end.

(** The loop recording the file each name came from. *)
Fixpoint recordOrigins (file : string) (pcs : list ProbeConfig) (origin : gmap string string)
    : res cfg_error (gmap string string) :=
  match pcs with
  | [] => Ok origin
  | pc :: rest =>
      match origin !! Name pc with
      | Some prev => Err (ENameInTwoFiles (Name pc) prev file)
      | None => recordOrigins file rest (<[Name pc := file]> origin)
      end
  end.

Fixpoint mergeFragments (env : ConfigEnv) (global : GlobalConfig) (frags : list fragment)
    (origin : gmap string string) : res cfg_error (list ProbeConfig) :=
  match frags with
  | [] => Ok []
  | f :: rest =>
      pcs ← wrapErr (EInFile (f_file f)) (mergeAndValidateProbes env (f_raws f) global);
      origin' ← recordOrigins (f_file f) pcs origin;
      probes ← mergeFragments env global rest origin';
      Ok (pcs ++ probes)
  end.

Definition parseProbeSources (env : ConfigEnv) (y : YAML) (sources : list probeSource)
    : res cfg_error (GlobalConfig * list ProbeConfig) :=
  '(global, frags) ← decodeSources y globalDefaults sources;
  _ ← validateGlobal global;
  probes ← mergeFragments env global frags ∅;
  Ok (global, probes).

(** ** parseSources and Load *)

Definition parseSources (env : ConfigEnv) (y : YAML) (opsData : string)
    (sources : list probeSource) : res cfg_error Config :=
  ops ← parseOpsFile y opsData;
  '(global, probes) ← parseProbeSources env y sources;
  Ok {| Global := global; Exporters := o_Exporters ops; Server := o_Server ops;
        Pipeline := o_Pipeline ops; Probes := probes; SHA256 := fingerprint sources |}.

Definition Load (os : OSEnv) (env : ConfigEnv) (y : YAML) (opsPath probesDir : string)
    : res cfg_error Config :=
  match ReadFile os opsPath with
  | inl cause => Err (EReadOps cause)
  | inr opsData =>
      sources ← readProbeDir os probesDir;
      parseSources env y opsData sources
  end.

(** ** The probe directory *)

Definition eligible (e : DirEntry) : bool := negb (skipEntry e).

Definition readFrom (os : OSEnv) (dir : string) (e : DirEntry) (s : probeSource) : Prop :=
  src_name s = entry_name e /\ ReadFile os (JoinPath os dir (entry_name e)) = inr (src_data s).

Lemma readEntries_ok os dir entries sources :
  readEntries os dir entries = Ok sources <->
  Forall2 (readFrom os dir) (List.filter eligible entries) sources.
Proof.
  unfold eligible. revert sources. induction entries as [|e entries IH]; intros sources; simpl.
  { split; [intros [= <-]; constructor|]. by intros ->%Forall2_nil_inv_l. }
  destruct (skipEntry e); simpl; [apply IH|]. unfold readFrom at 1. split.
  - intros H. destruct (ReadFile _ _) eqn:E; [done|]. res_inv.
    constructor; [done|by apply IH].
  - intros (s & ss & [Hn Hd] & Hss & ->)%Forall2_cons_inv_l. rewrite Hd.
    rewrite (proj2 (IH ss)) by done. simpl. rewrite <- Hn. by destruct s.
Qed.

(** reading the probe directory succeeds exactly when the directory can
    be listed, it has at least one eligible file (a non-directory, not a
    dotfile, with extension ".yaml") and every eligible file can be read; the
    sources are those files, each once, in directory order. *)
Theorem readProbeDir_exact os dir sources :
  readProbeDir os dir = Ok sources <->
  exists entries, ReadDir os dir = inr entries /\ sources <> [] /\
    Forall2 (readFrom os dir) (List.filter eligible entries) sources.
Proof.
  unfold readProbeDir. destruct (ReadDir os dir) as [c|entries]; [naive_solver|]. split.
  - intros H. res_inv. exists entries. rewrite <- readEntries_ok. split_and!; try done.
    by destruct sources.
  - intros (es & [= <-] & Hne & H). apply readEntries_ok in H. rewrite H. simpl.
    by destruct sources.
Qed.

(** ** The fingerprint *)

Definition nul_free (s : string) : Prop := 0 ∉ bytesOf s.
Definition nul_free_source (s : probeSource) : Prop := nul_free (src_name s) /\ nul_free (src_data s).

Lemma split_at_nul (a a' b b' : list Z) :
  0 ∉ a -> 0 ∉ a' -> a ++ 0 :: b = a' ++ 0 :: b' -> a = a' /\ b = b'.
Proof.
  revert a'. induction a as [|x a IH]; intros [|x' a'] H H' E; simpl in *; simplify_eq.
  - done.
  - by destruct H'; constructor.
  - by destruct H; constructor.
  - destruct (IH a') as [-> ->]; try done; set_solver.
Qed.

Lemma preimage_inj sources sources' :
  Forall nul_free_source sources -> Forall nul_free_source sources' ->
  preimage sources = preimage sources' -> sources = sources'.
Proof.
  unfold preimage. intros H. revert sources'.
  induction H as [|s sources [Hn Hd] H IH]; intros sources' H' E; simpl in *.
  { destruct sources' as [|s' ?]; [done|]. simpl in E. unfold sourceBytes in E.
    by destruct (bytesOf (src_name s')). }
  destruct H' as [|s' sources' [Hn' Hd'] H']; simpl in *.
  { unfold sourceBytes in E. by destruct (bytesOf (src_name s)). }
  unfold sourceBytes in E. rewrite <- !app_assoc in E. simpl in E.
  apply split_at_nul in E as [E1 E]; [|done..].
  apply split_at_nul in E as [E2 E]; [|done..].
  apply bytesOf_inj in E1, E2. f_equal; [by destruct s, s'; simpl in *; subst|].
  by apply IH.
Qed.

(** what the fingerprint hashes determines the probe configuration: for
    sources whose names and contents hold no NUL byte, two different source
    lists (a file added, removed, renamed, reordered or edited) never feed the
    same bytes to SHA-256, so equal fingerprints mean equal sources or a
    SHA-256 collision. *)
Theorem fingerprint_covers_sources sources sources' :
  Forall nul_free_source sources -> Forall nul_free_source sources' ->
  fingerprint sources = EncodeToString (sha256 (preimage sources)) /\
  (sources <> sources' -> preimage sources <> preimage sources').
Proof.
  intros H H'. split; [done|]. intros Hne E. apply Hne. by apply preimage_inj.
Qed.

(** the NUL separators are not an injective encoding for contents that hold
    NUL bytes: a one-file directory and a two-file directory can have the same
    fingerprint. *)
Theorem fingerprint_nul_collision :
  exists s1 s2, s1 <> s2 /\ fingerprint s1 = fingerprint s2.
Proof.
  exists [{| src_name := "a.yaml";
             src_data := String (chr 120) (String (chr 0) ("b.yaml" +:+ String (chr 0) "y")) |}],
         [{| src_name := "a.yaml"; src_data := "x" |}; {| src_name := "b.yaml"; src_data := "y" |}].
  split; [done|]. unfold fingerprint. f_equal.
Qed.

(** ** Decoding *)

(** A decoder that keeps a non-nil [global] pointer non-nil on this document. *)
Definition keeps_global (y : YAML) (data : string) : Prop :=
  forall g raw, UnmarshalProbes y {| rf_Global := Some g; rf_Probes := None |} data = inr raw ->
    rf_Global raw <> None.

Lemma decodeSources_no_panic y g sources :
  Forall (fun s => src_name s = globalFileName -> keeps_global y (src_data s)) sources ->
  no_panic (decodeSources y g sources).
Proof.
  intros H. revert g. induction H as [|s sources Hk _ IH]; intros g; simpl; [done|].
  destruct (String.eqb_spec (src_name s) globalFileName) as [Eg|Eg].
  - destruct (UnmarshalProbes _ _ _) as [|raw] eqn:E; [done|]. specialize (Hk Eg _ _ E).
    destruct (rf_Probes raw); [done|]. by destruct (rf_Global raw).
  - destruct (UnmarshalProbes _ _ _) as [|raw] eqn:E; [done|].
    destruct (rf_Global raw); [done|]. apply no_panic_bind; [done|]. by intros [].
Qed.

Lemma validateTimings_no_panic i p t c : no_panic (validateTimings i p t c).
Proof. unfold validateTimings. solve_no_panic. Qed.
#[local] Hint Resolve validateTimings_no_panic : nopanic.

Lemma validateProtocolConfig_no_panic env r pc : no_panic (validateProtocolConfig env r pc).
Proof.
  unfold validateProtocolConfig, validateHTTPConfig, validateTCPConfig, validateUDPConfig,
    validateDNSConfig, httpScheme, httpPort, httpMethod, httpStatus, dnsRecordType, dnsResolver.
  solve_no_panic.
Qed.
#[local] Hint Resolve validateProtocolConfig_no_panic : nopanic.

Lemma mergeAndValidateProbe_no_panic env r g : no_panic (mergeAndValidateProbe env r g).
Proof.
  unfold mergeAndValidateProbe, validateTargets, resolveSourceIP, isLocalIP, validateLabels,
    validateLabel, validateOneTarget, validateDNSQueryName.
  destruct (mergeTimings r g) as [[[? ?] ?] ?].
  apply no_panic_wrap. solve_no_panic.
Qed.
#[local] Hint Resolve mergeAndValidateProbe_no_panic : nopanic.

Lemma mergeLoop_no_panic env g i seen raws : no_panic (mergeLoop env g i seen raws).
Proof. revert i seen. induction raws; intros i seen; simpl; solve_no_panic. Qed.

Lemma recordOrigins_no_panic file pcs origin : no_panic (recordOrigins file pcs origin).
Proof. revert origin. induction pcs; intros origin; simpl; [done|]. case_match; auto with nopanic. Qed.

Lemma mergeFragments_no_panic env g frags origin : no_panic (mergeFragments env g frags origin).
Proof.
  revert origin. induction frags as [|f frags IH]; intros origin; simpl; [done|].
  apply no_panic_bind; [apply no_panic_wrap, mergeLoop_no_panic|]. intros pcs.
  apply no_panic_bind; [apply recordOrigins_no_panic|]. intros o. by apply no_panic_bind.
Qed.

(** parsing the probe sources can panic in one way only: dereferencing the
    [global] pointer of _global.yaml.  If the YAML decoder leaves that pointer
    non-nil for every _global.yaml document, parsing returns a configuration or
    an error, never a panic. *)
Theorem parseProbeSources_no_panic env y sources :
  Forall (fun s => src_name s = globalFileName -> keeps_global y (src_data s)) sources ->
  forall p, parseProbeSources env y sources <> Panic p.
Proof.
  intros H. change (no_panic (parseProbeSources env y sources)). unfold parseProbeSources.
  apply no_panic_bind; [by apply decodeSources_no_panic|]. intros [g frags].
  apply no_panic_bind; [unfold validateGlobal; auto with nopanic|]. intros _.
  apply no_panic_bind; [apply mergeFragments_no_panic|]. done.
Qed.

(** a _global.yaml document that the decoder turns into a nil [global]
    pointer (a bare "global:" key, a YAML null) crashes the load instead of
    being rejected or keeping the defaults. *)
Theorem parseProbeSources_null_global env y data rest :
  UnmarshalProbes y {| rf_Global := Some globalDefaults; rf_Probes := None |} data
    = inr {| rf_Global := None; rf_Probes := None |} ->
  parseProbeSources env y ({| src_name := globalFileName; src_data := data |} :: rest)
    = Panic NilDereference.
Proof. intros H. unfold parseProbeSources. simpl. by rewrite H. Qed.

(** ** What the rest of the program may rely on

    The interface of this component: the scheduler needs unique names, the
    pipeline a positive buffer, the probers well-formed probes. *)

Class ValidConfig (env : ConfigEnv) (cfg : Config) : Prop := {
  valid_names : NoDup (Name <$> Probes cfg);
  valid_nonempty : "" ∉ (Name <$> Probes cfg);
  valid_probes : Forall (wf_probe env) (Probes cfg);
  valid_buffer : 0 < BufferSize (Pipeline cfg);
  valid_format : stdout_Format (Stdout (Exporters cfg)) ∈ ["json"; "text"];
  valid_global : in_int64 (g_PacketInterval (Global cfg) * g_Count (Global cfg)) ->
    timings_ok (g_Interval (Global cfg)) (g_PacketInterval (Global cfg))
               (g_Timeout (Global cfg)) (g_Count (Global cfg))
}.

Lemma recordOrigins_ok file pcs origin origin' :
  recordOrigins file pcs origin = Ok origin' ->
  NoDup (Name <$> pcs) /\ Forall (fun pc => origin !! Name pc = None) pcs /\
  (forall n, origin' !! n = None <-> origin !! n = None /\ n ∉ (Name <$> pcs)).
Proof.
  revert origin. induction pcs as [|pc pcs IH]; intros origin H; simpl in *.
  { injection H as <-. split_and!; [constructor..|]. intros n.
    split; [intros ?; split; [done|apply not_elem_of_nil]|by intros []]. }
  destruct (origin !! Name pc) eqn:Ho; [done|]. destruct (IH _ H) as (H1 & H2 & H3).
  rewrite NoDup_cons, Forall_cons. split_and!; try done.
  - rewrite list_elem_of_fmap. intros (pc' & E & Hin). eapply Forall_forall in H2; [|exact Hin].
    rewrite <- E in H2. by rewrite lookup_insert_eq in H2.
  - eapply Forall_impl; [exact H2|]. intros pc' Hn. simpl in Hn.
    destruct (decide (Name pc = Name pc')) as [<-|]; [done|]. by rewrite lookup_insert_ne in Hn.
  - intros n. rewrite H3, not_elem_of_cons.
    destruct (decide (Name pc = n)) as [<-|Hne].
    + rewrite lookup_insert_eq. naive_solver.
    + rewrite lookup_insert_ne by done. naive_solver.
Qed.

Lemma mergeFragments_ok env g frags origin probes :
  mergeFragments env g frags origin = Ok probes ->
  exists pcss, Forall2 (fun f pcs => mergeAndValidateProbes env (f_raws f) g = Ok pcs) frags pcss /\
    probes = concat pcss /\ NoDup (Name <$> probes) /\
    Forall (fun pc => origin !! Name pc = None) probes.
Proof.
  revert origin probes. induction frags as [|f frags IH]; intros origin probes H; simpl in *.
  { injection H as <-. exists []. split_and!; constructor. }
  res_inv. apply recordOrigins_ok in Heqr0 as (R1 & R2 & R3).
  destruct (IH _ _ Heqr1) as (pcss & P1 & P2 & P3 & P4).
  exists (a :: pcss). split; [by constructor|]. split; [simpl; by f_equal|]. split.
  - rewrite fmap_app. apply NoDup_app. split_and!; try done.
    intros n Hn (pc & -> & Hpc)%list_elem_of_fmap. eapply Forall_forall in P4; [|exact Hpc].
    simpl in P4. by apply R3 in P4 as [_ []].
  - apply Forall_app. split; [done|]. eapply Forall_impl; [exact P4|].
    intros pc Hpc. by apply R3 in Hpc as [].
Qed.

(** All probes of the merged set went through [mergeAndValidateProbe]. *)
Lemma mergeFragments_origin env g frags origin probes :
  mergeFragments env g frags origin = Ok probes ->
  forall pc, pc ∈ probes -> (exists r, mergeAndValidateProbe env r g = Ok pc) /\ Name pc <> "".
Proof.
  intros (pcss & Hf & -> & _)%mergeFragments_ok pc Hpc.
  rewrite list_elem_of_In in Hpc. apply in_concat in Hpc as (pcs & Hin & Hpc).
  apply list_elem_of_In in Hin. apply list_elem_of_In in Hpc.
  apply list_elem_of_lookup in Hin as (i & Hi).
  destruct (Forall2_lookup_r _ _ _ _ _ Hf Hi) as (f & _ & Hm).
  apply mergeLoop_ok in Hm as (Hm & Hne & _).
  apply list_elem_of_lookup in Hpc as (j & Hj).
  destruct (Forall2_lookup_r _ _ _ _ _ Hm Hj) as (r & Hrj & Hpr).
  rewrite (mergeAndValidateProbe_name _ _ _ _ Hpr). split; [by eexists|].
  eapply Forall_lookup_1 in Hne; [|exact Hrj]. done.
Qed.

Lemma mergeFragments_wf env g frags origin probes :
  range_ok env -> mergeFragments env g frags origin = Ok probes ->
  Forall (wf_probe env) probes /\ "" ∉ (Name <$> probes).
Proof.
  intros Hr Hm. pose proof (mergeFragments_origin _ _ _ _ _ Hm) as Hall. split.
  - apply Forall_forall. intros pc Hpc. destruct (Hall pc Hpc) as [[r E] _]. by apply (wf_merged _ _ _ _ Hr E).
  - rewrite list_elem_of_fmap. intros (pc & E & Hpc). destruct (Hall pc Hpc). done.
Qed.

(** Where the probes of a loaded configuration come from. *)
Lemma Load_origin os env y opsPath probesDir cfg :
  Load os env y opsPath probesDir = Ok cfg ->
  Forall (fun pc => (exists r, mergeAndValidateProbe env r (Global cfg) = Ok pc) /\ Name pc <> "") (Probes cfg) /\
  NoDup (Name <$> Probes cfg).
Proof.
  intros H. unfold Load, parseSources, parseProbeSources in H.
  destruct (ReadFile os opsPath); [done|]. res_inv.
  all: match goal with E : mergeFragments _ _ _ _ = Ok _ |- _ =>
    pose proof (mergeFragments_ok _ _ _ _ _ E) as (pcss & _ & _ & Hn & _);
    pose proof (mergeFragments_origin _ _ _ _ _ E) as Ho end.
  all: split; [|done]; apply Forall_forall; exact Ho.
Qed.

Lemma Load_interface os env y opsPath probesDir cfg :
  range_ok env -> Load os env y opsPath probesDir = Ok cfg ->
  ValidConfig env cfg /\
  exists sources, readProbeDir os probesDir = Ok sources /\ SHA256 cfg = fingerprint sources.
Proof.
  intros Hr H. unfold Load, parseSources, parseOpsFile, parseProbeSources, validateGlobal in H.
  res_inv.
  all: match goal with E : mergeFragments _ _ _ _ = Ok _ |- _ =>
    pose proof (mergeFragments_ok _ _ _ _ _ E) as (pcss & _ & _ & Hn & _);
    pose proof (mergeFragments_wf _ _ _ _ _ Hr E) as [Hw He] end.
  all: split; [|by eexists].
  all: constructor; simpl; try done; bool_prop; try lia.
  all: try (match goal with E : validateTimings _ _ _ _ = Ok ?u |- _ =>
      destruct u; apply validateTimings_ok in E; intros Hi; rewrite wrap64_id in E by done;
      unfold timings_ok; lia end).
  all: match goal with E : negb _ && negb _ = false |- _ =>
    apply andb_false_iff in E as [E|E]; bool_prop; rewrite E; repeat constructor end.
Qed.


(** ** Concrete instances *)

Definition demoSources : list probeSource :=
  [{| src_name := "_global.yaml"; src_data := "global: {source_ip: 127.0.0.1}" |};
   {| src_name := "web.yaml"; src_data := "probes: [web, api]" |}].

(** A decoder that knows the two documents above, and YAML null. *)
Definition demoYAML : YAML :=
  {| UnmarshalProbes := fun init data =>
       if (data =? "global: {source_ip: 127.0.0.1}")%string
       then inr {| rf_Global := Some demoGlobal; rf_Probes := None |}
       else if (data =? "probes: [web, api]")%string
       then inr {| rf_Global := rf_Global init; rf_Probes := Some [demoRaw "web" "tcp"; demoRaw "api" "tcp"] |}
       else if (data =? "global:")%string then inr {| rf_Global := None; rf_Probes := None |}
       else inl "unknown document";
     UnmarshalOps := fun init _ => inr init |}.

Definition demoOS : OSEnv :=
  {| ReadFile := fun path =>
       if (path =? "ops.yaml")%string then inr ""
       else if (path =? "probes.d/_global.yaml")%string then inr "global: {source_ip: 127.0.0.1}"
       else if (path =? "probes.d/web.yaml")%string then inr "probes: [web, api]"
       else inl "no such file";
     ReadDir := fun dir => inr [{| entry_name := ".hidden.yaml"; IsDir := false |};
                                {| entry_name := "_global.yaml"; IsDir := false |};
                                {| entry_name := "old.yaml"; IsDir := true |};
                                {| entry_name := "web.yaml"; IsDir := false |}];
     JoinPath := fun dir name => dir +:+ "/" +:+ name |}.

Definition demoConfig : Config :=
  {| Global := demoGlobal; Exporters := o_Exporters opsDefaults; Server := o_Server opsDefaults;
     Pipeline := o_Pipeline opsDefaults;
     Probes := [demoProbe "web" "tcp"; demoProbe "api" "tcp"];
     SHA256 := fingerprint demoSources |}.

Lemma demo_load : Load demoOS demoEnv demoYAML "ops.yaml" "probes.d" = Ok demoConfig.
Proof. vm_compute. reflexivity. Qed.


Lemma fingerprint_covers_sources_witness :
  preimage demoSources <> preimage (reverse demoSources).
Proof.
  refine (proj2 (fingerprint_covers_sources demoSources (reverse demoSources) _ _) _).
  - repeat constructor; vm_compute; intros H; repeat (apply elem_of_cons in H as [H|H]; [discriminate|]);
      by apply not_elem_of_nil in H.
  - repeat constructor; vm_compute; intros H; repeat (apply elem_of_cons in H as [H|H]; [discriminate|]);
      by apply not_elem_of_nil in H.
  - discriminate.
Defined.

Lemma parseProbeSources_no_panic_witness :
  parseProbeSources demoEnv demoYAML demoSources <> Panic NilDereference.
Proof.
  apply (parseProbeSources_no_panic demoEnv demoYAML demoSources).
  repeat constructor; simpl; [|discriminate].
  intros _ g raw [= <-]. discriminate.
Defined.

Lemma parseProbeSources_null_global_witness :
  parseProbeSources demoEnv demoYAML [{| src_name := "_global.yaml"; src_data := "global:" |}]
    = Panic NilDereference.
Proof. exact (parseProbeSources_null_global demoEnv demoYAML "global:" [] eq_refl). Defined.
