(* ===== verification/ConfigError.v ===== *)
(** * internal/config: the messages of the loading errors.

    A [cfg_error] is one [errors.New] or [fmt.Errorf] of the package with the
    values it prints; [errorText] is its [Error()] text, which main and the
    reload handler write to the log.  The messages are grouped by the file that
    builds them; a [%w] prints the wrapped error. *)

From stdpp Require Import sorting.
From S2P Require Import Prelude.
From S2P Require Import GoStrings.
From S2P Require Import GoTime.
From S2P Require Import Types.
From S2P Require Import Config.
From S2P Require Import ConfigLoad.

(** A double quote, and a text between two of them. *)
Definition dquote : string := String (chr 34) "".
Definition dquoted (s : string) : string := dquote +:+ s +:+ dquote.

(** ** protocols.go *)

Definition protocolText (u : UnicodeTables) (e : cfg_error) : string :=
  match e with
  | EBlockRequired type => type +:+ " config block is required for type " +:+ dquoted type
  | EHTTPScheme got =>
      "http.scheme must be " +:+ dquoted "http" +:+ " or " +:+ dquoted "https" +:+ ", got " +:+ Quote u got
  | EHTTPPort got => "http.port must be in [1, 65535], got " +:+ Itoa got
  | EHTTPMethod got => "http.method must be GET, HEAD, or POST, got " +:+ Quote u got
  | EHTTPStatus got => "http.expected_status must be in [100, 599] or 0 (any 2xx), got " +:+ Itoa got
  | EHTTPExpiryDays got => "http.tls_expiry_warning_days must be >= 0, got " +:+ Itoa got
  | ETCPPort got => "tcp.port must be in [1, 65535], got " +:+ Itoa got
  | ETCPMode got => "tcp.mode must be " +:+ Quote u TCPModeConnect +:+ " or " +:+ Quote u TCPModeSYN +:+
                    ", got " +:+ Quote u got
  | EUDPPort got => "udp.port must be in [1, 65535], got " +:+ Itoa got
  | EUDPExpectedWithoutPayload => "udp.expected_response requires a non-empty udp.payload"
  | EDNSRecordType got => "dns.record_type must be one of A, AAAA, CNAME, MX, TXT, got " +:+ Quote u got
  | EDNSResolver cause => "dns.resolver must be a valid host:port: " +:+ cause
  | _ => ""
  end.

(** ** validate.go *)

(** [strings.Join(slices.Sorted(maps.Keys(knownProbeTypes)), ", ")] *)
Definition supportedTypes : string := Join (merge_sort String.le knownProbeTypes) ", ".

Definition validateText (u : UnicodeTables) (e : cfg_error) : string :=
  match e with
  | EProbeEvery => "probe_every must be positive"
  | EPacketInterval => "packet_interval must be >= 1ms"
  | ETimeout => "timeout must be positive"
  | ECount => "count must be positive"
  | EPacketsDontFit minDuration timeout =>
      "packet_interval * count (" +:+ DurationString minDuration +:+ ") must be less than timeout (" +:+
      DurationString timeout +:+ ")"
  | ETimeoutNotBelowInterval timeout interval =>
      "timeout (" +:+ DurationString timeout +:+ ") must be less than probe_every (" +:+
      DurationString interval +:+ ")"
  | ENameRequired index => "probe[" +:+ Itoa index +:+ "]: name is required"
  | ENameNotUnique name => "probe name " +:+ Quote u name +:+ " is not unique"
  | ETypeRequired => "type is required"
  | EUnknownType type => "unknown type " +:+ Quote u type +:+ " (supported: " +:+ supportedTypes +:+ ")"
  | ETargetsRequired => "targets is required and must have at least one entry"
  | ETargetUnresolved entry cause =>
      "target " +:+ Quote u entry +:+ " is not a valid IP and could not be resolved: " +:+ cause
  | ETargetNoAddresses entry => "target " +:+ Quote u entry +:+ " is not a valid IP and resolved to no addresses"
  | EQueryNameEmpty => "dns target query name must not be empty"
  | EQueryNameSpace entry => "dns target query name " +:+ Quote u entry +:+ " must not contain whitespace"
  | EMaxResolvedIPs => "max_resolved_ips must be >= 0"
  | ESourceIPInvalid ip => "source_ip " +:+ Quote u ip +:+ " is not a valid IP address"
  | ESourceIPNotLocal ip => "source_ip " +:+ Quote u ip +:+ " is not assigned to any local interface"
  | EInterfaces cause => "listing local interfaces: " +:+ cause
  | ELabelKey key => "label key " +:+ Quote u key +:+ " is not a valid OTel attribute name"
  | ELabelValue key => "label " +:+ Quote u key +:+ " value contains control characters"
  | EOTLPEndpoint => "exporters.otlp.endpoint is required when otlp is enabled"
  | EOTLPProtocol got =>
      "exporters.otlp.protocol must be " +:+ dquoted "grpc" +:+ " or " +:+ dquoted "http" +:+ ", got " +:+ Quote u got
  | EOTLPTLSPair => "exporters.otlp.tls: cert_file and key_file must both be set or both be empty"
  | EOTLPShutdownTimeout => "exporters.otlp.shutdown_timeout must be positive"
  | _ => protocolText u e
  end.

Example supportedTypes_text : supportedTypes = "dns, http, icmp, tcp, udp".
Proof. reflexivity. Qed.

(** ** config.go, and the wrapping *)

Fixpoint errorText (u : UnicodeTables) (e : cfg_error) : string :=
  match e with
  | EReadOps cause => "reading ops config: " +:+ cause
  | EReadDir dir cause => "reading probe config dir " +:+ dir +:+ ": " +:+ cause
  | EReadFile file cause => "reading probe config file " +:+ file +:+ ": " +:+ cause
  | ENoYAML dir => "reading probe config dir " +:+ dir +:+ ": no *.yaml files found"
  | EYAMLOps cause => "parsing ops config YAML: " +:+ cause
  | EStdoutFormat got =>
      "exporters.stdout.format must be " +:+ dquoted "json" +:+ " or " +:+ dquoted "text" +:+ ", got " +:+ Quote u got
  | EBufferSize => "pipeline.buffer_size must be positive"
  | EYAMLProbes file cause => "parsing probe config YAML in " +:+ file +:+ ": " +:+ cause
  | EGlobalHasProbes file => file +:+ " must not contain a probes: key"
  | EGlobalNotAllowed file => file +:+ ": global: is only allowed in " +:+ globalFileName
  | ENameInTwoFiles name prev file =>
      "probe name " +:+ Quote u name +:+ " defined in both " +:+ prev +:+ " and " +:+ file
  | EInFile file e' => file +:+ ": " +:+ errorText u e'
  | EInProbe name e' => "probe " +:+ Quote u name +:+ ": " +:+ errorText u e'
  | EInGlobal e' => "global." +:+ errorText u e'
  | _ => validateText u e
  end.


(** ** Where a message points to *)

(** The starts of the messages about a readable ops file. *)
Definition opsPrefixes : list string := ["parsing ops config YAML: "; "exporters."; "pipeline."].

(** What a source is decoded onto: the global file onto the defaults so far. *)
Definition decodedOnto (s : probeSource) (g : GlobalConfig) : rawProbeFile :=
  {| rf_Global := if (src_name s =? globalFileName)%string then Some g else None; rf_Probes := None |}.

(** What is wrong with one source: it is no YAML, or it has a section it may not
    have; and the message that says so. *)
Inductive sourceFault (y : YAML) (g : GlobalConfig) (s : probeSource) : string -> Prop :=
  | fault_yaml cause :
      UnmarshalProbes y (decodedOnto s g) (src_data s) = inl cause ->
      sourceFault y g s ("parsing probe config YAML in " +:+ src_name s +:+ ": " +:+ cause)
  | fault_probes raw probes :
      src_name s = globalFileName -> UnmarshalProbes y (decodedOnto s g) (src_data s) = inr raw ->
      rf_Probes raw = Some probes -> sourceFault y g s (src_name s +:+ " must not contain a probes: key")
  | fault_global raw g' :
      src_name s <> globalFileName -> UnmarshalProbes y (decodedOnto s g) (src_data s) = inr raw ->
      rf_Global raw = Some g' ->
      sourceFault y g s (src_name s +:+ ": global: is only allowed in " +:+ globalFileName).

(** The probes a source declares. *)
Definition declares (y : YAML) (s : probeSource) (f : fragment) : Prop :=
  src_name s <> globalFileName /\
  exists raw, UnmarshalProbes y {| rf_Global := None; rf_Probes := None |} (src_data s) = inr raw /\ rf_Global raw = None /\
    f = {| f_file := src_name s; f_raws := default [] (rf_Probes raw) |}.

(** What is wrong with the probes of one file: one is rejected, or one of them has
    the name of a probe of an earlier file. *)
Inductive mergeFault (env : ConfigEnv) (g : GlobalConfig) (before : list fragment) (f : fragment) : string -> Prop :=
  | fault_probe e :
      mergeAndValidateProbes env (f_raws f) g = Err e ->
      HasPrefix (errorText (unicodeTables env) e) "probe" = true ->
      mergeFault env g before f (f_file f +:+ ": " +:+ errorText (unicodeTables env) e)
  | fault_twice prev pcs pcs' name :
      prev ∈ before -> mergeAndValidateProbes env (f_raws prev) g = Ok pcs ->
      mergeAndValidateProbes env (f_raws f) g = Ok pcs' -> name ∈ Name <$> pcs -> name ∈ Name <$> pcs' ->
      mergeFault env g before f
        ("probe name " +:+ Quote (unicodeTables env) name +:+ " defined in both " +:+ f_file prev +:+ " and " +:+ f_file f).

(** What is wrong with the files of a load. *)
Inductive loadFault (os : OSEnv) (env : ConfigEnv) (y : YAML) (opsPath probesDir : string) : string -> Prop :=
  | at_ops_read cause :
      ReadFile os opsPath = inl cause -> loadFault os env y opsPath probesDir ("reading ops config: " +:+ cause)
  | at_ops data e :
      ReadFile os opsPath = inr data -> parseOpsFile y data = Err e ->
      existsb (HasPrefix (errorText (unicodeTables env) e)) opsPrefixes = true ->
      loadFault os env y opsPath probesDir (errorText (unicodeTables env) e)
  | at_dir cause :
      ReadDir os probesDir = inl cause ->
      loadFault os env y opsPath probesDir ("reading probe config dir " +:+ probesDir +:+ ": " +:+ cause)
  | at_dir_empty entries :
      ReadDir os probesDir = inr entries -> List.filter eligible entries = [] ->
      loadFault os env y opsPath probesDir ("reading probe config dir " +:+ probesDir +:+ ": no *.yaml files found")
  | at_file entries d cause :
      ReadDir os probesDir = inr entries -> d ∈ entries -> eligible d = true ->
      ReadFile os (JoinPath os probesDir (entry_name d)) = inl cause ->
      loadFault os env y opsPath probesDir
        ("reading probe config file " +:+ JoinPath os probesDir (entry_name d) +:+ ": " +:+ cause)
  | at_source before s after g frags text :    (* the first source at fault *)
      readProbeDir os probesDir = Ok (before ++ s :: after) ->
      decodeSources y globalDefaults before = Ok (g, frags) -> sourceFault y g s text ->
      loadFault os env y opsPath probesDir text
  | at_global sources g frags e :
      readProbeDir os probesDir = Ok sources -> decodeSources y globalDefaults sources = Ok (g, frags) ->
      validateTimings (g_Interval g) (g_PacketInterval g) (g_Timeout g) (g_Count g) = Err e ->
      loadFault os env y opsPath probesDir ("global." +:+ errorText (unicodeTables env) e)
  | at_probe sources g before f after s text :
      readProbeDir os probesDir = Ok sources -> decodeSources y globalDefaults sources = Ok (g, before ++ f :: after) ->
      s ∈ sources -> declares y s f -> mergeFault env g before f text ->
      loadFault os env y opsPath probesDir text.

Section Located.
Context (env : ConfigEnv) (y : YAML).
#[local] Notation u := (unicodeTables env).

Lemma readEntries_err os dir entries e :
  readEntries os dir entries = Err e ->
  exists d cause, d ∈ entries /\ eligible d = true /\ ReadFile os (JoinPath os dir (entry_name d)) = inl cause /\
    e = EReadFile (JoinPath os dir (entry_name d)) cause.
Proof.
  induction entries as [|d entries IH]; simpl; [done|]. intros H.
  destruct (skipEntry d) eqn:Es.
  - destruct (IH H) as (d' & c & Hd & He). exists d', c. split; [set_solver|done].
  - destruct (ReadFile _ _) as [cause|data] eqn:Er.
    + injection H as <-. exists d, cause. unfold eligible. rewrite Es. split; [set_solver|done].
    + res_inv. destruct IH as (d' & c & Hd & He); [done|]. exists d', c. split; [set_solver|done].
Qed.

Lemma readProbeDir_err os dir opsPath e :
  readProbeDir os dir = Err e -> loadFault os env y opsPath dir (errorText u e).
Proof.
  unfold readProbeDir. destruct (ReadDir os dir) as [cause|entries] eqn:Er; [intros [= <-]; by apply at_dir|].
  destruct (readEntries os dir entries) as [sources|e'|] eqn:Ee; simpl; [| |done].
  - destruct (length sources =? 0)%nat eqn:El; [|done]. intros [= <-]. apply (at_dir_empty _ _ _ _ _ entries); [done|].
    apply readEntries_ok, Forall2_length in Ee. apply Nat.eqb_eq in El. rewrite El in Ee. by apply nil_length_inv.
  - intros [= <-]. apply readEntries_err in Ee as (d & cause & Hd & Hel & Hr & ->). by eapply at_file.
Qed.

Lemma parseOpsFile_err data e :
  parseOpsFile y data = Err e -> existsb (HasPrefix (errorText u e)) opsPrefixes = true.
Proof. unfold parseOpsFile, validateOTLP. intros H. res_inv. Qed.

Lemma decodeSources_err g sources e :
  decodeSources y g sources = Err e ->
  exists before s after g' frags, sources = before ++ s :: after /\
    decodeSources y g before = Ok (g', frags) /\ sourceFault y g' s (errorText u e).
Proof.
  revert g. induction sources as [|s sources IH]; intros g; simpl; [done|].
  assert (sourceFault y g s (errorText u e) -> exists before s' after g' frags, s :: sources = before ++ s' :: after /\
    decodeSources y g before = Ok (g', frags) /\ sourceFault y g' s' (errorText u e)) as Hhere.
  { intros Hf. by exists [], s, sources, g, []. }
  destruct (UnmarshalProbes y _ (src_data s)) as [cause|raw] eqn:E.
  { intros [= <-]. apply Hhere. by apply fault_yaml. }
  destruct (String.eqb_spec (src_name s) globalFileName) as [En|En].
  - destruct (rf_Probes raw) eqn:Ep.
    { intros [= <-]. apply Hhere. eapply fault_probes; [done| |done]. unfold decodedOnto. by rewrite En. }
    destruct (rf_Global raw) as [g0|] eqn:Eg; [|done].
    intros (before & s' & after & g' & frags & -> & Hd & Hf)%IH. exists (s :: before), s', after, g', frags.
    split; [done|]. split; [|done]. simpl. rewrite En, String.eqb_refl, E, Ep, Eg. done.
  - destruct (rf_Global raw) eqn:Eg.
    { intros [= <-]. apply Hhere. eapply fault_global; [done| |done]. unfold decodedOnto.
      by rewrite (proj2 (String.eqb_neq _ _) En). }
    destruct (decodeSources y g sources) as [[g0 fr0]|e'|] eqn:Ed; [done| |done]. intros [= ->].
    destruct (IH _ Ed) as (before & s' & after & g' & frags & -> & Hd & Hf).
    eexists (s :: before), s', after, g', _. split; [done|]. split; [|done]. simpl.
    rewrite (proj2 (String.eqb_neq _ _) En), E, Eg, Hd. done.
Qed.

Lemma decodeSources_declared g sources g' frags :
  decodeSources y g sources = Ok (g', frags) ->
  Forall (fun f => exists s, s ∈ sources /\ declares y s f) frags.
Proof.
  revert g g' frags. induction sources as [|s sources IH]; intros g g' frags; simpl; [by intros [= <- <-]|].
  assert (forall l, Forall (fun f => exists s, s ∈ sources /\ declares y s f) l ->
                    Forall (fun f => exists s', s' ∈ s :: sources /\ declares y s' f) l) as Hw.
  { intros l Hl. eapply Forall_impl; [exact Hl|]. intros f (s' & Hs & Hd). exists s'. split; [set_solver|done]. }
  destruct (UnmarshalProbes y _ (src_data s)) as [cause|raw] eqn:E; [done|].
  destruct (String.eqb_spec (src_name s) globalFileName) as [En|En].
  - destruct (rf_Probes raw), (rf_Global raw); try done. eauto.
  - destruct (rf_Global raw) eqn:Eg; [done|]. destruct (decodeSources y g sources) as [[g0 fs]| |] eqn:Ed; [|done..].
    intros [= <- <-]. constructor; [|eauto]. exists s. split; [set_solver|]. split; [done|]. by exists raw.
Qed.

Lemma mergeLoop_err g i seen raws e :
  mergeLoop env g i seen raws = Err e -> HasPrefix (errorText u e) "probe" = true.
Proof.
  revert i seen. induction raws as [|r raws IH]; intros i seen; simpl; [done|]. intros H.
  unfold mergeAndValidateProbe in H. res_inv; eauto.
Qed.

Lemma merged_NoDup g raws pcs : mergeAndValidateProbes env raws g = Ok pcs -> NoDup (Name <$> pcs).
Proof. intros (H & _ & Hn & _)%mergeLoop_ok. by rewrite (merged_names _ _ _ _ H). Qed.

Lemma recordOrigins_err file pcs origin e :
  NoDup (Name <$> pcs) -> recordOrigins file pcs origin = Err e ->
  exists name prev, origin !! name = Some prev /\ name ∈ Name <$> pcs /\ e = ENameInTwoFiles name prev file.
Proof.
  revert origin. induction pcs as [|pc pcs IH]; intros origin; simpl; [done|]. intros [Hn Hnd]%NoDup_cons.
  destruct (origin !! Name pc) as [prev|] eqn:E.
  - intros [= <-]. exists (Name pc), prev. split; [done|]. split; [constructor|done].
  - intros (name & prev & Ho & Hin & ->)%IH; [|done]. exists name, prev.
    rewrite lookup_insert_ne in Ho by (intros E0; by rewrite E0 in Hn). split; [done|]. split; [by constructor|done].
Qed.

Lemma recordOrigins_lookup file pcs origin origin' n f :
  recordOrigins file pcs origin = Ok origin' -> origin' !! n = Some f ->
  origin !! n = Some f \/ (f = file /\ n ∈ Name <$> pcs).
Proof.
  revert origin. induction pcs as [|pc pcs IH]; intros origin; simpl; [intros [= <-]; by left|].
  destruct (origin !! Name pc); [done|]. intros H Hn. destruct (IH _ H Hn) as [Hl|[-> Hin]]; [|right; split; [done|by constructor]].
  apply lookup_insert_Some in Hl as [[<- <-]|[_ Hl]]; [right; split; [done|constructor]|by left].
Qed.

(** Every recorded name is that of an accepted probe of a file already merged. *)
Definition recordedFrom (g : GlobalConfig) (seen : list fragment) (origin : gmap string string) : Prop :=
  forall n file, origin !! n = Some file ->
    exists prev pcs, prev ∈ seen /\ f_file prev = file /\ mergeAndValidateProbes env (f_raws prev) g = Ok pcs /\ n ∈ Name <$> pcs.

Lemma mergeFragments_err g seen frags origin e :
  recordedFrom g seen origin -> mergeFragments env g frags origin = Err e ->
  exists before f after, frags = before ++ f :: after /\ mergeFault env g (seen ++ before) f (errorText u e).
Proof.
  revert seen origin. induction frags as [|f frags IH]; intros seen origin Ho; simpl; [done|].
  destruct (mergeAndValidateProbes env (f_raws f) g) as [pcs|e'|] eqn:Em; simpl; [| |done].
  - destruct (recordOrigins (f_file f) pcs origin) as [origin'|e'|] eqn:Er; simpl; [| |done].
    + destruct (mergeFragments env g frags origin') as [|e'|] eqn:Ef; simpl; [done| |done]. intros [= ->].
      destruct (IH (seen ++ [f]) origin') as (before & f' & after & -> & Hf); [|done|].
      * intros n file Hn. destruct (recordOrigins_lookup _ _ _ _ _ _ Er Hn) as [Hl|[-> Hin]].
        -- destruct (Ho n file Hl) as (prev & ps & Hp & Hrest). exists prev, ps. split; [set_solver|done].
        -- exists f, pcs. split; [set_solver|done].
      * exists (f :: before), f', after. split; [done|]. by rewrite <- app_assoc in Hf.
    + intros [= <-]. exists [], f, frags. split; [done|]. rewrite app_nil_r.
      apply recordOrigins_err in Er as (name & prev & Hl & Hin & ->); [|by eapply merged_NoDup].
      destruct (Ho name prev Hl) as (fp & ps & Hp & <- & Hm & Hn). by eapply fault_twice.
  - intros [= <-]. exists [], f, frags. split; [done|]. apply fault_probe; [done|]. by eapply mergeLoop_err.
Qed.

Lemma parseProbeSources_err os dir opsPath sources e :
  readProbeDir os dir = Ok sources -> parseProbeSources env y sources = Err e ->
  loadFault os env y opsPath dir (errorText u e).
Proof.
  intros Hd. unfold parseProbeSources, validateGlobal.
  destruct (decodeSources y globalDefaults sources) as [[g frags]|e'|] eqn:Es; simpl; [| |done].
  - destruct (validateTimings _ _ _ _) as [|e'|] eqn:Ev; simpl; [|intros [= <-]; by eapply at_global|done].
    destruct (mergeFragments env g frags ∅) as [|e'|] eqn:Em; simpl; [done| |done]. intros [= <-].
    apply (mergeFragments_err g []) in Em as (before & f & after & -> & Hf); [|by intros n file; rewrite lookup_empty].
    pose proof (decodeSources_declared _ _ _ _ Es) as Hdec. apply Forall_app in Hdec as [_ Hdec].
    apply Forall_cons in Hdec as [(s & Hs & Hdecl) _]. by eapply at_probe.
  - intros [= <-]. apply decodeSources_err in Es as (before & s & after & g' & frags & -> & Hb & Hf). by eapply at_source.
Qed.

End Located.

(** C7: the message of a failed load names the file at fault.  The text is, in
    full and with the cause, about the ops file that cannot be read or is
    rejected; the probe directory that cannot be listed or has no eligible file;
    the eligible file that cannot be read; the first source, named by its file,
    that does not parse or has a section it may not have; the global section
    that is rejected; the file whose own declarations the merge rejects, before
    the error the merge gives for them; or, for a probe name used twice, the file
    and the earlier one, both of whose declarations are accepted and really
    contain that name. *)
Theorem load_error_located os env y opsPath probesDir e :
  Load os env y opsPath probesDir = Err e ->
  loadFault os env y opsPath probesDir (errorText (unicodeTables env) e).
Proof.
  unfold Load. destruct (ReadFile os opsPath) as [cause|opsData] eqn:Er; [intros [= <-]; by apply at_ops_read|].
  destruct (readProbeDir os probesDir) as [sources|e'|] eqn:Ed; simpl; [| |done].
  - unfold parseSources. destruct (parseOpsFile y opsData) as [|e'|] eqn:Eo; simpl; [| |done].
    + destruct (parseProbeSources env y sources) as [[??]|e'|] eqn:Ep; simpl; [done| |done]. intros [= <-].
      by eapply parseProbeSources_err.
    + intros [= <-]. eapply at_ops; [done|done|]. by eapply parseOpsFile_err.
  - intros [= <-]. by apply readProbeDir_err.
Qed.

(** ** Concrete loads that fail *)

(** The directory of [demoOS] with a second file that repeats a probe. *)
Definition demoClashOS : OSEnv :=
  {| ReadFile := fun path =>
       if (path =? "probes.d/zz.yaml")%string then inr "probes: [web, api]" else ReadFile demoOS path;
     ReadDir := fun dir => inr [{| entry_name := "web.yaml"; IsDir := false |};
                                {| entry_name := "zz.yaml"; IsDir := false |}];
     JoinPath := JoinPath demoOS |}.

(** A decoder whose only probe has no type. *)
Definition demoUntypedYAML : YAML :=
  {| UnmarshalProbes := fun init _ => inr {| rf_Global := rf_Global init; rf_Probes := Some [demoRaw "web" ""] |};
     UnmarshalOps := fun init _ => inr init |}.

Lemma demo_clash :
  Load demoClashOS demoEnv demoYAML "ops.yaml" "probes.d" = Err (ENameInTwoFiles "web" "web.yaml" "zz.yaml").
Proof. vm_compute. reflexivity. Qed.

Example demo_clash_text :
  errorText (unicodeTables demoEnv) (ENameInTwoFiles "web" "web.yaml" "zz.yaml") =
  "probe name " +:+ dquoted "web" +:+ " defined in both web.yaml and zz.yaml".
Proof. reflexivity. Qed.

Example demo_untyped_text :
  wrapErr (errorText (unicodeTables demoEnv)) (Load demoClashOS demoEnv demoUntypedYAML "ops.yaml" "probes.d") =
  Err ("web.yaml: probe " +:+ dquoted "web" +:+ ": type is required").
Proof. vm_compute. reflexivity. Qed.

Lemma load_error_located_witness :
  Load demoClashOS demoEnv demoYAML "ops.yaml" "probes.d" = Err (ENameInTwoFiles "web" "web.yaml" "zz.yaml") /\
  loadFault demoClashOS demoEnv demoYAML "ops.yaml" "probes.d"
    ("probe name " +:+ dquoted "web" +:+ " defined in both web.yaml and zz.yaml").
Proof.
  split; [exact demo_clash|].
  exact (load_error_located demoClashOS demoEnv demoYAML "ops.yaml" "probes.d" _ demo_clash).
Defined.
