(* ===== verification/ConfigTypes.v ===== *)
(** * The types of a loaded configuration.

    The model keeps Go integers as [Z].  The YAML package decodes into int64
    fields; what the merge copies, defaults and range-checks is shown to leave
    every number of a loaded configuration in its Go type and in the range the
    validation is there to enforce, and the fingerprint is the hexadecimal text
    of a 32-byte digest. *)

From S2P Require Import Prelude.
From S2P Require Import GoStrings.
From S2P Require Import Types.
From S2P Require Import Sha256.
From S2P Require Import Config.
From S2P Require Import ConfigLoad.
From Stdlib Require Import Ascii.

(** ** What the decoder promises *)

Definition opt_int64 (x : option Z) : Prop := forall z, x = Some z -> in_int64 z.

Record raw_typed (r : rawProbeConfig) : Prop := {
  rt_max : in_int64 (r_MaxResolvedIPs r);
  rt_interval : opt_int64 (r_Interval r);
  rt_packet : opt_int64 (r_PacketInterval r);
  rt_timeout : opt_int64 (r_Timeout r);
  rt_count : opt_int64 (r_Count r);
  rt_days : forall h, r_HTTP r = Some h -> in_int64 (rh_TLSExpiryWarningDays h)
}.

Definition global_typed (g : GlobalConfig) : Prop :=
  in_int64 (g_Interval g) /\ in_int64 (g_PacketInterval g) /\ in_int64 (g_Timeout g) /\ in_int64 (g_Count g).

Definition ops_typed (o : rawOpsFile) : Prop :=
  let otlp := OTLP (o_Exporters o) in
  in_int64 (ExportInterval (Batch otlp)) /\ in_int64 (ExportTimeout (Batch otlp)) /\
  in_int64 (MaxElapsedTime (Retry otlp)) /\ in_int64 (ShutdownTimeout otlp) /\
  in_int64 (BufferSize (o_Pipeline o)).

Definition opt_global (g : option GlobalConfig) : Prop := forall g', g = Some g' -> global_typed g'.

(** Decoding onto typed values leaves typed values. *)
Record typed_decoder (y : YAML) : Prop := {
  td_probes : forall init data raw, opt_global (rf_Global init) -> UnmarshalProbes y init data = inr raw ->
    opt_global (rf_Global raw) /\ Forall raw_typed (default [] (rf_Probes raw));
  td_ops : forall init data raw, ops_typed init -> UnmarshalOps y init data = inr raw -> ops_typed raw
}.

(** ** What a loaded configuration has *)

Definition positive64 (z : Z) : Prop := 0 < z < 2 ^ 63.
Definition natural64 (z : Z) : Prop := 0 <= z < 2 ^ 63.

(** Timings that passed [validateTimings], with int64 fields. *)
Definition timings_ranged (interval packetInterval timeout count : Z) : Prop :=
  positive64 interval /\ positive64 packetInterval /\ positive64 timeout /\ positive64 count /\
  Millisecond <= packetInterval /\ timeout < interval.

Record probe_typed (pc : ProbeConfig) : Prop := {
  pt_max : natural64 (MaxResolvedIPs pc);
  pt_interval : in_int64 (Interval pc);
  pt_packet : in_int64 (PacketInterval pc);
  pt_timeout : in_int64 (Timeout pc);
  pt_count : in_int64 (Count pc);
  pt_timings : Type_ pc <> ProbeTypeHTTP -> timings_ranged (Interval pc) (PacketInterval pc) (Timeout pc) (Count pc);
  pt_http : forall h, HTTP pc = Some h ->
    uint16 (http_Port h) = http_Port h /\ natural64 (http_TLSExpiryWarningDays h) /\
    (http_ExpectedStatus h = 0 \/ 100 <= http_ExpectedStatus h <= 599);
  pt_tcp : forall t, TCP pc = Some t -> uint16 (tcp_Port t) = tcp_Port t /\ tcp_Port t <> 0;
  pt_udp : forall d, UDP pc = Some d -> uint16 (udp_Port d) = udp_Port d /\ udp_Port d <> 0
}.

(** The ops file: every number an int64, those that are checked positive. *)
Record ops_ranged (exps : ExportersConfig) (pl : PipelineConfig) : Prop := {
  or_interval : in_int64 (ExportInterval (Batch (OTLP exps)));
  or_timeout : in_int64 (ExportTimeout (Batch (OTLP exps)));
  or_elapsed : in_int64 (MaxElapsedTime (Retry (OTLP exps)));
  or_shutdown : in_int64 (ShutdownTimeout (OTLP exps));
  or_enabled : otlp_Enabled (OTLP exps) = true -> positive64 (ShutdownTimeout (OTLP exps));
  or_buffer : positive64 (BufferSize pl)
}.

Definition isLowerHex (c : ascii) : bool :=
  ((48 <=? code c) && (code c <=? 57)) || ((97 <=? code c) && (code c <=? 102)).

(** ** The fingerprint *)

Lemma bytesBE_length n z : length (bytesBE n z) = n.
Proof. induction n as [|n IH]; simpl; [done|]. by rewrite IH. Qed.

Lemma bytesBE_bytes n z : Forall (fun b => 0 <= b < 256) (bytesBE n z).
Proof. induction n as [|n IH]; simpl; constructor; [apply Z.mod_pos_bound; lia|done]. Qed.

Lemma shaRound_length st kw : length st = 8%nat -> length (shaRound st kw) = 8%nat.
Proof. intros H. do 9 (destruct st as [|? st]; [done|]). done. Qed.

Lemma rounds_length kws st : length st = 8%nat -> length (foldl shaRound st kws) = 8%nat.
Proof. revert st. induction kws as [|kw kws IH]; intros st H; [done|]. simpl. by apply IH, shaRound_length. Qed.

Lemma compress_length H block : length H = 8%nat -> length (compress H block) = 8%nat.
Proof. intros E. unfold compress. rewrite length_zip_with, E, rounds_length; done. Qed.

Lemma compress_all_length bs H : length H = 8%nat -> length (foldl compress H bs) = 8%nat.
Proof. revert H. induction bs as [|b bs IH]; intros H E; [done|]. simpl. by apply IH, compress_length. Qed.

Lemma sha256_digest msg : length (sha256 msg) = 32%nat /\ Forall (fun b => 0 <= b < 256) (sha256 msg).
Proof.
  unfold sha256. set (H := foldl compress initialHash _).
  assert (length H = 8%nat) as E by (by apply compress_all_length). clearbody H. split.
  - assert (forall l, length (concat (bytesBE 4 <$> l)) = (4 * length l)%nat) as Hl; [|by rewrite Hl, E].
    induction l as [|x l IH]; [done|]. cbn [fmap list_fmap concat]. rewrite length_app, bytesBE_length, IH. simpl. lia.
  - apply Forall_concat, Forall_fmap, Forall_forall. intros z _. apply bytesBE_bytes.
Qed.

Lemma hexDigit_lower n : 0 <= n < 16 -> isLowerHex (hexDigit n) = true.
Proof.
  intros H. unfold isLowerHex, hexDigit, code, chr.
  destruct (Z.ltb_spec n 10); rewrite N_ascii_embedding by lia; rewrite Z2N.id by lia;
    apply orb_true_iff; [left|right]; apply andb_true_iff; split; apply Z.leb_le; lia.
Qed.

Lemma EncodeToString_hex b :
  Forall (fun x => 0 <= x < 256) b ->
  String.length (EncodeToString b) = (2 * length b)%nat /\ forallb_str isLowerHex (EncodeToString b) = true.
Proof.
  rewrite forallb_str_spec. induction 1 as [|x b Hx _ [IH1 IH2]]; [by split; [|constructor]|].
  simpl. rewrite IH1. split; [lia|]. constructor; [|constructor; [|done]]; apply hexDigit_lower.
  - split; [apply Z.div_pos; lia|apply Z.div_lt_upper_bound; lia].
  - apply Z.mod_pos_bound. lia.
Qed.

(** ** The probes *)

Lemma default_int64 d x : in_int64 d -> opt_int64 x -> in_int64 (default d x).
Proof. intros Hd Hx. destruct x as [z|]; [by apply Hx|done]. Qed.

Lemma port_uint16 p : p = 0 \/ valid_port p -> uint16 p = p.
Proof. unfold valid_port. intros H. apply uint16_id. lia. Qed.

Lemma validateTimings_ranged i p t c :
  in_int64 i -> in_int64 p -> in_int64 t -> in_int64 c -> validateTimings i p t c = Ok () -> timings_ranged i p t c.
Proof.
  intros Hi Hp Ht Hc H%validateTimings_ok. unfold timings_ranged, positive64, in_int64, Millisecond in *. lia.
Qed.

(** The numbers the merge copies. *)
Lemma merged_numbers env r g pc :
  range_ok env -> global_typed g -> raw_typed r -> mergeAndValidateProbe env r g = Ok pc ->
  in_int64 (MaxResolvedIPs pc) /\ in_int64 (Interval pc) /\ in_int64 (PacketInterval pc) /\
  in_int64 (Timeout pc) /\ in_int64 (Count pc) /\
  forall h, HTTP pc = Some h -> in_int64 (http_TLSExpiryWarningDays h).
Proof.
  intros Hr (G1 & G2 & G3 & G4) [R1 R2 R3 R4 R5 R6] H.
  apply mergeAndValidateProbe_ok in H as (_ & _ & _ & _ & _ & _ & Hp); [|done].
  unfold validateProtocolConfig, validateHTTPConfig in Hp. res_inv; cbn [mergedBase setProtocol mergeTimings
      MaxResolvedIPs Interval PacketInterval Timeout Count HTTP];
      split_and!; try (by apply default_int64); try done; intros h0 [= <-]; simpl; auto.
Qed.

(** The timings of a merged probe are those that were checked. *)
Lemma merged_timings env r g pc :
  range_ok env -> mergeAndValidateProbe env r g = Ok pc -> Type_ pc <> ProbeTypeHTTP ->
  validateTimings (Interval pc) (PacketInterval pc) (Timeout pc) (Count pc) = Ok ().
Proof.
  intros Hr H Ht. pose proof (wf_merged _ _ _ _ Hr H) as [_ Hpc].
  apply mergeAndValidateProbe_ok in H as (_ & _ & _ & _ & Htim & _); [|done].
  rewrite Hpc in *. unfold mergedBase in *. destruct (mergeTimings r g) as [[[? ?] ?] ?]. by apply Htim.
Qed.

Lemma merged_typed env r g pc :
  range_ok env -> global_typed g -> raw_typed r -> mergeAndValidateProbe env r g = Ok pc -> probe_typed pc.
Proof.
  intros Hr Hg Hraw H. destruct (merged_numbers _ _ _ _ Hr Hg Hraw H) as (N1 & N2 & N3 & N4 & N5 & Hdays).
  pose proof (merged_timings _ _ _ _ Hr H) as Htim. apply wf_merged in H as [Hw _]; [|done].
  destruct Hw as (_ & _ & Hmax & _ & _ & _ & Hb). split; try done.
  - unfold natural64, in_int64 in *. lia.
  - intros Ht. apply validateTimings_ranged; auto.
  - intros h Eh. specialize (Hdays h Eh).
    destruct Hb as [(_ & E & _)|[(_ & (h' & E & _ & Hport & _ & _ & Hst & Hd) & _)|[(_ & _ & E & _)|[(_ & _ & E & _)|(_ & _ & E & _)]]]];
      rewrite E in Eh; try done. injection Eh as <-. split; [by apply port_uint16|]. split; [|done].
    unfold natural64, in_int64 in *. lia.
  - intros t Et.
    destruct Hb as [(_ & _ & E & _)|[(_ & _ & E & _)|[(_ & (t' & E & Hport & _) & _)|[(_ & _ & _ & E & _)|(_ & _ & _ & E & _)]]]];
      rewrite E in Et; try done. injection Et as <-. split; [apply port_uint16; auto|]. unfold valid_port in Hport. lia.
  - intros d Ed.
    destruct Hb as [(_ & _ & _ & E & _)|[(_ & _ & _ & E & _)|[(_ & _ & _ & E & _)|[(_ & (d' & E & Hport & _) & _)|(_ & _ & _ & _ & E)]]]];
      rewrite E in Ed; try done. injection Ed as <-. split; [apply port_uint16; auto|]. unfold valid_port in Hport. lia.
Qed.

Section Typed.
Context (y : YAML) (Hy : typed_decoder y).

Lemma decodeSources_typed g sources g' frags :
  global_typed g -> decodeSources y g sources = Ok (g', frags) ->
  global_typed g' /\ Forall (fun f => Forall raw_typed (f_raws f)) frags.
Proof.
  revert g g' frags. induction sources as [|s sources IH]; intros g g' frags Hg; simpl.
  { intros [= <- <-]. by split. }
  destruct (UnmarshalProbes y _ (src_data s)) as [|raw] eqn:E; [done|].
  apply (td_probes _ Hy) in E as [Hrg Hrp].
  2: { intros x. simpl. destruct (_ =? _)%string; [by intros [= <-]|done]. }
  destruct (src_name s =? globalFileName)%string.
  - destruct (rf_Probes raw); [done|]. destruct (rf_Global raw) as [h|]; [|done]. apply IH. by apply Hrg.
  - destruct (rf_Global raw); [done|]. destruct (decodeSources y g sources) as [[h fs]| |] eqn:Ed; [|done..].
    simpl. intros [= <- <-]. destruct (IH _ _ _ Hg Ed). split; [done|]. by constructor.
Qed.

Lemma mergeFragments_typed env g frags origin probes :
  range_ok env -> global_typed g -> Forall (fun f => Forall raw_typed (f_raws f)) frags ->
  mergeFragments env g frags origin = Ok probes -> Forall probe_typed probes.
Proof.
  intros Hr Hg Hf H. apply mergeFragments_ok in H as (pcss & H2 & -> & _). apply Forall_concat.
  induction H2 as [|f pcs frags pcss E _ IH]; [constructor|]. apply Forall_cons in Hf as [Hf Hfs].
  constructor; [|by apply IH]. apply mergeLoop_ok in E as (E & _).
  clear -Hr Hg E Hf. induction E as [|r pc raws pcs E _ IH]; [constructor|].
  apply Forall_cons in Hf as [Hr' Hf]. constructor; [by eapply merged_typed|by apply IH].
Qed.

Lemma defaults_typed : global_typed globalDefaults /\ ops_typed opsDefaults.
Proof. split; repeat split; vm_compute; discriminate. Qed.

Lemma parseOpsFile_ranged data ops : parseOpsFile y data = Ok ops -> ops_ranged (o_Exporters ops) (o_Pipeline ops).
Proof.
  unfold parseOpsFile. destruct (UnmarshalOps y opsDefaults data) as [|raw] eqn:E; [done|].
  apply (td_ops _ Hy _ _ _ (proj2 defaults_typed)) in E as (H1 & H2 & H3 & H4 & H5). unfold in_int64 in *.
  intros H. destruct (negb _ && negb _) eqn:Ef in H; [done|].
  destruct (validateOTLP (OTLP (o_Exporters raw))) as [[]| |] eqn:Eo; [|done..]. simpl in H.
  destruct (Z.leb_spec (BufferSize (o_Pipeline raw)) 0) as [|Hb] in H; [done|]. injection H as <-.
  split; try done; unfold positive64; [|lia]. intros Hen. unfold validateOTLP in Eo. rewrite Hen in Eo. simpl in Eo.
  res_inv. bool_prop. lia.
Qed.

Lemma parseProbeSources_ranged env sources g probes :
  range_ok env -> parseProbeSources env y sources = Ok (g, probes) ->
  Forall probe_typed probes /\ timings_ranged (g_Interval g) (g_PacketInterval g) (g_Timeout g) (g_Count g).
Proof.
  intros Hr. unfold parseProbeSources, validateGlobal.
  destruct (decodeSources y globalDefaults sources) as [[g' frags]| |] eqn:Ed; [|done..].
  apply (decodeSources_typed _ _ _ _ (proj1 defaults_typed)) in Ed as [Hg Hf]. simpl.
  destruct (validateTimings _ _ _ _) as [[]| |] eqn:Ev; [|done..]. simpl.
  destruct (mergeFragments env g' frags ∅) as [ps| |] eqn:Em; [|done..]. intros [= <- <-]. split.
  - exact (mergeFragments_typed _ _ _ _ _ Hr Hg Hf Em).
  - destruct Hg as (? & ? & ? & ?). by apply validateTimings_ranged.
Qed.

Lemma Load_numbers os env opsPath probesDir cfg :
  range_ok env -> Load os env y opsPath probesDir = Ok cfg ->
  Forall probe_typed (Probes cfg) /\
  timings_ranged (g_Interval (Global cfg)) (g_PacketInterval (Global cfg)) (g_Timeout (Global cfg)) (g_Count (Global cfg)) /\
  ops_ranged (Exporters cfg) (Pipeline cfg).
Proof.
  intros Hr. unfold Load, parseSources. destruct (ReadFile os opsPath); [done|].
  destruct (readProbeDir os probesDir) as [sources| |]; [|done..]. simpl.
  destruct (parseOpsFile y _) as [ops| |] eqn:Eo; [|done..]. simpl.
  destruct (parseProbeSources env y sources) as [[g ps]| |] eqn:Ep; [|done..]. intros [= <-].
  apply parseProbeSources_ranged in Ep as [H1 H2]; [|done]. apply parseOpsFile_ranged in Eo. done.
Qed.
End Typed.

(** C6: the numbers of a loaded configuration.  With a decoder that fills int64
    fields with int64 values: of every probe, the cap on resolved addresses is a
    natural int64; unless it is an HTTP probe its interval, packet interval,
    timeout and count are positive int64s, the packet interval at least a
    millisecond and the timeout below the interval, and for an HTTP probe they
    are int64s; every port is a uint16 (so converting it for the wire loses
    nothing), not zero for TCP and UDP; the expected HTTP status is zero or in
    100..599 and the certificate warning a natural number of days.  The global
    timings are in the same ranges as those of a non-HTTP probe.  Of the ops file
    the export interval and timeout, the retry limit and the shutdown timeout
    are int64s, the last positive when OTLP is enabled, and the buffer size is a
    positive int64.  The fingerprint is 64 lowercase hexadecimal digits. *)
Theorem Load_typed os env y opsPath probesDir cfg :
  range_ok env -> typed_decoder y -> Load os env y opsPath probesDir = Ok cfg ->
  Forall probe_typed (Probes cfg) /\
  timings_ranged (g_Interval (Global cfg)) (g_PacketInterval (Global cfg)) (g_Timeout (Global cfg)) (g_Count (Global cfg)) /\
  ops_ranged (Exporters cfg) (Pipeline cfg) /\
  String.length (SHA256 cfg) = 64%nat /\ forallb_str isLowerHex (SHA256 cfg) = true.
Proof.
  intros Hr Hy H. destruct (Load_numbers y Hy _ _ _ _ _ Hr H) as (H1 & H2 & H3).
  destruct (Load_interface _ _ _ _ _ _ Hr H) as (_ & sources & _ & ->).
  destruct (sha256_digest (preimage sources)) as [Hlen Hb].
  destruct (EncodeToString_hex _ Hb) as [E1 E2]. unfold fingerprint. rewrite E1, Hlen. done.
Qed.

Lemma demo_typed : typed_decoder demoYAML.
Proof.
  assert (forall name, raw_typed (demoRaw name "tcp")) as Hraw by (intros; split; try done; by intros z [= <-]).
  assert (global_typed demoGlobal) as Hg by (repeat split; vm_compute; discriminate).
  split; [|by intros init data raw H [= <-]].
  intros init data raw Hi. simpl.
  destruct (_ =? _)%string; [intros [= <-]; split; [by intros g [= <-]|constructor]|].
  destruct (_ =? _)%string; [intros [= <-]; split; [done|by apply Forall_cons_2, Forall_singleton]|].
  destruct (_ =? _)%string; [intros [= <-]; by split|done].
Qed.

Lemma Load_typed_witness :
  Forall probe_typed (Probes demoConfig) /\ positive64 (BufferSize (Pipeline demoConfig)) /\
  String.length (SHA256 demoConfig) = 64%nat.
Proof.
  destruct (Load_typed demoOS demoEnv demoYAML "ops.yaml" "probes.d" demoConfig demo_range demo_typed demo_load)
    as (H1 & _ & H3 & H4 & _). split; [exact H1|]. split; [exact (or_buffer _ _ H3)|exact H4].
Defined.
