(* ===== verification/Prober.v ===== *)
(** * internal/probe/prober.go: the Prober interface.

    What a prober promises to the scheduler and the exporters: [Run] returns one
    result per probed item, "errors are embedded in each ProbeResult; Run never
    fails outright".  The class [ProberLaws] states that promise on the results
    ([result_ok]); the five probers discharge it in their own files.  The file
    also holds what the TCP and UDP probers share: the port states and the
    attempt closure that captures whether an open port was seen. *)

From S2P Require Import Prelude.
From S2P Require Import GoStrings.
From S2P Require Import GoNet.
From S2P Require Import Float64.
From S2P Require Import Types.
From S2P Require Import Probe.

(** ** What surrounds one run

    [Net] is the prober's view of the network for one attempt; goroutine [i]
    makes its [k]-th attempt against [env_net i k]; [env_cancelled i k] is
    [ctx.Err() != nil] after its [k]-th attempt's pause. *)
Record RunEnv (Net : Type) := {
  env_unicode : UnicodeTables;
  env_lookup : string -> lookup_result;
  env_now : nat -> Z;
  env_net : nat -> nat -> Net;
  env_cancelled : nat -> nat -> bool;
  env_order : list nat
}.
Arguments env_unicode {Net} _.
Arguments env_lookup {Net} _ _.
Arguments env_now {Net} _ _.
Arguments env_net {Net} _ _ _.
Arguments env_cancelled {Net} _ _ _.
Arguments env_order {Net} _.

(** A goroutine of the fan-out may panic, which ends the process. *)
Definition goroutines {A} (items : list A) (probeOne : nat -> A -> res string ProbeResult)
    (order : list nat) : res string unit :=
  forEach (fun i => match items !! i with
                    | Some wi => probeOne i wi ≫= fun _ => Ok ()
                    | None => Ok ()
                    end) order.

Definition orZero (c : res string ProbeResult) : ProbeResult :=
  match c with Ok r => r | _ => zeroResult end.

Definition RunProbes (LookupHost : string -> lookup_result) (targets : list string)
    (maxResolvedIPs : Z) (probeOne : nat -> WorkItem -> res string ProbeResult) (order : list nat)
    : res string (option (list ProbeResult)) :=
  goroutines (ExpandTargets LookupHost targets maxResolvedIPs) probeOne order ≫= fun _ =>
  Ok (RunWorkItems LookupHost targets maxResolvedIPs (fun i wi => orZero (probeOne i wi)) order).

(** [net.Dialer{Timeout, LocalAddr}]; a nil [LocalAddr] is [None], and an
    address with a nil IP is [Some None]. *)
Record Dialer := { dl_Timeout : Z; dl_LocalAddr : option (option IP) }.

(** ** The promise *)

Record result_ok (cfg : ProbeConfig) (typ : string) (r : ProbeResult) : Prop := {
  rok_name : ProbeName r = Name cfg;
  rok_type : ProbeType r = typ;
  rok_source : res_SourceIP r = SourceIP cfg;
  rok_labels : res_Labels r = Labels cfg;
  rok_status : res_Status r <> StatusUnset;
  rok_counts : 0 <= PacketsReceived r <= PacketsSent r;
  rok_up : IsUp (res_Status r) = true -> 0 < PacketsReceived r;
  rok_success : IsSuccess (res_Status r) = true -> PacketsReceived r = PacketsSent r;
  rok_error_port : IsError (res_Status r) = true -> PortOpen r = None;
  rok_down : ProbeType r <> ProbeTypeHTTP -> IsUp (res_Status r) = false -> PacketsReceived r = 0;
  rok_open : PortOpen r = Some true -> IsUp (res_Status r) = true
}.

(** A prober for configurations that passed validation ([pr_valid]). *)
Class Prober (P : Type) := {
  pr_env : Type;
  pr_cfg : P -> ProbeConfig;
  pr_name : P -> string;
  pr_type : P -> string;
  pr_valid : P -> Prop;
  pr_env_ok : P -> pr_env -> Prop;
  pr_run : P -> pr_env -> res string (option (list ProbeResult))
}.

Class ProberLaws (P : Type) `{Prober P} : Prop := {
  pr_run_ok p env :
    pr_valid p -> pr_env_ok p env ->
    exists rs, pr_run p env = Ok rs /\ forall l, rs = Some l -> Forall (result_ok (pr_cfg p) (pr_type p)) l
}.

(** ** Results of the pieces *)

Lemma NewResult_fields u now cfg wi typ :
  let r := fst (NewResult u now cfg wi typ) in
  ProbeName r = Name cfg /\ ProbeType r = typ /\ res_SourceIP r = SourceIP cfg /\
  res_Labels r = Labels cfg /\ PacketsSent r = 0 /\ PacketsReceived r = 0 /\ PortOpen r = None.
Proof. unfold NewResult. by destruct (_ && _). Qed.

Lemma NewResult_failed u now cfg wi typ r :
  NewResult u now cfg wi typ = (r, false) -> result_ok cfg typ r.
Proof. unfold NewResult. destruct (_ && _); [|done]. intros [= <-]. by split. Qed.

Lemma NewResult_failed_item u now cfg wi typ r :
  NewResult u now cfg wi typ = (r, false) ->
  ErrorType r = "resolve_error" /\ wi_FQDN wi = wi_IP wi /\ wi_FQDN wi <> "".
Proof.
  unfold NewResult. destruct (_ && _) eqn:E; [|done]. intros [= <-]. bool_prop. by split_and!.
Qed.

Lemma verdict_cases e received sent :
  0 <= received <= sent -> 1 <= sent ->
  verdict e received sent <> StatusUnset /\
  (IsUp (verdict e received sent) = true -> 0 < received) /\
  (IsSuccess (verdict e received sent) = true -> received = sent) /\
  (IsUp (verdict e received sent) = false -> received = 0).
Proof.
  intros Hr Hs. unfold verdict.
  destruct e, (Z.eqb_spec received 0), (Z.eqb_spec received sent); simpl;
    (split; [done|split_and!; intros; try done; lia]).
Qed.

Lemma verdict_up e received sent :
  0 <= received <= sent -> 1 <= sent -> IsUp (verdict e received sent) = true <-> 0 < received.
Proof.
  intros Hr Hs. unfold verdict.
  destruct e, (Z.eqb_spec received 0), (Z.eqb_spec received sent); simpl; split; try done; lia.
Qed.

Section Loop.
Context {W : Type} (attempt : W -> Attempt * W) (pause : W -> bool * W).

(** A fresh result run through the loop keeps the promise. *)
Lemma RunLoop_ok cfg typ result count w r ok w' :
  ProbeName result = Name cfg -> ProbeType result = typ -> res_SourceIP result = SourceIP cfg ->
  res_Labels result = Labels cfg -> PacketsSent result = 0 -> PacketsReceived result = 0 ->
  PortOpen result = None -> 1 <= count < 2 ^ 53 ->
  RunLoop attempt pause result count w = (r, ok, w') ->
  result_ok cfg typ r /\ ok = negb (IsError (res_Status r)) /\ PortOpen r = None /\
  let l := attempts attempt pause (Z.to_nat count) true w in
  res_Status r = verdict (fatalErr l) (Z.of_nat (length (replies l))) (Z.of_nat (length l)) /\
  PacketsSent r = Z.of_nat (length l) /\ PacketsReceived r = Z.of_nat (length (replies l)).
Proof.
  intros Hn Ht Hs Hl H0 H1 Hp Hc E. set (l := attempts _ _ _ _ _).
  pose proof (RunLoop_history attempt pause result count w H0 H1) as Hh. fold l in Hh.
  pose proof (attempts_bounds attempt pause count w ltac:(lia)) as Hb. cbv zeta in Hb. fold l in Hb.
  pose proof (replies_length l) as Hrl. rewrite E in Hh. simpl in Hh.
  match type of Hh with _ = finishLoop _ ?st => set (s := st) in * end.
  pose proof (finishLoop_fields result s) as (F1 & F2 & F3 & _ & _ & F6 & F7 & F8 & _ & F10 & _).
  destruct (finishLoop_verdict result s) as [V1 V2]; [unfold s; simpl; lia..|].
  rewrite <- Hh in *. simpl in *.
  destruct (verdict_cases (fatalErr l) (Z.of_nat (length (replies l))) (Z.of_nat (length l)))
    as (C1 & C2 & C3 & C4); [lia|lia|]. rewrite <- V1 in C1, C2, C3, C4.
  split; [|by rewrite F10]. split; try congruence; [lia|..].
  - intros ?%C2. lia.
  - intros ?%C3. lia.
  - intros _ ?%C4. lia.
Qed.
End Loop.

(** ** Port states (tcp.go; udp.go declares the same type) *)

Inductive portState := stateUnreachable | stateClosed | stateOpen.

#[global] Instance portState_eq_dec : EqDecision portState.
Proof. solve_decision. Defined.

Definition reachable (s : portState) : bool := bool_decide (s <> stateUnreachable).

(** The closure both probers pass to [RunLoop]: the [k]-th attempt is [f k];
    [got] is the captured variable ([synAckGot], [openGot]). *)
Definition portClosure (f : nat -> Z * portState * option string) (w : nat * bool)
    : Attempt * (nat * bool) :=
  let '(k, got) := w in
  let '(rtt, state, err) := f k in
  match err with
  | Some e => ({| a_RTT := 0; Received := false; a_Err := Some e |}, (S k, got))
  | None =>
      if negb (reachable state) then ({| a_RTT := 0; Received := false; a_Err := None |}, (S k, got))
      else ({| a_RTT := rtt; Received := true; a_Err := None |},
            (S k, if bool_decide (state = stateOpen) then true else got))
  end.

Definition portPause (cancelled : nat -> bool) (w : nat * bool) : bool * (nat * bool) :=
  (cancelled (fst w), w).

(** ** What the closure has seen when the loop ends *)

Section PortLoop.
Context (f : nat -> Z * portState * option string) (cancelled : nat -> bool).

Definition openAt (k : nat) : bool :=
  match f k with (_, st, None) => bool_decide (st = stateOpen) | _ => false end.
Definition reachableAt (k : nat) : bool :=
  match f k with (_, st, None) => reachable st | _ => false end.

Definition portAttempt (k : nat) : Attempt :=
  match f k with
  | (_, _, Some e) => {| a_RTT := 0; Received := false; a_Err := Some e |}
  | (rtt, st, None) => if reachable st then {| a_RTT := rtt; Received := true; a_Err := None |}
                       else {| a_RTT := 0; Received := false; a_Err := None |}
  end.

Lemma portClosure_step k got : portClosure f (k, got) = (portAttempt k, (S k, got || openAt k)).
Proof.
  unfold portClosure, portAttempt, openAt. destruct (f k) as [[rtt st] [e|]].
  - by rewrite orb_false_r.
  - by destruct st, got.
Qed.

Lemma gotReply_portAttempt k : gotReply (portAttempt k) = reachableAt k.
Proof. unfold gotReply, portAttempt, reachableAt. destruct (f k) as [[rtt st] [e|]]; [done|]. by destruct st. Qed.

(** The attempts made are those of a prefix of the script, and the captured
    variable is set iff one of them saw an open port. *)
Lemma portLoop_seen n first st k got :
  let l := attempts (portClosure f) (portPause cancelled) n first (k, got) in
  l = portAttempt <$> seq k (length l) /\
  snd (attemptLoop (portClosure f) (portPause cancelled) n first st (k, got)) =
    ((k + length l)%nat, got || existsb openAt (seq k (length l))).
Proof.
  revert first st k got. induction n as [|n IH]; intros first st k got.
  { cbn. by rewrite Nat.add_0_r, orb_false_r. }
  cbn [attempts attemptLoop].
  assert (exists c, (if first then (false, (k, got)) else portPause cancelled (k, got)) = (c, (k, got)))
    as [c ->] by (destruct first; eexists; done).
  destruct c; [cbn; by rewrite Nat.add_0_r, orb_false_r|]. rewrite portClosure_step.
  destruct (a_Err (portAttempt k)).
  { cbn. by rewrite Nat.add_1_r, orb_false_r. }
  set (st' := countSent st). destruct (negb _).
  - destruct (IH false st' (S k) (got || openAt k)) as [E1 E2].
    cbv zeta. cbn [length seq existsb fmap list_fmap]. rewrite E2, Nat.add_succ_r, orb_assoc.
    split; [by f_equal|done].
  - destruct (IH false (countReceived (a_RTT (portAttempt k)) st') (S k) (got || openAt k)) as [E1 E2].
    cbv zeta. cbn [length seq existsb fmap list_fmap]. rewrite E2, Nat.add_succ_r, orb_assoc.
    split; [by f_equal|done].
Qed.

Lemma replies_portAttempt ks :
  length (replies (portAttempt <$> ks)) = length (List.filter reachableAt ks).
Proof.
  induction ks as [|k ks IH]; [done|]. unfold replies in *. cbn [fmap list_fmap List.filter].
  rewrite gotReply_portAttempt. destruct (reachableAt k); simpl; by rewrite <- IH.
Qed.

Lemma openAt_reachable k : openAt k = true -> reachableAt k = true.
Proof. unfold openAt, reachableAt. destruct (f k) as [[rtt st] [e|]]; [done|]. by destruct st. Qed.
End PortLoop.

(** What a TCP or UDP result says about the port: [m] attempts were made;
    replies are the reachable ones; the port is open iff one of them saw it
    open, and unknown exactly for an error; the target is up iff it replied. *)
Record port_result (f : nat -> Z * portState * option string) (count : Z) (r : ProbeResult) : Prop := {
  pres_made : 1 <= PacketsSent r <= count;
  pres_received : PacketsReceived r =
    Z.of_nat (length (List.filter (reachableAt f) (seq 0 (Z.to_nat (PacketsSent r)))));
  pres_error : PortOpen r = None <-> IsError (res_Status r) = true;
  pres_open b : PortOpen r = Some b ->
    b = existsb (openAt f) (seq 0 (Z.to_nat (PacketsSent r)));
  pres_up : 0 < PacketsReceived r <-> IsUp (res_Status r) = true;
  pres_cause : IsError (res_Status r) = true ->
    exists k rtt st e, (k < Z.to_nat (PacketsSent r))%nat /\ f k = (rtt, st, Some e)
}.

(** An error among the attempts made is an error of the script. *)
Lemma fatalErr_portAttempt f n :
  fatalErr (portAttempt f <$> seq 0 n) <> None -> exists k rtt st e, (k < n)%nat /\ f k = (rtt, st, Some e).
Proof.
  intros H. destruct (omap a_Err (portAttempt f <$> seq 0 n)) as [|e l] eqn:E; [by unfold fatalErr in H; rewrite E in H|].
  assert (e ∈ omap a_Err (portAttempt f <$> seq 0 n)) as He by (rewrite E; constructor).
  apply list_elem_of_omap in He as (a & Ha & Hea). apply list_elem_of_fmap in Ha as (k & -> & Hk%list_elem_of_In).
  apply in_seq in Hk. unfold portAttempt in Hea. destruct (f k) as [[rtt st] [e'|]] eqn:Ef; [|by destruct (reachable st)].
  exists k, rtt, st, e'. split; [lia|done].
Qed.

Lemma existsb_filter_length {A} (p q : A -> bool) l :
  (forall x, p x = true -> q x = true) -> existsb p l = true -> (0 < length (List.filter q l))%nat.
Proof.
  intros Hpq (x & Hx & Hp)%existsb_exists. destruct (List.filter q l) eqn:E; [|simpl; lia].
  assert (In x (List.filter q l)) as H by (apply filter_In; auto). by rewrite E in H.
Qed.

(** The common tail of the two probers. *)
Lemma portLoop_result u now cfg typ wi f cancelled result r ok w :
  NewResult u now cfg wi typ = (result, true) -> 1 <= Count cfg < 2 ^ 53 ->
  RunLoop (portClosure f) (portPause cancelled) result (Count cfg) (0%nat, false) = (r, ok, w) ->
  let r' := if ok then setPortOpen r (snd w) else r in
  result_ok cfg typ r' /\ port_result f (Count cfg) r'.
Proof.
  intros En Hc E. pose proof (NewResult_fields u now cfg wi typ) as Hf. rewrite En in Hf.
  cbn [fst] in Hf. destruct Hf as (F1 & F2 & F3 & F4 & F5 & F6 & F7).
  destruct (RunLoop_ok _ _ cfg typ result (Count cfg) (0%nat, false) r ok w F1 F2 F3 F4 F5 F6 F7 Hc E)
    as (Hok & Hlive & Hport & Hst & Hsent & Hrecv).
  pose proof (attempts_bounds (portClosure f) (portPause cancelled) (Count cfg) (0%nat, false) ltac:(lia)) as Hb.
  set (l := attempts _ _ _ _ _) in *. cbv zeta in Hb.
  unfold RunLoop in E.
  match type of E with context [attemptLoop _ _ _ _ ?st _] => set (st0 := st) in * end.
  destruct (portLoop_seen f cancelled (Z.to_nat (Count cfg)) true st0 0 false) as [El Ew]. fold l in El, Ew.
  destruct (attemptLoop _ _ _ _ st0 _) as [st w'] eqn:Ea. destruct (finishLoop _ _).
  injection E as -> -> ->. cbn [snd orb] in Ew. subst w. clear Ea.
  assert (Z.to_nat (PacketsSent r) = length l) as Hn by (rewrite Hsent; apply Nat2Z.id).
  assert (PacketsReceived r = Z.of_nat (length (List.filter (reachableAt f) (seq 0 (length l))))) as Hr
    by (rewrite Hrecv; f_equal; rewrite El at 1; apply replies_portAttempt).
  pose proof (replies_length l).
  assert (IsError (res_Status r) = true ->
    exists k rtt st e, (k < length l)%nat /\ f k = (rtt, st, Some e)) as Hcause.
  { intros He. apply fatalErr_portAttempt. rewrite <- El. intros Hn'. rewrite Hst, Hn' in He.
    unfold verdict in He. by repeat case_match. }
  assert (IsUp (res_Status r) = true <-> 0 < PacketsReceived r) as Hup
    by (rewrite Hst, Hrecv; apply verdict_up; lia).
  cbv zeta. destruct ok.
  - assert (IsError (res_Status r) = false) as He by by apply negb_true_iff.
    destruct Hok. split; [split; try done; simpl; [by rewrite He|]|].
    { intros [= Hx]. apply Hup. rewrite Hr.
      pose proof (existsb_filter_length _ (reachableAt f) _ (openAt_reachable f) Hx). lia. }
    split; cbn [setPortOpen PacketsSent PacketsReceived PortOpen res_Status]; rewrite ?Hn; try done.
    + lia.
    + by rewrite He.
    + by intros b [= <-].
  - assert (IsError (res_Status r) = true) as He by by apply negb_false_iff.
    split; [done|]. split; rewrite ?Hn, ?Hport; try done; lia.
Qed.

(** An open port is reported exactly when an attempt saw it open. *)
Lemma port_open_iff f count r :
  port_result f count r ->
  PortOpen r = Some true <->
  exists k rtt, (k < Z.to_nat (PacketsSent r))%nat /\ f k = (rtt, stateOpen, None).
Proof.
  intros [Hm Hr He Ho Hu]. split.
  - intros Hp. specialize (Ho _ Hp). symmetry in Ho. apply existsb_exists in Ho as (k & Hk & Hop).
    apply in_seq in Hk. unfold openAt in Hop. destruct (f k) as [[rtt st] [e|]] eqn:Ef; [done|].
    apply bool_decide_eq_true in Hop as ->. exists k, rtt. split; [lia|done].
  - intros (k & rtt & Hk & Ef).
    assert (existsb (openAt f) (seq 0 (Z.to_nat (PacketsSent r))) = true) as Hex.
    { apply existsb_exists. exists k. rewrite in_seq. split; [lia|]. unfold openAt. by rewrite Ef. }
    pose proof (existsb_filter_length _ (reachableAt f) _ (openAt_reachable f) Hex).
    destruct (PortOpen r) as [b|] eqn:Ep; [by rewrite (Ho b eq_refl), Hex|].
    assert (IsUp (res_Status r) = true) as Hup by (apply Hu; lia).
    assert (IsError (res_Status r) = true) as Her by by apply He. by destruct (res_Status r).
Qed.

(** ** In terms of what the network did *)

(** [z] of the first [n] attempts satisfy [P]. *)
Definition counts (n : nat) (P : nat -> Prop) (z : Z) : Prop :=
  exists ks, NoDup ks /\ z = Z.of_nat (length ks) /\ forall k, k ∈ ks <-> (k < n)%nat /\ P k.

(** The verdict on a port, from the attempts that got an answer of any kind and
    those that found the port open (ADR 0006): an answer is a reply, only an open
    port is reported open, a non-error result without one is reported closed, and
    the target is up iff it answered. *)
Record port_verdict (answered opened : nat -> Prop) (count : Z) (r : ProbeResult) : Prop := {
  pv_made : 1 <= PacketsSent r <= count;
  pv_received : counts (Z.to_nat (PacketsSent r)) answered (PacketsReceived r);
  pv_unknown : PortOpen r = None <-> IsError (res_Status r) = true;
  pv_open : PortOpen r = Some true <-> exists k, (k < Z.to_nat (PacketsSent r))%nat /\ opened k;
  pv_closed : PortOpen r = Some false <->
    IsError (res_Status r) = false /\ forall k, (k < Z.to_nat (PacketsSent r))%nat -> ~ opened k;
  pv_up : IsUp (res_Status r) = true <-> exists k, (k < Z.to_nat (PacketsSent r))%nat /\ answered k
}.

Lemma filter_counts (p : nat -> bool) (P : nat -> Prop) n :
  (forall k, p k = true <-> P k) -> counts n P (Z.of_nat (length (List.filter p (seq 0 n)))).
Proof.
  intros H. exists (List.filter p (seq 0 n)). split; [apply NoDup_ListNoDup, List.NoDup_filter, seq_NoDup|].
  split; [done|]. intros k. rewrite list_elem_of_In, filter_In, in_seq, H. split; intros [? ?]; split; try done; lia.
Qed.

Lemma counts_pos n P z : counts n P z -> 0 < z <-> exists k, (k < n)%nat /\ P k.
Proof.
  intros (ks & _ & -> & Hk). split.
  - destruct ks as [|k ks]; [simpl; lia|]. intros _. exists k. apply Hk. constructor.
  - intros (k & H). apply Hk in H. destruct ks; [by apply not_elem_of_nil in H|simpl; lia].
Qed.

Lemma openAt_spec f k : openAt f k = true <-> exists rtt, f k = (rtt, stateOpen, None).
Proof.
  unfold openAt. destruct (f k) as [[rtt st] [e|]]; [by split; [|intros [? [=]]]|]. rewrite bool_decide_eq_true.
  split; [intros ->; eauto|by intros [? [= _ ->]]].
Qed.

Lemma reachableAt_spec f k : reachableAt f k = true <-> exists rtt st, f k = (rtt, st, None) /\ st <> stateUnreachable.
Proof.
  unfold reachableAt, reachable. destruct (f k) as [[rtt st] [e|]]; [by split; [|intros (? & ? & [=] & _)]|].
  rewrite bool_decide_eq_true. split; [eauto|by intros (? & ? & [= _ ->] & ?)].
Qed.

Lemma port_result_verdict f answered opened count r :
  (forall k, (exists rtt st, f k = (rtt, st, None) /\ st <> stateUnreachable) <-> answered k) ->
  (forall k, (exists rtt, f k = (rtt, stateOpen, None)) <-> opened k) ->
  port_result f count r -> port_verdict answered opened count r.
Proof.
  intros Ha Ho Hp. pose proof (port_open_iff _ _ _ Hp) as Hopen. destruct Hp as [Hm Hr He Hb Hu].
  assert (counts (Z.to_nat (PacketsSent r)) answered (PacketsReceived r)) as Hc.
  { rewrite Hr. apply filter_counts. intros k. by rewrite reachableAt_spec. }
  assert (PortOpen r = Some true <-> exists k, (k < Z.to_nat (PacketsSent r))%nat /\ opened k) as Ho'.
  { rewrite Hopen. split.
    - intros (k & rtt & Hk & E). exists k. split; [done|]. apply Ho. eauto.
    - intros (k & Hk & [rtt E]%Ho). eauto. }
  split; try done; [|by rewrite <- Hu, (counts_pos _ _ _ Hc)]. split.
  - intros E. split; [destruct (IsError (res_Status r)) eqn:Ee; [|done]; by rewrite (proj2 He eq_refl) in E|].
    intros k Hk Hok. assert (PortOpen r = Some true) by (apply Ho'; eauto). congruence.
  - intros [Ee Hno]. destruct (PortOpen r) as [[]|] eqn:E; [|done|].
    + destruct (proj1 Ho' eq_refl) as (k & Hk & Hok). by destruct (Hno k Hk).
    + rewrite (proj1 He eq_refl) in Ee. done.
Qed.

(** ** The fan-out keeps the promise *)

(** Every goroutine finishes exactly once. *)
Definition completes (LookupHost : string -> lookup_result) (cfg : ProbeConfig) (order : list nat) : Prop :=
  order ≡ₚ seq 0 (length (ExpandTargets LookupHost (Targets cfg) (MaxResolvedIPs cfg))).

Lemma goroutines_ok {A} (items : list A) probeOne order (P : ProbeResult -> Prop) :
  (forall i wi, wi ∈ items -> exists r, probeOne i wi = Ok r /\ P r) ->
  goroutines items probeOne order = Ok () /\ Forall P (imap (fun i wi => orZero (probeOne i wi)) items).
Proof.
  intros Hone. split.
  - apply forEach_ok, Forall_forall. intros i _. destruct (items !! i) as [wi|] eqn:Ei; [|done].
    destruct (Hone i wi) as (r & -> & _); [by eapply list_elem_of_lookup_2|done].
  - apply Forall_forall. intros r Hr. apply elem_of_lookup_imap in Hr as (i & wi & -> & Hi).
    destruct (Hone i wi) as (r' & -> & Hr'); [by eapply list_elem_of_lookup_2|done].
Qed.

Lemma RunProbes_ok LookupHost cfg probeOne order (P : ProbeResult -> Prop) :
  completes LookupHost cfg order ->
  (forall i wi, wi ∈ ExpandTargets LookupHost (Targets cfg) (MaxResolvedIPs cfg) ->
     exists r, probeOne i wi = Ok r /\ P r) ->
  exists rs, RunProbes LookupHost (Targets cfg) (MaxResolvedIPs cfg) probeOne order = Ok rs /\
             forall l, rs = Some l -> Forall P l.
Proof.
  intros Hord Hone. destruct (goroutines_ok _ probeOne order P Hone) as [Hg Hf].
  unfold RunProbes. rewrite Hg. eexists. split; [reflexivity|].
  rewrite RunWorkItems_imap by exact Hord. destruct (Targets cfg); [done|]. by intros ? [= <-].
Qed.
