(* ===== verification/TcpSyn.v ===== *)
(** * internal/probe/tcp/syn.go: the raw half-open SYN probe.

    Segment construction and parsing are translated byte by byte at their
    widths (uint16/uint32 with wrap-around); the socket of [synAttempt] is a
    script: what each call returns and which packets arrive before the
    deadline. *)

From S2P Require Import Prelude.
From S2P Require Import GoStrings.
From S2P Require Import GoNet.
From S2P Require Import GoBytes.
From S2P Require Import Prober.
From Stdlib Require Import Zbitwise.

(** ** Flags and segments *)

Definition flagFIN : Z := Z.shiftl 1 0.
Definition flagSYN : Z := Z.shiftl 1 1.
Definition flagRST : Z := Z.shiftl 1 2.
Definition flagACK : Z := Z.shiftl 1 4.

Definition tcpHeaderLen : nat := 20.

Record synSegment := {
  seg_srcPort : Z;
  seg_dstPort : Z;
  seg_seq : Z;
  seg_ack : Z;
  seg_flags : Z
}.

(** ** Checksum *)

(** [addBytes]: big-endian words, an odd last byte shifted into the high half;
    [sum] is a uint32. *)
Fixpoint addBytes (sum : Z) (b : list Z) : Z :=
  match b with
  | [] => sum
  | [x] => uint32 (sum + uint32 (Z.shiftl x 8))
  | x :: y :: b' => addBytes (uint32 (sum + Uint16 [x; y])) b'
  end.

(** [for sum>>16 != 0 { sum = (sum & 0xFFFF) + (sum >> 16) }] *)
Fixpoint foldSum (fuel : nat) (sum : Z) : Z :=
  match fuel with
  | O => sum
  | S f => if Z.shiftr sum 16 =? 0 then sum
           else foldSum f (uint32 (Z.land sum 0xFFFF + Z.shiftr sum 16))
  end.

(** [copy(pseudo[i:i+4], ip.To4())] into a zeroed buffer. *)
Definition copy4 (ip : IP) : list Z :=
  match To4 (Some ip) with Some b => firstn 4 b | None => [0; 0; 0; 0] end.

Definition pseudoHeader (srcIP dstIP : IP) (segLen : Z) : list Z :=
  copy4 srcIP ++ copy4 dstIP ++ [0; 6] ++ PutUint16 (uint16 segLen).

(** Two rounds fold any uint32; the fuel is three. *)
Definition tcpChecksum (srcIP dstIP : IP) (seg : list Z) : Z :=
  let sum := addBytes (addBytes 0 (pseudoHeader srcIP dstIP (Z.of_nat (length seg)))) seg in
  Z.lxor (uint16 (foldSum 3 sum)) 0xFFFF.

(** The header with the checksum field holding [ck]. *)
Definition synHeader (srcPort dstPort seq ck : Z) : list Z :=
  PutUint16 srcPort ++ PutUint16 dstPort ++ PutUint32 seq ++ [0; 0; 0; 0] ++
  [Z.shiftl (Z.of_nat tcpHeaderLen / 4) 4; flagSYN] ++ PutUint16 0xFFFF ++ PutUint16 ck ++ [0; 0].

Definition buildSYN (srcIP dstIP : option IP) (srcPort dstPort seq : Z) : res string (list Z) :=
  match To4 srcIP, To4 dstIP with
  | Some s4, Some d4 =>
      let hdr := synHeader srcPort dstPort seq 0 in
      Ok (synHeader srcPort dstPort seq (tcpChecksum s4 d4 hdr))
  | _, _ =>
      Err ("syn: IPv4 source and destination required (src=" +:+ ipString srcIP +:+ " dst=" +:+
           ipString dstIP +:+ ")")
  end.

(** ** Parsing and classification *)

Definition parseTCPSegment (b : list Z) : res string synSegment :=
  failif (length b <? tcpHeaderLen)%nat
    with "syn: short TCP segment (" +:+ Itoa (Z.of_nat (length b)) +:+ " bytes)";;
  Ok {| seg_srcPort := Uint16 (slice b 0 2); seg_dstPort := Uint16 (slice b 2 4);
        seg_seq := Uint32 (slice b 4 8); seg_ack := Uint32 (slice b 8 12);
        seg_flags := byteAt b 13 |}.

Definition stripIPv4Header (b : list Z) : list Z :=
  if (20 <=? length b)%nat && (Z.shiftr (byteAt b 0) 4 =? 4) then
    let ihl := Z.land (byteAt b 0) 0x0F * 4 in
    if (20 <=? ihl) && (ihl <=? Z.of_nat (length b)) then skipn (Z.to_nat ihl) b else b
  else b.

Definition hasFlag (flags f : Z) : bool := negb (Z.land flags f =? 0).

Definition classifyReply (seg : synSegment) (srcPort dstPort expectAck : Z) : portState * bool :=
  if negb (seg_srcPort seg =? dstPort) || negb (seg_dstPort seg =? srcPort)
  then (stateUnreachable, false)
  else if hasFlag (seg_flags seg) flagSYN && hasFlag (seg_flags seg) flagACK
          && (seg_ack seg =? expectAck) then (stateOpen, true)
  else if hasFlag (seg_flags seg) flagRST then (stateClosed, true)
  else (stateUnreachable, false).

(** ** synAttempt *)

(** A packet as [conn.ReadFrom] delivers it: data, sender address in text form
    and arrival time.  Times are on the clock that reads 0 at the
    [time.Now().Add(timeout)] of the attempt. *)
Record Packet := { pk_data : list Z; pk_from : string; pk_at : Z }.

#[global] Instance Packet_inhabited : Inhabited Packet :=
  populate {| pk_data := []; pk_from := EmptyString; pk_at := 0 |}.

(** What the system does during one attempt. *)
Record SynNet := {
  dialRoute : IP -> string + option (option IP);
    (* net.Dial("udp", ...): an error, or the local address: None if it is not
       a *net.UDPAddr, else its IP *)
  routeAddrType : string;                      (* the %T of such an address *)
  listenErr : option string;                   (* net.ListenPacket *)
  randPort : Z;                                (* rand.IntN(65535-1024) *)
  randSeq : Z;                                 (* rand.Uint32() *)
  ctxDeadline : option Z;                      (* ctx.Deadline() *)
  deadlineErr : option string;                 (* conn.SetDeadline *)
  startAt : Z;                                 (* start := time.Now() *)
  sendErr : option string;                     (* conn.WriteTo *)
  packets : list Packet                        (* arrivals, in order *)
}.

Definition resolveSourceIP (u : UnicodeTables) (net : SynNet) (sourceIP : string) (dstIP : IP)
    : res string IP :=
  if negb (sourceIP =? "")%string then
    match To4 (ParseIP sourceIP) with
    | None => Err ("syn: source_ip " +:+ Quote u sourceIP +:+ " is not IPv4")
    | Some ip => Ok ip
    end
  else
    match dialRoute net dstIP with
    | inl e => Err ("syn: determine source IP for " +:+ ipString (Some dstIP) +:+ ": " +:+ e)
    | inr None => Err ("syn: unexpected local address type " +:+ routeAddrType net +:+
                       " for route to " +:+ ipString (Some dstIP))
    | inr (Some udpIP) =>
        match To4 udpIP with
        | None => Err ("syn: no IPv4 source route to " +:+ ipString (Some dstIP))
        | Some ip => Ok ip
        end
    end.

(** [buf := make([]byte, 1500)]: longer packets are cut. *)
Definition readBuf (data : list Z) : list Z := firstn 1500 data.
#[global] Arguments readBuf : simpl never.

(** The read loop: packets from other hosts, short ones and unrelated ones are
    skipped; [ReadFrom] fails when nothing arrives before the deadline. *)
Fixpoint synReadLoop (deadline start : Z) (dstIP : IP) (srcPort dstPort expectAck : Z)
    (pks : list Packet) : Z * portState :=
  match pks with
  | [] => (0, stateUnreachable)
  | pk :: rest =>
      if deadline <=? pk_at pk then (0, stateUnreachable)
      else if negb (pk_from pk =? ipString (Some dstIP))%string
      then synReadLoop deadline start dstIP srcPort dstPort expectAck rest
      else match parseTCPSegment (stripIPv4Header (readBuf (pk_data pk))) with
           | Ok seg =>
               let '(state, ok) := classifyReply seg srcPort dstPort expectAck in
               if ok then (pk_at pk - start, state)
               else synReadLoop deadline start dstIP srcPort dstPort expectAck rest
           | _ => synReadLoop deadline start dstIP srcPort dstPort expectAck rest
           end
  end.

(** [deadline := time.Now().Add(timeout)], or the context's when that is earlier. *)
Definition synDeadline (net : SynNet) (timeout : Z) : Z :=
  match ctxDeadline net with
  | Some d => if d <? timeout then d else timeout
  | None => timeout
  end.

Definition synSrcPort (net : SynNet) : Z := uint16 (1024 + randPort net).

Definition synAttempt (u : UnicodeTables) (net : SynNet) (sourceIP ip : string)
    (port timeout : Z) : Z * portState * option string :=
  match To4 (ParseIP ip) with
  | None => (0, stateUnreachable,
             Some ("syn: target " +:+ Quote u ip +:+ " is not IPv4 (SYN mode is IPv4-only)"))
  | Some dstIP =>
      match resolveSourceIP u net sourceIP dstIP with
      | Err e => (0, stateUnreachable, Some e)
      | Panic _ => (0, stateUnreachable, None)
      | Ok srcIP =>
          match listenErr net with
          | Some e => (0, stateUnreachable, Some ("syn: open raw socket (needs CAP_NET_RAW): " +:+ e))
          | None =>
              match buildSYN (Some srcIP) (Some dstIP) (synSrcPort net) (uint16 port) (randSeq net) with
              | Err e => (0, stateUnreachable, Some e)
              | Panic _ => (0, stateUnreachable, None)
              | Ok _ =>
                  match deadlineErr net, sendErr net with
                  | Some e, _ => (0, stateUnreachable, Some ("syn: set deadline: " +:+ e))
                  | None, Some e => (0, stateUnreachable, Some ("syn: send: " +:+ e))
                  | None, None =>
                      let '(rtt, state) :=
                        synReadLoop (synDeadline net timeout) (startAt net) dstIP (synSrcPort net)
                          (uint16 port) (uint32 (randSeq net + 1)) (packets net) in
                      (rtt, state, None)
                  end
              end
          end
      end
  end.

(** ** Ones-complement arithmetic *)

(** The sum of the big-endian words of a byte list, over the integers. *)
Fixpoint wordSum (b : list Z) : Z :=
  match b with
  | [] => 0
  | [x] => x * 256
  | x :: y :: b' => x * 256 + y + wordSum b'
  end.

(** The ones-complement representative of a sum: 0 for 0, else in [1, 65535]. *)
Definition onesRep (x : Z) : Z := if x =? 0 then 0 else (x - 1) mod 65535 + 1.

Lemma onesRep_range x : 0 <= x -> 0 <= onesRep x <= 65535.
Proof. intros. unfold onesRep. destruct (x =? 0); [lia|]. pose proof (Z.mod_pos_bound (x - 1) 65535). lia. Qed.

Lemma onesRep_small x : 0 <= x <= 65535 -> onesRep x = x.
Proof. intros. unfold onesRep. destruct (Z.eqb_spec x 0); [lia|]. rewrite Z.mod_small; lia. Qed.

(** One folding step keeps the representative. *)
Lemma onesRep_fold x : 0 <= x -> onesRep (x mod 2 ^ 16 + x / 2 ^ 16) = onesRep x.
Proof.
  intros Hx. unfold onesRep.
  pose proof (Z.div_mod x (2 ^ 16) ltac:(lia)) as Hd.
  pose proof (Z.mod_pos_bound x (2 ^ 16) ltac:(lia)). pose proof (Z.div_pos x (2 ^ 16) Hx ltac:(lia)).
  set (q := x / 2 ^ 16) in *. set (r := x mod 2 ^ 16) in *.
  destruct (Z.eqb_spec (r + q) 0), (Z.eqb_spec x 0); [lia..|].
  f_equal. rewrite Hd. replace (2 ^ 16 * q + r - 1) with (r + q - 1 + q * 65535) by lia.
  by rewrite Z.mod_add by lia.
Qed.

Lemma fold_bound x : 0 <= x < 2 ^ 32 -> 0 <= x mod 2 ^ 16 + x / 2 ^ 16 <= 2 ^ 16 - 1 + (2 ^ 16 - 1).
Proof.
  intros Hx. pose proof (Z.mod_pos_bound x (2 ^ 16) ltac:(lia)).
  assert (x / 2 ^ 16 < 2 ^ 16) by (apply Z.div_lt_upper_bound; lia).
  pose proof (Z.div_pos x (2 ^ 16) ltac:(lia) ltac:(lia)). lia.
Qed.

Lemma foldSum_step f x :
  0 <= x < 2 ^ 32 ->
  foldSum (S f) x = if x <? 2 ^ 16 then x else foldSum f (x mod 2 ^ 16 + x / 2 ^ 16).
Proof.
  intros Hx. cbn [foldSum]. rewrite Z.shiftr_div_pow2 by lia.
  change 0xFFFF with (Z.ones 16). rewrite Z.land_ones by lia.
  destruct (Z.ltb_spec x (2 ^ 16)).
  - by rewrite Z.div_small by lia.
  - pose proof (fold_bound x Hx). rewrite uint32_id by lia.
    assert (1 <= x / 2 ^ 16) by (apply Z.div_le_lower_bound; lia).
    by replace (x / 2 ^ 16 =? 0) with false by (symmetry; apply Z.eqb_neq; lia).
Qed.

(** The folding loop ends after at most two rounds on any uint32, with the
    ones-complement representative of its input. *)
Lemma foldSum_rep f x : 0 <= x < 2 ^ 32 -> foldSum (S (S (S f))) x = onesRep x.
Proof.
  intros Hx. rewrite foldSum_step by done. destruct (Z.ltb_spec x (2 ^ 16)).
  { by rewrite onesRep_small by lia. }
  set (x1 := x mod 2 ^ 16 + x / 2 ^ 16).
  pose proof (fold_bound x Hx) as H1. fold x1 in H1.
  rewrite <- onesRep_fold by lia. fold x1. rewrite foldSum_step by lia.
  destruct (Z.ltb_spec x1 (2 ^ 16)).
  { by rewrite onesRep_small by lia. }
  set (x2 := x1 mod 2 ^ 16 + x1 / 2 ^ 16).
  assert (0 <= x2 < 2 ^ 16) as H2.
  { assert (x1 / 2 ^ 16 = 1) as Hq by (symmetry; apply (Z.div_unique _ _ _ (x1 - 2 ^ 16)); lia).
    subst x2. rewrite (Z.mod_eq x1 (2 ^ 16)), Hq by lia. lia. }
  rewrite <- onesRep_fold by lia. fold x2. rewrite foldSum_step by lia.
  replace (x2 <? 2 ^ 16) with true by (symmetry; apply Z.ltb_lt; lia).
  by rewrite onesRep_small by lia.
Qed.

(** Induction two elements at a time. *)
Lemma pairs_ind {A} (P : list A -> Prop) :
  P [] -> (forall x, P [x]) -> (forall x y l, P l -> P (x :: y :: l)) -> forall l, P l.
Proof.
  intros H0 H1 H2 l. enough (P l /\ forall x, P (x :: l)) by tauto.
  induction l as [|y l [IH1 IH2]]; split; auto.
Qed.

Lemma addBytes_wordSum sum b :
  0 <= sum < 2 ^ 32 -> bytes b -> addBytes sum b = uint32 (sum + wordSum b).
Proof.
  intros Hs Hb. revert sum Hs. induction b as [|x|x y b IH] using pairs_ind; intros sum Hs.
  - simpl. by rewrite Z.add_0_r, uint32_id.
  - apply Forall_cons in Hb as [Hx _]. unfold is_byte in Hx. simpl.
    rewrite Z.shiftl_mul_pow2 by lia. by rewrite (uint32_id (x * 2 ^ 8)) by lia.
  - apply Forall_cons in Hb as [Hx Hb]. apply Forall_cons in Hb as [Hy Hb].
    cbn [addBytes wordSum]. rewrite IH; [|done|apply uint32_range].
    rewrite Uint16_bytes by done. unfold uint32. rewrite Zplus_mod_idemp_l. f_equal. lia.
Qed.

Lemma wordSum_app a b : Nat.Even (length a) -> wordSum (a ++ b) = wordSum a + wordSum b.
Proof.
  induction a as [|x|x y a IH] using pairs_ind; intros He.
  - done.
  - destruct He as [n Hn]. simpl in Hn. lia.
  - cbn [app wordSum]. rewrite IH; [lia|]. destruct He as [n Hn]. exists (n - 1)%nat. simpl in Hn. lia.
Qed.

Lemma wordSum_bounds b : bytes b -> 0 <= 2 * wordSum b <= 65535 * (Z.of_nat (length b) + 1).
Proof.
  induction b as [|x|x y b IH] using pairs_ind; intros Hb; [simpl; lia| |].
  - apply Forall_cons in Hb as [Hx _]. unfold is_byte in Hx. simpl. lia.
  - apply Forall_cons in Hb as [Hx Hb]. apply Forall_cons in Hb as [Hy Hb].
    specialize (IH Hb). unfold is_byte in *. cbn [wordSum length]. lia.
Qed.

Lemma lxor_ffff x : 0 <= x <= 65535 -> Z.lxor x 0xFFFF = 65535 - x.
Proof.
  intros Hx. pose proof (Z.add_lxor_2land x 0xFFFF) as H.
  replace (Z.land x 0xFFFF) with x in H; [lia|].
  change 0xFFFF with (Z.ones 16). rewrite Z.land_ones, Z.mod_small by lia. done.
Qed.

(** ** The checksum against RFC 1071 *)

(** 16-bit ones-complement addition: the carry out of bit 15 is added back. *)
Definition onesAdd (a w : Z) : Z := if 65535 <? a + w then a + w - 65535 else a + w.

(** The reference sum: one end-around-carry addition per big-endian word. *)
Fixpoint onesSum (acc : Z) (b : list Z) : Z :=
  match b with
  | [] => acc
  | [x] => onesAdd acc (x * 256)
  | x :: y :: b' => onesSum (onesAdd acc (x * 256 + y)) b'
  end.

Lemma onesAdd_rep a w : 0 <= a -> 0 <= w <= 65535 -> onesAdd (onesRep a) w = onesRep (a + w).
Proof.
  intros Ha Hw. unfold onesAdd. pose proof (onesRep_range a Ha) as Hr. unfold onesRep in *.
  destruct (Z.eqb_spec a 0) as [->|].
  { destruct (Z.ltb_spec 65535 (0 + w)); [lia|]. destruct (Z.eqb_spec (0 + w) 0); [lia|].
    rewrite Z.mod_small; lia. }
  destruct (Z.eqb_spec (a + w) 0); [lia|].
  replace (a + w - 1) with (w + (a - 1)) by lia. rewrite <- Zplus_mod_idemp_r.
  pose proof (Z.mod_pos_bound (a - 1) 65535). set (m := (a - 1) mod 65535) in *.
  destruct (Z.ltb_spec 65535 (m + 1 + w)).
  - rewrite (Z.mod_eq (w + m) 65535) by lia.
    replace ((w + m) / 65535) with 1; [lia|].
    apply (Z.div_unique _ _ _ (w + m - 65535)); lia.
  - rewrite Z.mod_small; lia.
Qed.

Lemma onesSum_rep a b : 0 <= a -> bytes b -> onesSum (onesRep a) b = onesRep (a + wordSum b).
Proof.
  intros Ha Hb. revert a Ha. induction b as [|x|x y b IH] using pairs_ind; intros a Ha.
  - simpl. by rewrite Z.add_0_r.
  - apply Forall_cons in Hb as [Hx _]. unfold is_byte in Hx. simpl. apply onesAdd_rep; lia.
  - apply Forall_cons in Hb as [Hx Hb]. apply Forall_cons in Hb as [Hy Hb]. unfold is_byte in *.
    cbn [onesSum wordSum]. rewrite onesAdd_rep, IH by (done || lia). f_equal. lia.
Qed.

(** An address of [n] bytes. *)
Definition v4 (ip : IP) : Prop := length ip = 4%nat /\ bytes ip.

Lemma copy4_v4 ip : v4 ip -> copy4 ip = ip.
Proof. intros [H _]. unfold copy4. simpl. rewrite H. simpl. by apply firstn_all2; lia. Qed.

Lemma bytes_PutUint16 v : bytes (PutUint16 v).
Proof. repeat constructor; apply uint8_range. Qed.

Lemma bytes_PutUint32 v : bytes (PutUint32 v).
Proof. repeat constructor; apply uint8_range. Qed.

Lemma pseudoHeader_bytes s d n :
  v4 s -> v4 d -> bytes (pseudoHeader s d n) /\ length (pseudoHeader s d n) = 12%nat.
Proof.
  intros Hs Hd. unfold pseudoHeader. rewrite !copy4_v4 by done. destruct Hs, Hd. split.
  - repeat apply Forall_app_2; try done; [repeat constructor; unfold is_byte; lia|].
    apply bytes_PutUint16.
  - rewrite !length_app. simpl. lia.
Qed.

(** The 32-bit accumulator never wraps for a segment that fits an IPv4 packet,
    so the deferred carries give the ones-complement sum. *)
Lemma tcpChecksum_rep s d seg :
  v4 s -> v4 d -> bytes seg -> Z.of_nat (length seg) <= 65535 ->
  tcpChecksum s d seg =
    65535 - onesRep (wordSum (pseudoHeader s d (Z.of_nat (length seg))) + wordSum seg).
Proof.
  intros Hs Hd Hb Hl. unfold tcpChecksum.
  destruct (pseudoHeader_bytes s d (Z.of_nat (length seg)) Hs Hd) as [Hp Hpl].
  set (p := pseudoHeader s d (Z.of_nat (length seg))) in *.
  pose proof (wordSum_bounds p Hp). pose proof (wordSum_bounds seg Hb). rewrite Hpl in *.
  rewrite addBytes_wordSum; [|rewrite addBytes_wordSum by (done || lia); apply uint32_range|done].
  rewrite addBytes_wordSum by (done || lia). rewrite (uint32_id (0 + wordSum p)) by lia.
  rewrite uint32_id, foldSum_rep, Z.add_0_l by lia.
  pose proof (onesRep_range (wordSum p + wordSum seg)). rewrite uint16_id by lia.
  apply lxor_ffff. lia.
Qed.

(** C30: [tcpChecksum] (a 32-bit accumulator with the carries folded at the end)
    is the RFC 1071 checksum of the pseudo-header followed by the segment:
    the complement of the word-by-word end-around-carry sum, for every segment
    an IPv4 packet can hold. *)
Theorem tcpChecksum_rfc1071 (src dst : IP) (seg : list Z) :
  v4 src -> v4 dst -> bytes seg -> Z.of_nat (length seg) <= 65535 ->
  tcpChecksum src dst seg =
    65535 - onesSum (onesSum 0 (pseudoHeader src dst (Z.of_nat (length seg)))) seg.
Proof.
  intros Hs Hd Hb Hl. rewrite tcpChecksum_rep by done.
  destruct (pseudoHeader_bytes src dst (Z.of_nat (length seg)) Hs Hd) as [Hp _].
  change 0 with (onesRep 0) at 1. rewrite onesSum_rep by (done || lia).
  rewrite onesSum_rep; [done| |done]. pose proof (wordSum_bounds _ Hp). lia.
Qed.

Lemma tcpChecksum_rfc1071_witness :
  tcpChecksum [10; 0; 0; 1] [10; 0; 0; 2] [255; 255; 1] =
    65535 - onesSum (onesSum 0 (pseudoHeader [10; 0; 0; 1] [10; 0; 0; 2] 3)) [255; 255; 1].
Proof.
  apply (tcpChecksum_rfc1071 [10; 0; 0; 1] [10; 0; 0; 2] [255; 255; 1]);
    first [ simpl; lia | repeat constructor; unfold is_byte; lia ].
Defined.

(** ** What [buildSYN] builds *)

Lemma synHeader_length sp dp seq ck : length (synHeader sp dp seq ck) = 20%nat.
Proof. reflexivity. Qed.

Lemma bytes_synHeader sp dp seq ck : bytes (synHeader sp dp seq ck).
Proof.
  unfold synHeader, PutUint16, PutUint32. cbn [app].
  repeat (apply Forall_cons; split); try apply is_byte_uint8; try done.
  all: by split; vm_compute.
Qed.

Lemma wordSum_Put16 v : 0 <= v < 2 ^ 16 -> wordSum (PutUint16 v) = v.
Proof.
  intros H. pose proof (Uint16_PutUint16 v []) as E. simpl in E.
  unfold PutUint16 in *. rewrite Uint16_bytes in E by apply uint8_range.
  rewrite uint16_id in E by done. simpl. lia.
Qed.

(** The checksum field contributes its value to the sum. *)
Lemma wordSum_synHeader sp dp seq ck :
  0 <= ck < 2 ^ 16 -> wordSum (synHeader sp dp seq ck) = wordSum (synHeader sp dp seq 0) + ck.
Proof.
  intros H. pose proof (wordSum_Put16 ck H) as E. unfold synHeader, PutUint16, PutUint32 in *.
  cbn [app wordSum] in *. change (uint8 (Z.shiftr 0 8)) with 0. change (uint8 0) with 0. lia.
Qed.

Lemma buildSYN_inv srcIP dstIP sp dp seq seg :
  buildSYN srcIP dstIP sp dp seq = Ok seg ->
  exists s4 d4, To4 srcIP = Some s4 /\ To4 dstIP = Some d4 /\
    seg = synHeader sp dp seq (tcpChecksum s4 d4 (synHeader sp dp seq 0)).
Proof. unfold buildSYN. intros H. res_inv. eauto. Qed.

Lemma To4_v4 ip b : To4 ip = Some b -> (forall x, ip = Some x -> bytes x) -> v4 b.
Proof.
  intros H Hb. destruct ip as [x|]; [|done]. specialize (Hb x eq_refl). simpl in H.
  destruct (Nat.eqb_spec (length x) 4) as [Hl|]; [simplify_eq; by split|].
  destruct (Nat.eqb_spec (length x) 16) as [Hl|]; [|done]. simpl in H.
  destruct (bool_decide _); simplify_eq. split.
  - rewrite length_skipn. lia.
  - by apply Forall_drop.
Qed.

Lemma copy4_To4 ip b : To4 (Some ip) = Some b -> copy4 ip = copy4 b.
Proof.
  intros H. assert (length b = 4%nat) as Hb.
  { unfold To4 in H. destruct (Nat.eqb_spec (length ip) 4); [congruence|].
    destruct (Nat.eqb_spec (length ip) 16); [|done]. simpl in H. destruct (bool_decide _); simplify_eq.
    rewrite length_skipn. lia. }
  unfold copy4. rewrite H. simpl. by rewrite Hb.
Qed.

Lemma tcpChecksum_To4 s d s4 d4 seg :
  To4 (Some s) = Some s4 -> To4 (Some d) = Some d4 -> tcpChecksum s4 d4 seg = tcpChecksum s d seg.
Proof. intros Hs Hd. unfold tcpChecksum, pseudoHeader. by rewrite (copy4_To4 s s4), (copy4_To4 d d4). Qed.

(** The ones-complement sum over pseudo-header and built segment is all ones. *)
Lemma checksum_closes s d sp dp seq :
  v4 s -> v4 d -> tcpChecksum s d (synHeader sp dp seq (tcpChecksum s d (synHeader sp dp seq 0))) = 0.
Proof.
  intros Hs Hd. set (ck := tcpChecksum s d (synHeader sp dp seq 0)).
  assert (ck = 65535 - onesRep (wordSum (pseudoHeader s d 20) + wordSum (synHeader sp dp seq 0))) as Hck
    by (apply tcpChecksum_rep; [done..|apply bytes_synHeader|simpl; lia]).
  rewrite tcpChecksum_rep; [|done..|apply bytes_synHeader|simpl; lia].
  change (Z.of_nat (length (synHeader sp dp seq ck))) with 20.
  pose proof (wordSum_bounds _ (bytes_synHeader sp dp seq 0)).
  assert (6 <= wordSum (pseudoHeader s d 20)) as Hpos.
  { unfold pseudoHeader. rewrite !copy4_v4 by done. rewrite !wordSum_app.
    - pose proof (wordSum_bounds _ (proj2 Hs)). pose proof (wordSum_bounds _ (proj2 Hd)).
      simpl (wordSum [0; 6]). rewrite wordSum_Put16 by apply uint16_range.
      pose proof (uint16_range 20). lia.
    - by exists 1%nat.
    - destruct Hd as [-> _]. by exists 2%nat.
    - destruct Hs as [-> _]. by exists 2%nat. }
  set (T := wordSum (pseudoHeader s d 20)) in *. set (W := wordSum (synHeader sp dp seq 0)) in *.
  pose proof (onesRep_range (T + W)). rewrite wordSum_synHeader by lia. fold W.
  rewrite Hck. unfold onesRep. destruct (Z.eqb_spec (T + W) 0); [lia|].
  pose proof (Z.mod_pos_bound (T + W - 1) 65535).
  set (m := (T + W - 1) mod 65535) in *. destruct (Z.eqb_spec (T + (W + (65535 - (m + 1)))) 0); [lia|].
  pose proof (Z.div_mod (T + W - 1) 65535 ltac:(lia)) as Hd'. fold m in Hd'.
  replace (T + (W + (65535 - (m + 1))) - 1) with (65534 + (T + W - 1) / 65535 * 65535) by lia.
  rewrite Z.mod_add by lia. reflexivity.
Qed.

(** C29: the segment [buildSYN] marshals is a well-formed SYN: 20 bytes, its
    checksum verifies at the receiver (the checksum over the finished segment
    is 0), and [parseTCPSegment] reads back exactly the ports and sequence
    number it was built from, acknowledgement 0 and only the SYN flag. *)
Theorem buildSYN_sound (srcIP dstIP : IP) (srcPort dstPort seq : Z) (seg : list Z) :
  bytes srcIP -> bytes dstIP ->
  buildSYN (Some srcIP) (Some dstIP) srcPort dstPort seq = Ok seg ->
  length seg = tcpHeaderLen /\ bytes seg /\ tcpChecksum srcIP dstIP seg = 0 /\
  parseTCPSegment seg =
    Ok {| seg_srcPort := uint16 srcPort; seg_dstPort := uint16 dstPort; seg_seq := uint32 seq;
          seg_ack := 0; seg_flags := flagSYN |}.
Proof.
  intros Hs Hd H. apply buildSYN_inv in H as (s4 & d4 & Es & Ed & ->).
  split; [reflexivity|]. split; [apply bytes_synHeader|]. split.
  - assert (v4 s4) by (eapply To4_v4; [done|congruence]).
    assert (v4 d4) by (eapply To4_v4; [done|congruence]).
    rewrite <- (tcpChecksum_To4 srcIP dstIP s4 d4) by done. by apply checksum_closes.
  - unfold parseTCPSegment. rewrite synHeader_length. simpl (20 <? tcpHeaderLen)%nat. cbv match.
    rewrite <- !(Uint16_PutUint16 _ []), <- (Uint32_PutUint32 seq []). reflexivity.
Qed.

Lemma buildSYN_sound_witness :
  exists seg, buildSYN (Some [10; 0; 0; 1]) (Some [10; 0; 0; 2]) 40000 443 4294967295 = Ok seg /\
              tcpChecksum [10; 0; 0; 1] [10; 0; 0; 2] seg = 0.
Proof.
  exists (synHeader 40000 443 4294967295 64996). split; [reflexivity|].
  refine (proj1 (proj2 (proj2 (buildSYN_sound [10; 0; 0; 1] [10; 0; 0; 2] 40000 443 4294967295 _ _ _ eq_refl))));
    repeat constructor; unfold is_byte; lia.
Defined.

(** ** Received packets *)

Lemma nibbles b : is_byte b -> Z.shiftr b 4 = b / 16 /\ Z.land b 0x0F = b mod 16.
Proof.
  intros _. split; [by rewrite Z.shiftr_div_pow2 by lia|].
  change 0x0F with (Z.ones 4). by rewrite Z.land_ones by lia.
Qed.

Lemma stripIPv4Header_header h seg :
  bytes h -> byteAt h 0 / 16 = 4 -> 5 <= byteAt h 0 mod 16 ->
  Z.of_nat (length h) = byteAt h 0 mod 16 * 4 -> stripIPv4Header (h ++ seg) = seg.
Proof.
  intros Hb Hv Hi Hl. unfold stripIPv4Header.
  destruct h as [|b0 h']; [simpl in *; lia|]. apply Forall_cons in Hb as [Hb0 _].
  destruct (nibbles b0 Hb0) as [En Em]. unfold byteAt in *. cbn [nth app] in *. rewrite En, Em.
  replace (20 <=? length (b0 :: h' ++ seg))%nat with true
    by (symmetry; apply Nat.leb_le; simpl in *; rewrite length_app; lia).
  rewrite Hv. simpl (true && _). cbv match.
  replace (20 <=? b0 mod 16 * 4) with true by (symmetry; apply Z.leb_le; lia).
  replace (b0 mod 16 * 4 <=? _) with true
    by (symmetry; apply Z.leb_le; rewrite <- Hl; simpl; rewrite length_app; lia).
  simpl (true && _). cbv match. rewrite <- Hl, Nat2Z.id.
  exact (drop_app_length (b0 :: h') seg).
Qed.

(** The reply a packet carries for this attempt, if it decides it. *)
Definition decisive (dstIP : IP) (srcPort dstPort expectAck : Z) (pk : Packet) : option portState :=
  if negb (pk_from pk =? ipString (Some dstIP))%string then None
  else match parseTCPSegment (stripIPv4Header (readBuf (pk_data pk))) with
       | Ok seg => match classifyReply seg srcPort dstPort expectAck with
                   | (st, true) => Some st
                   | _ => None
                   end
       | _ => None
       end.

(** The first decisive packet that arrives before the deadline. *)
Fixpoint firstReply (deadline : Z) (f : Packet -> option portState) (pks : list Packet)
    : option (Packet * portState) :=
  match pks with
  | [] => None
  | pk :: rest =>
      if deadline <=? pk_at pk then None
      else match f pk with Some st => Some (pk, st) | None => firstReply deadline f rest end
  end.

Lemma synReadLoop_firstReply deadline start dstIP sp dp ack pks :
  synReadLoop deadline start dstIP sp dp ack pks =
    match firstReply deadline (decisive dstIP sp dp ack) pks with
    | Some (pk, st) => (pk_at pk - start, st)
    | None => (0, stateUnreachable)
    end.
Proof.
  induction pks as [|pk pks IH]; simpl; [done|]. unfold decisive at 1.
  destruct (_ <=? _); [done|]. destruct (negb _); [done|].
  destruct (parseTCPSegment _); [|done..]. destruct (classifyReply _ _ _ _) as [st []]; done.
Qed.

Lemma firstReply_spec deadline f pks pk st :
  firstReply deadline f pks = Some (pk, st) <->
  exists pre post, pks = pre ++ pk :: post /\ f pk = Some st /\
    Forall (fun q => pk_at q < deadline) (pre ++ [pk]) /\ Forall (fun q => f q = None) pre.
Proof.
  split.
  - induction pks as [|q pks IH]; simpl; [done|]. destruct (Z.leb_spec deadline (pk_at q)); [done|].
    destruct (f q) eqn:E.
    + intros [= -> ->]. exists [], pks. by repeat constructor.
    + intros (pre & post & -> & Hf & Ht & Hn)%IH. exists (q :: pre), post. by repeat constructor.
  - intros (pre & post & -> & Hf & Ht & Hn). induction pre as [|q pre IH]; simpl in *.
    + apply Forall_cons in Ht as [Hq _]. destruct (Z.leb_spec deadline (pk_at pk)); [lia|]. by rewrite Hf.
    + apply Forall_cons in Ht as [Hq Ht]. apply Forall_cons in Hn as [Hnq Hn].
      destruct (Z.leb_spec deadline (pk_at q)); [lia|]. rewrite Hnq. auto.
Qed.

(** [resolveSourceIP] returns four bytes, so [buildSYN] cannot refuse them. *)
Lemma To4_length ip b : To4 ip = Some b -> length b = 4%nat.
Proof.
  unfold To4. destruct ip as [x|]; [|done]. destruct (Nat.eqb_spec (length x) 4); [congruence|].
  destruct (Nat.eqb_spec (length x) 16); [|done]. simpl. destruct (bool_decide _); [|done].
  intros [= <-]. rewrite length_skipn. lia.
Qed.

Lemma To4_idem ip b : To4 ip = Some b -> To4 (Some b) = Some b.
Proof. intros H%To4_length. simpl. by rewrite H. Qed.

Lemma resolveSourceIP_v4 u net src dst b : resolveSourceIP u net src dst = Ok b -> To4 (Some b) = Some b.
Proof. unfold resolveSourceIP. intros H. res_inv; eauto using To4_idem. Qed.

Lemma resolveSourceIP_no_panic u net src dst : no_panic (resolveSourceIP u net src dst).
Proof. unfold resolveSourceIP. solve_no_panic. Qed.

(** The system calls of the attempt all succeed. *)
Record synSetup (u : UnicodeTables) (net : SynNet) (sourceIP ip : string) (srcIP dstIP : IP) : Prop := {
  setup_dst : To4 (ParseIP ip) = Some dstIP;
  setup_src : resolveSourceIP u net sourceIP dstIP = Ok srcIP;
  setup_listen : listenErr net = None;
  setup_deadline : deadlineErr net = None;
  setup_send : sendErr net = None
}.

Lemma synAttempt_run u net sourceIP ip srcIP dstIP port timeout :
  synSetup u net sourceIP ip srcIP dstIP ->
  synAttempt u net sourceIP ip port timeout =
    (synReadLoop (synDeadline net timeout) (startAt net) dstIP (synSrcPort net) (uint16 port)
       (uint32 (randSeq net + 1)) (packets net), None).
Proof.
  intros [Hd Hs Hl Hdl Hsend]. unfold synAttempt. rewrite Hd, Hs, Hl, Hdl, Hsend.
  unfold buildSYN. rewrite (resolveSourceIP_v4 _ _ _ _ _ Hs), (To4_idem _ _ Hd).
  by destruct (synReadLoop _ _ _ _ _ _ _).
Qed.

Lemma decisive_spec dstIP sp dp ack pk st :
  decisive dstIP sp dp ack pk = Some st <->
  pk_from pk = ipString (Some dstIP) /\
  exists seg, parseTCPSegment (stripIPv4Header (readBuf (pk_data pk))) = Ok seg /\
    seg_srcPort seg = dp /\ seg_dstPort seg = sp /\
    let synack := hasFlag (seg_flags seg) flagSYN && hasFlag (seg_flags seg) flagACK
                  && (seg_ack seg =? ack) in
    (synack = true /\ st = stateOpen \/
     synack = false /\ hasFlag (seg_flags seg) flagRST = true /\ st = stateClosed).
Proof.
  unfold decisive, classifyReply.
  destruct (String.eqb_spec (pk_from pk) (ipString (Some dstIP))); simpl; [|by split; [|intros []]].
  destruct (parseTCPSegment _) as [seg| |]; [|by split; [|intros (_ & ? & [=] & _)]..].
  split.
  - intros H. split; [done|]. exists seg. split; [done|].
    destruct (Z.eqb_spec (seg_srcPort seg) dp), (Z.eqb_spec (seg_dstPort seg) sp); try done.
    split; [done|]. split; [done|]. simpl in *.
    destruct (hasFlag _ flagSYN && hasFlag _ flagACK && _); [left; by simplify_eq|].
    destruct (hasFlag _ flagRST); [right; by simplify_eq|done].
  - intros (_ & seg' & [= <-] & -> & -> & Hf). rewrite !Z.eqb_refl. simpl in *.
    by destruct Hf as [[-> ->]|(-> & -> & ->)].
Qed.

(** The first deciding packet that arrives in time shows the port in state [st]. *)
Definition synReply (net : SynNet) (dstIP : IP) (port timeout rtt : Z) (st : portState) : Prop :=
  exists pre pk post, packets net = pre ++ pk :: post /\ rtt = pk_at pk - startAt net /\
    Forall (fun q => pk_at q < synDeadline net timeout) (pre ++ [pk]) /\
    Forall (fun q => decisive dstIP (synSrcPort net) (uint16 port) (uint32 (randSeq net + 1)) q = None) pre /\
    pk_from pk = ipString (Some dstIP) /\
    exists seg, parseTCPSegment (stripIPv4Header (readBuf (pk_data pk))) = Ok seg /\
      seg_srcPort seg = uint16 port /\ seg_dstPort seg = synSrcPort net /\
      let synack := hasFlag (seg_flags seg) flagSYN && hasFlag (seg_flags seg) flagACK
                    && (seg_ack seg =? uint32 (randSeq net + 1)) in
      (synack = true /\ st = stateOpen \/
       synack = false /\ hasFlag (seg_flags seg) flagRST = true /\ st = stateClosed).

Lemma synAttempt_reply u net sourceIP ip srcIP dstIP port timeout rtt st :
  synSetup u net sourceIP ip srcIP dstIP -> st <> stateUnreachable ->
  synAttempt u net sourceIP ip port timeout = (rtt, st, None) <-> synReply net dstIP port timeout rtt st.
Proof.
  intros Hset Hst. rewrite (synAttempt_run _ _ _ _ _ _ _ _ Hset), synReadLoop_firstReply.
  set (f := decisive dstIP (synSrcPort net) (uint16 port) (uint32 (randSeq net + 1))).
  split.
  - destruct (firstReply _ f _) as [[pk st']|] eqn:E; [|intros [= <- <-]; done].
    intros [= <- ->]. apply firstReply_spec in E as (pre & post & Hp & Hf & Ht & Hn).
    apply decisive_spec in Hf. exists pre, pk, post. by repeat (split; [done|]).
  - intros (pre & pk & post & Hp & -> & Ht & Hn & Hd).
    apply decisive_spec in Hd. rewrite (proj2 (firstReply_spec _ f _ pk st)); eauto 10.
Qed.

(** C31: a SYN attempt whose socket calls succeed reports exactly the first packet
    that decides it, ignoring everything else: the state is open iff, before
    the deadline, the first deciding packet comes from the target address and
    port to our port with SYN and ACK set and acknowledges our sequence number
    plus one (modulo 2^32); a RST first means closed; otherwise unreachable. *)
Theorem synAttempt_first_reply u net sourceIP ip srcIP dstIP port timeout rtt st :
  synSetup u net sourceIP ip srcIP dstIP -> st <> stateUnreachable ->
  synAttempt u net sourceIP ip port timeout = (rtt, st, None) <->
  exists pre pk post, packets net = pre ++ pk :: post /\ rtt = pk_at pk - startAt net /\
    Forall (fun q => pk_at q < synDeadline net timeout) (pre ++ [pk]) /\
    Forall (fun q => decisive dstIP (synSrcPort net) (uint16 port) (uint32 (randSeq net + 1)) q = None) pre /\
    pk_from pk = ipString (Some dstIP) /\
    exists seg, parseTCPSegment (stripIPv4Header (readBuf (pk_data pk))) = Ok seg /\
      seg_srcPort seg = uint16 port /\ seg_dstPort seg = synSrcPort net /\
      let synack := hasFlag (seg_flags seg) flagSYN && hasFlag (seg_flags seg) flagACK
                    && (seg_ack seg =? uint32 (randSeq net + 1)) in
      (synack = true /\ st = stateOpen \/
       synack = false /\ hasFlag (seg_flags seg) flagRST = true /\ st = stateClosed).
Proof. apply synAttempt_reply. Qed.

(** An attempt that reports a reply had all its socket calls succeed. *)
Lemma synAttempt_setup u net sourceIP ip port timeout rtt st :
  synAttempt u net sourceIP ip port timeout = (rtt, st, None) -> st <> stateUnreachable ->
  exists srcIP dstIP, synSetup u net sourceIP ip srcIP dstIP.
Proof.
  unfold synAttempt. intros H Hst. destruct (To4 (ParseIP ip)) as [dstIP|] eqn:Ed; [|done].
  destruct (resolveSourceIP u net sourceIP dstIP) as [srcIP| |] eqn:Es; [|done|by simplify_eq].
  destruct (listenErr net) eqn:El; [done|]. destruct (buildSYN _ _ _ _ _); [|done|by simplify_eq].
  destruct (deadlineErr net) eqn:Edl; [done|]. destruct (sendErr net) eqn:Ese; [done|]. exists srcIP, dstIP. by split.
Qed.

Lemma synReadLoop_rtt deadline start dst sp dp ack pks timeout :
  0 <= start -> 0 <= timeout -> deadline <= timeout ->
  (synReadLoop deadline start dst sp dp ack pks).1 <= timeout.
Proof.
  intros. rewrite synReadLoop_firstReply. destruct (firstReply _ _ _) as [[pk st]|] eqn:E; [|done].
  apply firstReply_spec in E as (pre & post & _ & _ & Ht & _).
  apply Forall_app in Ht as [_ Ht]. apply Forall_cons in Ht as [Ht _]. simpl. lia.
Qed.

(** Either the read loop decided, or an error with no measurement. *)
Lemma synAttempt_cases u net sourceIP ip port timeout :
  (exists dst, synAttempt u net sourceIP ip port timeout =
     (synReadLoop (synDeadline net timeout) (startAt net) dst (synSrcPort net) (uint16 port)
        (uint32 (randSeq net + 1)) (packets net), None)) \/
  exists e, synAttempt u net sourceIP ip port timeout = (0, stateUnreachable, Some e).
Proof.
  unfold synAttempt. destruct (To4 (ParseIP ip)) as [dst|] eqn:Ed; [|eauto].
  destruct (resolveSourceIP _ _ _ _) as [src| |p] eqn:Es;
    [|eauto|by apply resolveSourceIP_no_panic in Es].
  destruct (listenErr net); [eauto|]. unfold buildSYN.
  rewrite (resolveSourceIP_v4 _ _ _ _ _ Es), (To4_idem _ _ Ed).
  destruct (deadlineErr net); [eauto|]. destruct (sendErr net); [eauto|].
  left. exists dst. by destruct (synReadLoop _ _ _ _ _ _ _).
Qed.

(** an attempt never invents a round trip: a reported RTT is at most the
    probe's timeout, also when the context's deadline is earlier, and the
    ephemeral source port is an unprivileged one that fits 16 bits. *)
Theorem synAttempt_rtt_bound u net sourceIP ip port timeout rtt st e :
  0 <= startAt net -> 0 <= timeout -> 0 <= randPort net < 65535 - 1024 ->
  synAttempt u net sourceIP ip port timeout = (rtt, st, e) ->
  rtt <= timeout /\ (e <> None -> st = stateUnreachable /\ rtt = 0) /\ 1024 <= synSrcPort net < 65535.
Proof.
  intros Hstart Ht Hr H. split; [|split].
  - destruct (synAttempt_cases u net sourceIP ip port timeout) as [(dst & E)|[e' E]];
      rewrite H in E; simplify_eq; [|done].
    pose proof (synReadLoop_rtt (synDeadline net timeout) (startAt net) dst (synSrcPort net) (uint16 port)
      (uint32 (randSeq net + 1)) (packets net) timeout) as Hb.
    destruct (synReadLoop _ _ _ _ _ _ _) as [r s]. simplify_eq. apply Hb; [done..|].
    unfold synDeadline. destruct (ctxDeadline net); [destruct (Z.ltb_spec z timeout)|]; lia.
  - intros He. destruct (synAttempt_cases u net sourceIP ip port timeout) as [(dst & E)|[e' E]];
      rewrite H in E; by simplify_eq.
  - unfold synSrcPort. rewrite uint16_id; lia.
Qed.

(** ** The IP-header heuristic *)

(** [stripIPv4Header] removes exactly an IPv4 header with or without
    options, and leaves a bare TCP segment alone when the high byte of its
    source port does not look like an IPv4 version. *)
Theorem stripIPv4Header_correct (hdr seg : list Z) :
  bytes hdr -> bytes seg ->
  byteAt hdr 0 / 16 = 4 -> 5 <= byteAt hdr 0 mod 16 ->
  Z.of_nat (length hdr) = byteAt hdr 0 mod 16 * 4 ->
  stripIPv4Header (hdr ++ seg) = seg /\
  (Uint16 (slice seg 0 2) / 4096 <> 4 -> stripIPv4Header seg = seg).
Proof.
  intros Hh Hs Hv Hi Hl. split; [by apply stripIPv4Header_header|].
  intros Hp. unfold stripIPv4Header. destruct (Nat.leb_spec 20 (length seg)) as [Hlen|]; [|done].
  destruct seg as [|b0 [|b1 seg]]; [simpl in Hlen; lia..|].
  apply Forall_cons in Hs as [H0 Hs]. apply Forall_cons in Hs as [H1 _].
  change (slice (b0 :: b1 :: seg) 0 2) with [b0; b1] in Hp. rewrite Uint16_bytes in Hp by done.
  change (byteAt (b0 :: b1 :: seg) 0) with b0. destruct (nibbles b0 H0) as [-> _].
  destruct (Z.eqb_spec (b0 / 16) 4) as [E|]; [|done]. exfalso. apply Hp.
  unfold is_byte in *. rewrite <- E.
  replace (b0 * 256 + b1) with (b1 + b0 * 256) by lia. change 4096 with (256 * 16).
  rewrite <- Z.div_div, Z.div_add, (Z.div_small b1) by lia. done.
Qed.

Lemma stripIPv4Header_correct_witness :
  stripIPv4Header ([70; 0; 0; 44] ++ replicate 20 7 ++ [1; 187; 156; 64]) = [1; 187; 156; 64].
Proof.
  refine (proj1 (stripIPv4Header_correct ([70; 0; 0; 44] ++ replicate 20 7) [1; 187; 156; 64] _ _ _ _ _));
    first [ reflexivity | by vm_compute | repeat constructor; unfold is_byte; simpl; lia ].
Defined.

(** A bare segment shorter than two headers that the heuristic takes for an IP
    packet is cut below the minimal TCP length. *)
Lemma strip_misparse b :
  bytes b -> (length b < 40)%nat ->
  stripIPv4Header b = b \/ (length (stripIPv4Header b) < 20)%nat.
Proof.
  intros Hb Hl. unfold stripIPv4Header. destruct (_ && _); [|auto].
  destruct (Z.leb_spec 20 (Z.land (byteAt b 0) 0x0F * 4)); simpl; [|auto].
  destruct (_ <=? _); [|auto]. right. rewrite length_skipn. lia.
Qed.

Lemma strip_0x45 (b : list Z) :
  (19 <= length b < 39)%nat -> (length (stripIPv4Header (0x45%Z :: b)) < 20)%nat.
Proof.
  intros Hl. unfold stripIPv4Header. cbn [byteAt nth length].
  change (Z.shiftr 0x45 4 =? 4) with true. change (Z.land 0x45 0x0F * 4) with 20.
  replace (20 <=? S (length b))%nat with true by (symmetry; apply Nat.leb_le; lia).
  replace (20 <=? Z.of_nat (S (length b))) with true by (symmetry; apply Z.leb_le; lia).
  simpl ((20 <=? 20) && true). simpl (true && true). cbv match.
  change (Z.to_nat 20) with 20%nat. rewrite length_skipn. simpl. lia.
Qed.

Lemma decisive_port_0x45 dst sp dp ack pk :
  0x4500 <= dp < 0x4600 -> bytes (pk_data pk) -> (20 <= length (pk_data pk) < 40)%nat ->
  decisive dst sp dp ack pk = None.
Proof.
  intros Hdp Hb Hl. destruct (decisive dst sp dp ack pk) as [st|] eqn:E; [|done]. exfalso.
  apply decisive_spec in E as (_ & seg & Hseg & Hport & _).
  unfold readBuf in Hseg. rewrite firstn_all2 in Hseg by lia. unfold parseTCPSegment, tcpHeaderLen in Hseg.
  destruct (Nat.ltb_spec (length (stripIPv4Header (pk_data pk))) 20) as [|Hge]; [done|].
  destruct (strip_misparse (pk_data pk)) as [Es|]; [done|lia| |lia].
  rewrite Es in Hseg. injection Hseg as <-. simpl in Hport. destruct (pk_data pk) as [|b0 [|b1 b]] eqn:Ed.
  1,2: simpl in Hl; lia.
  apply Forall_cons in Hb as [H0 Hb]. apply Forall_cons in Hb as [H1 _].
  change (slice (b0 :: b1 :: b) 0 2) with [b0; b1] in Hport. rewrite Uint16_bytes in Hport by done.
  unfold is_byte in *. assert (b0 = 0x45) as -> by lia.
  pose proof (strip_0x45 (b1 :: b) ltac:(simpl in *; lia)). lia.
Qed.

(** a target port whose high byte is 0x45 (17664 to 17919) is never reported
    open or closed from TCP segments delivered without their IP header: the
    version-nibble heuristic takes the source port of every such reply of
    fewer than 40 bytes for an IP header and drops it. *)
Theorem synAttempt_blind_ports u net sourceIP ip port timeout :
  0x4500 <= port < 0x4600 ->
  Forall (fun pk => bytes (pk_data pk) /\ (20 <= length (pk_data pk) < 40)%nat) (packets net) ->
  (synAttempt u net sourceIP ip port timeout).1 = (0, stateUnreachable).
Proof.
  intros Hp Hpk.
  destruct (synAttempt_cases u net sourceIP ip port timeout) as [(dst & ->)|[e ->]]; [|done].
  rewrite uint16_id by lia. simpl. rewrite synReadLoop_firstReply.
  destruct (firstReply _ _ _) as [[pk st]|] eqn:E; [exfalso|done].
  apply firstReply_spec in E as (pre & post & Hnet & Hd & _).
  rewrite Hnet in Hpk. apply Forall_app in Hpk as [_ Hpk]. apply Forall_cons in Hpk as [[Hb Hl] _].
  by rewrite decisive_port_0x45 in Hd.
Qed.

(** ** A concrete exchange *)

Definition asciiTables : UnicodeTables :=
  {| mapUpper := fun s => s; mapLower := fun s => s; foldEqual := String.eqb; quoteRunes := fun s => s |}.

(** A SYN/ACK from [port] that acknowledges sequence number 99, after a stray
    packet of another host. *)
Definition demoNet (port : Z) : SynNet := {|
  dialRoute := fun _ => inr (Some (Some [10; 0; 0; 1]));
  routeAddrType := "*net.UDPAddr"; listenErr := None; randPort := 38976; randSeq := 99;
  ctxDeadline := Some 9000; deadlineErr := None; startAt := 10; sendErr := None;
  packets :=
    let synack := PutUint16 port ++ PutUint16 40000 ++ PutUint32 7 ++ PutUint32 100 ++
                  [80; Z.lor flagSYN flagACK] ++ replicate 6 0 in
    [{| pk_data := synack; pk_from := "192.0.2.9"; pk_at := 20 |};
     {| pk_data := synack; pk_from := "192.0.2.1"; pk_at := 510 |}]
|}.

Lemma demo_setup port : synSetup asciiTables (demoNet port) "" "192.0.2.1" [10; 0; 0; 1] [192; 0; 2; 1].
Proof. by split. Defined.

Lemma synAttempt_first_reply_witness :
  synAttempt asciiTables (demoNet 443) "" "192.0.2.1" 443 5000 = (500, stateOpen, None).
Proof.
  apply (synAttempt_first_reply _ _ _ _ _ _ _ _ _ _ (demo_setup 443)); [done|].
  exists (firstn 1 (packets (demoNet 443))), (nth 1 (packets (demoNet 443)) inhabitant), [].
  split; [reflexivity|]. split; [reflexivity|]. split; [by repeat constructor|].
  split; [by repeat constructor|]. split; [reflexivity|].
  eexists. split; [reflexivity|]. split; [reflexivity|]. split; [reflexivity|]. by left.
Defined.

Lemma synAttempt_rtt_bound_witness :
  (synAttempt asciiTables (demoNet 443) "" "192.0.2.1" 443 5000).1.1 <= 5000.
Proof.
  refine (proj1 (synAttempt_rtt_bound asciiTables (demoNet 443) "" "192.0.2.1" 443 5000 500 stateOpen None
    _ _ _ eq_refl)); simpl; lia.
Defined.

Lemma synAttempt_blind_ports_witness :
  (synAttempt asciiTables (demoNet 17700) "" "192.0.2.1" 17700 5000).1 = (0, stateUnreachable).
Proof.
  apply (synAttempt_blind_ports asciiTables (demoNet 17700) "" "192.0.2.1" 17700 5000); [lia|].
  repeat constructor; vm_compute; try done; lia.
Defined.
