(* ===== verification/Tcp.v ===== *)
(** * internal/probe/tcp/tcp.go: the TCP prober (connect and SYN modes).

    [TcpNet] is what the system does during one attempt: the result of
    [DialContext] for the dialer's settings, and the raw-socket script of
    [synAttempt]. *)

From S2P Require Import Prelude.
From S2P Require Import GoStrings.
From S2P Require Import GoNet.
From S2P Require Import Float64.
From S2P Require Import Types.
From S2P Require Import Probe.
From S2P Require Import Prober.
From S2P Require Import TcpSyn.

(** A finished [DialContext]. *)
Inductive dialOutcome := Connected | ConnectionRefused | DialFailed.

Record TcpNet := {
  DialContext : Dialer -> string -> Z * dialOutcome;   (* elapsed time and outcome *)
  synNet : SynNet
}.

Definition connectAttempt (net : TcpNet) (sourceIP ip : string) (port timeout : Z)
    : Z * portState * option string :=
  let addr := JoinHostPort ip (Itoa port) in
  let d := {| dl_Timeout := timeout;
              dl_LocalAddr := if negb (sourceIP =? "")%string then Some (ParseIP sourceIP) else None |} in
  let '(rtt, outcome) := DialContext net d addr in
  match outcome with
  | Connected => (rtt, stateOpen, None)
  | ConnectionRefused => (rtt, stateClosed, None)
  | DialFailed => (0, stateUnreachable, None)
  end.

(** [attemptFn] dereferences [p.cfg.TCP]. *)
Definition attemptFn (u : UnicodeTables) (cfg : ProbeConfig)
    : res string (TcpNet -> string -> Z * portState * option string) :=
  match TCP cfg with
  | None => Panic NilDereference
  | Some tcp =>
      if (tcp_Mode tcp =? TCPModeSYN)%string
      then Ok (fun net ip => synAttempt u (synNet net) (SourceIP cfg) ip (tcp_Port tcp) (Timeout cfg))
      else Ok (fun net ip => connectAttempt net (SourceIP cfg) ip (tcp_Port tcp) (Timeout cfg))
  end.

Definition tcpType : string := "tcp".

Definition probeOne (env : RunEnv TcpNet) (cfg : ProbeConfig) (i : nat) (wi : WorkItem)
    : res string ProbeResult :=
  let '(result, ok) := NewResult (env_unicode env) (env_now env i) cfg wi tcpType in
  if negb ok then Ok result else
  attempt ← attemptFn (env_unicode env) cfg;
  let '(result, live, (_, synAckGot)) :=
    RunLoop (portClosure (fun k => attempt (env_net env i k) (wi_IP wi)))
      (portPause (env_cancelled env i)) result (Count cfg) (0%nat, false) in
  Ok (if live then setPortOpen result synAckGot else result).

Definition Run (env : RunEnv TcpNet) (cfg : ProbeConfig) : res string (option (list ProbeResult)) :=
  RunProbes (env_lookup env) (Targets cfg) (MaxResolvedIPs cfg) (probeOne env cfg) (env_order env).

(** ** Correctness *)

(** The attempts of goroutine [i] on item [wi], for a validated configuration. *)
Definition tcpScript (env : RunEnv TcpNet) (cfg : ProbeConfig) (tcp : TCPConfig) (i : nat) (wi : WorkItem)
    (k : nat) : Z * portState * option string :=
  if (tcp_Mode tcp =? TCPModeSYN)%string
  then synAttempt (env_unicode env) (synNet (env_net env i k)) (SourceIP cfg) (wi_IP wi)
         (tcp_Port tcp) (Timeout cfg)
  else connectAttempt (env_net env i k) (SourceIP cfg) (wi_IP wi) (tcp_Port tcp) (Timeout cfg).

Lemma tcp_probeOne_cases env cfg tcp i wi :
  TCP cfg = Some tcp -> 1 <= Count cfg < 2 ^ 53 ->
  exists r, probeOne env cfg i wi = Ok r /\ result_ok cfg tcpType r /\
    (port_result (tcpScript env cfg tcp i wi) (Count cfg) r \/
     ErrorType r = "resolve_error" /\ wi_FQDN wi = wi_IP wi /\ wi_FQDN wi <> "").
Proof.
  intros Ht Hc. unfold probeOne. destruct (NewResult _ _ _ _ _) as [result ok] eqn:En. destruct ok.
  - unfold attemptFn. rewrite Ht. unfold tcpScript.
    destruct (tcp_Mode tcp =? TCPModeSYN)%string; simpl.
    all: destruct (RunLoop _ _ _ _ _) as [[r live] [m got]] eqn:E.
    all: eexists; split; [reflexivity|].
    all: apply (portLoop_result _ _ _ _ _ _ _ _ _ _ _ En Hc) in E as [H1 H2]; by auto.
  - exists result. split; [done|]. split; [by eapply NewResult_failed|]. right.
    by apply NewResult_failed_item in En.
Qed.

(** What the attempts of goroutine [i] on item [wi] found: the outcome of the dial
    in connect mode, the first deciding packet in SYN mode. *)
Definition dialed (env : RunEnv TcpNet) (cfg : ProbeConfig) (tcp : TCPConfig) (i : nat) (wi : WorkItem)
    (k : nat) : dialOutcome :=
  snd (DialContext (env_net env i k)
         {| dl_Timeout := Timeout cfg;
            dl_LocalAddr := if (SourceIP cfg =? "")%string then None else Some (ParseIP (SourceIP cfg)) |}
         (JoinHostPort (wi_IP wi) (Itoa (tcp_Port tcp)))).

Definition synFound (env : RunEnv TcpNet) (cfg : ProbeConfig) (tcp : TCPConfig) (i : nat) (wi : WorkItem)
    (k : nat) (st : portState) : Prop :=
  let net := synNet (env_net env i k) in
  exists srcIP dstIP rtt, synSetup (env_unicode env) net (SourceIP cfg) (wi_IP wi) srcIP dstIP /\
    synReply net dstIP (tcp_Port tcp) (Timeout cfg) rtt st.

Definition tcpOpened env cfg tcp i wi (k : nat) : Prop :=
  if (tcp_Mode tcp =? TCPModeSYN)%string then synFound env cfg tcp i wi k stateOpen
  else dialed env cfg tcp i wi k = Connected.

Definition tcpAnswered env cfg tcp i wi (k : nat) : Prop :=
  if (tcp_Mode tcp =? TCPModeSYN)%string
  then synFound env cfg tcp i wi k stateOpen \/ synFound env cfg tcp i wi k stateClosed
  else dialed env cfg tcp i wi k = Connected \/ dialed env cfg tcp i wi k = ConnectionRefused.

Lemma synScript_found env cfg tcp i wi k st :
  (tcp_Mode tcp =? TCPModeSYN)%string = true -> st <> stateUnreachable ->
  (exists rtt, tcpScript env cfg tcp i wi k = (rtt, st, None)) <-> synFound env cfg tcp i wi k st.
Proof.
  intros Hm Hst. unfold tcpScript, synFound. rewrite Hm. split.
  - intros [rtt E]. destruct (synAttempt_setup _ _ _ _ _ _ _ _ E Hst) as (src & dst & Hset).
    exists src, dst, rtt. split; [done|]. by apply (synAttempt_reply _ _ _ _ _ _ _ _ _ _ Hset).
  - intros (src & dst & rtt & Hset & H). exists rtt. by apply (synAttempt_reply _ _ _ _ _ _ _ _ _ _ Hset).
Qed.

Lemma dialScript_found env cfg tcp i wi k :
  (tcp_Mode tcp =? TCPModeSYN)%string = false ->
  exists rtt, tcpScript env cfg tcp i wi k =
    match dialed env cfg tcp i wi k with
    | Connected => (rtt, stateOpen, None)
    | ConnectionRefused => (rtt, stateClosed, None)
    | DialFailed => (0, stateUnreachable, None)
    end.
Proof.
  intros Hm. unfold tcpScript, connectAttempt, dialed. rewrite Hm. unfold negb.
  destruct (SourceIP cfg =? "")%string; destruct (DialContext _ _ _) as [rtt []]; by exists rtt.
Qed.

Lemma tcpScript_opened env cfg tcp i wi k :
  (exists rtt, tcpScript env cfg tcp i wi k = (rtt, stateOpen, None)) <-> tcpOpened env cfg tcp i wi k.
Proof.
  unfold tcpOpened. destruct (tcp_Mode tcp =? TCPModeSYN)%string eqn:Hm; [by apply synScript_found|].
  destruct (dialScript_found env cfg tcp i wi k Hm) as [rtt ->]. destruct (dialed _ _ _ _ _ _); naive_solver.
Qed.

Lemma tcpScript_answered env cfg tcp i wi k :
  (exists rtt st, tcpScript env cfg tcp i wi k = (rtt, st, None) /\ st <> stateUnreachable) <->
  tcpAnswered env cfg tcp i wi k.
Proof.
  unfold tcpAnswered. destruct (tcp_Mode tcp =? TCPModeSYN)%string eqn:Hm.
  - rewrite <- !synScript_found by done. split; [|naive_solver]. intros (rtt & [] & E & H); [done|..]; eauto.
  - destruct (dialScript_found env cfg tcp i wi k Hm) as [rtt ->]. destruct (dialed _ _ _ _ _ _); naive_solver.
Qed.


(** ** The interface *)

Record tcpProber := { tp_cfg : ProbeConfig }.

#[global] Instance tcpProber_prober : Prober tcpProber := {
  pr_env := RunEnv TcpNet;
  pr_cfg := tp_cfg;
  pr_name p := Name (tp_cfg p);
  pr_type _ := tcpType;
  pr_valid p := TCP (tp_cfg p) <> None /\ 1 <= Count (tp_cfg p) < 2 ^ 53;
  pr_env_ok p env := completes (env_lookup env) (tp_cfg p) (env_order env);
  pr_run p env := Run env (tp_cfg p)
}.

#[global] Instance tcpProber_laws : ProberLaws tcpProber.
Proof.
  split. intros [cfg] env [Ht Hc] Hord. simpl in *.
  destruct (TCP cfg) as [tcp|] eqn:Et; [|done]. apply (RunProbes_ok _ cfg); [done|].
  intros i wi _. destruct (tcp_probeOne_cases env cfg tcp i wi Et Hc) as (r & E & Hr & _). eauto.
Qed.

(** ** Concrete runs *)

(** The target refuses the first connection and accepts the others. *)
Definition demoTcpEnv : RunEnv TcpNet := {|
  env_unicode := asciiTables; env_lookup := demoLookup; env_now := fun _ => 0;
  env_net := fun _ k =>
    {| DialContext := fun _ _ => (Z.of_nat k * 1000 + 500, if (k =? 0)%nat then ConnectionRefused else Connected);
       synNet := demoNet 443 |};
  env_cancelled := fun _ _ => false; env_order := [1; 0]%nat |}.

Definition demoTcpConfig : ProbeConfig := {|
  Name := "web"; Type_ := "tcp"; Targets := ["dual.example"]; MaxResolvedIPs := 0; SourceIP := "";
  Interval := 30000; PacketInterval := 1000; Timeout := 5000; Count := 2; Labels := None;
  HTTP := None; TCP := Some {| tcp_Port := 443; tcp_Mode := TCPModeConnect |}; UDP := None; DNS := None |}.

Definition demoItem : WorkItem := {| wi_IP := "192.0.2.1"; wi_FQDN := "dual.example" |}.

