(* ===== verification/Udp.v ===== *)
(** * internal/probe/udp/udp.go: the UDP prober.

    The package declares its own [portState] with the constructors and the
    [reachable] method of the TCP one; both are [Prober.portState] here. *)

From S2P Require Import Prelude.
From S2P Require Import GoStrings.
From S2P Require Import GoNet.
From S2P Require Import Float64.
From S2P Require Import Types.
From S2P Require Import Probe.
From S2P Require Import Prober.
From S2P Require Import Sha256.

(** An error of [Write] or [Read] on the connected socket. *)
Inductive ioError := ECONNREFUSED | OtherIO.

(** What the system does during one attempt. *)
Record UdpNet := {
  udpDial : Dialer -> string -> option string;        (* DialContext error *)
  udpSetDeadline : option string;                     (* SetDeadline error *)
  udpWrite : list Z -> ioError + Z;                   (* error or bytes written *)
  udpWriteTime : Z;                                   (* time.Since(start) after Write *)
  udpRead : ioError + list Z;                         (* error or the datagram *)
  udpReadTime : Z                                     (* time.Since(start) after Read *)
}.

(** [bytes.HasPrefix] *)
Fixpoint hasPrefix (b prefix : list Z) : bool :=
  match prefix, b with
  | [], _ => true
  | p :: prefix', x :: b' => (x =? p) && hasPrefix b' prefix'
  | _ :: _, [] => false
  end.

(** [buf := make([]byte, 64*1024)] *)
Definition udpBuf (datagram : list Z) : list Z := firstn (Z.to_nat (64 * 1024)) datagram.
#[global] Arguments udpBuf : simpl never.

Definition udpAttempt (net : UdpNet) (sourceIP addr : string) (payload expected : list Z) (timeout : Z)
    : Z * portState * option string :=
  let d := {| dl_Timeout := timeout;
              dl_LocalAddr := if negb (sourceIP =? "")%string then Some (ParseIP sourceIP) else None |} in
  match udpDial net d addr with
  | Some e => (0, stateUnreachable, Some e)
  | None =>
      match udpSetDeadline net with
      | Some e => (0, stateUnreachable, Some e)
      | None =>
          match udpWrite net payload with
          | inl ECONNREFUSED => (udpWriteTime net, stateClosed, None)
          | inl OtherIO => (0, stateUnreachable, None)
          | inr n =>
              if n <? Z.of_nat (length payload) then (0, stateUnreachable, None)
              else match udpRead net with
                   | inl ECONNREFUSED => (udpReadTime net, stateClosed, None)
                   | inl OtherIO => (0, stateUnreachable, None)
                   | inr datagram =>
                       if (Z.of_nat (length expected) =? 0) || hasPrefix (udpBuf datagram) expected
                       then (udpReadTime net, stateOpen, None)
                       else (0, stateUnreachable, None)
                   end
          end
      end
  end.

Definition udpType : string := "udp".

Definition probeOne (env : RunEnv UdpNet) (cfg : ProbeConfig) (i : nat) (wi : WorkItem)
    : res string ProbeResult :=
  let '(result, ok) := NewResult (env_unicode env) (env_now env i) cfg wi udpType in
  if negb ok then Ok result else
  match UDP cfg with
  | None => Panic NilDereference
  | Some udp =>
      let payload := bytesOf (udp_Payload udp) in
      let expected := bytesOf (udp_ExpectedResponse udp) in
      let addr := JoinHostPort (wi_IP wi) (Itoa (udp_Port udp)) in
      let '(result, live, (_, openGot)) :=
        RunLoop (portClosure (fun k => udpAttempt (env_net env i k) (SourceIP cfg) addr payload expected (Timeout cfg)))
          (portPause (env_cancelled env i)) result (Count cfg) (0%nat, false) in
      Ok (if live then setPortOpen result openGot else result)
  end.

Definition Run (env : RunEnv UdpNet) (cfg : ProbeConfig) : res string (option (list ProbeResult)) :=
  RunProbes (env_lookup env) (Targets cfg) (MaxResolvedIPs cfg) (probeOne env cfg) (env_order env).

(** ** Correctness *)

Definition udpScript (env : RunEnv UdpNet) (cfg : ProbeConfig) (udp : UDPConfig) (i : nat) (wi : WorkItem)
    (k : nat) : Z * portState * option string :=
  udpAttempt (env_net env i k) (SourceIP cfg) (JoinHostPort (wi_IP wi) (Itoa (udp_Port udp)))
    (bytesOf (udp_Payload udp)) (bytesOf (udp_ExpectedResponse udp)) (Timeout cfg).

Lemma udp_probeOne_cases env cfg udp i wi :
  UDP cfg = Some udp -> 1 <= Count cfg < 2 ^ 53 ->
  exists r, probeOne env cfg i wi = Ok r /\ result_ok cfg udpType r /\
    (port_result (udpScript env cfg udp i wi) (Count cfg) r \/
     ErrorType r = "resolve_error" /\ wi_FQDN wi = wi_IP wi /\ wi_FQDN wi <> "").
Proof.
  intros Ht Hc. unfold probeOne. destruct (NewResult _ _ _ _ _) as [result ok] eqn:En. destruct ok.
  - rewrite Ht. simpl.
    destruct (RunLoop _ _ _ _ _) as [[r live] [m got]] eqn:E.
    eexists. split; [reflexivity|].
    apply (portLoop_result _ _ _ _ _ _ _ _ _ _ _ En Hc) in E as [H1 H2]. by auto.
  - exists result. split; [done|]. split; [by eapply NewResult_failed|]. right.
    by apply NewResult_failed_item in En.
Qed.

Lemma hasPrefix_spec b prefix : hasPrefix b prefix = true <-> exists rest, b = prefix ++ rest.
Proof.
  revert b. induction prefix as [|p prefix IH]; intros [|x b]; simpl.
  - split; [by exists []|done].
  - split; [by eexists|done].
  - split; [done|by intros [? [=]]].
  - rewrite andb_true_iff, Z.eqb_eq, IH. split.
    + intros [-> [rest ->]]. by exists rest.
    + intros [rest [= -> ->]]. eauto.
Qed.

#[local] Opaque udpBuf.

(** What happened on the network during attempt [k]: the socket was ready, the
    whole payload was written, ... *)
Definition udpReady (env : RunEnv UdpNet) (cfg : ProbeConfig) (udp : UDPConfig) (i : nat) (wi : WorkItem) (k : nat) : Prop :=
  udpDial (env_net env i k)
    {| dl_Timeout := Timeout cfg;
       dl_LocalAddr := if (SourceIP cfg =? "")%string then None else Some (ParseIP (SourceIP cfg)) |}
    (JoinHostPort (wi_IP wi) (Itoa (udp_Port udp))) = None /\
  udpSetDeadline (env_net env i k) = None.

Definition udpSent (env : RunEnv UdpNet) (udp : UDPConfig) (i : nat) (k : nat) : Prop :=
  exists n, udpWrite (env_net env i k) (bytesOf (udp_Payload udp)) = inr n /\
    Z.of_nat (length (bytesOf (udp_Payload udp))) <= n.

(** ... a datagram that starts with the expected response came back, ... *)
Definition udpMatched (env : RunEnv UdpNet) (udp : UDPConfig) (i : nat) (k : nat) : Prop :=
  exists datagram rest, udpRead (env_net env i k) = inr datagram /\
    udpBuf datagram = bytesOf (udp_ExpectedResponse udp) ++ rest.

(** ... or an ICMP port-unreachable, which Write or Read report. *)
Definition udpRefused (env : RunEnv UdpNet) (udp : UDPConfig) (i : nat) (k : nat) : Prop :=
  udpWrite (env_net env i k) (bytesOf (udp_Payload udp)) = inl ECONNREFUSED \/
  (udpSent env udp i k /\ udpRead (env_net env i k) = inl ECONNREFUSED).

Definition udpOpened env cfg udp i wi (k : nat) : Prop :=
  udpReady env cfg udp i wi k /\ udpSent env udp i k /\ udpMatched env udp i k.

Definition udpAnswered env cfg udp i wi (k : nat) : Prop :=
  udpReady env cfg udp i wi k /\ (udpRefused env udp i k \/ (udpSent env udp i k /\ udpMatched env udp i k)).

(** The four ways an attempt ends. *)
Lemma udpScript_cases env cfg udp i wi k :
  (exists e, udpScript env cfg udp i wi k = (0, stateUnreachable, Some e) /\ ~ udpReady env cfg udp i wi k) \/
  (udpReady env cfg udp i wi k /\
   ((exists rtt, udpScript env cfg udp i wi k = (rtt, stateOpen, None) /\ udpSent env udp i k /\ udpMatched env udp i k) \/
    (exists rtt, udpScript env cfg udp i wi k = (rtt, stateClosed, None) /\ udpRefused env udp i k /\
       ~ (udpSent env udp i k /\ udpMatched env udp i k)) \/
    (udpScript env cfg udp i wi k = (0, stateUnreachable, None) /\ ~ udpRefused env udp i k /\
       ~ (udpSent env udp i k /\ udpMatched env udp i k)))).
Proof.
  unfold udpScript, udpAttempt, udpReady, udpRefused, udpSent, udpMatched, negb.
  replace (if if (SourceIP cfg =? "")%string then false else true then Some (ParseIP (SourceIP cfg)) else None)
    with (if (SourceIP cfg =? "")%string then None else Some (ParseIP (SourceIP cfg))) by (by destruct (_ =? _)%string).
  destruct (udpDial _ _ _) as [e|]; [left; exists e; split; [done|by intros []]|].
  destruct (udpSetDeadline _) as [e|]; [left; exists e; split; [done|by intros []]|]. right. split; [done|].
  destruct (udpWrite _ _) as [[]|n]; [right; left; eexists; split; [done|]; naive_solver|right; right; naive_solver|].
  destruct (Z.ltb_spec n (Z.of_nat (length (bytesOf (udp_Payload udp))))).
  { right. right. split; [done|]. split; [intros [[=]|[(? & [= ->] & ?) _]]; lia|intros [(? & [= ->] & ?) _]; lia]. }
  destruct (udpRead _) as [[]|dg]; [right; left; eexists; split; [done|]; naive_solver|right; right; naive_solver|].
  destruct (_ || _) eqn:E.
  - left. eexists. split; [done|]. split; [by eexists|]. apply orb_true_iff in E as [E|E].
    + destruct (bytesOf (udp_ExpectedResponse udp)); [|done]. exists dg, (udpBuf dg). by rewrite app_nil_l.
    + apply hasPrefix_spec in E as [rest E]. by exists dg, rest.
  - right. right. split; [done|]. split; [naive_solver|]. intros [_ (? & rest & [= <-] & Hp)].
    apply orb_false_iff in E as [_ E].
    assert (hasPrefix (udpBuf dg) (bytesOf (udp_ExpectedResponse udp)) = true); [|congruence]. apply hasPrefix_spec. eauto.
Qed.

Lemma udpScript_opened env cfg udp i wi k :
  (exists rtt, udpScript env cfg udp i wi k = (rtt, stateOpen, None)) <-> udpOpened env cfg udp i wi k.
Proof.
  unfold udpOpened.
  destruct (udpScript_cases env cfg udp i wi k) as [(e & -> & Hn)|(Hr & [(rtt & -> & Hs & Hm)|[(rtt & -> & Hf & Hn)|(-> & Hf & Hn)]])]; naive_solver.
Qed.

Lemma udpScript_answered env cfg udp i wi k :
  (exists rtt st, udpScript env cfg udp i wi k = (rtt, st, None) /\ st <> stateUnreachable) <->
  udpAnswered env cfg udp i wi k.
Proof.
  unfold udpAnswered.
  destruct (udpScript_cases env cfg udp i wi k) as [(e & -> & Hn)|(Hr & [(rtt & -> & Hs & Hm)|[(rtt & -> & Hf & Hn)|(-> & Hf & Hn)]])]; naive_solver.
Qed.


(** ** The interface *)

Record udpProber := { up_cfg : ProbeConfig }.

#[global] Instance udpProber_prober : Prober udpProber := {
  pr_env := RunEnv UdpNet;
  pr_cfg := up_cfg;
  pr_name p := Name (up_cfg p);
  pr_type _ := udpType;
  pr_valid p := UDP (up_cfg p) <> None /\ 1 <= Count (up_cfg p) < 2 ^ 53;
  pr_env_ok p env := completes (env_lookup env) (up_cfg p) (env_order env);
  pr_run p env := Run env (up_cfg p)
}.

#[global] Instance udpProber_laws : ProberLaws udpProber.
Proof.
  split. intros [cfg] env [Hu Hc] Hord. simpl in *.
  destruct (UDP cfg) as [udp|] eqn:Eu; [|done]. apply (RunProbes_ok _ cfg); [done|].
  intros i wi _. destruct (udp_probeOne_cases env cfg udp i wi Eu Hc) as (r & E & Hr & _). eauto.
Qed.

(** ** A concrete run: one silent attempt, then a refused one, then a match. *)

Definition demoUdpEnv : RunEnv UdpNet := {|
  env_unicode := {| mapUpper := id; mapLower := id; foldEqual := String.eqb; quoteRunes := id |};
  env_lookup := demoLookup; env_now := fun _ => 0;
  env_net := fun _ k =>
    {| udpDial := fun _ _ => None; udpSetDeadline := None;
       udpWrite := fun payload => inr (Z.of_nat (length payload)); udpWriteTime := 5;
       udpRead := match k with O => inl OtherIO | S O => inl ECONNREFUSED | _ => inr (bytesOf "pong!") end;
       udpReadTime := 700 |};
  env_cancelled := fun _ _ => false; env_order := [0]%nat |}.

Definition demoUdpBlock : UDPConfig :=
  {| udp_Port := 9000; udp_Payload := "ping"; udp_ExpectedResponse := "pong" |}.

Definition demoUdpConfig : ProbeConfig := {|
  Name := "echo"; Type_ := "udp"; Targets := ["192.0.2.1"]; MaxResolvedIPs := 0; SourceIP := "";
  Interval := 30000; PacketInterval := 1000; Timeout := 5000; Count := 3; Labels := None;
  HTTP := None; TCP := None; UDP := Some demoUdpBlock; DNS := None |}.

