(* ===== verification/Dns.v ===== *)
(** * internal/probe/dns/dns.go: the DNS prober.

    The miekg/dns library is a parameter: [Fqdn], [ClientConfigFromFile] and the
    client's [ExchangeContext] are fields of the environment; its resource
    records appear as the cases of the type switch in [extractAnswers]. *)

From S2P Require Import Prelude.
From S2P Require Import GoStrings.
From S2P Require Import GoNet.
From S2P Require Import Float64.
From S2P Require Import Types.
From S2P Require Import Probe.
From S2P Require Import Prober.

(** ** Messages *)

Inductive RR :=
  | RR_A (ip : option IP)
  | RR_AAAA (ip : option IP)
  | RR_CNAME (target : string)
  | RR_MX (mx : string)
  | RR_TXT (txt : list string)
  | RR_other.

Record Msg := { Rcode : Z; Answer : list RR }.

(** The constants of the DNS protocol (RFC 1035, RFC 3596). *)
Definition TypeA : Z := 1.
Definition TypeCNAME : Z := 5.
Definition TypeMX : Z := 15.
Definition TypeTXT : Z := 16.
Definition TypeAAAA : Z := 28.
Definition RcodeSuccess : Z := 0.
Definition RcodeNameError : Z := 3.

(** What the system does for one query: [ExchangeContext] with the question's
    name and type, the client timeout and the server. *)
Record DnsNet := { ExchangeContext : string -> Z -> Z -> string -> option (Msg * Z) }.

Record DnsEnv := {
  de_run : RunEnv DnsNet;
  Fqdn : string -> string;
  ClientConfigFromFile : string + (list string * string)   (* error, or Servers and Port *)
}.

(** ** The code *)

Definition qtypeFor (recordType : string) : Z :=
  if (recordType =? "AAAA")%string then TypeAAAA
  else if (recordType =? "CNAME")%string then TypeCNAME
  else if (recordType =? "MX")%string then TypeMX
  else if (recordType =? "TXT")%string then TypeTXT
  else TypeA.

Definition extractAnswer (qtype : Z) (rr : RR) : list string :=
  match rr with
  | RR_A ip => if qtype =? TypeA then [ipString ip] else []
  | RR_AAAA ip => if qtype =? TypeAAAA then [ipString ip] else []
  | RR_CNAME target => if qtype =? TypeCNAME then [TrimSuffix target "."] else []
  | RR_MX mx => if qtype =? TypeMX then [TrimSuffix mx "."] else []
  | RR_TXT txt => if qtype =? TypeTXT then [Join txt ""] else []
  | RR_other => []
  end.

Definition extractAnswers (resp : Msg) (qtype : Z) : list string :=
  foldl (fun out rr => out ++ extractAnswer qtype rr) [] (Answer resp).

Definition matchAnswer (u : UnicodeTables) (resp : Msg) (qtype : Z) (expected : list string) : bool :=
  existsb (fun got => existsb (fun want => EqualFold u got want) expected) (extractAnswers resp qtype).

Definition dnsAttempt (u : UnicodeTables) (net : DnsNet) (qname : string) (timeout : Z) (server : string)
    (qtype : Z) (expected : list string) : Z * bool :=
  match ExchangeContext net qname qtype timeout server with
  | None => (0, false)
  | Some (resp, rtt) =>
      if Rcode resp =? RcodeSuccess then
        if (Z.of_nat (length expected) =? 0) then (rtt, true)
        else if matchAnswer u resp qtype expected then (rtt, true)
        else (0, false)
      else if Rcode resp =? RcodeNameError then
        if (Z.of_nat (length expected) =? 0) then (rtt, true) else (0, false)
      else (0, false)
  end.

Definition resolveServer (env : DnsEnv) (cfg : ProbeConfig) : res string string :=
  match DNS cfg with
  | None => Panic NilDereference
  | Some d =>
      if negb (dns_Resolver d =? "")%string then Ok (dns_Resolver d)
      else match ClientConfigFromFile env with
           | inl e => Err ("read system resolver config: " +:+ e)
           | inr ([], _) => Err "no nameservers configured in /etc/resolv.conf"
           | inr (s :: _, port) => Ok (JoinHostPort s port)
           end
  end.

Definition dnsType : string := "dns".

Definition baseResult (now : Z) (cfg : ProbeConfig) (qname : string) : ProbeResult :=
  {| Timestamp := now; ProbeName := Name cfg; Target := qname; FQDN := ""; res_SourceIP := SourceIP cfg;
     ProbeType := dnsType; PacketsSent := 0; PacketsReceived := 0;
     RTTMinMS := f64_zero; RTTMeanMS := f64_zero; RTTMaxMS := f64_zero; RTTStddevMS := f64_zero;
     DurationMS := f64_zero; PacketLossRatio := f64_zero; PortOpen := None;
     res_Status := StatusUnset; ErrorMsg := ""; ErrorType := ""; res_Labels := Labels cfg |}.

(** The closure passed to [RunLoop]: the [k]-th query. *)
Definition dnsClosure (f : nat -> Z * bool) (k : nat) : Attempt * nat :=
  let '(rtt, ok) := f k in ({| a_RTT := rtt; Received := ok; a_Err := None |}, S k).

Definition dnsPause (cancelled : nat -> bool) (k : nat) : bool * nat := (cancelled k, k).

Definition probeOne (env : DnsEnv) (cfg : ProbeConfig) (server : string) (serverErr : option string)
    (i : nat) (qname : string) : res string ProbeResult :=
  let run := de_run env in
  let result := baseResult (env_now run i) cfg qname in
  match serverErr with
  | Some e => Ok (setError result "init_error" e)
  | None =>
      match DNS cfg with
      | None => Panic NilDereference
      | Some d =>
          let qtype := qtypeFor (dns_RecordType d) in
          let '(result, _, _) :=
            RunLoop (dnsClosure (fun k =>
                       dnsAttempt (env_unicode run) (env_net run i k) (Fqdn env qname) (Timeout cfg) server
                         qtype (dns_ExpectedAnswer d)))
              (dnsPause (env_cancelled run i)) result (Count cfg) 0%nat in
          Ok result
      end
  end.

(** The goroutines over the targets, then [wg.Wait()]. *)
Definition runNames (env : DnsEnv) (cfg : ProbeConfig) (server : string) (serverErr : option string)
    : res string (option (list ProbeResult)) :=
  goroutines (Targets cfg) (probeOne env cfg server serverErr) (env_order (de_run env)) ≫= fun _ =>
  Ok (Some (fanOut (Targets cfg) (fun i q => orZero (probeOne env cfg server serverErr i q))
              (env_order (de_run env)))).

Definition Run (env : DnsEnv) (cfg : ProbeConfig) : res string (option (list ProbeResult)) :=
  match Targets cfg with
  | [] => Ok None
  | _ =>
      match resolveServer env cfg with
      | Ok server => runNames env cfg server None
      | Err e => runNames env cfg "" (Some e)
      | Panic p => Panic p
      end
  end.

(** ** What counts as a usable answer *)

Lemma extractAnswers_elem resp qtype s :
  s ∈ extractAnswers resp qtype <-> exists rr, rr ∈ Answer resp /\ s ∈ extractAnswer qtype rr.
Proof.
  unfold extractAnswers. rewrite foldl_app_concat. simpl.
  rewrite list_elem_of_In, in_concat. split.
  - intros (l & Hl & Hs). apply list_elem_of_In, list_elem_of_fmap in Hl as (rr & -> & Hrr).
    apply list_elem_of_In in Hs. eauto.
  - intros (rr & Hrr & Hs). exists (extractAnswer qtype rr). rewrite <- !list_elem_of_In. split; [|done].
    apply list_elem_of_fmap. eauto.
Qed.

Lemma matchAnswer_spec u resp qtype expected :
  matchAnswer u resp qtype expected = true <->
  exists rr got want, rr ∈ Answer resp /\ got ∈ extractAnswer qtype rr /\ want ∈ expected /\
    EqualFold u got want = true.
Proof.
  unfold matchAnswer. rewrite existsb_exists. split.
  - intros (got & Hg & (want & Hw & He)%existsb_exists).
    apply list_elem_of_In, extractAnswers_elem in Hg as (rr & ? & ?). apply list_elem_of_In in Hw.
    naive_solver.
  - intros (rr & got & want & Hrr & Hg & Hw & He). exists got. split.
    + apply list_elem_of_In, extractAnswers_elem. eauto.
    + apply existsb_exists. exists want. by rewrite <- list_elem_of_In.
Qed.

(** What a record says, as a string to compare: the address, the name without its
    trailing dot, or the concatenated chunks; of the queried type only. *)
Inductive recordSays : Z -> RR -> string -> Prop :=
  | says_A ip : recordSays TypeA (RR_A ip) (ipString ip)
  | says_AAAA ip : recordSays TypeAAAA (RR_AAAA ip) (ipString ip)
  | says_CNAME target : recordSays TypeCNAME (RR_CNAME target) (TrimSuffix target ".")
  | says_MX mx : recordSays TypeMX (RR_MX mx) (TrimSuffix mx ".")
  | says_TXT txt : recordSays TypeTXT (RR_TXT txt) (Join txt "").

Lemma extractAnswer_says qtype rr got : got ∈ extractAnswer qtype rr <-> recordSays qtype rr got.
Proof.
  split.
  - destruct rr; simpl; repeat case_match; bool_prop; subst; rewrite ?elem_of_nil, ?list_elem_of_singleton; try done;
      intros ->; constructor.
  - destruct 1; simpl; by apply list_elem_of_singleton.
Qed.

(** C32: a DNS attempt counts as a reply exactly as documented: the resolver
    answered, and either nothing specific is expected and the Rcode is NOERROR
    or NXDOMAIN, or the Rcode is NOERROR and some answer record of the queried
    type equals an expected value up to case (names without their trailing dot,
    TXT chunks concatenated). *)
Theorem dnsAttempt_exact u net qname timeout server qtype expected rtt :
  dnsAttempt u net qname timeout server qtype expected = (rtt, true) <->
  exists resp, ExchangeContext net qname qtype timeout server = Some (resp, rtt) /\
    (expected = [] /\ (Rcode resp = RcodeSuccess \/ Rcode resp = RcodeNameError) \/
     expected <> [] /\ Rcode resp = RcodeSuccess /\
     exists rr got want, rr ∈ Answer resp /\ recordSays qtype rr got /\ want ∈ expected /\
       EqualFold u got want = true).
Proof.
  setoid_rewrite <- extractAnswer_says.
  unfold dnsAttempt. destruct (ExchangeContext _ _ _ _ _) as [[resp rtt']|]; [|by split; [|intros (? & [=] & _)]].
  assert (Z.of_nat (length expected) =? 0 = bool_decide (expected = [])) as ->.
  { destruct expected; [done|]. by rewrite bool_decide_false. }
  setoid_rewrite <- matchAnswer_spec.
  split.
  - intros H. exists resp. destruct (Z.eqb_spec (Rcode resp) RcodeSuccess) as [E|E].
    + destruct (bool_decide (expected = [])) eqn:Eb; bool_prop; [injection H as ->; auto|].
      destruct (matchAnswer _ _ _ _); [injection H as ->; auto 6|done].
    + destruct (Z.eqb_spec (Rcode resp) RcodeNameError) as [E'|]; [|done].
      destruct (bool_decide (expected = [])) eqn:Eb; bool_prop; [injection H as ->; auto|done].
  - intros (resp' & [= -> ->] & [[-> [-> | ->]]|(Hne & -> & Hm)]); [done..|].
    rewrite Z.eqb_refl, bool_decide_false by done. by rewrite Hm.
Qed.

(** ** The run of one name *)

Section DnsLoop.
Context (f : nat -> Z * bool) (cancelled : nat -> bool).

Definition dnsTry (k : nat) : Attempt := fst (dnsClosure f k).

Lemma dnsLoop_seen n first k :
  let l := attempts (dnsClosure f) (dnsPause cancelled) n first k in
  l = dnsTry <$> seq k (length l).
Proof.
  revert first k. induction n as [|n IH]; intros first k; [done|]. cbn [attempts].
  assert (exists c, (if first then (false, k) else dnsPause cancelled k) = (c, k)) as [c ->]
    by (destruct first; eexists; done).
  destruct c; [done|].
  assert (dnsClosure f k = (dnsTry k, S k)) as -> by (unfold dnsTry, dnsClosure; by destruct (f k)).
  assert (a_Err (dnsTry k) = None) as -> by (unfold dnsTry, dnsClosure; by destruct (f k)).
  cbv zeta. cbn [length seq fmap list_fmap]. f_equal. apply IH.
Qed.

Lemma dnsTries ks :
  fatalErr (dnsTry <$> ks) = None /\
  length (replies (dnsTry <$> ks)) = length (List.filter (fun k => (f k).2) ks).
Proof.
  assert (forall k, a_Err (dnsTry k) = None /\ gotReply (dnsTry k) = (f k).2) as Hk
    by (intros k; unfold gotReply, dnsTry, dnsClosure; by destruct (f k)).
  induction ks as [|k ks [IH1 IH2]]; [done|]. destruct (Hk k) as [H1 H2].
  unfold fatalErr, replies in *. cbn [fmap list_fmap List.filter omap list_omap]. rewrite H1, H2.
  split; [exact IH1|]. destruct ((f k).2); simpl; congruence.
Qed.
End DnsLoop.

(** The queries goroutine [i] makes for [qname]. *)
Definition dnsScript (env : DnsEnv) (cfg : ProbeConfig) (d : DNSConfig) (server : string) (i : nat)
    (qname : string) (k : nat) : Z * bool :=
  dnsAttempt (env_unicode (de_run env)) (env_net (de_run env) i k) (Fqdn env qname) (Timeout cfg) server
    (qtypeFor (dns_RecordType d)) (dns_ExpectedAnswer d).

Definition dns_result (f : nat -> Z * bool) (count : Z) (r : ProbeResult) : Prop :=
  1 <= PacketsSent r <= count /\
  PacketsReceived r = Z.of_nat (length (List.filter (fun k => (f k).2) (seq 0 (Z.to_nat (PacketsSent r))))) /\
  res_Status r = verdict None (PacketsReceived r) (PacketsSent r).

Lemma dns_probeOne_cases env cfg d server e i qname :
  DNS cfg = Some d -> 1 <= Count cfg < 2 ^ 53 ->
  exists r, probeOne env cfg server e i qname = Ok r /\ result_ok cfg dnsType r /\
    match e with
    | None => dns_result (dnsScript env cfg d server i qname) (Count cfg) r
    | Some msg => res_Status r = StatusError /\ ErrorType r = "init_error" /\ ErrorMsg r = msg
    end.
Proof.
  intros Hd Hc. unfold probeOne. destruct e as [e|].
  { eexists. split; [reflexivity|]. by repeat split. }
  rewrite Hd. fold (dnsScript env cfg d server i qname).
  set (f := dnsScript env cfg d server i qname). set (base := baseResult _ _ _).
  match goal with |- context [RunLoop (dnsClosure ?g)] => change g with f end.
  destruct (RunLoop _ _ base _ _) as [[r ok] w] eqn:E. eexists. split; [reflexivity|].
  apply (RunLoop_ok _ _ cfg dnsType) in E as (Hok & _ & _ & Hst & Hs & Hr); try done.
  split; [done|]. unfold dns_result. rewrite Hs, Hr, Nat2Z.id.
  pose proof (attempts_bounds (dnsClosure f) (dnsPause (env_cancelled (de_run env) i)) (Count cfg) 0%nat
    ltac:(lia)) as Hb. cbv zeta in Hb.
  pose proof (dnsLoop_seen f (env_cancelled (de_run env) i) (Z.to_nat (Count cfg)) true 0) as Hl. cbv zeta in Hl.
  set (l := attempts _ _ _ _ _) in *. destruct (dnsTries f (seq 0 (length l))) as [H1 H2].
  rewrite <- Hl in H1, H2. rewrite H2, Hst, H1, H2. auto.
Qed.

(** a DNS probe that found a resolver never reports an error status: every
    query-time failure is loss.  It makes between one and [Count] queries, its
    replies are the usable ones, and the status is success when all were usable,
    failure when none was, partial otherwise. *)
Theorem dns_failures_are_loss env cfg d server i qname r :
  DNS cfg = Some d -> 1 <= Count cfg < 2 ^ 53 ->
  probeOne env cfg server None i qname = Ok r ->
  dns_result (dnsScript env cfg d server i qname) (Count cfg) r /\ IsError (res_Status r) = false.
Proof.
  intros Hd Hc E. destruct (dns_probeOne_cases env cfg d server None i qname Hd Hc) as (r' & E' & _ & H).
  rewrite E in E'. injection E' as <-. split; [done|]. destruct H as (_ & _ & ->).
  unfold verdict. by repeat goal_if.
Qed.

(** ** The interface *)

Record dnsProber := { dp_cfg : ProbeConfig }.

#[global] Instance dnsProber_prober : Prober dnsProber := {
  pr_env := DnsEnv;
  pr_cfg := dp_cfg;
  pr_name p := Name (dp_cfg p);
  pr_type _ := dnsType;
  pr_valid p := DNS (dp_cfg p) <> None /\ 1 <= Count (dp_cfg p) < 2 ^ 53;
  pr_env_ok p env := env_order (de_run env) ≡ₚ seq 0 (length (Targets (dp_cfg p)));
  pr_run p env := Run env (dp_cfg p)
}.

Lemma runNames_ok env cfg d server e :
  DNS cfg = Some d -> 1 <= Count cfg < 2 ^ 53 ->
  env_order (de_run env) ≡ₚ seq 0 (length (Targets cfg)) ->
  exists l, runNames env cfg server e = Ok (Some l) /\ Forall (result_ok cfg dnsType) l.
Proof.
  intros Hd Hc Hord. unfold runNames.
  destruct (goroutines_ok (Targets cfg) (probeOne env cfg server e) (env_order (de_run env))
    (result_ok cfg dnsType)) as [-> Hf].
  - intros i q _. destruct (dns_probeOne_cases env cfg d server e i q Hd Hc) as (r & E & Hr & _). eauto.
  - eexists. split; [reflexivity|]. by rewrite fanOut_imap.
Qed.

#[global] Instance dnsProber_laws : ProberLaws dnsProber.
Proof.
  split. intros [cfg] env [Hd Hc] Hord. simpl in *.
  destruct (DNS cfg) as [d|] eqn:Ed; [|done]. unfold Run.
  destruct (Targets cfg) as [|t ts] eqn:Et; [by exists None|]. rewrite <- Et in Hord.
  unfold resolveServer. rewrite Ed.
  assert (forall server e, exists rs, runNames env cfg server e = Ok rs /\
            forall l, rs = Some l -> Forall (result_ok cfg dnsType) l) as H.
  { intros server e. destruct (runNames_ok env cfg d server e Ed Hc Hord) as (l & -> & Hl).
    eexists. split; [reflexivity|]. by intros ? [= <-]. }
  destruct (negb _); [apply H|]. destruct (ClientConfigFromFile env) as [|[[|s ss] port]]; apply H.
Qed.

(** ** A concrete run: a matching answer, then SERVFAIL. *)

Definition demoDnsEnv : DnsEnv := {|
  de_run := {|
    env_unicode := {| mapUpper := id; mapLower := id; foldEqual := String.eqb; quoteRunes := id |};
    env_lookup := demoLookup; env_now := fun _ => 0;
    env_net := fun _ k => {| ExchangeContext := fun _ _ _ _ =>
      if (k =? 0)%nat then Some ({| Rcode := 0; Answer := [RR_A (ParseIP "192.0.2.7"); RR_CNAME "Mail.Example."] |}, 900)
      else Some ({| Rcode := 2; Answer := [] |}, 800) |};
    env_cancelled := fun _ _ => false; env_order := [0]%nat |};
  Fqdn := fun q => q +:+ ".";
  ClientConfigFromFile := inr (["192.0.2.53"], "53") |}.

Definition demoDnsBlock : DNSConfig :=
  {| dns_RecordType := "CNAME"; dns_Resolver := ""; dns_ExpectedAnswer := ["mail.example"] |}.

Definition demoDnsConfig : ProbeConfig := {|
  Name := "mx"; Type_ := "dns"; Targets := ["www.example"]; MaxResolvedIPs := 0; SourceIP := "";
  Interval := 30000; PacketInterval := 1000; Timeout := 5000; Count := 2; Labels := None;
  HTTP := None; TCP := None; UDP := None; DNS := Some demoDnsBlock |}.

Lemma dns_failures_are_loss_witness :
  exists r, probeOne demoDnsEnv demoDnsConfig "192.0.2.53:53" None 0 "www.example" = Ok r /\
    res_Status r = StatusPartial /\ IsError (res_Status r) = false.
Proof.
  destruct (probeOne demoDnsEnv demoDnsConfig "192.0.2.53:53" None 0 "www.example") as [r|e|p] eqn:E;
    [|vm_compute in E; discriminate..].
  exists r. split; [done|]. split; [vm_compute in E; by injection E as <-|].
  exact (proj2 (dns_failures_are_loss demoDnsEnv demoDnsConfig demoDnsBlock "192.0.2.53:53" 0 "www.example" r
    eq_refl ltac:(vm_compute; by split) E)).
Defined.
