(* ===== verification/Http.v ===== *)
(** * internal/probe/http/http.go: the HTTP/HTTPS prober.

    net/http's client and the certificate chain are scripted per request
    ([HttpNet]); building the per-FQDN clients, the URL and the verdict are the
    code's. *)

From S2P Require Import Prelude.
From S2P Require Import GoStrings.
From S2P Require Import GoNet.
From S2P Require Import Float64.
From S2P Require Import Types.
From S2P Require Import Probe.
From S2P Require Import Prober.

(** ** Durations as floats *)

Definition Hour : Z := 3600 * 1000000000.

(** [Duration.Hours()] *)
Definition Hours (d : Z) : float64 :=
  fadd (f64 (Z.quot d Hour)) (fdiv (f64 (Z.rem d Hour)) (f64 Hour)).

(** [int(f)]: truncation toward zero (for values that fit). *)
Definition ftrunc (x : float64) : Z :=
  match x with
  | S754_finite s m e =>
      let v := if 0 <=? e then Z.pos m * 2 ^ e else Z.pos m / 2 ^ (- e) in
      if s then - v else v
  | _ => 0
  end.

(** [t.Sub(now)] saturates at the int64 range. *)
Definition until (t now : Z) : Z := Z.max (- 2 ^ 63) (Z.min (2 ^ 63 - 1) (t - now)).

#[global] Arguments until : simpl never.

(** ** Clients *)

Record Client := {
  cl_Timeout : Z;
  cl_ServerName : string;
  cl_LocalAddr : option (option IP);
  cl_noRedirect : bool             (* CheckRedirect = ErrUseLastResponse *)
}.

Record httpProber := { hp_cfg : ProbeConfig; hp_clients : gmap string Client }.

(** One iteration of [New]'s loop. *)
Definition addClient (cfg : ProbeConfig) (clients : gmap string Client) (target : string)
    : res string (gmap string Client) :=
  let fqdn := match ParseIP target with None => target | Some _ => EmptyString end in
  match clients !! fqdn with
  | Some _ => Ok clients
  | None =>
      match HTTP cfg with
      | None => Panic NilDereference
      | Some hcfg =>
          Ok (<[fqdn := {| cl_Timeout := Timeout cfg; cl_ServerName := fqdn;
                           cl_LocalAddr := if negb (SourceIP cfg =? "")%string
                                           then Some (ParseIP (SourceIP cfg)) else None;
                           cl_noRedirect := negb (http_FollowRedirects hcfg) |}]> clients)
      end
  end.

Fixpoint addClients (cfg : ProbeConfig) (clients : gmap string Client) (targets : list string)
    : res string (gmap string Client) :=
  match targets with
  | [] => Ok clients
  | t :: rest => clients' ← addClient cfg clients t; addClients cfg clients' rest
  end.

Definition New (cfg : ProbeConfig) : res string httpProber :=
  clients ← addClients cfg ∅ (Targets cfg);
  Ok {| hp_cfg := cfg; hp_clients := clients |}.

(** ** One request *)

Record Request := { rq_Method : string; rq_URL : string; rq_Host : option string }.
Record Response := { StatusCode : Z; peerNotAfter : option (list Z) (* resp.TLS and its certificates *) }.

Record HttpNet := {
  newRequestErr : string -> string -> option string;     (* NewRequestWithContext(method, url) *)
  doRequest : Client -> Request -> string + Response;    (* client.Do *)
  ctxDone : bool;                                        (* ctx.Err() != nil after a failed Do *)
  elapsed : Z;                                           (* time.Since(start) *)
  nowFirst : Z;                                          (* the clock of the two time.Until calls *)
  nowSecond : Z
}.

Definition statusMatch (expected actual : Z) : bool :=
  if expected =? 0 then (200 <=? actual) && (actual <? 300) else actual =? expected.

Definition urlHost (ip : string) (port : Z) : string :=
  if negb (port =? 0) then JoinHostPort ip (Itoa port)
  else TrimSuffix (JoinHostPort ip "") ":".

Definition targetURL (hcfg : HTTPConfig) (ip : string) : string :=
  http_Scheme hcfg +:+ "://" +:+ urlHost ip (http_Port hcfg) +:+ http_Path hcfg.

Definition daysLeft (notAfter now : Z) : Z := ftrunc (fdiv (Hours (until notAfter now)) (f64 24)).

#[global] Arguments daysLeft : simpl never.

(** The certificate check on a status-matching HTTPS response. *)
Definition checkExpiry (net : HttpNet) (hcfg : HTTPConfig) (resp : Response) (result : ProbeResult)
    : ProbeResult :=
  match peerNotAfter resp with
  | Some (notAfter :: _) =>
      if (http_Scheme hcfg =? "https")%string && (PacketsReceived result =? 1) then
        if until notAfter (nowFirst net) <? 0 then setStatus result StatusFailure
        else if 0 <? http_TLSExpiryWarningDays hcfg then
          if daysLeft notAfter (nowSecond net) <=? http_TLSExpiryWarningDays hcfg
          then setStatus result StatusPartial else result
        else result
      else result
  | _ => result
  end.

Definition httpType : string := "http".

Definition probeOne (p : httpProber) (env : RunEnv HttpNet) (i : nat) (wi : WorkItem)
    : res string ProbeResult :=
  let cfg := hp_cfg p in
  let net := env_net env i 0%nat in
  let '(result, ok) := NewResult (env_unicode env) (env_now env i) cfg wi httpType in
  if negb ok then Ok result else
  match HTTP cfg with
  | None => Panic NilDereference
  | Some hcfg =>
      let url := targetURL hcfg (wi_IP wi) in
      match newRequestErr net (http_Method hcfg) url with
      | Some e => Ok (setError result "init_error"
                        ("build request for " +:+ Quote (env_unicode env) url +:+ ": " +:+ e))
      | None =>
          let req := {| rq_Method := http_Method hcfg; rq_URL := url;
                        rq_Host := if negb (wi_FQDN wi =? "")%string then Some (wi_FQDN wi) else None |} in
          match hp_clients p !! wi_FQDN wi with
          | None => Panic NilDereference
          | Some client =>
              match doRequest net client req with
              | inl doErr =>
                  let result := setLoss (setCounts result 1 0) (f64 1) (res_Status result) in
                  if ctxDone net then Ok (setErrorInfo result StatusError "cancelled" doErr)
                  else Ok (setErrorInfo result StatusFailure "network_error" doErr)
              | inr resp =>
                  let result := setDuration result (fdiv (f64 (elapsed net)) (f64 1000000)) in
                  let result :=
                    if statusMatch (http_ExpectedStatus hcfg) (StatusCode resp)
                    then setLoss (setCounts result 1 1) f64_zero StatusSuccess
                    else setLoss (setCounts result 1 0) (f64 1) StatusFailure in
                  Ok (checkExpiry net hcfg resp result)
              end
          end
      end
  end.

Definition Run (p : httpProber) (env : RunEnv HttpNet) : res string (option (list ProbeResult)) :=
  RunProbes (env_lookup env) (Targets (hp_cfg p)) (MaxResolvedIPs (hp_cfg p)) (probeOne p env) (env_order env).

(** ** Every work item has its client *)

(** The key of a configured target: its name, or "" for a literal address. *)
Definition clientKey (target : string) : string :=
  match ParseIP target with None => target | Some _ => EmptyString end.

Definition clientFor (cfg : ProbeConfig) (hcfg : HTTPConfig) (fqdn : string) : Client :=
  {| cl_Timeout := Timeout cfg; cl_ServerName := fqdn;
     cl_LocalAddr := if negb (SourceIP cfg =? "")%string then Some (ParseIP (SourceIP cfg)) else None;
     cl_noRedirect := negb (http_FollowRedirects hcfg) |}.

Lemma addClients_spec cfg hcfg clients targets :
  HTTP cfg = Some hcfg ->
  (forall k cl, clients !! k = Some cl -> cl = clientFor cfg hcfg k) ->
  exists clients', addClients cfg clients targets = Ok clients' /\ clients ⊆ clients' /\
    (forall k cl, clients' !! k = Some cl -> cl = clientFor cfg hcfg k) /\
    (forall t, t ∈ targets -> is_Some (clients' !! clientKey t)).
Proof.
  intros Hh. revert clients. induction targets as [|t ts IH]; intros clients Hc.
  { exists clients. split_and!; try done. by intros t ?%not_elem_of_nil. }
  cbn [addClients]. unfold addClient. fold (clientKey t). rewrite Hh.
  destruct (clients !! clientKey t) as [cl|] eqn:Ek; simpl.
  - destruct (IH clients Hc) as (cs & E & Hsub & H1 & H2). exists cs. split_and!; try done.
    intros t' [-> | ?]%elem_of_cons; [|auto]. exists cl. by eapply lookup_weaken.
  - fold (clientFor cfg hcfg (clientKey t)).
    destruct (IH (<[clientKey t := clientFor cfg hcfg (clientKey t)]> clients)) as (cs & E & Hsub & H1 & H2).
    { intros k cl. destruct (decide (k = clientKey t)) as [->|].
      - rewrite lookup_insert_eq. congruence.
      - rewrite lookup_insert_ne by done. apply Hc. }
    exists cs. split_and!; try done.
    + etrans; [|exact Hsub]. by apply insert_subseteq.
    + intros t' [-> | ?]%elem_of_cons; [|auto]. eexists. eapply lookup_weaken; [|exact Hsub].
      apply lookup_insert_eq.
Qed.

Lemma New_spec cfg hcfg :
  HTTP cfg = Some hcfg ->
  exists clients, New cfg = Ok {| hp_cfg := cfg; hp_clients := clients |} /\
    forall t, t ∈ Targets cfg -> clients !! clientKey t = Some (clientFor cfg hcfg (clientKey t)).
Proof.
  intros Hh. destruct (addClients_spec cfg hcfg ∅ (Targets cfg) Hh) as (cs & E & _ & H1 & H2).
  { intros k cl. by rewrite lookup_empty. }
  exists cs. unfold New. rewrite E. split; [done|]. intros t Ht. destruct (H2 t Ht) as [cl Hcl].
  by rewrite Hcl, (H1 _ _ Hcl).
Qed.

Lemma ExpandTargets_key LookupHost targets maxIPs wi :
  wi ∈ ExpandTargets LookupHost targets maxIPs -> exists t, t ∈ targets /\ wi_FQDN wi = clientKey t.
Proof.
  rewrite ExpandTargets_concat, list_elem_of_In, in_concat. intros (l & Hl & Hwi).
  apply list_elem_of_In, list_elem_of_fmap in Hl as (t & -> & Ht). exists t. split; [done|].
  apply list_elem_of_In in Hwi. revert Hwi. unfold expandSpec, clientKey.
  destruct (ParseIP t); [by intros ->%list_elem_of_singleton|].
  destruct (LookupHost t) as [|[|a addrs]]; [by intros ->%list_elem_of_singleton..|].
  by intros (ip & -> & _)%list_elem_of_fmap.
Qed.

(** C33: the client table built by [New] covers every work item of every later
    run, whatever the resolver answers by then: the lookup by FQDN never yields
    nil, and the client found verifies certificates against that FQDN, with the
    probe's timeout, source address and redirect policy. *)
Theorem http_client_for_item cfg hcfg LookupHost maxIPs wi :
  HTTP cfg = Some hcfg -> wi ∈ ExpandTargets LookupHost (Targets cfg) maxIPs ->
  exists p, New cfg = Ok p /\ hp_clients p !! wi_FQDN wi = Some (clientFor cfg hcfg (wi_FQDN wi)).
Proof.
  intros Hh Hwi. destruct (New_spec cfg hcfg Hh) as (cs & E & Hc).
  apply ExpandTargets_key in Hwi as (t & Ht & ->). eauto.
Qed.

(** ** The verdict of one request *)

(** The request that goes out and the response that comes back. *)
Definition exchanged (p : httpProber) (env : RunEnv HttpNet) (i : nat) (wi : WorkItem)
    (hcfg : HTTPConfig) (resp : Response) : Prop :=
  let net := env_net env i 0%nat in
  let url := targetURL hcfg (wi_IP wi) in
  HTTP (hp_cfg p) = Some hcfg /\ wi_FQDN wi <> wi_IP wi /\
  newRequestErr net (http_Method hcfg) url = None /\
  exists client, hp_clients p !! wi_FQDN wi = Some client /\
    doRequest net client {| rq_Method := http_Method hcfg; rq_URL := url;
                            rq_Host := if negb (wi_FQDN wi =? "")%string then Some (wi_FQDN wi) else None |}
      = inr resp.

(** The first certificate of an HTTPS response. *)
Definition leafNotAfter (hcfg : HTTPConfig) (resp : Response) : option Z :=
  if (http_Scheme hcfg =? "https")%string then peerNotAfter resp ≫= head else None.

Definition expired (net : HttpNet) (hcfg : HTTPConfig) (resp : Response) : bool :=
  match leafNotAfter hcfg resp with Some t => until t (nowFirst net) <? 0 | None => false end.

Definition expiring (net : HttpNet) (hcfg : HTTPConfig) (resp : Response) : bool :=
  match leafNotAfter hcfg resp with
  | Some t => (0 <? http_TLSExpiryWarningDays hcfg) &&
              (daysLeft t (nowSecond net) <=? http_TLSExpiryWarningDays hcfg)
  | None => false
  end.

Lemma NewResult_resolved u now cfg wi typ :
  wi_FQDN wi <> wi_IP wi -> exists r, NewResult u now cfg wi typ = (r, true).
Proof.
  intros Hw. unfold NewResult. destruct (_ && _) eqn:E; [|eauto]. bool_prop. congruence.
Qed.

(** The check only ever rewrites the status. *)
Lemma checkExpiry_status net hcfg resp r :
  checkExpiry net hcfg resp r =
    setStatus r (if PacketsReceived r =? 1 then
                   if expired net hcfg resp then StatusFailure
                   else if expiring net hcfg resp then StatusPartial else res_Status r
                 else res_Status r).
Proof.
  assert (setStatus r (res_Status r) = r) as Hid by by destruct r.
  unfold checkExpiry, expired, expiring, leafNotAfter.
  destruct (http_Scheme hcfg =? "https")%string, (peerNotAfter resp) as [[|t ts]|], (PacketsReceived r =? 1);
    try exact (eq_sym Hid).
  cbn [andb mbind option_bind head]. destruct (until t _ <? 0); [done|].
  destruct (0 <? _); [|exact (eq_sym Hid)]. cbn [andb]. destruct (_ <=? _); [done|exact (eq_sym Hid)].
Qed.

Lemma probeOne_exchanged p env i wi hcfg resp :
  exchanged p env i wi hcfg resp ->
  let net := env_net env i 0%nat in
  let matches := statusMatch (http_ExpectedStatus hcfg) (StatusCode resp) in
  exists r, probeOne p env i wi = Ok r /\ PacketsSent r = 1 /\
    PacketsReceived r = (if matches then 1 else 0) /\
    PacketLossRatio r = (if matches then f64_zero else f64 1) /\
    DurationMS r = fdiv (f64 (elapsed net)) (f64 1000000) /\ PortOpen r = None /\
    res_Status r = (if negb matches then StatusFailure else if expired net hcfg resp then StatusFailure
                    else if expiring net hcfg resp then StatusPartial else StatusSuccess).
Proof.
  intros (Hh & Hw & Hreq & client & Hcl & Hdo). cbv zeta. unfold probeOne.
  destruct (NewResult_resolved (env_unicode env) (env_now env i) (hp_cfg p) wi httpType Hw) as [result E].
  assert (PortOpen result = None) as Hport.
  { pose proof (NewResult_fields (env_unicode env) (env_now env i) (hp_cfg p) wi httpType) as F.
    rewrite E in F. apply F. }
  rewrite E, Hh, Hreq, Hcl, Hdo. cbn [negb]. eexists. split; [reflexivity|].
  rewrite checkExpiry_status. by destruct (statusMatch _ _).
Qed.

Lemma statusMatch_spec expected actual :
  statusMatch expected actual = true <->
  (expected = 0 /\ 200 <= actual <= 299) \/ (expected <> 0 /\ actual = expected).
Proof. unfold statusMatch. destruct (Z.eqb_spec expected 0); [rewrite andb_true_iff|]; lia. Qed.


(** an expired certificate turns a matching response into status failure
    while the result still reports one packet received and a loss of 0: the
    documented equivalence "failure = 100% loss" does not hold for HTTPS. *)
Theorem http_expired_cert_no_loss p env i wi hcfg resp :
  exchanged p env i wi hcfg resp ->
  statusMatch (http_ExpectedStatus hcfg) (StatusCode resp) = true ->
  expired (env_net env i 0%nat) hcfg resp = true ->
  exists r, probeOne p env i wi = Ok r /\ res_Status r = StatusFailure /\
    PacketsReceived r = 1 /\ m_Loss (measured r) = Some f64_zero /\
    StatusFromLoss (PacketLossRatio r) = StatusSuccess.
Proof.
  intros Hx Hm He. destruct (probeOne_exchanged _ _ _ _ _ _ Hx) as (r & E & Hs & Hr & Hl & _ & _ & Hst).
  rewrite Hm, He in *. exists r. unfold measured. rewrite Hst, Hl, Hr. done.
Qed.

(** ** The interface *)

Lemma http_probeOne_ok p env hcfg i wi :
  HTTP (hp_cfg p) = Some hcfg -> is_Some (hp_clients p !! wi_FQDN wi) ->
  exists r, probeOne p env i wi = Ok r /\ result_ok (hp_cfg p) httpType r.
Proof.
  intros Hh [client Hcl]. unfold probeOne.
  pose proof (NewResult_fields (env_unicode env) (env_now env i) (hp_cfg p) wi httpType) as F.
  destruct (NewResult _ _ _ _ _) as [result ok] eqn:En. cbn [fst] in F.
  destruct F as (F1 & F2 & F3 & F4 & F5 & F6 & F7). rewrite Hh, Hcl. destruct ok; simpl.
  2: { exists result. split; [done|]. by eapply NewResult_failed. }
  destruct (newRequestErr _ _ _).
  { eexists. split; [reflexivity|]. split; simpl; rewrite ?F2, ?F5, ?F6, ?F7; try done; lia. }
  destruct (doRequest _ _ _) as [e|resp].
  { destruct (ctxDone _); (eexists; split; [reflexivity|split; simpl; rewrite ?F2, ?F7; try done; lia]). }
  eexists. split; [reflexivity|].
  rewrite checkExpiry_status. destruct (statusMatch _ _).
  - change (PacketsReceived _ =? 1) with true. cbv match.
    destruct (expired _ _ _); [|destruct (expiring _ _ _)]; split; simpl; rewrite ?F2, ?F7; try done; lia.
  - split; simpl; rewrite ?F2, ?F7; try done; lia.
Qed.

#[global] Instance httpProber_prober : Prober httpProber := {
  pr_env := RunEnv HttpNet;
  pr_cfg := hp_cfg;
  pr_name p := Name (hp_cfg p);
  pr_type _ := httpType;
  pr_valid p := HTTP (hp_cfg p) <> None /\ New (hp_cfg p) = Ok p;
  pr_env_ok p env := completes (env_lookup env) (hp_cfg p) (env_order env);
  pr_run p env := Run p env
}.

#[global] Instance httpProber_laws : ProberLaws httpProber.
Proof.
  split. intros p env [Hh Hn] Hord. simpl in *.
  destruct (HTTP (hp_cfg p)) as [hcfg|] eqn:Eh; [|done]. apply (RunProbes_ok _ (hp_cfg p)); [done|].
  intros i wi Hwi. apply (http_probeOne_ok p env hcfg); [done|].
  destruct (New_spec (hp_cfg p) hcfg Eh) as (cs & E & Hc). rewrite Hn in E. injection E as E.
  apply ExpandTargets_key in Hwi as (t & Ht & ->). rewrite E. simpl. eauto.
Qed.

(** ** A concrete run: an HTTPS target whose certificate expired an hour ago. *)

Definition demoHttpBlock : HTTPConfig :=
  {| http_Scheme := "https"; http_Port := 0; http_Path := "/health"; http_Method := "GET";
     http_ExpectedStatus := 0; http_FollowRedirects := true; http_TLSExpiryWarningDays := 14 |}.

Definition demoHttpConfig : ProbeConfig := {|
  Name := "site"; Type_ := "http"; Targets := ["dual.example"; "2001:db8::7"]; MaxResolvedIPs := 1; SourceIP := "";
  Interval := 30000; PacketInterval := 1000; Timeout := 5000; Count := 1; Labels := None;
  HTTP := Some demoHttpBlock; TCP := None; UDP := None; DNS := None |}.

Definition demoHttpEnv (notAfter : Z) : RunEnv HttpNet := {|
  env_unicode := {| mapUpper := id; mapLower := id; foldEqual := String.eqb; quoteRunes := id |};
  env_lookup := demoLookup; env_now := fun _ => 0;
  env_net := fun _ _ =>
    {| newRequestErr := fun _ _ => None;
       doRequest := fun _ _ => inr {| StatusCode := 204; peerNotAfter := Some [notAfter] |};
       ctxDone := false; elapsed := 25000000; nowFirst := 0; nowSecond := 0 |};
  env_cancelled := fun _ _ => false; env_order := [1; 0]%nat |}.

Definition demoHttpProber : httpProber :=
  match New demoHttpConfig with Ok p => p | _ => {| hp_cfg := demoHttpConfig; hp_clients := ∅ |} end.

Definition demoHttpItem : WorkItem := {| wi_IP := "192.0.2.1"; wi_FQDN := "dual.example" |}.

Example targetURL_v4 : targetURL demoHttpBlock "192.0.2.1" = "https://192.0.2.1/health".
Proof. reflexivity. Qed.
Example targetURL_v6 : targetURL demoHttpBlock "2001:db8::7" = "https://[2001:db8::7]/health".
Proof. reflexivity. Qed.
Example daysLeft_two : daysLeft (2 * 24 * Hour) 1 = 1.
Proof. vm_compute. reflexivity. Qed.

Lemma demo_exchanged t :
  exchanged demoHttpProber (demoHttpEnv t) 0 demoHttpItem demoHttpBlock
    {| StatusCode := 204; peerNotAfter := Some [t] |}.
Proof.
  split; [reflexivity|]. split; [done|]. split; [reflexivity|].
  exists (clientFor demoHttpConfig demoHttpBlock "dual.example"). split; vm_compute; reflexivity.
Defined.

Lemma http_client_for_item_witness :
  exists p, New demoHttpConfig = Ok p /\
    hp_clients p !! "dual.example" = Some (clientFor demoHttpConfig demoHttpBlock "dual.example").
Proof.
  apply (http_client_for_item demoHttpConfig demoHttpBlock demoLookup 1 demoHttpItem); [reflexivity|].
  vm_compute. constructor.
Defined.


Lemma http_expired_cert_no_loss_witness :
  exists r, probeOne demoHttpProber (demoHttpEnv (- Hour)) 0 demoHttpItem = Ok r /\
    res_Status r = StatusFailure /\ PacketsReceived r = 1 /\ m_Loss (measured r) = Some f64_zero /\
    StatusFromLoss (PacketLossRatio r) = StatusSuccess.
Proof.
  apply (http_expired_cert_no_loss _ _ _ _ _ _ (demo_exchanged (- Hour))); reflexivity.
Defined.
