(* ===== verification/Icmp.v ===== *)
(** * internal/probe/icmp/icmp.go: the ICMP prober.

    The pinger of pro-bing is a parameter: [IcmpNet] holds what [NewPinger],
    [RunWithContext] and [Statistics] return for the settings the prober gives
    it.  [probing_stats] names what the library documents of its statistics:
    the counts, and the loss as a percentage. *)

From S2P Require Import Prelude.
From S2P Require Import GoStrings.
From S2P Require Import GoNet.
From S2P Require Import Float64.
From S2P Require Import Types.
From S2P Require Import Probe.
From S2P Require Import Prober.

(** [ctx.Err()] *)
Inductive ctxErr := CtxNil | CtxCanceled | CtxDeadlineExceeded.

#[global] Instance ctxErr_eq_dec : EqDecision ctxErr.
Proof. solve_decision. Defined.

(** The settings of a pinger. *)
Record Pinger := {
  pg_Addr : string;
  pg_Count : Z;
  pg_Interval : Z;
  pg_Timeout : Z;
  pg_Source : string;
  pg_Privileged : bool
}.

Record Statistics := {
  st_PacketsSent : Z;
  st_PacketsRecv : Z;
  st_PacketLoss : float64;
  st_MinRtt : Z;
  st_AvgRtt : Z;
  st_MaxRtt : Z;
  st_StdDevRtt : Z
}.

Record IcmpNet := {
  newPingerErr : string -> option string;
  pingerRun : Pinger -> option string;     (* RunWithContext *)
  ctxAfterRun : ctxErr;                    (* ctx.Err() in the run-error test *)
  statistics : Pinger -> Statistics;
  ctxAfterStats : ctxErr                   (* ctx.Err() in the no-packets branch *)
}.

(** [Duration.Seconds()] *)
Definition Seconds (d : Z) : float64 :=
  fadd (f64 (Z.quot d 1000000000)) (fdiv (f64 (Z.rem d 1000000000)) (f64 1000000000)).
#[global] Arguments Seconds : simpl never.

Definition applyStats (result : ProbeResult) (stats : Statistics) : ProbeResult :=
  let result := setCounts result (st_PacketsSent stats) (st_PacketsRecv stats) in
  let loss := fdiv (st_PacketLoss stats) (f64 100) in
  let result := setLoss result loss (StatusFromLoss loss) in
  if 0 <? st_PacketsRecv stats then
    setRTT result (fmul (Seconds (st_MinRtt stats)) (f64 1000)) (fmul (Seconds (st_AvgRtt stats)) (f64 1000))
      (fmul (Seconds (st_MaxRtt stats)) (f64 1000)) (fmul (Seconds (st_StdDevRtt stats)) (f64 1000))
  else result.

Definition icmpType : string := "icmp".

Definition pingerFor (cfg : ProbeConfig) (ip : string) : Pinger :=
  {| pg_Addr := ip; pg_Count := Count cfg; pg_Interval := PacketInterval cfg;
     pg_Timeout := Timeout cfg; pg_Source := SourceIP cfg; pg_Privileged := true |}.

Definition probeOne (env : RunEnv IcmpNet) (cfg : ProbeConfig) (i : nat) (wi : WorkItem) : ProbeResult :=
  let net := env_net env i 0%nat in
  let '(result, ok) := NewResult (env_unicode env) (env_now env i) cfg wi icmpType in
  if negb ok then result else
  match newPingerErr net (wi_IP wi) with
  | Some e => setError result "init_error"
                ("init pinger for " +:+ Quote (env_unicode env) (wi_IP wi) +:+ ": " +:+ e)
  | None =>
      let pinger := pingerFor cfg (wi_IP wi) in
      match pingerRun net pinger, bool_decide (ctxAfterRun net = CtxNil) with
      | Some runErr, true => setError result "run_error" ("pinger run: " +:+ runErr)
      | _, _ =>
          let stats := statistics net pinger in
          if st_PacketsSent stats =? 0 then
            setError result
              (if bool_decide (ctxAfterStats net = CtxDeadlineExceeded) then "timeout" else ErrorType result)
              "no packets sent"
          else applyStats result stats
      end
  end.

Definition Run (env : RunEnv IcmpNet) (cfg : ProbeConfig) : res string (option (list ProbeResult)) :=
  RunProbes (env_lookup env) (Targets cfg) (MaxResolvedIPs cfg) (fun i wi => Ok (probeOne env cfg i wi))
    (env_order env).

(** ** What pro-bing documents of its statistics *)

Record probing_stats (s : Statistics) : Prop := {
  stats_counts : 0 <= st_PacketsRecv s <= st_PacketsSent s;
  stats_bound : st_PacketsSent s < 2 ^ 53;
  stats_loss : 1 <= st_PacketsSent s ->
    st_PacketLoss s = fmul (fdiv (f64 (st_PacketsSent s - st_PacketsRecv s)) (f64 (st_PacketsSent s))) (f64 100)
}.

Lemma StatusFromLoss_percent s :
  probing_stats s -> 1 <= st_PacketsSent s ->
  StatusFromLoss (fdiv (st_PacketLoss s) (f64 100)) = verdict None (st_PacketsRecv s) (st_PacketsSent s).
Proof.
  intros [Hc Hb Hl] Hs. rewrite Hl by done. unfold verdict.
  destruct (Z.eqb_spec (st_PacketsRecv s) (st_PacketsSent s)) as [E|].
  { rewrite E, Z.sub_diag. by rewrite percent_none. }
  destruct (Z.eqb_spec (st_PacketsRecv s) 0) as [E|].
  { rewrite E, Z.sub_0_r. by rewrite percent_full. }
  destruct (percent_partial (st_PacketsSent s - st_PacketsRecv s) (st_PacketsSent s)) as (v & Hv & Hlt); [lia..|].
  unfold StatusFromLoss, f64_zero. rewrite (fis_nonzero _ _ Hv).
  rewrite (fleb_fis _ _ _ _ (f64_fis 1 ltac:(done)) Hv), Z.mul_1_l.
  by replace (2 ^ K <=? v) with false by (symmetry; apply Z.leb_gt; lia).
Qed.

Lemma applyStats_fields result s :
  let r := applyStats result s in
  PacketsSent r = st_PacketsSent s /\ PacketsReceived r = st_PacketsRecv s /\
  res_Status r = StatusFromLoss (fdiv (st_PacketLoss s) (f64 100)) /\
  ProbeName r = ProbeName result /\ ProbeType r = ProbeType result /\ res_SourceIP r = res_SourceIP result /\
  res_Labels r = res_Labels result /\ PortOpen r = PortOpen result.
Proof. unfold applyStats. by destruct (0 <? _). Qed.

(** C35: converting the pinger's loss percentage back to a ratio never changes
    the class of a result: for any counts below 2^53 the status of an ICMP probe
    is success iff every echo was answered, failure iff none was, partial
    otherwise, although the ratio takes three binary64 roundings. *)
Theorem icmp_verdict env cfg i wi :
  let net := env_net env i 0%nat in
  let stats := statistics net (pingerFor cfg (wi_IP wi)) in
  wi_FQDN wi <> wi_IP wi -> newPingerErr net (wi_IP wi) = None ->
  pingerRun net (pingerFor cfg (wi_IP wi)) = None ->
  probing_stats stats -> 1 <= st_PacketsSent stats ->
  let r := probeOne env cfg i wi in
  PacketsSent r = st_PacketsSent stats /\ PacketsReceived r = st_PacketsRecv stats /\
  res_Status r = verdict None (st_PacketsRecv stats) (st_PacketsSent stats).
Proof.
  intros net stats Hw Hn Hr Hp Hs r. unfold r, probeOne. fold net.
  destruct (NewResult _ _ _ _ _) as [result ok] eqn:En. destruct ok; simpl.
  - rewrite Hn, Hr. fold stats. destruct (Z.eqb_spec (st_PacketsSent stats) 0); [lia|].
    destruct (applyStats_fields result stats) as (-> & -> & -> & _). rewrite StatusFromLoss_percent by done.
    done.
  - apply NewResult_failed_item in En as (_ & H & _). done.
Qed.

(** ** The interface *)

Record icmpProber := { ip_cfg : ProbeConfig }.

#[global] Instance icmpProber_prober : Prober icmpProber := {
  pr_env := RunEnv IcmpNet;
  pr_cfg := ip_cfg;
  pr_name p := Name (ip_cfg p);
  pr_type _ := icmpType;
  pr_valid _ := True;
  pr_env_ok p env := completes (env_lookup env) (ip_cfg p) (env_order env) /\
    forall i pinger, probing_stats (statistics (env_net env i 0%nat) pinger);
  pr_run p env := Run env (ip_cfg p)
}.

Lemma icmp_probeOne_ok env cfg i wi :
  probing_stats (statistics (env_net env i 0%nat) (pingerFor cfg (wi_IP wi))) ->
  result_ok cfg icmpType (probeOne env cfg i wi).
Proof.
  intros Hp. unfold probeOne.
  pose proof (NewResult_fields (env_unicode env) (env_now env i) cfg wi icmpType) as F.
  destruct (NewResult _ _ _ _ _) as [result ok] eqn:En. cbn [fst] in F.
  destruct F as (F1 & F2 & F3 & F4 & F5 & F6 & F7). destruct ok; simpl; [|by eapply NewResult_failed].
  assert (forall t m, result_ok cfg icmpType (setError result t m)) as Herr
    by (intros; split; simpl; rewrite ?F5, ?F6, ?F7; try done; lia).
  destruct (newPingerErr _ _); [done|].
  set (stats := statistics _ _) in *.
  assert (result_ok cfg icmpType (if st_PacketsSent stats =? 0 then
    setError result (if bool_decide (ctxAfterStats (env_net env i 0%nat) = CtxDeadlineExceeded)
                     then "timeout" else ErrorType result) "no packets sent"
    else applyStats result stats)) as Hstats.
  { destruct (Z.eqb_spec (st_PacketsSent stats) 0); [done|]. pose proof (stats_counts _ Hp).
    destruct (applyStats_fields result stats) as (H1 & H2 & H3 & H4 & H5 & H6 & H7 & H8).
    rewrite StatusFromLoss_percent in H3 by (done || lia).
    destruct (verdict_cases None (st_PacketsRecv stats) (st_PacketsSent stats)) as (C1 & C2 & C3 & C4); [lia..|].
    rewrite <- H3 in C1, C2, C3, C4. split; rewrite ?H1, ?H2; first [congruence|done|lia]. }
  destruct (pingerRun _ _), (bool_decide (ctxAfterRun (env_net env i 0%nat) = CtxNil)); first [apply Herr | exact Hstats].
Qed.

#[global] Instance icmpProber_laws : ProberLaws icmpProber.
Proof.
  split. intros [cfg] env _ [Hord Hst]. simpl in *. apply (RunProbes_ok _ cfg); [done|].
  intros i wi _. eexists. split; [reflexivity|]. by apply icmp_probeOne_ok.
Qed.

(** ** A concrete run: one of three echoes lost. *)

Definition demoStats : Statistics :=
  {| st_PacketsSent := 3; st_PacketsRecv := 2;
     st_PacketLoss := fmul (fdiv (f64 1) (f64 3)) (f64 100);
     st_MinRtt := 1000000; st_AvgRtt := 1500000; st_MaxRtt := 2000000; st_StdDevRtt := 500000 |}.

Definition demoIcmpEnv : RunEnv IcmpNet := {|
  env_unicode := {| mapUpper := id; mapLower := id; foldEqual := String.eqb; quoteRunes := id |};
  env_lookup := demoLookup; env_now := fun _ => 0;
  env_net := fun _ _ => {| newPingerErr := fun _ => None; pingerRun := fun _ => None; ctxAfterRun := CtxNil;
                           statistics := fun _ => demoStats; ctxAfterStats := CtxNil |};
  env_cancelled := fun _ _ => false; env_order := [0; 1]%nat |}.

Definition demoIcmpConfig : ProbeConfig := {|
  Name := "gw"; Type_ := "icmp"; Targets := ["dual.example"]; MaxResolvedIPs := 0; SourceIP := "";
  Interval := 30000; PacketInterval := 1000; Timeout := 5000; Count := 3; Labels := None;
  HTTP := None; TCP := None; UDP := None; DNS := None |}.

Lemma demoStats_ok : probing_stats demoStats.
Proof. split; [simpl; lia|simpl; lia|done]. Defined.

Lemma icmp_verdict_witness :
  let r := probeOne demoIcmpEnv demoIcmpConfig 0 {| wi_IP := "192.0.2.1"; wi_FQDN := "dual.example" |} in
  PacketsSent r = 3 /\ PacketsReceived r = 2 /\ res_Status r = StatusPartial.
Proof.
  exact (icmp_verdict demoIcmpEnv demoIcmpConfig 0 {| wi_IP := "192.0.2.1"; wi_FQDN := "dual.example" |}
    ltac:(done) eq_refl eq_refl demoStats_ok ltac:(simpl; lia)).
Defined.
