(* ===== verification/Otlp.v ===== *)
(** * internal/exporter/otlp: the telemetry exporter (otlp.go, inventory.go).

    The OpenTelemetry SDK, its transports and the TLS loaders are the record
    [SDK]: what each constructor call answers.  An instrument handle is the
    description it was created with, which is how the SDK identifies
    instruments.  [Export] and the recorders return the measurements they make,
    in order; what a measurement's attributes mean ([metric.WithAttributes]
    builds an attribute set in which the last value of a repeated key wins) is
    the parameter [newSet] with the hypothesis [last_wins]. *)

From S2P Require Import Prelude.
From S2P Require Import GoStrings.
From S2P Require Import Float64.
From S2P Require Import Types.
From S2P Require Import Probe.
From S2P Require Import Prober.
From S2P Require Import Config.

(** ** The inventory (inventory.go) *)

Record InstrumentInfo := {
  inst_Name : string;
  inst_Kind : string;
  inst_Unit : string;
  inst_Description : string
}.

#[global] Instance InstrumentInfo_eq_dec : EqDecision InstrumentInfo.
Proof. solve_decision. Defined.

Abbreviation attributes := (list (string * string)) (only parsing).

(** [crypto/tls.Config] as far as [buildTLSConfig] sets it. *)
Record TLSConfig := {
  MinVersion : Z;
  Certificates : list (string * string);      (* the loaded certificate and key *)
  RootCAs : option string                     (* the PEM data in the pool *)
}.

Inductive DialOption :=
  | WithEndpoint (endpoint : string)
  | WithRetry (enabled : bool) (maxElapsedTime : Z)
  | WithInsecure
  | WithTLS (c : TLSConfig).

Inductive Reader :=
  | PrometheusBridge
  | PeriodicReader (protocol : string) (opts : list DialOption) (interval timeout : Z).

(** What the program gets from the SDK and the operating system; [None] is a
    nil error. *)
Record SDK := {
  os_Hostname : string + string;
  resource_New : attributes -> option string;
  promexporter_New : option string;
  transport_New : string -> list DialOption -> option string;
  meter_Create : InstrumentInfo -> option string;
  meter_RegisterCallback : InstrumentInfo -> option string;
  tls_LoadX509KeyPair : string -> string -> option string;
  os_ReadFile : string -> string + string;
  pool_AppendCertsFromPEM : string -> bool;
  runtime_Version : string;
  sdk_unicode : UnicodeTables                 (* for the %q verb *)
}.

(** What a registered callback observes on a scrape; [getGoroutines] answers
    [live] when it was set. *)
Abbreviation callback := (option Z -> list (InstrumentInfo * Z * attributes)) (only parsing).

Record RegState := {
  reg_inv : list InstrumentInfo;
  reg_callbacks : list callback
}.

(** Registration: a computation on the exporter's inventory that may stop at an
    error. *)
Definition Reg (A : Type) : Type := RegState -> res string A * RegState.

#[global] Instance Reg_ret : MRet Reg := fun A a st => (Ok a, st).
#[global] Instance Reg_bind : MBind Reg := fun A B k c st =>
  match c st with
  | (Ok a, st') => k a st'
  | (Err e, st') => (Err e, st')
  | (Panic p, st') => (Panic p, st')
  end.

(** [recordingMeter.append] *)
Definition append (info : InstrumentInfo) (st : RegState) : RegState :=
  {| reg_inv := reg_inv st ++ [info]; reg_callbacks := reg_callbacks st |}.

(** The four constructors of [recordingMeter] call the wrapped meter and record
    the instrument when that succeeded. *)
Definition recordingCreate (sdk : SDK) (kind name unit description : string) : Reg InstrumentInfo := fun st =>
  let info := {| inst_Name := name; inst_Kind := kind; inst_Unit := unit; inst_Description := description |} in
  match meter_Create sdk info with
  | None => (Ok info, append info st)
  | Some e => (Err e, st)
  end.

Definition Float64Gauge (sdk : SDK) := recordingCreate sdk "Float64Gauge".
Definition Int64Gauge (sdk : SDK) := recordingCreate sdk "Int64Gauge".
Definition Int64Counter (sdk : SDK) := recordingCreate sdk "Int64Counter".
Definition Int64ObservableGauge (sdk : SDK) := recordingCreate sdk "Int64ObservableGauge".

(** [RegisterCallback] is not overridden: it goes to the wrapped meter. *)
Definition RegisterCallback (sdk : SDK) (f : callback) (g : InstrumentInfo) : Reg unit := fun st =>
  match meter_RegisterCallback sdk g with
  | None => (Ok (), {| reg_inv := reg_inv st; reg_callbacks := reg_callbacks st ++ [f] |})
  | Some e => (Err e, st)
  end.

(** ** The exporter *)

Record Instruments := {
  rttMin : InstrumentInfo; rttMean : InstrumentInfo; rttMax : InstrumentInfo; rttStddev : InstrumentInfo;
  packetLoss : InstrumentInfo;
  httpDuration : InstrumentInfo;
  portOpen : InstrumentInfo;
  success : InstrumentInfo;
  probeUp : InstrumentInfo;
  pktSent : InstrumentInfo;
  pktReceived : InstrumentInfo;
  probeRuns : InstrumentInfo;
  probeErrors : InstrumentInfo;
  resultsDropped : InstrumentInfo;
  exporterErrors : InstrumentInfo;
  configReloads : InstrumentInfo
}.

Record Exporter := {
  readers : list Reader;
  resourceAttrs : attributes;
  shutdownTimeout : Z;
  handles : Instruments;
  instruments : list InstrumentInfo;
  callbacks : list callback
}.

Definition registerInstruments (sdk : SDK) (version commit : string) : Reg Instruments :=
  i1 ← Float64Gauge sdk "trimon.probe.rtt.min" "ms"
    "Minimum ICMP round-trip time over the last probe run; NaN on failure/error and for HTTP probes";
  i2 ← Float64Gauge sdk "trimon.probe.rtt.mean" "ms"
    "Mean ICMP round-trip time over the last probe run; NaN on failure/error and for HTTP probes";
  i3 ← Float64Gauge sdk "trimon.probe.rtt.max" "ms"
    "Maximum ICMP round-trip time over the last probe run; NaN on failure/error and for HTTP probes";
  i4 ← Float64Gauge sdk "trimon.probe.rtt.stddev" "ms"
    "Standard deviation of ICMP round-trip time over the last probe run; NaN on failure/error and for HTTP probes";
  i5 ← Float64Gauge sdk "trimon.probe.packet_loss" "ratio"
    "Fraction of packets with no reply in the last run; 1.0 on failure, NaN on error";
  i6 ← Float64Gauge sdk "trimon.probe.duration" "ms"
    "HTTP wall-clock duration from request start to body drain; NaN when no response received or for non-HTTP probes";
  i7 ← Float64Gauge sdk "trimon.probe.port_open" ""
    "TCP & UDP port reachability; 1 open, 0 closed/no-reply, NaN for other probe types or error";
  i8 ← Int64Gauge sdk "trimon.probe.success" ""
    "1 only when status=success (all packets replied), else 0";
  i9 ← Int64Gauge sdk "trimon.probe.up" ""
    "1 when status=success or partial (at least one reply), else 0";
  i10 ← Int64Counter sdk "trimon.probe.packets_sent" "{packets}"
    "Packets sent per probe run; not incremented on error";
  i11 ← Int64Counter sdk "trimon.probe.packets_received" "{packets}"
    "Packets received per probe run; not incremented on error";
  i12 ← Int64Counter sdk "trimon.probe.runs" "{runs}" "Total probe runs, labelled by probe.name";
  i13 ← Int64Counter sdk "trimon.probe.errors" "{errors}"
    "Total probe errors, labelled by probe.name and error.type";
  i14 ← Int64Counter sdk "trimon.probe.results_dropped" "{results}"
    "Results dropped when the pipeline buffer is full, labelled by probe.name";
  i15 ← Int64Counter sdk "trimon.exporter.errors" "{errors}"
    "Exporter failures to ship a result, labelled by exporter.name";
  i16 ← Int64Counter sdk "trimon.config.reloads" "{reloads}" "Total configuration reloads";
  buildInfoGauge ← Int64ObservableGauge sdk "trimon.build.info" ""
    "Build metadata as labels (version, commit, goversion); value is always 1";
  _ ← RegisterCallback sdk (fun _ =>
        [(buildInfoGauge, 1, [("version", version); ("commit", commit); ("goversion", runtime_Version sdk)])])
        buildInfoGauge;
  goroutinesGauge ← Int64ObservableGauge sdk "trimon.scheduler.goroutines" "{goroutines}"
    "Live scheduler goroutine count, observed on each scrape";
  _ ← RegisterCallback sdk (fun live => [(goroutinesGauge, default 0 live, [])]) goroutinesGauge;
  mret {| rttMin := i1; rttMean := i2; rttMax := i3; rttStddev := i4; packetLoss := i5; httpDuration := i6;
          portOpen := i7; success := i8; probeUp := i9; pktSent := i10; pktReceived := i11;
          probeRuns := i12; probeErrors := i13; resultsDropped := i14; exporterErrors := i15;
          configReloads := i16 |}.

(** ** Transports *)

Definition VersionTLS12 : Z := 0x0303.

Definition buildTLSConfig (sdk : SDK) (t : OTLPTLSConfig) : res string TLSConfig :=
  certs ← (if (CertFile t =? "")%string then Ok []
           else match tls_LoadX509KeyPair sdk (CertFile t) (KeyFile t) with
                | Some e => Err ("otlp: load cert/key: " +:+ e)
                | None => Ok [(CertFile t, KeyFile t)]
                end);
  roots ← (if (CAFile t =? "")%string then Ok None
           else match os_ReadFile sdk (CAFile t) with
                | inl e => Err ("otlp: read CA file: " +:+ e)
                | inr ca => if pool_AppendCertsFromPEM sdk ca then Ok (Some ca)
                            else Err ("otlp: no valid CA certs in " +:+ Quote (sdk_unicode sdk) (CAFile t))
                end);
  Ok {| MinVersion := VersionTLS12; Certificates := certs; RootCAs := roots |}.

(** [buildGRPC] and [buildHTTP] differ in the package of the options only. *)
Definition dialOptions (sdk : SDK) (cfg : OTLPExporterConfig) : res string (list DialOption) :=
  let opts := [WithEndpoint (Endpoint cfg); WithRetry (retry_Enabled (Retry cfg)) (MaxElapsedTime (Retry cfg))] in
  if Insecure cfg then Ok (opts ++ [WithInsecure])
  else if negb (CertFile (TLS cfg) =? "")%string then
    tlsCfg ← buildTLSConfig sdk (TLS cfg); Ok (opts ++ [WithTLS tlsCfg])
  else Ok opts.

Definition buildExporter (sdk : SDK) (cfg : OTLPExporterConfig) : res string (list DialOption) :=
  failif negb ((Protocol cfg =? "grpc")%string || (Protocol cfg =? "http")%string)
    with "unsupported protocol " +:+ Quote (sdk_unicode sdk) (Protocol cfg);;
  opts ← dialOptions sdk cfg;
  match transport_New sdk (Protocol cfg) opts with
  | Some e => Err e
  | None => Ok opts
  end.

(** The readers of the provider: the Prometheus bridge, then the OTLP reader
    when enabled. *)
Definition buildReaders (sdk : SDK) (cfg : OTLPExporterConfig) : res string (list Reader) :=
  if otlp_Enabled cfg then
    opts ← wrapErr (fun e => "otlp: build OTLP exporter: " +:+ e) (buildExporter sdk cfg);
    Ok [PrometheusBridge; PeriodicReader (Protocol cfg) opts (ExportInterval (Batch cfg)) (ExportTimeout (Batch cfg))]
  else Ok [PrometheusBridge].

(** The life of the meter provider; a context without deadline is [None]. *)
Inductive ProviderCall :=
  | NewMeterProvider (rs : list Reader)
  | ForceFlush (deadline : option Z)
  | Shutdown (deadline : option Z).

(** [New] with its calls on the provider: one whose instruments could not be
    registered is shut down before the error is returned. *)
Definition newExporter (sdk : SDK) (cfg : OTLPExporterConfig) (version commit : string)
    : res string Exporter * list ProviderCall :=
  let hostname := match os_Hostname sdk with inr h => h | inl _ => "" end in
  let rattrs := [("service.name", "trimon"); ("service.version", version); ("host.name", hostname)] in
  match resource_New sdk rattrs with
  | Some e => (Err ("otlp: build resource: " +:+ e), [])
  | None =>
      match promexporter_New sdk with
      | Some e => (Err ("otlp: build prometheus bridge: " +:+ e), [])
      | None =>
          match buildReaders sdk cfg with
          | Err e => (Err e, [])
          | Panic p => (Panic p, [])
          | Ok rs =>
              match registerInstruments sdk version commit {| reg_inv := []; reg_callbacks := [] |} with
              | (Ok ins, st) =>
                  (Ok {| readers := rs; resourceAttrs := rattrs; shutdownTimeout := ShutdownTimeout cfg;
                         handles := ins; instruments := reg_inv st; callbacks := reg_callbacks st |},
                   [NewMeterProvider rs])
              | (Err e, _) => (Err ("otlp: register instruments: " +:+ e), [NewMeterProvider rs; Shutdown None])
              | (Panic p, _) => (Panic p, [NewMeterProvider rs])
              end
          end
      end
  end.

Definition New (sdk : SDK) (cfg : OTLPExporterConfig) (version commit : string) : res string Exporter :=
  fst (newExporter sdk cfg version commit).

Definition otlpName : string := "otlp".

(** A scrape runs the callbacks; [live] is what the getter answers, if set. *)
Definition scrape (e : Exporter) (live : option Z) : list (InstrumentInfo * Z * attributes) :=
  concat ((fun f => f live) <$> callbacks e).

(** ** Measurements *)

Inductive Measurement :=
  | Add (c : InstrumentInfo) (n : Z) (attrs : attributes)
  | RecordFloat (g : InstrumentInfo) (x : float64) (attrs : attributes)
  | RecordInt (g : InstrumentInfo) (n : Z) (attrs : attributes).

Definition RecordConfigReload (i : Instruments) : list Measurement := [Add (configReloads i) 1 []].
Definition RecordDroppedResult (i : Instruments) (probeName : string) : list Measurement :=
  [Add (resultsDropped i) 1 [("probe.name", probeName)]].
Definition RecordExporterError (i : Instruments) (exporterName : string) : list Measurement :=
  [Add (exporterErrors i) 1 [("exporter.name", exporterName)]].

Definition orNaN (p : option float64) : float64 := default NaN p.

Definition portOpenValue (p : option bool) : float64 :=
  match p with
  | None => NaN
  | Some true => f64 1
  | Some false => f64 0
  end.

(** [range] is Go's iteration over a map. *)
Definition identityAttrs (r : ProbeResult) : attributes :=
  [("probe.name", ProbeName r); ("probe.type", ProbeType r); ("probe.target", Target r);
   ("probe.source_ip", res_SourceIP r)] ++
  (if (FQDN r =? "")%string then [] else [("probe.fqdn", FQDN r)]).

Definition buildAttrs (range : gmap string string -> attributes) (r : ProbeResult) : attributes :=
  identityAttrs r ++ match res_Labels r with None => [] | Some m => range m end.

(** [Export] always returns nil. *)
Definition Export (i : Instruments) (range : gmap string string -> attributes) (r : ProbeResult)
    : list Measurement :=
  let probeAttrs := buildAttrs range r in
  let runs := [Add (probeRuns i) 1 [("probe.name", ProbeName r)]] in
  let counts :=
    if negb (IsError (res_Status r)) then
      [Add (pktSent i) (PacketsSent r) probeAttrs; Add (pktReceived i) (PacketsReceived r) probeAttrs]
    else
      let errType := if (ErrorType r =? "")%string then "unknown" else ErrorType r in
      [Add (probeErrors i) 1 [("probe.name", ProbeName r); ("error.type", errType)]] in
  let '(upVal, successVal) :=
    if IsUp (res_Status r) then (1, if IsSuccess (res_Status r) then 1 else 0) else (0, 0) in
  let m := measured r in
  let '(mn, mean, mx, sd) :=
    match m_RTT m with
    | Some t => (MinMS t, MeanMS t, MaxMS t, StddevMS t)
    | None => (NaN, NaN, NaN, NaN)
    end in
  runs ++ counts ++
  [RecordFloat (rttMin i) mn probeAttrs; RecordFloat (rttMean i) mean probeAttrs;
   RecordFloat (rttMax i) mx probeAttrs; RecordFloat (rttStddev i) sd probeAttrs;
   RecordFloat (packetLoss i) (orNaN (m_Loss m)) probeAttrs;
   RecordInt (success i) successVal probeAttrs; RecordInt (probeUp i) upVal probeAttrs;
   RecordFloat (httpDuration i) (orNaN (m_Duration m)) probeAttrs;
   RecordFloat (portOpen i) (portOpenValue (m_PortOpen m)) probeAttrs].

(** [Close]: flush, then shut down, both under the one deadline of the shutdown
    budget; the error of the former is only logged, that of the latter returned.
    The result is the calls, the warnings and the error. *)
Definition Close (e : Exporter) (now : Z) (flushErr shutdownErr : option string)
    : list ProviderCall * list string * option string :=
  let deadline := Some (now + shutdownTimeout e) in
  ([ForceFlush deadline; Shutdown deadline],
   match flushErr with Some err => [err] | None => [] end, shutdownErr).

(** ** Attribute sets *)

(** The documented meaning of [metric.WithAttributes(kv...)]: a repeated key
    keeps its last value. *)
Definition last_wins (newSet : attributes -> gmap string string) : Prop :=
  forall kvs kvs' k v, k ∉ kvs'.*1 -> newSet (kvs ++ (k, v) :: kvs') !! k = Some v.
Definition no_other (newSet : attributes -> gmap string string) : Prop :=
  forall kvs k, k ∉ kvs.*1 -> newSet kvs !! k = None.
Definition attribute_sets (newSet : attributes -> gmap string string) : Prop :=
  last_wins newSet /\ no_other newSet.

(** Every iteration over a map visits its entries once, in some order. *)
Definition ranges (range : gmap string string -> attributes) : Prop := forall m, range m ≡ₚ map_to_list m.

Section Attributes.
Context (newSet : attributes -> gmap string string) (Hset : attribute_sets newSet).

Lemma newSet_snoc kvs k v : newSet (kvs ++ [(k, v)]) = <[k := v]> (newSet kvs).
Proof.
  destruct Hset as [Hl Hn]. apply map_eq. intros k'.
  destruct (decide (k' = k)) as [->|Hk].
  - rewrite lookup_insert_eq. apply Hl. simpl. apply not_elem_of_nil.
  - rewrite lookup_insert_ne by done. destruct (decide (k' ∈ kvs.*1)) as [Hin|Hin].
    + destruct (list_elem_of_split_r _ _ Hin) as (l1 & l2 & E & Hl2).
      assert (exists a v' b, kvs = a ++ (k', v') :: b /\ b.*1 = l2) as (a & v' & b & -> & Eb).
      { apply fmap_app_inv in E as (a & c & -> & E2 & ->). destruct c as [|[kc v'] b]; [done|].
        cbn in E2. injection E2 as E3 E4. subst kc. by exists a, v', b. }
      rewrite <- app_assoc. simpl. rewrite (Hl a b k' v') by by rewrite Eb. apply Hl.
      rewrite fmap_app, elem_of_app, Eb. simpl. rewrite elem_of_cons, elem_of_nil. naive_solver.
    + rewrite !Hn; [done|done|]. rewrite fmap_app, elem_of_app. simpl.
      rewrite elem_of_cons, elem_of_nil. naive_solver.
Qed.

(** Attributes appended from a map override the others, whatever the order in
    which the map is visited. *)
Lemma newSet_app_map kvs l : NoDup l.*1 -> newSet (kvs ++ l) = list_to_map l ∪ newSet kvs.
Proof.
  revert kvs. induction l as [|[k v] l IH]; intros kvs Hd; simpl.
  { by rewrite app_nil_r, map_empty_union. }
  apply NoDup_cons in Hd as [Hk Hd]. change ((k, v) :: l) with ([(k, v)] ++ l).
  rewrite app_assoc, IH, newSet_snoc by done. apply map_eq. intros k'.
  rewrite !lookup_union. destruct (decide (k' = k)) as [->|].
  - rewrite !lookup_insert_eq. rewrite (not_elem_of_list_to_map_1 l k) by done. by destruct (newSet kvs !! k).
  - by rewrite !lookup_insert_ne.
Qed.

Definition labelMap (r : ProbeResult) : gmap string string := default ∅ (res_Labels r).

Lemma buildAttrs_set range r :
  ranges range -> newSet (buildAttrs range r) = labelMap r ∪ newSet (identityAttrs r).
Proof.
  intros Hr. unfold buildAttrs, labelMap. destruct (res_Labels r) as [m|]; cbn [from_option id].
  - rewrite newSet_app_map by (rewrite (Hr m); apply NoDup_fst_map_to_list). f_equal.
    rewrite <- (list_to_map_to_list m) at 2. apply list_to_map_proper; [|apply Hr].
    rewrite (Hr m). apply NoDup_fst_map_to_list.
  - by rewrite app_nil_r, map_empty_union.
Qed.
End Attributes.

(** The keys the exporter itself uses. *)
Definition reservedKeys : list string :=
  ["probe.name"; "probe.type"; "probe.target"; "probe.source_ip"; "probe.fqdn"].
Definition unreserved (r : ProbeResult) : Prop := forall k, k ∈ reservedKeys -> labelMap r !! k = None.

Lemma identityAttrs_keys r : exists l, (identityAttrs r).*1 ++ l = reservedKeys.
Proof. unfold identityAttrs. destruct (_ =? _)%string; eexists; reflexivity. Qed.

Lemma identityAttrs_nodup r : NoDup (identityAttrs r).*1.
Proof.
  destruct (identityAttrs_keys r) as [l E].
  assert (NoDup ((identityAttrs r).*1 ++ l)) as H by (rewrite E; by apply (bool_decide_unpack _)).
  by apply NoDup_app in H as [H _].
Qed.

Section Series.
Context (newSet : attributes -> gmap string string) (Hset : attribute_sets newSet).

Lemma newSet_nodup l : NoDup l.*1 -> newSet l = list_to_map l.
Proof.
  intros Hd. rewrite <- (app_nil_l l) at 1. rewrite (newSet_app_map newSet Hset) by done.
  replace (newSet []) with (∅ : gmap string string); [apply map_union_empty|].
  symmetry. apply map_empty. intros k. apply Hset, not_elem_of_nil.
Qed.

Lemma identity_values r :
  let s := newSet (identityAttrs r) in
  s !! "probe.name" = Some (ProbeName r) /\ s !! "probe.type" = Some (ProbeType r) /\
  s !! "probe.target" = Some (Target r) /\ s !! "probe.source_ip" = Some (res_SourceIP r) /\
  s !! "probe.fqdn" = if (FQDN r =? "")%string then None else Some (FQDN r).
Proof.
  rewrite newSet_nodup by apply identityAttrs_nodup. unfold identityAttrs.
  destruct (FQDN r =? "")%string; simpl; split_and!; by simplify_map_eq.
Qed.

Lemma identity_reserved r k : k ∉ reservedKeys -> newSet (identityAttrs r) !! k = None.
Proof.
  intros Hk. apply Hset. destruct (identityAttrs_keys r) as [l E]. rewrite <- E in Hk.
  rewrite elem_of_app in Hk. naive_solver.
Qed.

Lemma series_lookup range r k :
  ranges range -> unreserved r -> k ∈ reservedKeys ->
  newSet (buildAttrs range r) !! k = newSet (identityAttrs r) !! k.
Proof.
  intros Hr Hu Hk. rewrite (buildAttrs_set newSet Hset) by done.
  by rewrite lookup_union, (Hu k Hk), (left_id_L None _).
Qed.

Lemma series_labels range r k :
  ranges range -> k ∉ reservedKeys -> newSet (buildAttrs range r) !! k = labelMap r !! k.
Proof.
  intros Hr Hk. rewrite (buildAttrs_set newSet Hset) by done.
  by rewrite lookup_union, identity_reserved, (right_id_L None _).
Qed.

(** What of a result its series shows. *)
Definition sameSeries (r r' : ProbeResult) : Prop :=
  ProbeName r = ProbeName r' /\ ProbeType r = ProbeType r' /\ Target r = Target r' /\
  res_SourceIP r = res_SourceIP r' /\ FQDN r = FQDN r' /\ labelMap r = labelMap r'.

Lemma identity_inj r r' :
  (forall k, k ∈ reservedKeys -> newSet (identityAttrs r) !! k = newSet (identityAttrs r') !! k) ->
  ProbeName r = ProbeName r' /\ ProbeType r = ProbeType r' /\ Target r = Target r' /\
  res_SourceIP r = res_SourceIP r' /\ FQDN r = FQDN r'.
Proof.
  intros E. destruct (identity_values r) as (H1 & H2 & H3 & H4 & H5).
  destruct (identity_values r') as (K1 & K2 & K3 & K4 & K5).
  rewrite E in H1, H2, H3, H4, H5 by (unfold reservedKeys; set_solver).
  rewrite K5 in H5. split_and!; try congruence.
  destruct (String.eqb_spec (FQDN r) ""), (String.eqb_spec (FQDN r') ""); congruence.
Qed.

Lemma series_inj range range' r r' :
  ranges range -> ranges range' -> unreserved r -> unreserved r' ->
  newSet (buildAttrs range r) = newSet (buildAttrs range' r') -> sameSeries r r'.
Proof.
  intros Hr Hr' Hu Hu' E.
  destruct (identity_inj r r') as (H1 & H2 & H3 & H4 & H5).
  { intros k Hk. by rewrite <- (series_lookup range r), <- (series_lookup range' r'), E. }
  split_and!; try done. apply map_eq. intros k. destruct (decide (k ∈ reservedKeys)) as [Hk|Hk].
  - by rewrite (Hu k Hk), (Hu' k Hk).
  - by rewrite <- (series_labels range r), <- (series_labels range' r'), E.
Qed.

Lemma series_eq range range' r r' :
  ranges range -> ranges range' -> sameSeries r r' ->
  newSet (buildAttrs range r) = newSet (buildAttrs range' r').
Proof.
  intros Hr Hr' (E1 & E2 & E3 & E4 & E5 & E6).
  rewrite !(buildAttrs_set newSet Hset) by done. unfold identityAttrs. by rewrite E1, E2, E3, E4, E5, E6.
Qed.
End Series.

(** C18: a time series belongs to one probe target.  As long as no user label
    uses one of the exporter's own attribute keys, two results are recorded
    under the same attribute set exactly when they agree on probe name, type,
    target, source address, resolved name and labels, in whatever order Go
    visits the label maps; so the series of different probes or targets are
    never merged, and one target never splits into several. *)
Theorem otlp_series_identity newSet range range' r r' :
  attribute_sets newSet -> ranges range -> ranges range' -> unreserved r -> unreserved r' ->
  newSet (buildAttrs range r) = newSet (buildAttrs range' r') <-> sameSeries r r'.
Proof.
  intros Hset Hr Hr' Hu Hu'. split; [by apply series_inj|by apply series_eq].
Qed.

Definition setName (r : ProbeResult) (name : string) : ProbeResult :=
  {| Timestamp := Timestamp r; ProbeName := name; Target := Target r; FQDN := FQDN r;
     res_SourceIP := res_SourceIP r; ProbeType := ProbeType r;
     PacketsSent := PacketsSent r; PacketsReceived := PacketsReceived r;
     RTTMinMS := RTTMinMS r; RTTMeanMS := RTTMeanMS r; RTTMaxMS := RTTMaxMS r;
     RTTStddevMS := RTTStddevMS r; DurationMS := DurationMS r;
     PacketLossRatio := PacketLossRatio r; PortOpen := PortOpen r;
     res_Status := res_Status r; ErrorMsg := ErrorMsg r; ErrorType := ErrorType r;
     res_Labels := res_Labels r |}.

(** C40: the validation accepts labels named like the exporter's own attributes,
    and such a label replaces the identity: results of two probes that differ in
    name only and carry a label [probe.name] are recorded under one attribute
    set, so their packet counters add up and their gauges overwrite each
    other. *)
Theorem otlp_label_shadows_identity newSet range r name v :
  attribute_sets newSet -> ranges range ->
  ContainsAny v controlChars = false -> labelMap r !! "probe.name" = Some v ->
  validateLabel ("probe.name", v) = Ok () /\
  newSet (buildAttrs range r) !! "probe.name" = Some v /\
  newSet (buildAttrs range (setName r name)) = newSet (buildAttrs range r).
Proof.
  intros Hset Hr Hv Hl. split; [simpl; by rewrite Hv|].
  rewrite !(buildAttrs_set newSet Hset) by done. split.
  - rewrite lookup_union, Hl. by destruct (newSet (identityAttrs r) !! "probe.name").
  - change (labelMap (setName r name)) with (labelMap r).
    rewrite !(newSet_nodup newSet Hset) by apply identityAttrs_nodup.
    unfold identityAttrs. simpl. apply map_eq. intros k. rewrite !lookup_union.
    destruct (decide (k = "probe.name")) as [->|].
    + rewrite Hl, !lookup_insert_eq. reflexivity.
    + rewrite !(lookup_insert_ne _ "probe.name") by done. reflexivity.
Qed.

(** ** Totals of the counters *)

(** What the counter [c] shows for the attribute sets [sel] selects. *)
Fixpoint counterTotal (newSet : attributes -> gmap string string) (c : string)
    (sel : gmap string string -> bool) (ms : list Measurement) : Z :=
  match ms with
  | Add i n attrs :: ms' =>
      (if (inst_Name i =? c)%string && sel (newSet attrs) then n else 0) + counterTotal newSet c sel ms'
  | _ :: ms' => counterTotal newSet c sel ms'
  | [] => 0
  end.

(** The measurements for a sequence of results; [range n] is the iteration order
    of the [n]-th call. *)
Fixpoint exportAll (i : Instruments) (range : nat -> gmap string string -> attributes) (n : nat)
    (rs : list ProbeResult) : list Measurement :=
  match rs with
  | [] => []
  | r :: rs' => Export i (range n) r ++ exportAll i range (S n) rs'
  end.

Definition countZ {A} (p : A -> bool) (l : list A) : Z := Z.of_nat (length (List.filter p l)).

Lemma countZ_cons {A} (p : A -> bool) x l : countZ p (x :: l) = (if p x then 1 else 0) + countZ p l.
Proof. unfold countZ. simpl. destruct (p x); simpl; lia. Qed.
Lemma countZ_app {A} (p : A -> bool) l k : countZ p (l ++ k) = countZ p l + countZ p k.
Proof. unfold countZ. rewrite List.filter_app, length_app. lia. Qed.
Lemma countZ_perm {A} (p : A -> bool) l k : l ≡ₚ k -> countZ p l = countZ p k.
Proof. induction 1; rewrite ?countZ_cons in *; lia. Qed.

Definition hasName (name : string) (r : ProbeResult) : bool := (ProbeName r =? name)%string.
Definition hasError (name : string) (r : ProbeResult) : bool := hasName name r && IsError (res_Status r).
Definition named (name : string) (s : gmap string string) : bool :=
  bool_decide (s !! "probe.name" = Some name).

Section Totals.
Context (newSet : attributes -> gmap string string) (Hset : attribute_sets newSet).
Context (range : nat -> gmap string string -> attributes).

Lemma counterTotal_app c sel ms ms' :
  counterTotal newSet c sel (ms ++ ms') = counterTotal newSet c sel ms + counterTotal newSet c sel ms'.
Proof. induction ms as [|[] ms IH]; simpl; lia. Qed.

Lemma named_first name v rest :
  "probe.name" ∉ rest.*1 -> named name (newSet (("probe.name", v) :: rest)) = (v =? name)%string.
Proof.
  intros Hn. destruct Hset as [Hl _]. unfold named.
  pose proof (Hl [] rest "probe.name" v Hn) as E. simpl in E. rewrite E.
  destruct (String.eqb_spec v name) as [->|]; [by rewrite bool_decide_eq_true_2|].
  apply bool_decide_eq_false_2. congruence.
Qed.

End Totals.

(** ** Registration *)

(** Running [c] either registers the instruments [infos] and the callbacks [cbs]
    in order and returns [a], or stops at the first answer that is an error. *)
Definition registers {A} (sdk : SDK) (c : Reg A) (infos cbGauges : list InstrumentInfo)
    (cbs : list callback) (a : A) : Prop := forall st,
  (Forall (fun i => meter_Create sdk i = None) infos /\
   Forall (fun i => meter_RegisterCallback sdk i = None) cbGauges /\
   c st = (Ok a, {| reg_inv := reg_inv st ++ infos; reg_callbacks := reg_callbacks st ++ cbs |})) \/
  (exists e st', c st = (Err e, st') /\
   ((exists i, i ∈ infos /\ meter_Create sdk i = Some e) \/
    (exists i, i ∈ cbGauges /\ meter_RegisterCallback sdk i = Some e))).

Lemma registers_create sdk kind name unit desc :
  let i := {| inst_Name := name; inst_Kind := kind; inst_Unit := unit; inst_Description := desc |} in
  registers sdk (recordingCreate sdk kind name unit desc) [i] [] [] i.
Proof.
  intros i st. unfold recordingCreate. fold i. destruct (meter_Create sdk i) as [e|] eqn:E.
  - right. exists e, st. split; [done|]. left. exists i. split; [by apply list_elem_of_singleton|done].
  - left. split_and!; [by repeat constructor|done|]. unfold append. by rewrite app_nil_r.
Qed.

Lemma registers_callback sdk f g : registers sdk (RegisterCallback sdk f g) [] [g] [f] ().
Proof.
  intros st. unfold RegisterCallback. destruct (meter_RegisterCallback sdk g) as [e|] eqn:E.
  - right. exists e, st. split; [done|]. right. exists g. split; [by apply list_elem_of_singleton|done].
  - left. split_and!; [done|by repeat constructor|]. by rewrite app_nil_r.
Qed.

Lemma registers_ret {A} sdk (a : A) : registers sdk (mret a) [] [] [] a.
Proof. intros [inv cbs]. left. split_and!; [done|done|]. simpl. by rewrite !app_nil_r. Qed.

Lemma registers_bind {A B} sdk (c : Reg A) (k : A -> Reg B) js gs cbs a js' gs' cbs' b :
  registers sdk c js gs cbs a -> registers sdk (k a) js' gs' cbs' b ->
  registers sdk (c ≫= k) (js ++ js') (gs ++ gs') (cbs ++ cbs') b.
Proof.
  intros Hc Hk st. unfold mbind, Reg_bind.
  destruct (Hc st) as [(H1 & H2 & ->)|(e & st' & -> & He)].
  - destruct (Hk {| reg_inv := reg_inv st ++ js; reg_callbacks := reg_callbacks st ++ cbs |})
      as [(K1 & K2 & ->)|(e & st' & -> & He)].
    + left. split_and!; [by apply Forall_app|by apply Forall_app|]. simpl. by rewrite !app_assoc.
    + right. exists e, st'. split; [done|]. setoid_rewrite elem_of_app. naive_solver.
  - right. exists e, st'. split; [done|]. setoid_rewrite elem_of_app. naive_solver.
Qed.

(** An SDK that accepts everything. *)
Definition acceptingSDK : SDK := {|
  os_Hostname := inr "probe-host"; resource_New := fun _ => None; promexporter_New := None;
  transport_New := fun _ _ => None; meter_Create := fun _ => None; meter_RegisterCallback := fun _ => None;
  tls_LoadX509KeyPair := fun _ _ => None; os_ReadFile := fun path => inr ("PEM:" +:+ path);
  pool_AppendCertsFromPEM := fun _ => true; runtime_Version := "go1.24"; sdk_unicode := demoUnicode |}.

Definition emptyReg : RegState := {| reg_inv := []; reg_callbacks := [] |}.

(** What a complete registration leaves: the inventory and the handles. *)
Definition inventory : list InstrumentInfo :=
  Eval vm_compute in reg_inv (snd (registerInstruments acceptingSDK "" "" emptyReg)).
Definition stdHandles : Instruments :=
  Eval vm_compute in match fst (registerInstruments acceptingSDK "" "" emptyReg) with
                     | Ok i => i
                     | _ => let x := {| inst_Name := ""; inst_Kind := ""; inst_Unit := ""; inst_Description := "" |} in
                            {| rttMin := x; rttMean := x; rttMax := x; rttStddev := x; packetLoss := x;
                               httpDuration := x; portOpen := x; success := x; probeUp := x; pktSent := x;
                               pktReceived := x; probeRuns := x; probeErrors := x; resultsDropped := x;
                               exporterErrors := x; configReloads := x |}
                     end.
Definition buildInfo : InstrumentInfo := default (rttMin stdHandles) (inventory !! 16%nat).
Definition goroutinesInfo : InstrumentInfo := default (rttMin stdHandles) (inventory !! 17%nat).

Ltac registers_step :=
  first [ eapply (registers_bind _ _ _ _ _ _ _ _ _ _ _ (registers_create _ _ _ _ _))
        | eapply (registers_bind _ _ _ _ _ _ _ _ _ _ _ (registers_callback _ _ _))
        | apply registers_ret ].

Lemma registerInstruments_spec sdk version commit :
  registers sdk (registerInstruments sdk version commit) inventory [buildInfo; goroutinesInfo]
    [(fun _ => [(buildInfo, 1, [("version", version); ("commit", commit); ("goversion", runtime_Version sdk)])]);
     (fun live => [(goroutinesInfo, default 0 live, [])])] stdHandles.
Proof.
  assert (exists js gs cbs a, registers sdk (registerInstruments sdk version commit) js gs cbs a /\
    js = inventory /\ gs = [buildInfo; goroutinesInfo] /\
    cbs = [(fun _ => [(buildInfo, 1, [("version", version); ("commit", commit); ("goversion", runtime_Version sdk)])]);
           (fun live => [(goroutinesInfo, default 0 live, [])])] /\ a = stdHandles)
    as (js & gs & cbs & a & H & -> & -> & -> & ->); [|done].
  eexists _, _, _, _. split.
  { unfold registerInstruments, Float64Gauge, Int64Gauge, Int64Counter, Int64ObservableGauge.
    repeat registers_step. }
  split_and!; reflexivity.
Qed.

(** ** What New returns *)

Definition row (name kind unit desc : string) : InstrumentInfo :=
  {| inst_Name := name; inst_Kind := kind; inst_Unit := unit; inst_Description := desc |}.

(** The instrument table of docs/metrics.md. *)
Definition documentedMetrics : list InstrumentInfo := [
  row "trimon.build.info" "Int64ObservableGauge" ""
    "Build metadata as labels (version, commit, goversion); value is always 1";
  row "trimon.config.reloads" "Int64Counter" "{reloads}"
    "Total configuration reloads";
  row "trimon.exporter.errors" "Int64Counter" "{errors}"
    "Exporter failures to ship a result, labelled by exporter.name";
  row "trimon.probe.duration" "Float64Gauge" "ms"
    "HTTP wall-clock duration from request start to body drain; NaN when no response received or for non-HTTP probes";
  row "trimon.probe.errors" "Int64Counter" "{errors}"
    "Total probe errors, labelled by probe.name and error.type";
  row "trimon.probe.packet_loss" "Float64Gauge" "ratio"
    "Fraction of packets with no reply in the last run; 1.0 on failure, NaN on error";
  row "trimon.probe.packets_received" "Int64Counter" "{packets}"
    "Packets received per probe run; not incremented on error";
  row "trimon.probe.packets_sent" "Int64Counter" "{packets}"
    "Packets sent per probe run; not incremented on error";
  row "trimon.probe.port_open" "Float64Gauge" ""
    "TCP & UDP port reachability; 1 open, 0 closed/no-reply, NaN for other probe types or error";
  row "trimon.probe.results_dropped" "Int64Counter" "{results}"
    "Results dropped when the pipeline buffer is full, labelled by probe.name";
  row "trimon.probe.rtt.max" "Float64Gauge" "ms"
    "Maximum ICMP round-trip time over the last probe run; NaN on failure/error and for HTTP probes";
  row "trimon.probe.rtt.mean" "Float64Gauge" "ms"
    "Mean ICMP round-trip time over the last probe run; NaN on failure/error and for HTTP probes";
  row "trimon.probe.rtt.min" "Float64Gauge" "ms"
    "Minimum ICMP round-trip time over the last probe run; NaN on failure/error and for HTTP probes";
  row "trimon.probe.rtt.stddev" "Float64Gauge" "ms"
    "Standard deviation of ICMP round-trip time over the last probe run; NaN on failure/error and for HTTP probes";
  row "trimon.probe.runs" "Int64Counter" "{runs}"
    "Total probe runs, labelled by probe.name";
  row "trimon.probe.success" "Int64Gauge" ""
    "1 only when status=success (all packets replied), else 0";
  row "trimon.probe.up" "Int64Gauge" ""
    "1 when status=success or partial (at least one reply), else 0";
  row "trimon.scheduler.goroutines" "Int64ObservableGauge" "{goroutines}"
    "Live scheduler goroutine count, observed on each scrape"].

Definition handleNames (i : Instruments) : list string := inst_Name <$>
  [rttMin i; rttMean i; rttMax i; rttStddev i; packetLoss i; httpDuration i; portOpen i; success i; probeUp i;
   pktSent i; pktReceived i; probeRuns i; probeErrors i; resultsDropped i; exporterErrors i; configReloads i].

Definition resourceOf (sdk : SDK) (version : string) : attributes :=
  [("service.name", "trimon"); ("service.version", version);
   ("host.name", match os_Hostname sdk with inr h => h | inl _ => "" end)].

(** What has to go well for the exporter to come up. *)
Record comesUp (sdk : SDK) (cfg : OTLPExporterConfig) (version : string) : Prop := {
  up_resource : resource_New sdk (resourceOf sdk version) = None;
  up_bridge : promexporter_New sdk = None;
  up_transport : otlp_Enabled cfg = true -> exists opts, buildExporter sdk cfg = Ok opts;
  up_instruments : Forall (fun i => meter_Create sdk i = None) documentedMetrics;
  up_callbacks : meter_RegisterCallback sdk buildInfo = None /\
                 meter_RegisterCallback sdk goroutinesInfo = None
}.

Lemma inventory_documented : inventory ≡ₚ documentedMetrics.
Proof. apply (bool_decide_unpack (inventory ≡ₚ documentedMetrics)). vm_compute. exact I. Qed.

Lemma buildReaders_ok sdk cfg rs :
  buildReaders sdk cfg = Ok rs <->
  (otlp_Enabled cfg = false /\ rs = [PrometheusBridge]) \/
  (otlp_Enabled cfg = true /\ exists opts, buildExporter sdk cfg = Ok opts /\
     rs = [PrometheusBridge; PeriodicReader (Protocol cfg) opts (ExportInterval (Batch cfg)) (ExportTimeout (Batch cfg))]).
Proof.
  unfold buildReaders. destruct (otlp_Enabled cfg); [|naive_solver].
  destruct (buildExporter sdk cfg) as [opts|e|q]; simpl; naive_solver.
Qed.

Lemma buildExporter_no_panic sdk cfg : no_panic (buildExporter sdk cfg).
Proof. unfold buildExporter, dialOptions, buildTLSConfig. solve_no_panic. Qed.

Lemma New_ok sdk cfg version commit e :
  New sdk cfg version commit = Ok e ->
  comesUp sdk cfg version /\ buildReaders sdk cfg = Ok (readers e) /\ handles e = stdHandles /\
  instruments e = inventory /\ shutdownTimeout e = ShutdownTimeout cfg /\
  resourceAttrs e = resourceOf sdk version /\
  forall live, scrape e live =
    [(buildInfo, 1, [("version", version); ("commit", commit); ("goversion", runtime_Version sdk)]);
     (goroutinesInfo, default 0 live, [])].
Proof.
  unfold New, newExporter. fold (resourceOf sdk version). cbv zeta. intros H.
  destruct (resource_New _ _) eqn:E1; [done|]. destruct (promexporter_New _) eqn:E2; [done|].
  destruct (buildReaders sdk cfg) as [rs| |] eqn:E3; [|done..]. simpl in H. fold emptyReg in H.
  destruct (registerInstruments_spec sdk version commit emptyReg) as [(H1 & H2 & E)|(e' & st' & E & _)];
    rewrite E in H; [|done].
  injection H as <-. split_and!; try done. split; try done.
  - intros He. apply buildReaders_ok in E3 as [[? _]|(_ & opts & Eo & _)]; [congruence|eauto].
  - by rewrite <- inventory_documented.
  - inversion H2 as [|? ? Ha Hb]; subst. inversion Hb; subst. done.
Qed.

Lemma New_comesUp sdk cfg version commit :
  comesUp sdk cfg version -> exists e, New sdk cfg version commit = Ok e.
Proof.
  intros [H1 H2 H3 H4 [H5 H6]]. unfold New, newExporter. fold (resourceOf sdk version). cbv zeta. rewrite H1, H2.
  assert (exists rs, buildReaders sdk cfg = Ok rs) as [rs ->].
  { destruct (otlp_Enabled cfg) eqn:E.
    - destruct (H3 eq_refl) as [opts Eo]. eexists. apply buildReaders_ok. eauto.
    - eexists. apply buildReaders_ok. eauto. }
  simpl. fold emptyReg. rewrite <- inventory_documented, Forall_forall in H4.
  destruct (registerInstruments_spec sdk version commit emptyReg) as [(_ & _ & ->)|(e & st' & _ & [(i & Hi & He)|(i & Hi & He)])].
  - eauto.
  - rewrite (H4 i Hi) in He. done.
  - rewrite !elem_of_cons, elem_of_nil in Hi. destruct Hi as [->|[->|[]]]; congruence.
Qed.

(** What [New] leaves behind: a running provider with the exporter's readers, or
    none. *)
Lemma New_provider sdk cfg version commit :
  match newExporter sdk cfg version commit with
  | (Ok e, calls) => calls = [NewMeterProvider (readers e)]
  | (Err _, calls) => calls = [] \/ exists rs, calls = [NewMeterProvider rs; Shutdown None]
  | (Panic _, _) => False
  end.
Proof.
  unfold newExporter. fold (resourceOf sdk version). cbv zeta.
  destruct (resource_New _ _); [by left|]. destruct (promexporter_New _); [by left|].
  destruct (buildReaders sdk cfg) as [rs| |] eqn:E; [|by left|].
  - fold emptyReg.
    destruct (registerInstruments_spec sdk version commit emptyReg) as [(_ & _ & ->)|(e & st' & -> & _)]; eauto.
  - revert E. unfold buildReaders. destruct (otlp_Enabled cfg); [|done].
    pose proof (buildExporter_no_panic sdk cfg) as Hp. destruct (buildExporter sdk cfg) as [| |q]; simpl; [done..|].
    intros _. by apply (Hp q).
Qed.

(** C19: the exporter comes up exactly when the SDK accepts the resource, the
    bridge, the transport (when OTLP is enabled) and every instrument of the
    table in docs/metrics.md; it then has registered precisely those
    instruments, each once, under the handles [Export] records to, its readers
    are the Prometheus bridge and, when enabled, the OTLP reader with the
    configured interval and timeout, and a scrape observes the build
    information and the live goroutine count.  It never panics, and a provider
    it started and cannot use is shut down. *)
Theorem otlp_New_exact sdk cfg version commit :
  ((exists e, New sdk cfg version commit = Ok e) <-> comesUp sdk cfg version) /\
  (forall e, New sdk cfg version commit = Ok e ->
    instruments e ≡ₚ documentedMetrics /\ NoDup (inst_Name <$> instruments e) /\
    inst_Name <$> instruments e =
      handleNames (handles e) ++ ["trimon.build.info"; "trimon.scheduler.goroutines"] /\
    readers e = PrometheusBridge ::
      (if otlp_Enabled cfg
       then [PeriodicReader (Protocol cfg) (match buildExporter sdk cfg with Ok o => o | _ => [] end)
               (ExportInterval (Batch cfg)) (ExportTimeout (Batch cfg))]
       else []) /\
    forall live, scrape e live =
      [(buildInfo, 1, [("version", version); ("commit", commit); ("goversion", runtime_Version sdk)]);
       (goroutinesInfo, default 0 live, [])]) /\
  match newExporter sdk cfg version commit with
  | (Ok e, calls) => calls = [NewMeterProvider (readers e)]
  | (Err _, calls) => calls = [] \/ exists rs, calls = [NewMeterProvider rs; Shutdown None]
  | (Panic _, _) => False
  end.
Proof.
  split; [|split; [|apply New_provider]].
  - split; [|apply New_comesUp]. intros [e H]. by apply New_ok in H as [? _].
  - intros e H. apply New_ok in H as (_ & Hr & Hh & Hi & _ & _ & Hs). rewrite Hi, Hh.
    split_and!; [apply inventory_documented|by apply (bool_decide_unpack _)|reflexivity| |done].
    apply buildReaders_ok in Hr as [[-> ->]|(-> & opts & -> & ->)]; done.
Qed.

(** ** What a sequence of exported results adds up to *)

Section ExportTotals.
Context (newSet : attributes -> gmap string string) (Hset : attribute_sets newSet).
Context (range : nat -> gmap string string -> attributes).

(** The share of one call in each counter. *)
Lemma Export_total rg r c sel :
  counterTotal newSet c sel (Export stdHandles rg r) =
  (if (c =? "trimon.probe.runs")%string && sel (newSet [("probe.name", ProbeName r)]) then 1 else 0) +
  (if IsError (res_Status r) then
     (if (c =? "trimon.probe.errors")%string &&
         sel (newSet [("probe.name", ProbeName r);
                      ("error.type", if (ErrorType r =? "")%string then "unknown" else ErrorType r)])
      then 1 else 0)
   else (if (c =? "trimon.probe.packets_sent")%string && sel (newSet (buildAttrs rg r)) then PacketsSent r else 0) +
        (if (c =? "trimon.probe.packets_received")%string && sel (newSet (buildAttrs rg r))
         then PacketsReceived r else 0)).
Proof.
  unfold Export.
  destruct (if IsUp (res_Status r) then _ else _) as [up suc].
  destruct (match m_RTT (measured r) with Some _ => _ | None => _ end) as [[[mn mean] mx] sd].
  rewrite !counterTotal_app. cbn [counterTotal app].
  destruct (IsError (res_Status r)); cbn [negb counterTotal stdHandles probeRuns probeErrors pktSent pktReceived inst_Name];
    rewrite !(String.eqb_sym c); lia.
Qed.

Lemma exportAll_runs n name rs :
  counterTotal newSet "trimon.probe.runs" (named name) (exportAll stdHandles range n rs) =
  countZ (hasName name) rs.
Proof.
  revert n. induction rs as [|r rs IH]; intros n; [done|]. cbn [exportAll].
  rewrite counterTotal_app, Export_total, IH, countZ_cons. cbn [String.eqb Ascii.eqb Bool.eqb andb].
  rewrite (named_first newSet Hset) by apply not_elem_of_nil.
  unfold hasName. destruct (_ =? _)%string, (IsError _); simpl; lia.
Qed.

Lemma exportAll_errors n name rs :
  counterTotal newSet "trimon.probe.errors" (named name) (exportAll stdHandles range n rs) =
  countZ (hasError name) rs.
Proof.
  revert n. induction rs as [|r rs IH]; intros n; [done|]. cbn [exportAll].
  rewrite counterTotal_app, Export_total, IH, countZ_cons. cbn [String.eqb Ascii.eqb Bool.eqb andb].
  rewrite (named_first newSet Hset).
  2: { simpl. rewrite elem_of_cons, elem_of_nil. naive_solver. }
  unfold hasError, hasName. destruct (_ =? _)%string, (IsError _); simpl; lia.
Qed.

(** Packets: never more received than sent, in any set of series. *)
Lemma exportAll_packets n sel rs :
  Forall (fun r => 0 <= PacketsReceived r <= PacketsSent r) rs ->
  0 <= counterTotal newSet "trimon.probe.packets_received" sel (exportAll stdHandles range n rs)
    <= counterTotal newSet "trimon.probe.packets_sent" sel (exportAll stdHandles range n rs).
Proof.
  revert n. induction rs as [|r rs IH]; intros n Hr; [done|]. apply Forall_cons in Hr as [Hr Hrs].
  cbn [exportAll]. rewrite !counterTotal_app, !Export_total. cbn [String.eqb Ascii.eqb Bool.eqb andb].
  specialize (IH (S n) Hrs). destruct (IsError _), (sel (newSet (buildAttrs (range n) r))); lia.
Qed.
End ExportTotals.

(** The series of the dropped-results counter. *)
Definition recordDropped (i : Instruments) (names : list string) : list Measurement :=
  concat (RecordDroppedResult i <$> names).

Lemma recordDropped_total newSet name names :
  attribute_sets newSet ->
  counterTotal newSet "trimon.probe.results_dropped" (named name) (recordDropped stdHandles names) =
  countZ (fun n => (n =? name)%string) names.
Proof.
  intros Hset. induction names as [|n names IH]; [done|]. unfold recordDropped in *. cbn [fmap list_fmap concat].
  rewrite counterTotal_app, IH, countZ_cons. cbn [RecordDroppedResult counterTotal stdHandles resultsDropped inst_Name].
  cbn [String.eqb Ascii.eqb Bool.eqb andb]. rewrite (named_first newSet Hset) by apply not_elem_of_nil. lia.
Qed.

(** ** The gauges *)

(** The value a gauge shows after the measurements [ms]: the last one recorded. *)
Fixpoint gaugeFloat (g : string) (ms : list Measurement) : option float64 :=
  match ms with
  | [] => None
  | RecordFloat i x _ :: ms' =>
      match gaugeFloat g ms' with
      | Some y => Some y
      | None => if (inst_Name i =? g)%string then Some x else None
      end
  | _ :: ms' => gaugeFloat g ms'
  end.
Fixpoint gaugeInt (g : string) (ms : list Measurement) : option Z :=
  match ms with
  | [] => None
  | RecordInt i x _ :: ms' =>
      match gaugeInt g ms' with
      | Some y => Some y
      | None => if (inst_Name i =? g)%string then Some x else None
      end
  | _ :: ms' => gaugeInt g ms'
  end.

Lemma Export_gauges rg r :
  let ms := Export stdHandles rg r in
  let rtt f := Some (match m_RTT (measured r) with Some t => f t | None => NaN end) in
  gaugeFloat "trimon.probe.rtt.min" ms = rtt MinMS /\
  gaugeFloat "trimon.probe.rtt.mean" ms = rtt MeanMS /\
  gaugeFloat "trimon.probe.rtt.max" ms = rtt MaxMS /\
  gaugeFloat "trimon.probe.rtt.stddev" ms = rtt StddevMS /\
  gaugeFloat "trimon.probe.packet_loss" ms = Some (orNaN (m_Loss (measured r))) /\
  gaugeFloat "trimon.probe.duration" ms = Some (orNaN (m_Duration (measured r))) /\
  gaugeFloat "trimon.probe.port_open" ms = Some (portOpenValue (PortOpen r)) /\
  gaugeInt "trimon.probe.up" ms = Some (if IsUp (res_Status r) then 1 else 0) /\
  gaugeInt "trimon.probe.success" ms = Some (if IsSuccess (res_Status r) then 1 else 0).
Proof.
  unfold Export. destruct (m_RTT (measured r)), (res_Status r); cbn; split_and!; reflexivity.
Qed.

Definition isUpGauge (r : ProbeResult) : Z := if IsUp (res_Status r) then 1 else 0.


(** ** Transport security *)

(** a CA file without a client certificate is ignored.  The configuration
    passes validation and the TLS settings built from it alone would trust
    exactly that CA, but both transports look at the certificate file only: they
    dial without those settings, with the system's root certificates. *)
Theorem otlp_ca_only_ignored sdk cfg ca :
  validateOTLP cfg = Ok () -> Insecure cfg = false -> CertFile (TLS cfg) = "" ->
  CAFile (TLS cfg) <> "" -> os_ReadFile sdk (CAFile (TLS cfg)) = inr ca ->
  pool_AppendCertsFromPEM sdk ca = true ->
  buildTLSConfig sdk (TLS cfg) =
    Ok {| MinVersion := VersionTLS12; Certificates := []; RootCAs := Some ca |} /\
  dialOptions sdk cfg = Ok [WithEndpoint (Endpoint cfg);
                            WithRetry (retry_Enabled (Retry cfg)) (MaxElapsedTime (Retry cfg))].
Proof.
  intros _ Hi Hc Ha Hr Hp. unfold dialOptions, buildTLSConfig. rewrite Hi, Hc, Hr.
  rewrite (proj2 (String.eqb_neq _ _) Ha). simpl. by rewrite Hp.
Qed.

(** ** Concrete instances *)

Definition demoSet (kvs : attributes) : gmap string string := list_to_map (reverse kvs).

Lemma demo_sets : attribute_sets demoSet.
Proof.
  unfold demoSet. split.
  - intros kvs kvs' k v Hk. rewrite reverse_app, reverse_cons, <- app_assoc, list_to_map_app. simpl.
    rewrite lookup_union, lookup_insert_eq.
    rewrite (not_elem_of_list_to_map_1 (reverse kvs') k); [done|]. by rewrite fmap_reverse, elem_of_reverse.
  - intros kvs k Hk. apply not_elem_of_list_to_map_1. by rewrite fmap_reverse, elem_of_reverse.
Qed.

Lemma demo_ranges : ranges map_to_list.
Proof. by intros m. Qed.

Definition demoResult (name : string) (labels : gmap string string) (port : option bool) : ProbeResult := {|
  Timestamp := 1700000000 * 1000000000; ProbeName := name; Target := "192.0.2.1"; FQDN := "dual.example";
  res_SourceIP := ""; ProbeType := "tcp"; PacketsSent := 2; PacketsReceived := 1;
  RTTMinMS := f64 3; RTTMeanMS := f64 3; RTTMaxMS := f64 3; RTTStddevMS := f64 0; DurationMS := f64 0;
  PacketLossRatio := fdiv (f64 1) (f64 2); PortOpen := port; res_Status := StatusPartial;
  ErrorMsg := ""; ErrorType := ""; res_Labels := Some labels |}.

Lemma demo_unreserved name : unreserved (demoResult name {["site" := "lab"]} None).
Proof.
  intros k Hk. change (({["site" := "lab"]} : gmap string string) !! k = None). apply lookup_singleton_ne.
  intros <-. revert Hk. by apply (bool_decide_unpack ("site" ∉ reservedKeys)).
Qed.

Lemma otlp_series_identity_witness :
  demoSet (buildAttrs map_to_list (demoResult "web" {["site" := "lab"]} None)) <>
  demoSet (buildAttrs map_to_list (demoResult "api" {["site" := "lab"]} None)).
Proof.
  intros E. apply (otlp_series_identity demoSet map_to_list map_to_list) in E;
    [by destruct E as [E _]|apply demo_sets|apply demo_ranges|apply demo_ranges|apply demo_unreserved..].
Defined.

Lemma otlp_label_shadows_identity_witness :
  validateLabel ("probe.name", "all") = Ok () /\
  demoSet (buildAttrs map_to_list (demoResult "web" {["probe.name" := "all"]} None)) =
  demoSet (buildAttrs map_to_list (demoResult "api" {["probe.name" := "all"]} None)).
Proof.
  destruct (otlp_label_shadows_identity demoSet map_to_list (demoResult "api" {["probe.name" := "all"]} None)
    "web" "all" demo_sets demo_ranges) as (H1 & _ & H2); [reflexivity..|].
  split; [exact H1|exact H2].
Defined.

Definition demoTcpLikeConfig : ProbeConfig := {|
  Name := "web"; Type_ := "tcp"; Targets := ["dual.example"]; MaxResolvedIPs := 0; SourceIP := "";
  Interval := 30 * Second; PacketInterval := 1 * Second; Timeout := 5 * Second; Count := 2; Labels := Some ∅;
  HTTP := None; TCP := Some {| tcp_Port := 443; tcp_Mode := TCPModeConnect |}; UDP := None; DNS := None |}.

Lemma demo_result_ok : result_ok demoTcpLikeConfig "tcp" (demoResult "web" ∅ (Some true)).
Proof. split; try done. Qed.


Definition caOnlyConfig : OTLPExporterConfig := {|
  otlp_Enabled := true; Endpoint := "collector:4317"; Protocol := "grpc"; Insecure := false;
  TLS := {| CertFile := ""; KeyFile := ""; CAFile := "/etc/ca.pem" |};
  Batch := {| ExportInterval := 10 * Second; ExportTimeout := 5 * Second |};
  Retry := {| retry_Enabled := true; MaxElapsedTime := 60 * Second |}; ShutdownTimeout := 5 * Second |}.

Lemma otlp_ca_only_ignored_witness :
  exists e, New acceptingSDK caOnlyConfig "1.0" "abc" = Ok e /\
  (forall c, dialOptions acceptingSDK caOnlyConfig <> Ok [WithTLS c]).
Proof.
  destruct (otlp_ca_only_ignored acceptingSDK caOnlyConfig "PEM:/etc/ca.pem") as [_ H];
    [reflexivity..|discriminate|reflexivity|reflexivity|].
  eexists. split; [vm_compute; reflexivity|]. intros c E. rewrite H in E. discriminate.
Defined.
