(* ===== verification/Stdout.v ===== *)
(** * internal/exporter/stdout/stdout.go: results as JSON records or text lines.

    The writer is the argument [write]: the error of writing one record, if
    any.  The exporter's state is that of its [json.Encoder], which keeps the
    first write error and refuses everything after it.  A JSON record is modelled
    at the level of its members (GoFmt.v), a text line character by character. *)

From S2P Require Import Prelude.
From S2P Require Import GoStrings.
From S2P Require Import Float64.
From S2P Require Import GoFmt.
From S2P Require Import Types.
From S2P Require Import Prober.
From S2P Require Import Config.
From S2P Require Import Otlp.

Record jsonRecord := {
  j_TS : string;
  j_Probe : string;
  j_Type : string;
  j_Target : string;
  j_FQDN : string;
  j_SourceIP : string;
  j_Status : string;
  j_DurationMS : option float64;
  j_RTTMeanMS : option float64;
  j_RTTMinMS : option float64;
  j_RTTMaxMS : option float64;
  j_RTTStddevMS : option float64;
  j_PacketLoss : option float64;
  j_ErrorMsg : string;
  j_ErrorType : string;
  j_Labels : gmap string string
}.

(** The struct tags. *)
Definition marshalRecord (j : jsonRecord) : JSON := JObject (
  [("ts", JString (j_TS j)); ("probe", JString (j_Probe j)); ("type", JString (j_Type j));
   ("target", JString (j_Target j))] ++
  omitString "fqdn" (j_FQDN j) ++
  [("source_ip", JString (j_SourceIP j)); ("status", JString (j_Status j))] ++
  omitNil "duration_ms" (j_DurationMS j) ++ omitNil "rtt_mean_ms" (j_RTTMeanMS j) ++
  omitNil "rtt_min_ms" (j_RTTMinMS j) ++ omitNil "rtt_max_ms" (j_RTTMaxMS j) ++
  omitNil "rtt_stddev_ms" (j_RTTStddevMS j) ++ omitNil "packet_loss" (j_PacketLoss j) ++
  omitString "error_msg" (j_ErrorMsg j) ++ omitString "error_type" (j_ErrorType j) ++
  [("labels", JMap (j_Labels j))]).

(** What an exporter writes. *)
Inductive Record_ := JsonLine (j : JSON) | TextLine (s : string).

Definition jsonRecordOf (r : ProbeResult) : jsonRecord :=
  let m := measured r in
  {| j_TS := formatRFC3339 (Timestamp r); j_Probe := ProbeName r; j_Type := ProbeType r; j_Target := Target r;
     j_FQDN := FQDN r; j_SourceIP := res_SourceIP r; j_Status := statusString (res_Status r);
     j_DurationMS := m_Duration m;
     j_RTTMeanMS := MeanMS <$> m_RTT m; j_RTTMinMS := MinMS <$> m_RTT m;
     j_RTTMaxMS := MaxMS <$> m_RTT m; j_RTTStddevMS := StddevMS <$> m_RTT m;
     j_PacketLoss := m_Loss m; j_ErrorMsg := ErrorMsg r; j_ErrorType := ErrorType r;
     j_Labels := default ∅ (res_Labels r) |}.

(** The exporter: its format and the error its encoder keeps; [New], [Name] and
    [Close]. *)
Record StdoutExporter := { so_format : string; so_encErr : option string }.

Definition NewStdout (format : string) : StdoutExporter := {| so_format := format; so_encErr := None |}.
Definition stdoutName : string := "stdout".
Definition stdoutClose (e : StdoutExporter) : option string := None.

(** What a call does: the exporter after it, the records handed to the writer,
    and the error returned. *)
Definition exportResult : Type := StdoutExporter * list Record_ * option string.

(** [enc.Encode(rec)]: the kept error first; then a value that cannot be encoded
    is an error, not kept, and nothing is written; then the write, whose error
    is kept. *)
Definition writeJSON (x : StdoutExporter) (write : Record_ -> option string) (r : ProbeResult) : exportResult :=
  match so_encErr x with
  | Some e => (x, [], Some e)
  | None =>
      let doc := marshalRecord (jsonRecordOf r) in
      match encodeError doc with
      | Some e => (x, [], Some e)
      | None =>
          let err := write (JsonLine doc) in
          ({| so_format := so_format x; so_encErr := err |}, [JsonLine doc], err)
      end
  end.

Definition newline : string := String (chr 10) "".

Definition textPrefix (r : ProbeResult) : string :=
  let fqdnText := if (FQDN r =? "")%string then "" else " fqdn=" +:+ FQDN r in
  let lossText := match m_Loss (measured r) with
                  | None => ""
                  | Some loss => " loss=" +:+ fmtFixed 0 (fmul loss (f64 100)) +:+ "%"
                  end in
  formatRFC3339 (Timestamp r) +:+ " probe=" +:+ ProbeName r +:+ " type=" +:+ ProbeType r +:+
  " target=" +:+ Target r +:+ fqdnText +:+ " src=" +:+ res_SourceIP r +:+
  " status=" +:+ statusString (res_Status r) +:+ lossText.

Definition errPart (u : UnicodeTables) (r : ProbeResult) : string :=
  if (ErrorMsg r =? "")%string then "" else " error=" +:+ Quote u (ErrorMsg r).

Definition textLine (u : UnicodeTables) (r : ProbeResult) : string :=
  if (ProbeType r =? ProbeTypeHTTP)%string then
    textPrefix r +:+ " duration=" +:+ fmtFixed 2 (DurationMS r) +:+ "ms" +:+ errPart u r +:+ newline
  else
    textPrefix r +:+ " rtt_mean=" +:+ fmtFixed 2 (RTTMeanMS r) +:+ "ms" +:+
    " rtt_min=" +:+ fmtFixed 2 (RTTMinMS r) +:+ "ms" +:+
    " rtt_max=" +:+ fmtFixed 2 (RTTMaxMS r) +:+ "ms" +:+ errPart u r +:+ newline.

Definition writeText (u : UnicodeTables) (x : StdoutExporter) (write : Record_ -> option string) (r : ProbeResult)
    : exportResult :=
  (x, [TextLine (textLine u r)], write (TextLine (textLine u r))).

Definition Export (u : UnicodeTables) (x : StdoutExporter) (write : Record_ -> option string) (r : ProbeResult)
    : exportResult :=
  if (so_format x =? "json")%string then writeJSON x write r else writeText u x write r.

(** The calls of [Export] for the results [rs], the first one being the [n]-th:
    the exporter after them, the records handed to the writer and the errors
    returned. *)
Fixpoint Exports (u : UnicodeTables) (x : StdoutExporter) (write : nat -> Record_ -> option string) (n : nat)
    (rs : list ProbeResult) : StdoutExporter * list Record_ * list (option string) :=
  match rs with
  | [] => (x, [], [])
  | r :: rest =>
      let '(x', written, err) := Export u x (write n) r in
      let '(x'', written', errs) := Exports u x' write (S n) rest in
      (x'', written ++ written', err :: errs)
  end.

(** ** The two exporters agree *)

(** The JSON members and the gauges for the same observation. *)
Definition observations : list (string * string) :=
  [("rtt_min_ms", "trimon.probe.rtt.min"); ("rtt_mean_ms", "trimon.probe.rtt.mean");
   ("rtt_max_ms", "trimon.probe.rtt.max"); ("rtt_stddev_ms", "trimon.probe.rtt.stddev");
   ("packet_loss", "trimon.probe.packet_loss"); ("duration_ms", "trimon.probe.duration")].

Definition jsonFloat (key : string) (j : JSON) : option float64 :=
  match j with
  | JObject members => match member key members with Some (JFloat x) => Some x | _ => None end
  | _ => None
  end.

Lemma member_app key l k : member key (l ++ k) = match member key l with Some v => Some v | None => member key k end.
Proof. induction l as [|[k' v] l IH]; [done|]. simpl. by destruct (_ =? _)%string. Qed.

Lemma member_omitString key k s :
  member key (omitString k s) = if (k =? key)%string && negb (s =? "")%string then Some (JString s) else None.
Proof. unfold omitString. destruct (s =? "")%string; simpl; by destruct (k =? key)%string. Qed.

Lemma member_omitNil key k x :
  member key (omitNil k x) = if (k =? key)%string then JFloat <$> x else None.
Proof. destruct x; simpl; by destruct (k =? key)%string. Qed.

Lemma record_floats (j : jsonRecord) :
  jsonFloat "rtt_min_ms" (marshalRecord j) = j_RTTMinMS j /\
  jsonFloat "rtt_mean_ms" (marshalRecord j) = j_RTTMeanMS j /\
  jsonFloat "rtt_max_ms" (marshalRecord j) = j_RTTMaxMS j /\
  jsonFloat "rtt_stddev_ms" (marshalRecord j) = j_RTTStddevMS j /\
  jsonFloat "packet_loss" (marshalRecord j) = j_PacketLoss j /\
  jsonFloat "duration_ms" (marshalRecord j) = j_DurationMS j.
Proof.
  unfold jsonFloat, marshalRecord. rewrite !member_app, !member_omitString, !member_omitNil.
  destruct (j_RTTMinMS j), (j_RTTMeanMS j), (j_RTTMaxMS j), (j_RTTStddevMS j), (j_PacketLoss j), (j_DurationMS j);
    split_and!; reflexivity.
Qed.

Definition finiteOpt (x : option float64) : bool := match x with Some v => finite v | None => true end.

(** Every observation is a number JSON can write. *)
Definition finiteObservations (r : ProbeResult) : bool :=
  let j := jsonRecordOf r in
  forallb finiteOpt [j_DurationMS j; j_RTTMeanMS j; j_RTTMinMS j; j_RTTMaxMS j; j_RTTStddevMS j; j_PacketLoss j].

Lemma encodeError_app l k :
  encodeError (JObject (l ++ k)) = None <-> encodeError (JObject l) = None /\ encodeError (JObject k) = None.
Proof.
  induction l as [|[key v] l IH]; simpl; [naive_solver|]. simpl in IH. destruct (encodeError v); naive_solver.
Qed.
Lemma encodeError_omitString key s : encodeError (JObject (omitString key s)) = None.
Proof. unfold omitString. by destruct (s =? "")%string. Qed.
Lemma encodeError_omitNil key x : encodeError (JObject (omitNil key x)) = None <-> finiteOpt x = true.
Proof. destruct x as [v|]; simpl; [by destruct (finite v)|done]. Qed.

Lemma encodeError_record j :
  encodeError (marshalRecord j) = None <->
  forallb finiteOpt [j_DurationMS j; j_RTTMeanMS j; j_RTTMinMS j; j_RTTMaxMS j; j_RTTStddevMS j; j_PacketLoss j] = true.
Proof.
  unfold marshalRecord.
  repeat rewrite encodeError_app. rewrite !encodeError_omitNil, !encodeError_omitString.
  cbn [forallb]. rewrite !andb_true_iff. simpl. intuition.
Qed.

Lemma writeJSON_open x write r :
  so_encErr x = None ->
  if finiteObservations r
  then writeJSON x write r =
         ({| so_format := so_format x; so_encErr := write (JsonLine (marshalRecord (jsonRecordOf r))) |},
          [JsonLine (marshalRecord (jsonRecordOf r))], write (JsonLine (marshalRecord (jsonRecordOf r))))
  else exists e, writeJSON x write r = (x, [], Some e).
Proof.
  intros Hx. unfold writeJSON. rewrite Hx. pose proof (encodeError_record (jsonRecordOf r)) as He.
  fold (finiteObservations r) in He. destruct (finiteObservations r).
  - by rewrite (proj2 He eq_refl).
  - destruct (encodeError _) as [e|]; [by exists e|]. by destruct He as [He _]; specialize (He eq_refl).
Qed.

(** Once the encoder keeps an error, it is all that is ever returned. *)
Lemma Exports_kept u x write n rs e :
  so_format x = "json" -> so_encErr x = Some e ->
  Exports u x write n rs = (x, [], replicate (length rs) (Some e)).
Proof.
  intros Hf He. revert n. induction rs as [|r rs IH]; intros n; [done|]. cbn [Exports].
  unfold Export, writeJSON. rewrite Hf, He. simpl. by rewrite IH.
Qed.

Lemma Exports_text u x write n rs :
  so_format x <> "json" ->
  Exports u x write n rs =
    (x, (fun r => TextLine (textLine u r)) <$> rs, imap (fun i r => write (n + i)%nat (TextLine (textLine u r))) rs).
Proof.
  intros Hf%String.eqb_neq. revert n. induction rs as [|r rs IH]; intros n; [done|]. cbn [Exports].
  unfold Export, writeText. rewrite Hf. simpl. rewrite IH, Nat.add_0_r. f_equal. f_equal.
  apply imap_ext. intros i y _. simpl. by rewrite Nat.add_succ_r.
Qed.


(** ** Text lines show unmeasured values *)

(** a text line prints 0.00ms for statistics that were not measured.  For a
    multi-packet result without replies, whose statistics are the zero values,
    nothing is measured (the gauges are NaN and the JSON members are missing),
    but the line still reads rtt_mean=0.00ms rtt_min=0.00ms rtt_max=0.00ms,
    although such values are documented as skipped. *)
Theorem stdout_text_shows_unmeasured u r :
  ProbeType r <> ProbeTypeHTTP -> PacketsReceived r = 0 ->
  RTTMeanMS r = f64_zero -> RTTMinMS r = f64_zero -> RTTMaxMS r = f64_zero ->
  m_RTT (measured r) = None /\
  textLine u r = textPrefix r +:+ " rtt_mean=0.00ms rtt_min=0.00ms rtt_max=0.00ms" +:+ errPart u r +:+ newline.
Proof.
  intros Ht Hr H1 H2 H3. apply String.eqb_neq in Ht. unfold measured, textLine. rewrite Ht, Hr, H1, H2, H3.
  split; reflexivity.
Qed.

(** ** Concrete instances *)

Definition demoLost : ProbeResult := {|
  Timestamp := 1700000000 * 1000000000; ProbeName := "gw"; Target := "192.0.2.1"; FQDN := "";
  res_SourceIP := ""; ProbeType := "icmp"; PacketsSent := 3; PacketsReceived := 0;
  RTTMinMS := f64_zero; RTTMeanMS := f64_zero; RTTMaxMS := f64_zero; RTTStddevMS := f64_zero; DurationMS := f64_zero;
  PacketLossRatio := f64 1; PortOpen := None; res_Status := StatusFailure;
  ErrorMsg := ""; ErrorType := ""; res_Labels := None |}.

Example demoLost_text : textLine demoUnicode demoLost =
  "2023-11-14T22:13:20Z probe=gw type=icmp target=192.0.2.1 src= status=failure loss=100% rtt_mean=0.00ms rtt_min=0.00ms rtt_max=0.00ms" +:+ newline.
Proof. reflexivity. Qed.

Lemma stdout_text_shows_unmeasured_witness :
  m_RTT (measured demoLost) = None /\
  textLine demoUnicode demoLost =
    textPrefix demoLost +:+ " rtt_mean=0.00ms rtt_min=0.00ms rtt_max=0.00ms" +:+ "" +:+ newline.
Proof.
  exact (stdout_text_shows_unmeasured demoUnicode demoLost ltac:(discriminate) eq_refl eq_refl eq_refl eq_refl).
Defined.

(** A full disk at the second record: the third is refused with the same error. *)
Definition fullDisk (n : nat) (_ : Record_) : option string :=
  match n with 1%nat => Some "no space left on device" | _ => None end.

