(* ===== verification/MetricsDoc.v ===== *)
(** * internal/metricsdoc/metricsdoc.go and cmd/gen-metrics-docs/main.go: the
    generated instrument table of docs/metrics.md.

    [otlptranslator] is the parameter [build].  [sort.Slice] is not stable; the
    names of an inventory are distinct, so its result is the only sorted
    permutation ([sortedRows_unique]) and [merge_sort] computes it.  Documents
    are byte lists. *)

From S2P Require Import Prelude.
From S2P Require Import GoStrings.
From S2P Require Import Types.
From S2P Require Import Config.
From S2P Require Import ConfigLoad.
From S2P Require Import Otlp.
From stdpp Require Import sorting.
From Stdlib Require Import Ascii.

Abbreviation bytes := (list ascii) (only parsing).

Definition toBytes (s : string) : bytes := String.list_ascii_of_string s.

Definition beginMarker : string := "<!-- BEGIN GENERATED: instruments -->".
Definition endMarker : string := "<!-- END GENERATED: instruments -->".

(** ** Names *)

Inductive MetricType := MetricTypeMonotonicCounter | MetricTypeGauge.

Definition metricType (u : UnicodeTables) (kind : string) : res string MetricType :=
  if (kind =? "Int64Counter")%string then Ok MetricTypeMonotonicCounter
  else if (kind =? "Float64Gauge")%string || (kind =? "Int64Gauge")%string || (kind =? "Int64ObservableGauge")%string
  then Ok MetricTypeGauge
  else Err ("unknown instrument kind " +:+ Quote u kind).

Section Table.
Context (u : UnicodeTables).
(** [namer.Build(Metric{Name, Unit, Type})]. *)
Context (build : string -> string -> MetricType -> string + string).

Definition PrometheusName (info : InstrumentInfo) : res string string :=
  mt ← metricType u (inst_Kind info);
  match build (inst_Name info) (inst_Unit info) mt with
  | inl e => Err ("derive prometheus name for " +:+ Quote u (inst_Name info) +:+ ": " +:+ e)
  | inr name => Ok name
  end.

(** ** The table *)

Definition byName (a b : InstrumentInfo) : Prop := String.le (inst_Name a) (inst_Name b).

#[global] Instance byName_dec a b : Decision (byName a b).
Proof. unfold byName. apply _. Defined.

Definition sortedRows (inv : list InstrumentInfo) : list InstrumentInfo := merge_sort byName inv.

Definition nl : string := String (chr 10) "".

Definition renderRow (i : InstrumentInfo) (promName : string) : string :=
  let unit := if (inst_Unit i =? "")%string then "—" else "`" +:+ inst_Unit i +:+ "`" in
  "| `" +:+ inst_Name i +:+ "` | " +:+ inst_Kind i +:+ " | " +:+ unit +:+ " | `" +:+ promName +:+ "` | " +:+
  inst_Description i +:+ " |" +:+ nl.

Fixpoint renderRows (rows : list InstrumentInfo) (b : string) : res string string :=
  match rows with
  | [] => Ok b
  | i :: rest => promName ← PrometheusName i; renderRows rest (b +:+ renderRow i promName)
  end.

Definition tableHead : string :=
  "| OTel name | Kind | Unit | Prometheus name | Description |" +:+ nl +:+
  "|-----------|------|------|-----------------|-------------|" +:+ nl.

Definition RenderTable (inv : list InstrumentInfo) : res string string :=
  renderRows (sortedRows inv) tableHead.
End Table.

(** ** Splicing *)

(** [strings.Index]: the first position at which [sub] occurs. *)
Fixpoint hasPrefix (s sub : bytes) {struct sub} : bool :=
  match sub, s with
  | [], _ => true
  | c :: sub', d :: s' => Ascii.eqb c d && hasPrefix s' sub'
  | _ :: _, [] => false
  end.

Fixpoint indexFrom (i : nat) (s sub : bytes) : option nat :=
  if hasPrefix s sub then Some i
  else match s with [] => None | _ :: s' => indexFrom (S i) s' sub end.

Definition Index (s sub : bytes) : option nat := indexFrom 0 s sub.

Definition Splice (u : UnicodeTables) (doc : bytes) (table : string) : res string bytes :=
  match Index doc (toBytes beginMarker) with
  | None => Err ("begin marker " +:+ Quote u beginMarker +:+ " not found")
  | Some bi =>
      match Index doc (toBytes endMarker) with
      | None => Err ("end marker " +:+ Quote u endMarker +:+ " not found")
      | Some ei =>
          failif (ei <? bi)%nat with "end marker precedes begin marker";;
          Ok (take (bi + length (toBytes beginMarker)) doc ++ toBytes nl ++ toBytes table ++ drop ei doc)
      end
  end.

(** ** The generator *)

(** [moduleRoot]: [dir] is the working directory, innermost component first;
    [stat] tells whether the directory contains go.mod. *)
Fixpoint moduleRoot (stat : list string -> bool) (dir : list string) : res string (list string) :=
  if stat dir then Ok dir
  else match dir with
       | [] => Err "go.mod not found from working directory upward"
       | _ :: parent => moduleRoot stat parent
       end.

Definition pathString (dir : list string) : string := "/" +:+ GoStrings.Join (reverse dir) "/".

(** [run]; the result is the file written and its new content. *)
Definition run (u : UnicodeTables) (build : string -> string -> MetricType -> string + string) (sdk : SDK)
    (getwd : string + list string) (stat : list string -> bool)
    (readFile : list string -> string + bytes) (writeFile : list string -> bytes -> option string)
    : res string (list string * bytes) :=
  cwd ← match getwd with inl e => Err ("getwd: " +:+ e) | inr d => Ok d end;
  root ← moduleRoot stat cwd;
  let docPath := "metrics.md" :: "docs" :: root in
  exp ← wrapErr (fun e => "build exporter: " +:+ e)
          (New sdk {| otlp_Enabled := false; Endpoint := ""; Protocol := ""; Insecure := false;
                      TLS := {| CertFile := ""; KeyFile := ""; CAFile := "" |};
                      Batch := {| ExportInterval := 0; ExportTimeout := 0 |};
                      Retry := {| retry_Enabled := false; MaxElapsedTime := 0 |}; ShutdownTimeout := 0 |}
               "0.0.0" "dev");
  table ← wrapErr (fun e => "render table: " +:+ e) (RenderTable u build (instruments exp));
  doc ← match readFile docPath with inl e => Err ("read " +:+ pathString docPath +:+ ": " +:+ e) | inr d => Ok d end;
  out ← wrapErr (fun e => "splice " +:+ pathString docPath +:+ ": " +:+ e) (Splice u doc table);
  match writeFile docPath out with
  | Some e => Err ("write " +:+ pathString docPath +:+ ": " +:+ e)
  | None => Ok (docPath, out)
  end.

(** [main]: the exit status and what goes to standard error. *)
Definition genMain {A} (result : res string A) : Z * string :=
  match result with
  | Ok _ => (0%Z, "")
  | Err e => (1%Z, "gen-metrics-docs: " +:+ e +:+ nl)
  | Panic _ => (2%Z, "")
  end.

(** ** The order of the rows *)

#[global] Instance byName_total : Total byName.
Proof.
  intros a b. unfold byName, String.le.
  destruct (String.leb_total (inst_Name a) (inst_Name b)) as [E|E]; rewrite E; auto.
Qed.

#[global] Instance byName_trans : Transitive byName.
Proof. intros a b c. unfold byName. apply transitivity. Qed.

(** Distinct names leave one sorted permutation: whatever algorithm sorts, and
    in whatever order the instruments were registered. *)
Lemma sortedRows_unique inv rows :
  NoDup (inst_Name <$> inv) -> rows ≡ₚ inv -> StronglySorted byName rows -> rows = sortedRows inv.
Proof.
  intros Hd Hp Hs. unfold sortedRows.
  apply (StronglySorted_unique_strong byName); [|done| |].
  - intros a b Ha Hb Hab Hba. rewrite Hp in Ha. rewrite merge_sort_Permutation in Hb.
    assert (inst_Name a = inst_Name b) as E.
    { unfold byName, String.le in *. apply String.leb_antisym; by apply Is_true_eq_true. }
    apply list_elem_of_lookup in Ha as (i & Hi). apply list_elem_of_lookup in Hb as (j & Hj).
    assert (i = j) as ->; [|congruence].
    apply (NoDup_lookup (inst_Name <$> inv) i j (inst_Name a)); [done|..]; rewrite list_lookup_fmap.
    + by rewrite Hi.
    + by rewrite Hj, E.
  - apply StronglySorted_merge_sort; apply _.
  - by rewrite merge_sort_Permutation.
Qed.

(** ** Occurrences *)

Definition occursAt (s : bytes) (i : nat) (sub : bytes) : Prop :=
  forall k c, sub !! k = Some c -> s !! (i + k)%nat = Some c.

Lemma occursAt_hasPrefix s sub : hasPrefix s sub = true <-> occursAt s 0 sub.
Proof.
  revert s. induction sub as [|c sub IH]; intros s; simpl.
  { split; [|by destruct s]. intros _ k d H. by rewrite lookup_nil in H. }
  destruct s as [|d s].
  { split; [done|]. intros H. specialize (H 0%nat c eq_refl). done. }
  rewrite andb_true_iff, Ascii.eqb_eq, IH. split.
  - intros [-> H] [|k] e; simpl; [done|apply H].
  - intros H. split; [specialize (H 0%nat c eq_refl); simpl in H; by injection H|].
    intros k e Hk. apply (H (S k) e Hk).
Qed.

Lemma occursAt_shift x s i sub : occursAt (x :: s) (S i) sub <-> occursAt s i sub.
Proof. split; intros H k c Hk; apply (H k c Hk). Qed.

Lemma indexFrom_spec i s sub :
  match indexFrom i s sub with
  | Some n => exists m, n = (i + m)%nat /\ (m <= length s)%nat /\ occursAt s m sub /\ forall j, (j < m)%nat -> ~ occursAt s j sub
  | None => forall j, (j <= length s)%nat -> ~ occursAt s j sub
  end.
Proof.
  revert i. induction s as [|x s IH]; intros i; cbn [indexFrom].
  - destruct (hasPrefix [] sub) eqn:E.
    + exists 0%nat. apply occursAt_hasPrefix in E. split_and!; try done; lia.
    + intros j Hj Ho. assert (j = 0)%nat as -> by (simpl in Hj; lia). apply occursAt_hasPrefix in Ho. congruence.
  - destruct (hasPrefix (x :: s) sub) eqn:E.
    + exists 0%nat. apply occursAt_hasPrefix in E. split_and!; [lia|lia|done|lia].
    + assert (~ occursAt (x :: s) 0 sub) as E0 by (rewrite <- occursAt_hasPrefix; congruence).
      specialize (IH (S i)). destruct (indexFrom (S i) s sub) as [n|].
      * destruct IH as (m & -> & Hm & Ho & Hf). exists (S m). split_and!; [lia|simpl; lia|by apply occursAt_shift|].
        intros [|j] Hj; [done|]. rewrite occursAt_shift. apply Hf. lia.
      * intros [|j] Hj; [done|]. rewrite occursAt_shift. apply IH. simpl in Hj. lia.
Qed.

Lemma Index_spec s sub n :
  Index s sub = Some n <-> (n <= length s)%nat /\ occursAt s n sub /\ forall j, (j < n)%nat -> ~ occursAt s j sub.
Proof.
  unfold Index. pose proof (indexFrom_spec 0 s sub) as H. split.
  - intros E. rewrite E in H. destruct H as (m & -> & H). done.
  - intros (Hn & Ho & Hf). destruct (indexFrom 0 s sub) as [m|].
    + destruct H as (m' & -> & _ & Ho' & Hf'). f_equal. simpl.
      destruct (lt_eq_lt_dec m' n) as [[?|?]|?]; [by destruct (Hf m')|done|by destruct (Hf' n)].
    + by destruct (H n Hn).
Qed.

(** ** The markers *)

Abbreviation B := (toBytes beginMarker) (only parsing).
Abbreviation E := (toBytes endMarker) (only parsing).
Definition lt : ascii := "<"%char.
Definition newlineChar : ascii := chr 10.

(** The markers begin with "<", which they do not contain elsewhere, and hold
    no newline. *)
Definition goodMarker (m : bytes) : Prop :=
  m !! 0%nat = Some lt /\ (forall k, m !! S k <> Some lt) /\ (forall k, m !! k <> Some newlineChar).

Lemma goodMarker_dec c m :
  c = lt -> forallb (fun d => negb (Ascii.eqb d lt) && negb (Ascii.eqb d newlineChar)) m = true -> goodMarker (c :: m).
Proof.
  intros -> H. rewrite forallb_forall in H.
  assert (forall k d, m !! k = Some d -> d <> lt /\ d <> newlineChar) as Hk.
  { intros k d Hk. apply list_elem_of_lookup_2, list_elem_of_In in Hk. specialize (H d Hk).
    apply andb_true_iff in H as [H1 H2]. apply negb_true_iff in H1, H2.
    split; [by apply Ascii.eqb_neq|by apply Ascii.eqb_neq]. }
  split_and!; [done| |].
  - intros k Hm. by destruct (Hk k lt Hm).
  - intros [|k] Hm; [done|]. by destruct (Hk k newlineChar Hm).
Qed.

Lemma begin_good : goodMarker B.
Proof. apply goodMarker_dec; reflexivity. Qed.
Lemma end_good : goodMarker E.
Proof. apply goodMarker_dec; reflexivity. Qed.

(** Where the markers of a document are, when it can be spliced. *)
Record spliceable (doc : bytes) (bi ei : nat) : Prop := {
  sp_begin : Index doc B = Some bi;
  sp_end : Index doc E = Some ei;
  sp_order : (bi + length B <= ei)%nat
}.

Lemma markers_apart doc bi ei :
  occursAt doc bi B -> occursAt doc ei E -> (bi <= ei)%nat -> (bi + length B <= ei)%nat.
Proof.
  intros Hb He Hle. destruct (le_lt_dec (bi + length B) ei) as [|Hlt]; [done|]. exfalso.
  destruct (decide (ei = bi)) as [->|Hne].
  - specialize (Hb 5%nat "B"%char eq_refl). specialize (He 5%nat "E"%char eq_refl). congruence.
  - destruct (lookup_lt_is_Some_2 B (ei - bi)) as [c Hc]; [lia|].
    pose proof (Hb _ _ Hc) as Hc'. replace (bi + (ei - bi))%nat with (ei + 0)%nat in Hc' by lia.
    rewrite (He 0%nat lt eq_refl) in Hc'. injection Hc' as <-.
    destruct (ei - bi)%nat as [|k] eqn:Ek; [lia|]. exact (proj1 (proj2 begin_good) k Hc).
Qed.

Definition spliced (doc : bytes) (bi ei : nat) (t : bytes) : bytes :=
  take (bi + length B) doc ++ [newlineChar] ++ t ++ drop ei doc.

Lemma Splice_ok u doc table out :
  Splice u doc table = Ok out <-> exists bi ei, spliceable doc bi ei /\ out = spliced doc bi ei (toBytes table).
Proof.
  unfold Splice. split.
  - destruct (Index doc B) as [bi|] eqn:Eb; [|done]. destruct (Index doc E) as [ei|] eqn:Ee; [|done].
    destruct (ei <? bi)%nat eqn:Eo; [done|]. intros [= <-]. exists bi, ei. split; [|done].
    split; [done..|]. apply Nat.ltb_ge in Eo. apply Index_spec in Eb as (_ & Hb & _), Ee as (_ & He & _). by apply (markers_apart doc).
  - intros (bi & ei & [-> -> Ho] & ->).
    by rewrite (proj2 (Nat.ltb_ge ei bi)) by lia.
Qed.

Section Spliced.
Context (doc t : bytes) (bi ei : nat) (Hsp : spliceable doc bi ei).

Lemma ei_length : (ei <= length doc)%nat.
Proof. destruct Hsp as [_ He _]. by apply Index_spec in He as [? _]. Qed.

Lemma spliced_before i : (i < bi + length B)%nat -> spliced doc bi ei t !! i = doc !! i.
Proof.
  intros Hi. pose proof ei_length. destruct Hsp as [_ _ Ho]. unfold spliced.
  rewrite lookup_app_l by (rewrite length_take; lia). apply lookup_take_lt. lia.
Qed.
Lemma spliced_newline : spliced doc bi ei t !! (bi + length B)%nat = Some newlineChar.
Proof.
  pose proof ei_length. destruct Hsp as [_ _ Ho]. unfold spliced.
  rewrite lookup_app_r by (rewrite length_take; lia). rewrite length_take, Nat.min_l by lia.
  by rewrite Nat.sub_diag.
Qed.
Lemma spliced_table i : (i < length t)%nat -> spliced doc bi ei t !! (bi + length B + 1 + i)%nat = t !! i.
Proof.
  intros Hi. pose proof ei_length. destruct Hsp as [_ _ Ho]. unfold spliced.
  rewrite lookup_app_r by (rewrite length_take; lia). rewrite length_take, Nat.min_l by lia.
  replace (bi + length B + 1 + i - (bi + length B))%nat with (S i) by lia. simpl. by apply lookup_app_l.
Qed.
Lemma spliced_after i : spliced doc bi ei t !! (bi + length B + 1 + length t + i)%nat = doc !! (ei + i)%nat.
Proof.
  pose proof ei_length. destruct Hsp as [_ _ Ho]. unfold spliced.
  rewrite lookup_app_r by (rewrite length_take; lia). rewrite length_take, Nat.min_l by lia.
  replace (bi + length B + 1 + length t + i - (bi + length B))%nat with (S (length t + i)) by lia. simpl.
  rewrite lookup_app_r by lia. rewrite lookup_drop. f_equal. lia.
Qed.

Lemma spliced_begin : Index (spliced doc bi ei t) B = Some bi.
Proof.
  pose proof ei_length. destruct Hsp as [Hb _ Ho]. apply Index_spec in Hb as (_ & Hb & Hf). apply Index_spec.
  assert (forall j, (j <= bi)%nat -> occursAt (spliced doc bi ei t) j B <-> occursAt doc j B) as Hsame.
  { intros j Hj. split; intros Ho' k c Hk; pose proof (lookup_lt_Some _ _ _ Hk).
    - rewrite <- spliced_before by lia. by apply Ho'.
    - rewrite spliced_before by lia. by apply Ho'. }
  split_and!.
  - unfold spliced. rewrite !length_app, length_take, length_drop. change (length [newlineChar]) with 1%nat. lia.
  - by apply Hsame.
  - intros j Hj. rewrite Hsame by lia. by apply Hf.
Qed.

Lemma spliced_end :
  (forall j, ~ occursAt t j E) -> Index (spliced doc bi ei t) E = Some (bi + length B + 1 + length t)%nat.
Proof.
  intros Ht. pose proof ei_length. destruct Hsp as [_ He Ho]. apply Index_spec in He as (_ & He & Hf).
  destruct end_good as (E0 & Elt & Enl). apply Index_spec.
  assert (1 <= length E)%nat as HE by (vm_compute; lia). split_and!.
  - unfold spliced. rewrite !length_app, length_take, length_drop. change (length [newlineChar]) with 1%nat. lia.
  - intros k c Hk. rewrite spliced_after. by apply He.
  - intros j Hj Hocc.
    destruct (le_lt_dec (j + length E) (bi + length B)) as [H1|H1].
    { apply (Hf j); [lia|]. intros k c Hk. pose proof (lookup_lt_Some _ _ _ Hk).
      rewrite <- spliced_before by lia. by apply Hocc. }
    destruct (le_lt_dec j (bi + length B)) as [H2|H2].
    { destruct (lookup_lt_is_Some_2 E (bi + length B - j)) as [c Hc]; [lia|].
      pose proof (Hocc _ _ Hc) as Hc'. replace (j + (bi + length B - j))%nat with (bi + length B)%nat in Hc' by lia.
      rewrite spliced_newline in Hc'. injection Hc' as <-. by apply (Enl _ Hc). }
    destruct (le_lt_dec (j + length E) (bi + length B + 1 + length t)) as [H3|H3].
    { apply (Ht (j - (bi + length B + 1))%nat). intros k c Hk. pose proof (lookup_lt_Some _ _ _ Hk).
      rewrite <- spliced_table by lia.
      replace (bi + length B + 1 + (j - (bi + length B + 1) + k))%nat with (j + k)%nat by lia. by apply Hocc. }
    destruct (lookup_lt_is_Some_2 E (bi + length B + 1 + length t - j)) as [c Hc]; [lia|].
    pose proof (Hocc _ _ Hc) as Hc'.
    replace (j + (bi + length B + 1 + length t - j))%nat with (bi + length B + 1 + length t + 0)%nat in Hc' by lia.
    rewrite spliced_after, (He 0%nat lt E0) in Hc'. injection Hc' as <-.
    destruct (bi + length B + 1 + length t - j)%nat as [|k] eqn:Ek; [lia|]. exact (Elt k Hc).
Qed.

(** Splicing the same table again changes nothing. *)
Lemma spliced_again :
  (forall j, ~ occursAt t j E) ->
  spliceable (spliced doc bi ei t) bi (bi + length B + 1 + length t) /\
  spliced (spliced doc bi ei t) bi (bi + length B + 1 + length t) t = spliced doc bi ei t.
Proof.
  intros Ht. split.
  - split; [apply spliced_begin|by apply spliced_end|lia].
  - pose proof ei_length. destruct Hsp as [_ _ Ho]. unfold spliced at 1 3. f_equal.
    + unfold spliced. rewrite take_app_le by (rewrite length_take; lia).
      rewrite take_take. f_equal. lia.
    + do 2 f_equal. apply list_eq. intros i. rewrite !lookup_drop. apply spliced_after.
Qed.
End Spliced.

(** ** What the generator writes *)

Lemma occursAt_drop s i sub : occursAt s i sub -> drop i s = sub ++ drop (i + length sub) s.
Proof.
  intros Ho. apply list_eq. intros k. rewrite lookup_drop.
  destruct (le_lt_dec (length sub) k) as [Hk|Hk].
  - rewrite lookup_app_r, lookup_drop by done. f_equal. lia.
  - rewrite lookup_app_l by done. destruct (lookup_lt_is_Some_2 sub k Hk) as [c Hc]. rewrite Hc. by apply Ho.
Qed.

(** A spliced document keeps everything outside the markers. *)
Lemma spliced_prose doc bi ei t :
  spliceable doc bi ei ->
  exists pre mid post, doc = pre ++ B ++ mid ++ E ++ post /\
    spliced doc bi ei t = pre ++ B ++ [newlineChar] ++ t ++ E ++ post.
Proof.
  intros [Hb He Ho]. apply Index_spec in Hb as (_ & Hb & _). apply Index_spec in He as (Hl & He & _).
  pose proof (occursAt_drop _ _ _ Hb) as Db. pose proof (occursAt_drop _ _ _ He) as De.
  assert (take (bi + length B) doc = take bi doc ++ B) as Ht.
  { rewrite <- (take_drop bi doc) at 1. rewrite Db, take_app, take_take, length_take.
    rewrite Nat.min_r by lia. f_equal. replace (bi + length B - _)%nat with (length B) by lia. by rewrite take_app_length. }
  exists (take bi doc), (drop (bi + length B) (take ei doc)), (drop (ei + length E) doc). split.
  - rewrite <- De, (app_assoc (take bi doc)), <- Ht.
    rewrite <- (take_drop ei doc) at 1. rewrite app_assoc. f_equal.
    rewrite <- (take_drop (bi + length B) (take ei doc)) at 1. f_equal. rewrite take_take. f_equal. lia.
  - unfold spliced. by rewrite Ht, De, <- app_assoc.
Qed.

Definition noLt (s : string) : bool := forallb_str (fun c => negb (Ascii.eqb c lt)) s.

Lemma noLt_app s t : noLt (s +:+ t) = noLt s && noLt t.
Proof.
  unfold noLt. apply eq_true_iff_eq. rewrite andb_true_iff, !forallb_str_spec.
  assert (String.list_ascii_of_string (s +:+ t) = String.list_ascii_of_string s ++ String.list_ascii_of_string t) as ->.
  { induction s as [|c s IH]; [done|]. change (String c s +:+ t) with (String c (s +:+ t)). simpl. by rewrite IH. }
  by rewrite Forall_app.
Qed.

Lemma noLt_no_marker s : noLt s = true -> forall j, ~ occursAt (toBytes s) j E.
Proof.
  intros Hs j Ho. specialize (Ho 0%nat lt eq_refl). unfold noLt in Hs. rewrite forallb_str_spec in Hs.
  eapply Forall_lookup_1 in Hs; [|exact Ho]. discriminate Hs.
Qed.

(** The columns that come from the inventory. *)
Definition plainRow (i : InstrumentInfo) : bool :=
  noLt (inst_Name i) && noLt (inst_Kind i) && noLt (inst_Unit i) && noLt (inst_Description i).

Section Render.
Context (u : UnicodeTables) (build : string -> string -> MetricType -> string + string).
(** Prometheus names are letters, digits, underscores and colons. *)
Context (build_plain : forall n un mt name, build n un mt = inr name -> noLt name = true).

Lemma renderRows_plain rows b table :
  Forall (fun i => plainRow i = true) rows -> noLt b = true -> renderRows u build rows b = Ok table -> noLt table = true.
Proof.
  intros Hrows. revert b. induction Hrows as [|i rows Hi _ IH]; intros b Hb H; simpl in H; [by injection H as <-|].
  destruct (PrometheusName u build i) as [name| |] eqn:En; [|done..]. simpl in H. apply IH in H; [done|].
  assert (noLt name = true) as Hname.
  { unfold PrometheusName in En. destruct (metricType u (inst_Kind i)) as [mt| |]; [|done..]. simpl in En.
    destruct (build (inst_Name i) (inst_Unit i) mt) as [|n] eqn:Eb; [done|]. injection En as <-. by eapply build_plain. }
  unfold plainRow in Hi. rewrite !andb_true_iff in Hi. destruct Hi as [[[H1 H2] H3] H4].
  unfold renderRow. rewrite !noLt_app, Hb, Hname, H1, H2, H4. simpl. destruct (_ =? _)%string; [done|].
  by rewrite !noLt_app, H3.
Qed.

Lemma RenderTable_plain inv table :
  Forall (fun i => plainRow i = true) inv -> RenderTable u build inv = Ok table -> noLt table = true.
Proof.
  intros Hi. apply renderRows_plain; [|reflexivity]. unfold sortedRows. by rewrite merge_sort_Permutation.
Qed.

Lemma RenderTable_perm inv inv' :
  NoDup (inst_Name <$> inv) -> inv' ≡ₚ inv -> RenderTable u build inv' = RenderTable u build inv.
Proof.
  intros Hd Hp. unfold RenderTable. f_equal. apply sortedRows_unique; [done| |].
  - unfold sortedRows. by rewrite merge_sort_Permutation.
  - apply StronglySorted_merge_sort; apply _.
Qed.
End Render.

Lemma inventory_plain : Forall (fun i => plainRow i = true) inventory.
Proof. apply Forall_forall. intros i Hi. apply list_elem_of_In in Hi. revert i Hi. apply forallb_forall. vm_compute. reflexivity. Qed.

Lemma documented_nodup : NoDup (inst_Name <$> documentedMetrics).
Proof. apply (bool_decide_unpack _). vm_compute. exact I. Qed.


(** ** A concrete run *)

Definition demoBuild (name unit : string) (mt : MetricType) : string + string := inr "trimon_metric".
Definition demoDoc : bytes := toBytes ("Metrics." +:+ beginMarker +:+ "old" +:+ endMarker +:+ "More.").

