(* ===== verification/Pipeline.v ===== *)
(** * internal/pipeline/pipeline.go: the results channel, the dispatch to the
    exporters and the drain on shutdown.

    [Chan] is a Go buffered channel.  [Run] is the state machine [pipeStep]: one
    transition per channel operation, per [ctx.Done()] observation and per
    [dispatch] of a received result; the sends and the cancellation are moves of
    its environment ([pstep]) and may come between a receive and its dispatch.
    The [accepted] field is history: what senders put into the channel. *)

From S2P Require Import Prelude.
From S2P Require Import Float64.
From S2P Require Import Types.

(** ** Channels *)

Record Chan := { buf : list ProbeResult; cap : nat; closed : bool }.

(** The [select { case c <- r: default: }] of the scheduler: whether [r] was
    accepted; a closed channel panics. *)
Definition trySend (c : Chan) (r : ProbeResult) : res unit (Chan * bool) :=
  if closed c then Panic SendOnClosedChannel
  else if (length (buf c) <? cap c)%nat
       then Ok ({| buf := buf c ++ [r]; cap := cap c; closed := closed c |}, true)
       else Ok (c, false).

(** A receive: a value, or [None] with [ok = false] on a closed empty channel;
    the outer [None] blocks. *)
Definition recv (c : Chan) : option (option ProbeResult * Chan) :=
  match buf c with
  | r :: rest => Some (Some r, {| buf := rest; cap := cap c; closed := closed c |})
  | [] => if closed c then Some (None, c) else None
  end.

Definition closeChan (c : Chan) : res unit Chan :=
  if closed c then Panic CloseOfClosedChannel
  else Ok {| buf := buf c; cap := cap c; closed := true |}.

(** ** Exporters (internal/exporter/exporter.go) *)

Record Exporter := {
  ex_Name : string;
  ex_Export : list ProbeResult -> ProbeResult -> option string   (* the error of a call, after those earlier ones *)
}.

(** [dispatch]: one call per exporter; a failing one is logged, recorded through
    [onExportError] when set, and does not stop the others. *)
Fixpoint dispatch (exporters : list Exporter) (onExportError : bool) (before : list ProbeResult) (result : ProbeResult)
    : list string * list string :=
  match exporters with
  | [] => ([], [])
  | exp :: rest =>
      let '(calls, errors) := dispatch rest onExportError before result in
      match ex_Export exp before result with
      | Some _ => (ex_Name exp :: calls, if onExportError then ex_Name exp :: errors else errors)
      | None => (ex_Name exp :: calls, errors)
      end
  end.

(** ** The pipeline *)

Inductive pipePhase := PRunning | PDraining | PClosing | PReturned.

#[global] Instance pipePhase_eq_dec : EqDecision pipePhase.
Proof. solve_decision. Defined.

Record Pipeline := {
  results : Chan;
  exporters : list Exporter;
  onExportError : bool;
  phase : pipePhase;               (* PReturned: Run returned and p.done is closed *)
  ctxCancelled : bool;
  inHand : option ProbeResult;     (* received, not yet dispatched *)
  exported : list ProbeResult;     (* history: dispatched results *)
  exportCalls : list string;       (* history: Export calls, by exporter name *)
  exportErrors : list string;      (* history: onExportError calls *)
  accepted : list ProbeResult      (* history: sends that succeeded *)
}.

Definition New (exps : list Exporter) (bufferSize : Z) : Pipeline :=
  {| results := {| buf := []; cap := Z.to_nat bufferSize; closed := false |}; exporters := exps;
     onExportError := false; phase := PRunning; ctxCancelled := false; inHand := None; exported := [];
     exportCalls := []; exportErrors := []; accepted := [] |}.

Definition SetExportErrorRecorder (p : Pipeline) : Pipeline :=
  {| results := results p; exporters := exporters p; onExportError := true; phase := phase p;
     ctxCancelled := ctxCancelled p; inHand := inHand p; exported := exported p; exportCalls := exportCalls p;
     exportErrors := exportErrors p; accepted := accepted p |}.

Definition BufferUsage (p : Pipeline) : float64 :=
  fdiv (f64 (Z.of_nat (length (buf (results p))))) (f64 (Z.of_nat (cap (results p)))).

Definition setResults (p : Pipeline) (c : Chan) (acc : list ProbeResult) : Pipeline :=
  {| results := c; exporters := exporters p; onExportError := onExportError p; phase := phase p;
     ctxCancelled := ctxCancelled p; inHand := inHand p; exported := exported p; exportCalls := exportCalls p;
     exportErrors := exportErrors p; accepted := acc |}.

Definition setPhase (p : Pipeline) (ph : pipePhase) : Pipeline :=
  {| results := results p; exporters := exporters p; onExportError := onExportError p; phase := ph;
     ctxCancelled := ctxCancelled p; inHand := inHand p; exported := exported p; exportCalls := exportCalls p;
     exportErrors := exportErrors p; accepted := accepted p |}.

Definition cancel (p : Pipeline) : Pipeline :=
  {| results := results p; exporters := exporters p; onExportError := onExportError p; phase := phase p;
     ctxCancelled := true; inHand := inHand p; exported := exported p; exportCalls := exportCalls p;
     exportErrors := exportErrors p; accepted := accepted p |}.

(** A result has been received. *)
Definition received (p : Pipeline) (r : ProbeResult) (c : Chan) : Pipeline :=
  {| results := c; exporters := exporters p; onExportError := onExportError p; phase := phase p;
     ctxCancelled := ctxCancelled p; inHand := Some r; exported := exported p; exportCalls := exportCalls p;
     exportErrors := exportErrors p; accepted := accepted p |}.

(** [p.dispatch(ctx, result)] *)
Definition exportOne (p : Pipeline) (r : ProbeResult) : Pipeline :=
  let '(calls, errors) := dispatch (exporters p) (onExportError p) (exported p) r in
  {| results := results p; exporters := exporters p; onExportError := onExportError p; phase := phase p;
     ctxCancelled := ctxCancelled p; inHand := None; exported := exported p ++ [r];
     exportCalls := exportCalls p ++ calls; exportErrors := exportErrors p ++ errors;
     accepted := accepted p |}.

(** The moves of [Run]. *)
Inductive pipeMove := MRecv | MDispatch | MCancelSeen | MDrained | MClose.

Definition pipeStep (m : pipeMove) (p : Pipeline) : res unit (option Pipeline) :=
  match inHand p, phase p, m with
  | Some r, _, MDispatch => Ok (Some (exportOne p r))
  | None, PRunning, MRecv =>                 (* case result, ok := <-p.results *)
      match recv (results p) with
      | Some (Some r, c) => Ok (Some (received p r c))
      | Some (None, _) => Ok (Some (setPhase p PReturned))
      | None => Ok None
      end
  | None, PRunning, MCancelSeen =>           (* case <-ctx.Done() *)
      if ctxCancelled p then Ok (Some (setPhase p PDraining)) else Ok None
  | None, PDraining, MRecv =>                (* case result := <-p.results *)
      match recv (results p) with
      | Some (Some r, c) => Ok (Some (received p r c))
      | _ => Ok None
      end
  | None, PDraining, MDrained =>             (* default: nothing buffered *)
      match recv (results p) with None => Ok (Some (setPhase p PClosing)) | Some _ => Ok None end
  | None, PClosing, MClose =>                (* close(p.results); return *)
      c ← closeChan (results p);
      Ok (Some (setPhase (setResults p c (accepted p)) PReturned))
  | _, _, _ => Ok None
  end.

(** A send by a probe goroutine; the flag says whether it was accepted. *)
Definition pipeSend (p : Pipeline) (r : ProbeResult) : res unit (Pipeline * bool) :=
  trySend (results p) r ≫= fun '(c, ok) =>
  Ok (setResults p c (if (ok : bool) then accepted p ++ [r] else accepted p), ok).

(** The pipeline in its environment. *)
Inductive pstep : Pipeline -> Pipeline -> Prop :=
  | pstep_run m p p' : pipeStep m p = Ok (Some p') -> pstep p p'
  | pstep_send r p p' ok : pipeSend p r = Ok (p', ok) -> pstep p p'
  | pstep_cancel p : pstep p (cancel p).

(** ** Dispatch *)

(** The exporters whose [Export] of [r] returned an error. *)
Definition failing (exps : list Exporter) (before : list ProbeResult) (r : ProbeResult) : list string :=
  ex_Name <$> List.filter (fun e => if ex_Export e before r then true else false) exps.

(** Every failed export of the results [rs], by exporter. *)
Fixpoint failedExports (exps : list Exporter) (before rs : list ProbeResult) : list string :=
  match rs with
  | [] => []
  | r :: rest => failing exps before r ++ failedExports exps (before ++ [r]) rest
  end.

Lemma failedExports_snoc exps before rs r :
  failedExports exps before (rs ++ [r]) = failedExports exps before rs ++ failing exps (before ++ rs) r.
Proof.
  revert before. induction rs as [|x rs IH]; intros before; simpl; [by rewrite !app_nil_r|].
  by rewrite IH, <- !app_assoc.
Qed.

Lemma dispatch_spec exps onErr before r :
  dispatch exps onErr before r = (ex_Name <$> exps, if onErr then failing exps before r else []).
Proof.
  unfold failing. induction exps as [|e exps IH]; simpl; [by destruct onErr|]. rewrite IH.
  destruct (ex_Export e before r), onErr; done.
Qed.

(** a result is handed to every registered exporter exactly once, in
    registration order, whether or not earlier exporters failed; the recorder is
    called once per failing exporter, in the same order. *)
Theorem dispatch_all_exporters exps onErr before r :
  fst (dispatch exps onErr before r) = ex_Name <$> exps /\
  (onErr = true -> snd (dispatch exps onErr before r) =
     ex_Name <$> List.filter (fun e => if ex_Export e before r then true else false) exps).
Proof. rewrite dispatch_spec. split; [done|]. by intros ->. Qed.

(** ** Invariant *)

Record pipe_inv (p : Pipeline) : Prop := {
  inv_fifo : accepted p = exported p ++ option_list (inHand p) ++ buf (results p);
  inv_cap : (length (buf (results p)) <= cap (results p))%nat;
  inv_closed : closed (results p) = true -> phase p = PReturned;
  inv_hand : phase p = PClosing \/ phase p = PReturned -> inHand p = None;
  inv_calls : length (exportCalls p) = (length (exported p) * length (exporters p))%nat
}.

Lemma New_inv exps n : pipe_inv (New exps n).
Proof. split; simpl; done || lia. Qed.

Lemma recv_cons c r c' :
  recv c = Some (Some r, c') ->
  buf c = r :: buf c' /\ cap c' = cap c /\ closed c' = closed c.
Proof. unfold recv. destruct (buf c) as [|x l]; [by destruct (closed c)|]. by intros [= -> <-]. Qed.

Lemma recv_none c : recv c = None -> buf c = [] /\ closed c = false.
Proof. unfold recv. destruct (buf c); [|done]. by destruct (closed c). Qed.

Lemma recv_closed c c' : recv c = Some (None, c') -> buf c = [] /\ closed c = true.
Proof. unfold recv. destruct (buf c); [|done]. by destruct (closed c). Qed.

(** The cases of a move of [Run]. *)
Inductive pipeMoved (p : Pipeline) : Pipeline -> Prop :=
  | moved_recv r c : inHand p = None -> phase p = PRunning \/ phase p = PDraining ->
      recv (results p) = Some (Some r, c) -> pipeMoved p (received p r c)
  | moved_dispatch r : inHand p = Some r -> pipeMoved p (exportOne p r)
  | moved_closed : inHand p = None -> phase p = PRunning -> closed (results p) = true ->
      pipeMoved p (setPhase p PReturned)
  | moved_cancel : inHand p = None -> phase p = PRunning -> ctxCancelled p = true -> pipeMoved p (setPhase p PDraining)
  | moved_drained : inHand p = None -> phase p = PDraining -> buf (results p) = [] -> closed (results p) = false ->
      pipeMoved p (setPhase p PClosing)
  | moved_close : inHand p = None -> phase p = PClosing -> closed (results p) = false ->
      pipeMoved p (setPhase (setResults p {| buf := buf (results p); cap := cap (results p); closed := true |}
                                        (accepted p)) PReturned).

Lemma pipeStep_moved m p p' : pipeStep m p = Ok (Some p') -> pipeMoved p p'.
Proof.
  unfold pipeStep. destruct (inHand p) as [r|] eqn:Eh, (phase p) eqn:Ep, m; try done;
    try (by intros [= <-]; constructor).
  - destruct (recv (results p)) as [[[r|] c]|] eqn:Er; [| |done]; intros [= <-].
    + apply moved_recv; auto.
    + apply recv_closed in Er as [_ Er]. by apply moved_closed.
  - destruct (ctxCancelled p) eqn:Ec; [|done]. intros [= <-]. by apply moved_cancel.
  - destruct (recv (results p)) as [[[r|] c]|] eqn:Er; [|done..]. intros [= <-]. apply moved_recv; auto.
  - destruct (recv (results p)) as [[? ?]|] eqn:Er; [done|]. intros [= <-].
    apply recv_none in Er as [? ?]. by apply moved_drained.
  - unfold closeChan. destruct (closed (results p)) eqn:Ec; [done|]. simpl. intros [= <-]. by apply moved_close.
Qed.

(** [Run] panics only by closing a closed channel. *)
Lemma pipeStep_panics m p :
  (exists r, pipeStep m p = Ok r) \/ (phase p = PClosing /\ closed (results p) = true).
Proof.
  unfold pipeStep, closeChan. destruct (inHand p), (phase p), m; eauto;
    try (destruct (recv (results p)) as [[[?|] ?]|]; eauto; fail).
  - destruct (ctxCancelled p); eauto.
  - destruct (closed (results p)); simpl; eauto.
Qed.

Lemma exportOne_fields p r :
  results (exportOne p r) = results p /\ phase (exportOne p r) = phase p /\
  ctxCancelled (exportOne p r) = ctxCancelled p /\ accepted (exportOne p r) = accepted p /\
  inHand (exportOne p r) = None /\ exported (exportOne p r) = exported p ++ [r].
Proof. unfold exportOne. by destruct (dispatch _ _ _ _). Qed.

Lemma exportOne_inv p r : pipe_inv p -> inHand p = Some r -> pipe_inv (exportOne p r).
Proof.
  intros [H1 H2 H3 H4 H5] Hh. unfold exportOne. rewrite dispatch_spec. rewrite Hh in *. split; simpl; try done.
  - by rewrite H1, <- app_assoc.
  - rewrite !length_app, length_fmap, H5. simpl. lia.
Qed.

Lemma pipeStep_inv m p p' : pipe_inv p -> pipeStep m p = Ok (Some p') -> pipe_inv p'.
Proof.
  intros Hi H%pipeStep_moved. destruct H as [r c Hh Hp Hr|r Hh|Hh Hp Hc|Hh Hp Hc|Hh Hp Hb Hc|Hh Hp Hc];
    [|by apply exportOne_inv|..]; destruct Hi as [H1 H2 H3 H4 H5]; split; simpl; try done.
  - apply recv_cons in Hr as (Hb & _ & _). by rewrite H1, Hh, Hb.
  - apply recv_cons in Hr as (Hb & Hcap & _). rewrite Hb in H2. simpl in H2. lia.
  - apply recv_cons in Hr as (_ & _ & Hcl). by rewrite Hcl.
  - destruct Hp as [-> | ->]; by intros [|].
  - intros H. apply H3 in H. congruence.
  - intros H. congruence.
Qed.

(** [Run] has returned for good. *)
Lemma pipeStep_returned m p p' : pipe_inv p -> phase p = PReturned -> pipeStep m p <> Ok (Some p').
Proof.
  intros Hi Hp. unfold pipeStep. rewrite Hp, (inv_hand _ Hi) by auto. by destruct m.
Qed.

Lemma pipeSend_inv p r p' ok : pipe_inv p -> pipeSend p r = Ok (p', ok) -> pipe_inv p'.
Proof.
  intros [H1 H2 H3 H4 H5]. unfold pipeSend, trySend. destruct (closed (results p)) eqn:Ec; [done|].
  destruct (Nat.ltb_spec (length (buf (results p))) (cap (results p))); intros [= <- <-]; split; simpl; rewrite ?Ec; try done.
  - by rewrite H1, !app_assoc.
  - rewrite length_app. simpl. lia.
Qed.

(** The channel keeps the capacity it was made with. *)
Lemma pipeStep_cap m p p' : pipeStep m p = Ok (Some p') -> cap (results p') = cap (results p).
Proof.
  intros H%pipeStep_moved. destruct H as [r c Hh Hp Hr|r Hh| | | |]; try done.
  - simpl. by apply recv_cons in Hr as (_ & -> & _).
  - by destruct (exportOne_fields p r) as (-> & _).
Qed.

(** A send is refused only by a full channel. *)
Lemma pipeSend_full p r p' ok :
  pipe_inv p -> pipeSend p r = Ok (p', ok) ->
  cap (results p') = cap (results p) /\
  (ok = false -> p' = setResults p (results p) (accepted p) /\ length (buf (results p)) = cap (results p)).
Proof.
  intros Hi. unfold pipeSend, trySend. destruct (closed (results p)); [done|].
  destruct (Nat.ltb_spec (length (buf (results p))) (cap (results p))); intros [= <- <-]; simpl; [done|].
  pose proof (inv_cap _ Hi). split; [done|]. intros _. split; [done|lia].
Qed.

Lemma pstep_inv p p' : pipe_inv p -> pstep p p' -> pipe_inv p'.
Proof.
  intros Hi Hs. destruct Hs.
  - by eapply pipeStep_inv.
  - by eapply pipeSend_inv.
  - by destruct Hi as [H1 H2 H3 H4 H5]; split.
Qed.

(** whatever the senders and the shutdown do, the pipeline loses, duplicates
    and reorders nothing it accepted: the accepted results are at all times the
    exported ones followed by the one in hand and the buffered ones, each exported
    result was handed to every exporter, the buffer never exceeds its capacity, and the
    channel is closed only when [Run] returns. *)
Theorem pipeline_fifo exps n p :
  rtc pstep (New exps n) p -> pipe_inv p.
Proof.
  intros H. assert (pipe_inv (New exps n)) as Hi by apply New_inv. revert Hi.
  induction H as [p|p q r Hpq _ IH]; [done|]. intros Hi. apply IH. by eapply pstep_inv.
Qed.

(** ** What the wiring fixes *)

(** The capacity and the exporters do not change; every exported result was
    handed to every exporter in order, and the recorder was called for exactly
    the exports that failed. *)
Record wired (exps : list Exporter) (n : nat) (p : Pipeline) : Prop := {
  wi_cap : cap (results p) = n;
  wi_exporters : exporters p = exps;
  wi_recorder : onExportError p = true;
  wi_calls : exportCalls p = concat (replicate (length (exported p)) (ex_Name <$> exps));
  wi_errors : exportErrors p = failedExports exps [] (exported p)
}.

Lemma exportOne_wired exps n p r : wired exps n p -> wired exps n (exportOne p r).
Proof.
  intros [H1 H2 H3 H4 H5]. unfold exportOne. rewrite dispatch_spec, H3. split; simpl; try done.
  - rewrite length_app, Nat.add_1_r, replicate_S_end, concat_app, H4, H2. simpl. by rewrite app_nil_r.
  - by rewrite failedExports_snoc, H5, H2.
Qed.

Lemma pipeStep_wired exps n m p p' : wired exps n p -> pipeStep m p = Ok (Some p') -> wired exps n p'.
Proof.
  intros Hw H%pipeStep_moved. destruct H as [r c Hh Hp Hr| | | | |]; [|by apply exportOne_wired|by destruct Hw; split..].
  apply recv_cons in Hr as (_ & Hc & _). destruct Hw. split; simpl; congruence.
Qed.

Lemma pipeSend_wired exps n p r p' ok : wired exps n p -> pipeSend p r = Ok (p', ok) -> wired exps n p'.
Proof.
  intros Hw. unfold pipeSend, trySend. destruct (closed _); [done|].
  destruct (_ <? _)%nat; intros [= <- <-]; by destruct Hw; split.
Qed.

(** ** The drain *)

(** The moves of [Run] alone: nobody sends any more. *)
Definition runStep (p p' : Pipeline) : Prop := exists m, pipeStep m p = Ok (Some p').

Definition drainMeasure (p : Pipeline) : nat :=
  (2 * length (buf (results p)) + length (option_list (inHand p)) +
   match phase p with PRunning => 3 | PDraining => 2 | PClosing => 1 | PReturned => 0 end)%nat.

Lemma runStep_decreases p p' : runStep p p' -> (drainMeasure p' < drainMeasure p)%nat.
Proof.
  intros [m H%pipeStep_moved]. unfold drainMeasure.
  destruct H as [r c Hh Hp Hr|r Hh|Hh Hp Hc|Hh Hp Hc|Hh Hp Hb Hc|Hh Hp Hc]; simpl; rewrite ?Hh, ?Hp; simpl; try lia.
  - apply recv_cons in Hr as (-> & _). simpl. lia.
  - destruct (exportOne_fields p r) as (-> & -> & _ & _ & -> & _). simpl. lia.
Qed.

(** Without senders: what holds along the drain. *)
Record draining (acc : list ProbeResult) (p : Pipeline) : Prop := {
  dr_inv : pipe_inv p;
  dr_cancelled : ctxCancelled p = true;
  dr_accepted : accepted p = acc;
  dr_closing : (phase p = PClosing \/ phase p = PReturned) -> buf (results p) = [];
  dr_open : closed (results p) = bool_decide (phase p = PReturned)
}.

Lemma runStep_draining acc p p' : draining acc p -> runStep p p' -> draining acc p'.
Proof.
  intros [Hi Hc Ha Hcl Ho] [m H]. assert (pipe_inv p') as Hi' by by eapply pipeStep_inv.
  apply pipeStep_moved in H. destruct H as [r c Hh Hp Hr|r Hh|Hh Hp Hx|Hh Hp Hx|Hh Hp Hb Hx|Hh Hp Hx]; split; simpl; try done.
  - destruct Hp as [-> | ->]; by intros [|].
  - apply recv_cons in Hr as (_ & _ & ->). done.
  - by destruct (exportOne_fields p r) as (_ & _ & -> & _).
  - by destruct (exportOne_fields p r) as (_ & _ & _ & -> & _).
  - destruct (exportOne_fields p r) as (-> & -> & _). done.
  - destruct (exportOne_fields p r) as (-> & -> & _). done.
  - rewrite Hp, Hx in Ho. done.
  - by intros [|].
  - by rewrite Ho, Hp.
  - intros _. apply Hcl. auto.
Qed.

Lemma draining_progress acc p : draining acc p -> phase p <> PReturned -> exists p', runStep p p'.
Proof.
  intros [Hi Hc Ha Hcl Ho] Hp. rewrite bool_decide_false in Ho by done.
  destruct (inHand p) as [r|] eqn:Eh; [eexists; exists MDispatch; unfold pipeStep; by rewrite Eh|].
  destruct (phase p) eqn:Ep; [| | |done].
  - eexists. exists MCancelSeen. unfold pipeStep. by rewrite Eh, Ep, Hc.
  - destruct (recv (results p)) as [[[r|] c]|] eqn:Er.
    + eexists. exists MRecv. unfold pipeStep. by rewrite Eh, Ep, Er.
    + apply recv_closed in Er as [_ Er]. congruence.
    + eexists. exists MDrained. unfold pipeStep. by rewrite Eh, Ep, Er.
  - eexists. exists MClose. unfold pipeStep, closeChan. by rewrite Eh, Ep, Ho.
Qed.

Lemma draining_rtc acc p p' : draining acc p -> rtc runStep p p' -> draining acc p'.
Proof. intros Hd H. revert Hd. induction H; eauto using runStep_draining. Qed.

Lemma runStep_wf p : Acc (fun a b => runStep b a) p.
Proof.
  remember (drainMeasure p) as n eqn:E. revert p E.
  induction n as [n IH] using (well_founded_induction lt_wf). intros p ->. constructor.
  intros p' Hs. eapply IH; [|reflexivity]. by apply runStep_decreases.
Qed.

(** C13: the shutdown contract.  Once the context is cancelled and nobody sends
    any more, [Run] terminates whatever branch its selects take, never blocks
    before it returns, and when it returns the channel is closed and every
    result that was ever accepted has been exported. *)
Theorem pipeline_drains p :
  pipe_inv p -> ctxCancelled p = true -> phase p = PRunning ->
  Acc (fun a b => runStep b a) p /\
  forall p', rtc runStep p p' ->
    (phase p' = PReturned /\ exported p' = accepted p /\ closed (results p') = true) \/
    exists p'', runStep p' p''.
Proof.
  intros Hi Hc Hp. split; [apply runStep_wf|]. intros p' H.
  assert (draining (accepted p) p) as Hd.
  { split; try done; rewrite Hp; [by intros [|]|]. destruct (closed (results p)) eqn:E; [|done].
    apply (inv_closed _ Hi) in E. congruence. }
  apply (draining_rtc _ _ _ Hd) in H. destruct (decide (phase p' = PReturned)) as [E|E].
  - left. destruct H as [Hi' _ Ha Hcl Ho]. rewrite E, bool_decide_true in Ho by done.
    split_and!; [done| |done]. pose proof (inv_fifo _ Hi') as Hf.
    rewrite (inv_hand _ Hi'), Hcl, app_nil_r in Hf by auto. congruence.
  - right. by eapply draining_progress.
Qed.

(** A pipeline with one buffered result whose context has just been cancelled. *)
Definition demoExporters : list Exporter :=
  [{| ex_Name := "otlp"; ex_Export := fun _ _ => Some "collector unreachable" |};
   {| ex_Name := "stdout"; ex_Export := fun _ _ => None |}].

Definition demoResult (n : Z) : ProbeResult :=
  {| Timestamp := n; ProbeName := "gw"; Target := "192.0.2.1"; FQDN := ""; res_SourceIP := "";
     ProbeType := "icmp"; PacketsSent := 3; PacketsReceived := 3; RTTMinMS := f64_zero;
     RTTMeanMS := f64_zero; RTTMaxMS := f64_zero; RTTStddevMS := f64_zero; DurationMS := f64_zero;
     PacketLossRatio := f64_zero; PortOpen := None; res_Status := StatusSuccess; ErrorMsg := "";
     ErrorType := ""; res_Labels := None |}.

Definition demoPipe : Pipeline :=
  cancel (setResults (New demoExporters 10) {| buf := [demoResult 1]; cap := 10; closed := false |} [demoResult 1]).

Lemma demoPipe_inv : pipe_inv demoPipe.
Proof. split; simpl; done || lia. Defined.

Lemma dispatch_all_exporters_witness :
  snd (dispatch demoExporters true [] (demoResult 1)) = ["otlp"].
Proof. exact (proj2 (dispatch_all_exporters demoExporters true [] (demoResult 1)) eq_refl). Defined.

Lemma pipeline_fifo_witness :
  exists p, rtc pstep (New demoExporters 10) p /\ accepted p = [demoResult 1] /\ pipe_inv p.
Proof.
  exists demoPipe.
  assert (rtc pstep (New demoExporters 10) demoPipe) as H.
  { eapply rtc_l; [eapply (pstep_send (demoResult 1)); reflexivity|].
    eapply rtc_l; [apply pstep_cancel|]. apply rtc_refl. }
  split; [done|]. split; [done|]. exact (pipeline_fifo demoExporters 10 demoPipe H).
Defined.

Lemma pipeline_drains_witness :
  exists p', rtc runStep demoPipe p' /\ phase p' = PReturned /\ exported p' = [demoResult 1].
Proof.
  eexists. split.
  - eapply rtc_l; [exists MCancelSeen; reflexivity|]. eapply rtc_l; [exists MRecv; reflexivity|].
    eapply rtc_l; [exists MDispatch; reflexivity|].
    eapply rtc_l; [exists MDrained; reflexivity|]. eapply rtc_l; [exists MClose; reflexivity|]. apply rtc_refl.
  - match goal with |- phase ?q = _ /\ _ =>
      destruct (proj2 (pipeline_drains demoPipe demoPipe_inv eq_refl eq_refl) q) as [(H1 & H2 & _)|(p'' & m & Hm)] end.
    + eapply rtc_l; [exists MCancelSeen; reflexivity|]. eapply rtc_l; [exists MRecv; reflexivity|].
    eapply rtc_l; [exists MDispatch; reflexivity|].
      eapply rtc_l; [exists MDrained; reflexivity|]. eapply rtc_l; [exists MClose; reflexivity|]. apply rtc_refl.
    + split; [exact H1|exact H2].
    + destruct m; discriminate Hm.
Defined.
