(* ===== verification/Log.v ===== *)
(** * log/slog as the program uses it, and [buildLogger] of cmd/trimon/main.go. *)

From S2P Require Import Prelude.

(** Where the records of a handler go: to standard error as text or as JSON
    lines, or to [io.Discard]. *)
Inductive Handler := HandlerDiscard | HandlerText | HandlerJSON.

Record Logger := { lg_handler : Handler; lg_level : Z }.

Definition LevelDebug : Z := -4.
Definition LevelInfo : Z := 0.
Definition LevelWarn : Z := 4.
Definition LevelError : Z := 8.

(** A record of this level appears on standard error. *)
Definition shown (l : Logger) (level : Z) : bool :=
  (lg_level l <=? level) && match lg_handler l with HandlerDiscard => false | _ => true end.

(** [slog.New(slog.NewTextHandler(io.Discard, nil))] *)
Definition discardLogger : Logger := {| lg_handler := HandlerDiscard; lg_level := LevelInfo |}.

Definition buildLogger (level format : string) : Logger :=
  let lvl := if (level =? "debug")%string then LevelDebug
             else if (level =? "warn")%string then LevelWarn
             else if (level =? "error")%string then LevelError
             else LevelInfo in
  {| lg_handler := if (format =? "text")%string then HandlerText else HandlerJSON; lg_level := lvl |}.

(** Errors are shown whatever the flags say. *)
Lemma buildLogger_shows_errors level format : shown (buildLogger level format) LevelError = true.
Proof.
  unfold shown, buildLogger. cbn [lg_level lg_handler].
  by destruct (level =? "debug")%string, (level =? "warn")%string, (level =? "error")%string, (format =? "text")%string.
Qed.
