(* ===== verification/Server.v ===== *)
(** * internal/server/server.go: the internal HTTP server.

    The four routes and their handlers, with the state they share: the current
    configuration, the health checker and the reload callback (the one main
    installs, cmd/trimon/main.go).  JSON bodies are values (GoFmt.v); a panic in
    a handler is recovered by net/http, which drops the connection ([None]). *)

From S2P Require Import Prelude.
From S2P Require Import GoStrings.
From S2P Require Import Float64.
From S2P Require Import GoFmt.
From S2P Require Import GoTime.
From S2P Require Import Types.
From S2P Require Import Probe.
From S2P Require Import Config.
From S2P Require Import ConfigLoad.
From S2P Require Import ConfigTypes.
From S2P Require Import Pipeline.
From S2P Require Import Log.

(** ** Responses *)

Inductive Body :=
  | BodyJSON (j : JSON)
  | BodyYAML (text : string)
  | BodyText (text : string)
  | BodyEmpty                   (* the encoder failed after the header was sent *)
  | BodyDelegated.              (* written by the metrics handler *)

Record Response := { rsp_Status : Z; rsp_ContentType : string; rsp_Body : Body }.

Definition StatusOK : Z := 200.
Definition StatusBadRequest : Z := 400.
Definition StatusNotFound : Z := 404.
Definition StatusMethodNotAllowed : Z := 405.
Definition StatusInternalServerError : Z := 500.
Definition StatusServiceUnavailable : Z := 503.

Definition writeJSON (status : Z) (v : JSON) : Response :=
  {| rsp_Status := status; rsp_ContentType := "application/json";
     rsp_Body := match encodeError v with None => BodyJSON v | Some _ => BodyEmpty end |}.

(** [http.Error] and [http.NotFound]. *)
Definition httpError (status : Z) (msg : string) : Response :=
  {| rsp_Status := status; rsp_ContentType := "text/plain; charset=utf-8";
     rsp_Body := BodyText (msg +:+ String (chr 10) "") |}.

(** ** The configuration dump *)

Record globalDump := {
  gd_Interval : string;
  gd_PacketInterval : string;
  gd_Timeout : string;
  gd_Count : Z;
  gd_SourceIP : string
}.

Record probeDump := {
  pd_Name : string;
  pd_Type : string;
  pd_Targets : list string;
  pd_MaxResolvedIPs : Z;
  pd_SourceIP : string;
  pd_Interval : string;
  pd_PacketInterval : string;
  pd_Timeout : string;
  pd_Count : Z;
  pd_Labels : gmap string string
}.

Record configDump := { cd_Global : globalDump; cd_Probes : list probeDump }.

Definition toProbeDump (p : ProbeConfig) : probeDump :=
  {| pd_Name := Name p; pd_Type := Type_ p; pd_Targets := Targets p; pd_MaxResolvedIPs := MaxResolvedIPs p;
     pd_SourceIP := SourceIP p; pd_Interval := DurationString (Interval p);
     pd_PacketInterval := DurationString (PacketInterval p); pd_Timeout := DurationString (Timeout p);
     pd_Count := Count p; pd_Labels := default ∅ (Labels p) |}.

Definition toConfigDump (cfg : Config) : configDump :=
  {| cd_Global :=
       {| gd_Interval := DurationString (g_Interval (Global cfg));
          gd_PacketInterval := DurationString (g_PacketInterval (Global cfg));
          gd_Timeout := DurationString (g_Timeout (Global cfg));
          gd_Count := g_Count (Global cfg); gd_SourceIP := g_SourceIP (Global cfg) |};
     cd_Probes := toProbeDump <$> Probes cfg |}.

(** The json tags. *)
Definition omitZero (key : string) (n : Z) : list (string * JSON) := if n =? 0 then [] else [(key, JInt n)].

Definition marshalProbe (p : probeDump) : JSON := JObject (
  [("name", JString (pd_Name p)); ("type", JString (pd_Type p)); ("targets", JStrings (pd_Targets p))] ++
  omitZero "max_resolved_ips" (pd_MaxResolvedIPs p) ++
  [("source_ip", JString (pd_SourceIP p)); ("probe_every", JString (pd_Interval p));
   ("packet_interval", JString (pd_PacketInterval p)); ("timeout", JString (pd_Timeout p));
   ("count", JInt (pd_Count p)); ("labels", JMap (pd_Labels p))]).

Definition marshalDump (d : configDump) : JSON := JObject
  [("global", JObject (
      [("probe_every", JString (gd_Interval (cd_Global d)));
       ("packet_interval", JString (gd_PacketInterval (cd_Global d)));
       ("timeout", JString (gd_Timeout (cd_Global d))); ("count", JInt (gd_Count (cd_Global d)))] ++
      omitString "source_ip" (gd_SourceIP (cd_Global d))));
   ("probes", JArray (marshalProbe <$> cd_Probes d))].

(** ** State and handlers *)

(** What the server writes to its log, with the error it names. *)
Inductive LogEntry :=
  | LogReloadFailed (err : cfg_error)
  | LogMarshalFailed (err : string)
  | LogServeStopped (err : string).

(** What the handlers share and the reload callback changes: the configuration
    of GET /config, the calls of [sched.Reload], the count of
    [exp.RecordConfigReload] calls, and what the log shows. *)
Record World := {
  currentCfg : option Config;
  reloads : list (list ProbeConfig);
  reloadCount : Z;
  serverLog : list LogEntry
}.

Record Server := {
  httpAddr : string;
  metricsHandler : bool;
  logger : Logger;
  reloadFunc : option (World -> res cfg_error Config * World);
  healthChecker : option (World -> float64)
}.

(** [New]; the routes are below. *)
Definition NewServer (listenAddr : string) : Server :=
  {| httpAddr := listenAddr; metricsHandler := false; logger := discardLogger; reloadFunc := None; healthChecker := None |}.

Definition SetMetricsHandler (s : Server) : Server :=
  {| httpAddr := httpAddr s; metricsHandler := true; logger := logger s; reloadFunc := reloadFunc s;
     healthChecker := healthChecker s |}.
Definition SetReloadFunc (fn : World -> res cfg_error Config * World) (s : Server) : Server :=
  {| httpAddr := httpAddr s; metricsHandler := metricsHandler s; logger := logger s; reloadFunc := Some fn;
     healthChecker := healthChecker s |}.
Definition SetHealthChecker (fn : World -> float64) (s : Server) : Server :=
  {| httpAddr := httpAddr s; metricsHandler := metricsHandler s; logger := logger s; reloadFunc := reloadFunc s;
     healthChecker := Some fn |}.
(** A nil logger is ignored. *)
Definition SetLogger (l : option Logger) (s : Server) : Server :=
  match l with
  | Some l' => {| httpAddr := httpAddr s; metricsHandler := metricsHandler s; logger := l'; reloadFunc := reloadFunc s;
                  healthChecker := healthChecker s |}
  | None => s
  end.

Definition UpdateConfig (cfg : Config) (w : World) : World :=
  {| currentCfg := Some cfg; reloads := reloads w; reloadCount := reloadCount w; serverLog := serverLog w |}.

(** [s.logger.Error(...)] *)
Definition logError (s : Server) (e : LogEntry) (w : World) : World :=
  if shown (logger s) LevelError
  then {| currentCfg := currentCfg w; reloads := reloads w; reloadCount := reloadCount w; serverLog := serverLog w ++ [e] |}
  else w.

(** [Start]: [listen] is the error of [net.Listen], if any. *)
Definition StartServer (listen : string -> option string) (s : Server) : res string unit :=
  match listen (httpAddr s) with
  | Some err => Err ("http server bind " +:+ httpAddr s +:+ ": " +:+ err)
  | None => Ok ()
  end.

(** The serving goroutine when [Serve] returns: nothing, [http.ErrServerClosed]
    or another error. *)
Inductive serveResult := ServeNil | ServeClosed | ServeFailed (err : string).
Definition serveReturned (s : Server) (r : serveResult) (w : World) : World :=
  match r with ServeFailed err => logError s (LogServeStopped err) w | _ => w end.

(** The untyped constant 0.9 as a float64. *)
Definition healthBufferThreshold : float64 := fdiv (f64 9) (f64 10).

Definition handleHealthz (s : Server) (w : World) : Response :=
  match healthChecker s with
  | Some check =>
      let usage := check w in
      if fltb healthBufferThreshold usage
      then writeJSON StatusServiceUnavailable
             (JObject [("status", JString "degraded"); ("reason", JString "results buffer near capacity");
                       ("buffer_usage", JFloat usage)])
      else writeJSON StatusOK (JObject [("status", JString "ok")])
  | None => writeJSON StatusOK (JObject [("status", JString "ok")])
  end.

Definition handleMetrics (s : Server) : Response :=
  if metricsHandler s
  then {| rsp_Status := StatusOK; rsp_ContentType := ""; rsp_Body := BodyDelegated |}
  else httpError StatusNotFound "404 page not found".

Definition handleReload (s : Server) (w : World) : option Response * World :=
  match reloadFunc s with
  | None => (Some (writeJSON StatusServiceUnavailable (JObject [("error", JString "reload not configured")])), w)
  | Some f =>
      match f w with
      | (Ok newCfg, w') =>
          (Some (writeJSON StatusOK (JObject [("reloaded", JBool true);
                                              ("probes", JInt (Z.of_nat (length (Probes newCfg))))])), w')
      | (Err err, w') =>
          (Some (writeJSON StatusBadRequest (JObject [("reloaded", JBool false);
                   ("error", JString "configuration invalid; see server logs")])),
           logError s (LogReloadFailed err) w')
      | (Panic _, w') => (None, w')
      end
  end.

(** [accept] is the Accept header, [yamlMarshal] the YAML package. *)
Definition handleConfig (yamlMarshal : configDump -> string + string) (s : Server) (accept : string) (w : World)
    : Response * World :=
  match currentCfg w with
  | None => (writeJSON StatusServiceUnavailable (JObject [("error", JString "config not yet loaded")]), w)
  | Some cfg =>
      let dump := toConfigDump cfg in
      if (accept =? "application/x-yaml")%string then
        match yamlMarshal dump with
        | inl err => (httpError StatusInternalServerError "internal error", logError s (LogMarshalFailed err) w)
        | inr b => ({| rsp_Status := StatusOK; rsp_ContentType := "application/x-yaml"; rsp_Body := BodyYAML b |}, w)
        end
      else (writeJSON StatusOK (marshalDump dump), w)
  end.

(** [sched.Reload(probes)] and [exp.RecordConfigReload(ctx)], as the callback
    calls them. *)
Definition schedReload (probes : list ProbeConfig) (w : World) : World :=
  {| currentCfg := currentCfg w; reloads := reloads w ++ [probes]; reloadCount := reloadCount w; serverLog := serverLog w |}.
Definition countReload (w : World) : World :=
  {| currentCfg := currentCfg w; reloads := reloads w; reloadCount := reloadCount w + 1; serverLog := serverLog w |}.

(** The callback after a successful load. *)
Definition applyReload (newCfg : Config) (w : World) : World :=
  countReload (UpdateConfig newCfg (schedReload (Probes newCfg) w)).

(** The callback main installs with [srv.SetReloadFunc]. *)
Definition reloadCallback (os : OSEnv) (env : ConfigEnv) (y : YAML) (configPath probesPath : string)
    (w : World) : res cfg_error Config * World :=
  match Load os env y configPath probesPath with
  | Ok newCfg => (Ok newCfg, applyReload newCfg w)
  | other => (other, w)
  end.

(** ** Routing *)

Inductive Route := RouteHealthz | RouteMetrics | RouteReload | RouteConfig.

(** The patterns of [New]: a GET pattern also matches HEAD. *)
Definition routes : list (string * string * Route) :=
  [("GET", "/healthz", RouteHealthz); ("GET", "/metrics", RouteMetrics); ("POST", "/reload", RouteReload);
   ("GET", "/config", RouteConfig)].

Definition methodMatches (pattern method : string) : bool :=
  (pattern =? method)%string || ((pattern =? "GET")%string && (method =? "HEAD")%string).

Definition route (method path : string) : Route + Z :=
  match List.find (fun '(m, p, _) => (p =? path)%string && methodMatches m method) routes with
  | Some (_, _, r) => inl r
  | None => inr (if existsb (fun '(_, p, _) => (p =? path)%string) routes
                 then StatusMethodNotAllowed else StatusNotFound)
  end.

(** One request, for a clean path. *)
Definition serve (yamlMarshal : configDump -> string + string) (s : Server) (method path accept : string) (w : World)
    : option Response * World :=
  match route method path with
  | inl RouteHealthz => (Some (handleHealthz s w), w)
  | inl RouteMetrics => (Some (handleMetrics s), w)
  | inl RouteReload => handleReload s w
  | inl RouteConfig => let '(rsp, w') := handleConfig yamlMarshal s accept w in (Some rsp, w')
  | inr code => (Some (httpError code (if code =? StatusNotFound then "404 page not found" else "Method Not Allowed")), w)
  end.

(** ** Health *)

Lemma nearest_gt A B v g h :
  0 < B -> norm K h -> nearest K A B v -> (g + h) * B < 2 * A -> g < h -> g < v.
Proof. intros HB Hh Hn H Hgh. specialize (Hn h Hh). nia. Qed.

Lemma fltb_fis x y vx vy : fis x vx -> fis y vy -> fltb x y = (vx <? vy).
Proof.
  intros Hx Hy. pose proof (fcompare_fis x y vx vy Hx Hy) as H. unfold fltb, SFltb. rewrite H.
  by destruct (Z.compare_spec vx vy), (Z.ltb_spec vx vy); try lia.
Qed.

(** 0.9 rounds up to [8106479329266893 * 2^-53]. *)
Lemma threshold_value : fis healthBufferThreshold (8106479329266893 * 2 ^ (-53 + K)).
Proof. exists 8106479329266893%positive, (-53). split_and!; try reflexivity; unfold K; lia. Qed.

Lemma usage_above a b :
  0 <= a < 2 ^ 53 -> 1 <= b <= 2 ^ 50 ->
  fltb healthBufferThreshold (fdiv (f64 a) (f64 b)) = (9 * b <? 10 * a).
Proof.
  intros Ha Hb. destruct (decide (a = 0)) as [->|Hn].
  { destruct (f64_fis b) as (m & e & -> & _); [lia|]. symmetry. apply Z.ltb_ge. lia. }
  destruct (fdiv_ints a b) as (v & Hv & Hnear); [lia..|].
  rewrite (fltb_fis _ _ _ _ threshold_value Hv).
  assert (2 ^ K = 2 ^ 53 * 2 ^ (-53 + K)) as HK by done. assert (0 < 2 ^ (-53 + K)) as HP by done.
  rewrite HK in Hnear. set (P := 2 ^ (-53 + K)) in *.
  destruct (Z.ltb_spec (9 * b) (10 * a)) as [H|H].
  - apply Z.ltb_lt. apply (nearest_gt (a * (2 ^ 53 * P)) b v _ (8106479329266894 * P)); [lia| |done| |lia].
    + apply norm_pow; [done|unfold K; lia].
    + assert (16212958658533787 * b < 2 * (a * 2 ^ 53)) by (change (2 ^ 50) with 1125899906842624 in Hb;
        change (2 ^ 53) with 9007199254740992; lia). nia.
  - apply Z.ltb_ge. apply (nearest_le (a * (2 ^ 53 * P)) b); [lia| |done|].
    + apply norm_pow; [done|unfold K; lia].
    + assert (a * 2 ^ 53 <= 8106479329266893 * b) by (change (2 ^ 53) with 9007199254740992; lia). nia.
Qed.

Lemma healthz_response p s w :
  (1 <= cap (results p))%nat -> Z.of_nat (cap (results p)) <= 2 ^ 50 ->
  (length (buf (results p)) <= cap (results p))%nat ->
  healthChecker s = Some (fun _ => BufferUsage p) ->
  let degraded := 9 * Z.of_nat (cap (results p)) <? 10 * Z.of_nat (length (buf (results p))) in
  rsp_Status (handleHealthz s w) = (if degraded then StatusServiceUnavailable else StatusOK) /\
  rsp_Body (handleHealthz s w) =
    BodyJSON (if degraded
              then JObject [("status", JString "degraded"); ("reason", JString "results buffer near capacity");
                            ("buffer_usage", JFloat (BufferUsage p))]
              else JObject [("status", JString "ok")]).
Proof.
  intros Hc Hb Hl Hs degraded. unfold handleHealthz. rewrite Hs. unfold BufferUsage at 1 3.
  rewrite usage_above by lia. fold degraded.
  destruct degraded eqn:E; [|done]. split; [done|]. unfold writeJSON. cbn [rsp_Body encodeError fold_right snd].
  assert (finite (BufferUsage p) = true) as ->; [|done]. unfold BufferUsage.
  apply Z.ltb_lt in E. destruct (fdiv_ints (Z.of_nat (length (buf (results p)))) (Z.of_nat (cap (results p))))
    as (v & (m & e & -> & _) & _); [lia..|]. done.
Qed.


(** ** Reload *)


(** ** Feeding the dump back *)

(** What reading a dumped document gives: [Duration.UnmarshalYAML] parses the
    duration strings, the other members keep their values. *)
Definition UnmarshalDuration (value : string) : res (string * durError) Z :=
  wrapErr (fun err => (value, err)) (ParseDuration value).   (* invalid duration %q: %w *)

Definition readGlobal (d : globalDump) : res (string * durError) GlobalConfig :=
  interval ← UnmarshalDuration (gd_Interval d);
  packetInterval ← UnmarshalDuration (gd_PacketInterval d);
  timeout ← UnmarshalDuration (gd_Timeout d);
  Ok {| g_Interval := interval; g_PacketInterval := packetInterval; g_Timeout := timeout;
        g_Count := gd_Count d; g_SourceIP := gd_SourceIP d |}.

Definition readProbe (d : probeDump) : res (string * durError) rawProbeConfig :=
  interval ← UnmarshalDuration (pd_Interval d);
  packetInterval ← UnmarshalDuration (pd_PacketInterval d);
  timeout ← UnmarshalDuration (pd_Timeout d);
  Ok {| r_Name := pd_Name d; r_Type := pd_Type d; r_Targets := pd_Targets d;
        r_MaxResolvedIPs := pd_MaxResolvedIPs d; r_SourceIP := pd_SourceIP d;
        r_Interval := Some interval; r_PacketInterval := Some packetInterval; r_Timeout := Some timeout;
        r_Count := Some (pd_Count d); r_Labels := Some (pd_Labels d);
        r_HTTP := None; r_TCP := None; r_UDP := None; r_DNS := None |}.

(** Durations are int64 values. *)
Definition fits (p : ProbeConfig) : Prop :=
  in_int64 (Interval p) /\ in_int64 (PacketInterval p) /\ in_int64 (Timeout p).
Definition globalFits (g : GlobalConfig) : Prop :=
  in_int64 (g_Interval g) /\ in_int64 (g_PacketInterval g) /\ in_int64 (g_Timeout g).

(** A nil label map is dumped as an empty one. *)
Definition fillLabels (p : ProbeConfig) : ProbeConfig :=
  {| Name := Name p; Type_ := Type_ p; Targets := Targets p; MaxResolvedIPs := MaxResolvedIPs p;
     SourceIP := SourceIP p; Interval := Interval p; PacketInterval := PacketInterval p; Timeout := Timeout p;
     Count := Count p; Labels := Some (default ∅ (Labels p)); HTTP := HTTP p; TCP := TCP p; UDP := UDP p; DNS := DNS p |}.

Definition bareRaw (p : ProbeConfig) : rawProbeConfig :=
  toRaw (setProtocol (fillLabels p) None None None None).

Lemma readGlobal_dump cfg : globalFits (Global cfg) -> readGlobal (cd_Global (toConfigDump cfg)) = Ok (Global cfg).
Proof.
  intros (H1 & H2 & H3). unfold readGlobal, UnmarshalDuration. cbn [toConfigDump cd_Global gd_Interval gd_PacketInterval gd_Timeout].
  rewrite !ParseDuration_String by done. simpl. by destruct (Global cfg).
Qed.

Lemma readProbe_dump p : fits p -> readProbe (toProbeDump p) = Ok (bareRaw p).
Proof.
  intros (H1 & H2 & H3). unfold readProbe, UnmarshalDuration. cbn [toProbeDump pd_Interval pd_PacketInterval pd_Timeout].
  by rewrite !ParseDuration_String.
Qed.

(** An accepted ICMP probe is accepted again from its dump. *)
Lemma reread_icmp env r g pc :
  range_ok env -> mergeAndValidateProbe env r g = Ok pc -> Type_ pc = ProbeTypeICMP ->
  mergeAndValidateProbe env (bareRaw pc) g = Ok (fillLabels pc).
Proof.
  intros Hr Hm Ht. pose proof (wf_merged _ _ _ _ Hr Hm) as [Hw _].
  destruct Hw as (_ & _ & _ & _ & _ & Hl & Hb).
  assert (HTTP pc = None /\ TCP pc = None /\ UDP pc = None /\ DNS pc = None) as (B1 & B2 & B3 & B4).
  { destruct Hb as [(_ & H)|[(E & _)|[(E & _)|[(E & _)|(E & _)]]]]; [done|by rewrite E in Ht..]. }
  pose proof (mergeAndValidateProbe_toRaw _ _ _ _ Hr Hm) as Hraw.
  apply mergeAndValidateProbe_ok in Hraw as (K1 & K2 & K3 & K4 & K5 & _ & K7); [|done].
  apply mergeAndValidateProbe_ok; [done|].
  unfold validateProtocolConfig in *. destruct pc as [pn pt pg pm ps pi pp pto pc_ pl ph ptc pu pd]. simpl in *. subst.
  split_and!; try done; try apply K2.
  - intros m [= <-] k v Hk. destruct pl as [m|]; [by apply (Hl m)|]. done.
  - rewrite String.eqb_refl in *. injection K7 as K7.
    change (effectiveSource _ g) with (effectiveSource (bareRaw {| Name := pn; Type_ := ProbeTypeICMP; Targets := pg;
      MaxResolvedIPs := pm; SourceIP := ps; Interval := pi; PacketInterval := pp; Timeout := pto; Count := pc_;
      Labels := pl; HTTP := None; TCP := None; UDP := None; DNS := None |}) g) in K7.
    unfold mergedBase. simpl. unfold fillLabels. simpl. do 2 f_equal. exact K7.
Qed.

(** No other dump is accepted: the protocol block is required. *)
Lemma reread_other env g pc pc' :
  range_ok env -> Type_ pc <> ProbeTypeICMP -> mergeAndValidateProbe env (bareRaw pc) g <> Ok pc'.
Proof.
  intros Hr Ht H. apply mergeAndValidateProbe_ok in H as (K1 & _ & _ & _ & _ & _ & K7); [|done].
  unfold validateProtocolConfig in K7. simpl in *.
  destruct (known_types _ K1) as [E|[E|[E|[E|E]]]]; rewrite E in *; simpl in *; done.
Qed.

Fixpoint readProbes (l : list probeDump) : res (string * durError) (list rawProbeConfig) :=
  match l with
  | [] => Ok []
  | d :: rest => r ← readProbe d; rs ← readProbes rest; Ok (r :: rs)
  end.

Lemma readProbes_dump ps : Forall fits ps -> readProbes (toProbeDump <$> ps) = Ok (bareRaw <$> ps).
Proof.
  induction 1 as [|p ps Hp _ IH]; [done|]. rewrite !fmap_cons. cbn [readProbes].
  rewrite (readProbe_dump p Hp), IH. done.
Qed.

Lemma reread_probes env g ps :
  range_ok env -> Forall (fun pc => (exists r, mergeAndValidateProbe env r g = Ok pc) /\ Name pc <> "") ps ->
  NoDup (Name <$> ps) -> Forall (fun p => Type_ p = ProbeTypeICMP) ps ->
  mergeAndValidateProbes env (bareRaw <$> ps) g = Ok (fillLabels <$> ps).
Proof.
  intros Hr Ho Hd Hi. unfold mergeAndValidateProbes. apply mergeLoop_ok.
  assert (r_Name <$> (bareRaw <$> ps) = Name <$> ps) as Hn by (rewrite <- list_fmap_compose; done).
  rewrite Hn. split_and!; [| |done|].
  - clear Hd Hn. induction Ho as [|p ps [[r E] _] _ IH]; [constructor|]. apply Forall_cons in Hi as [Hi His].
    simpl. constructor; [by eapply reread_icmp|by apply IH].
  - apply Forall_fmap. eapply Forall_impl; [exact Ho|]. by intros pc [_ H].
  - apply Forall_forall. intros r _. apply not_elem_of_empty.
Qed.

Lemma Load_fits os env y configPath probesPath cfg :
  range_ok env -> typed_decoder y -> Load os env y configPath probesPath = Ok cfg ->
  Forall fits (Probes cfg) /\ globalFits (Global cfg).
Proof.
  intros Hr Hy Hl. destruct (Load_numbers y Hy _ _ _ _ _ Hr Hl) as (Hp & (G1 & G2 & G3 & _) & _).
  split; [eapply Forall_impl; [exact Hp|]; by intros pc []|].
  unfold globalFits, positive64, in_int64 in *. lia.
Qed.

(** C11: the /config dump can be fed back exactly for ICMP probes.  For every
    loaded configuration, all durations of the dump parse back to the values
    they were printed from, the global section is read back unchanged, and the
    probes are accepted again, unchanged but for an empty label map in place of
    a missing one, if and only if all of them are ICMP probes: the dump leaves
    out the http, tcp, udp and dns blocks the validation requires, although the
    comment says it can be used as a probe configuration. *)
Theorem config_dump_reloads os env y configPath probesPath cfg :
  range_ok env -> typed_decoder y -> Load os env y configPath probesPath = Ok cfg ->
  let d := toConfigDump cfg in
  readGlobal (cd_Global d) = Ok (Global cfg) /\
  exists raws, readProbes (cd_Probes d) = Ok raws /\
    ((exists out, mergeAndValidateProbes env raws (Global cfg) = Ok out) <->
     Forall (fun p => Type_ p = ProbeTypeICMP) (Probes cfg)) /\
    (Forall (fun p => Type_ p = ProbeTypeICMP) (Probes cfg) ->
     mergeAndValidateProbes env raws (Global cfg) = Ok (fillLabels <$> Probes cfg)).
Proof.
  intros Hr Hy Hl d. destruct (Load_fits _ _ _ _ _ _ Hr Hy Hl) as [Hf Hg]. split; [by apply readGlobal_dump|].
  exists (bareRaw <$> Probes cfg). split; [by apply readProbes_dump|].
  destruct (Load_origin _ _ _ _ _ _ Hl) as [Ho Hd].
  split; [split|by apply reread_probes].
  - intros [out H]. apply mergeLoop_ok in H as (H & _). apply Forall_forall. intros p Hp.
    destruct (decide (Type_ p = ProbeTypeICMP)) as [|Hne]; [done|]. exfalso.
    apply list_elem_of_lookup in Hp as (i & Hi).
    destruct (Forall2_lookup_l _ _ _ i (bareRaw p) H) as (pc' & _ & E); [by rewrite list_lookup_fmap, Hi|].
    by eapply reread_other.
  - intros Hi. eexists. by apply reread_probes.
Qed.

(** ** Concrete instances *)

Definition nearFull : Pipeline.Pipeline :=
  {| results := {| buf := repeat zeroResult 19; cap := 20; closed := false |}; exporters := []; onExportError := true;
     phase := PRunning; ctxCancelled := false; inHand := None; exported := []; exportCalls := []; exportErrors := []; accepted := [] |}.

Definition demoServer : Server :=
  {| httpAddr := "127.0.0.1:8080"; metricsHandler := true; logger := buildLogger "info" "json";
     reloadFunc := Some (reloadCallback demoOS demoEnv demoYAML "ops.yaml" "probes.d");
     healthChecker := Some (fun _ => BufferUsage nearFull) |}.

Definition demoWorld : World := {| currentCfg := None; reloads := []; reloadCount := 0; serverLog := [] |}.



Lemma config_dump_reloads_witness :
  readGlobal (cd_Global (toConfigDump demoConfig)) = Ok demoGlobal /\
  exists raws, readProbes (cd_Probes (toConfigDump demoConfig)) = Ok raws /\
    forall out, mergeAndValidateProbes demoEnv raws demoGlobal <> Ok out.
Proof.
  destruct (config_dump_reloads demoOS demoEnv demoYAML "ops.yaml" "probes.d" demoConfig demo_range demo_typed demo_load)
    as (H & raws & Hr & Hiff & _).
  split; [exact H|]. exists raws. split; [exact Hr|]. intros out E.
    pose proof (proj1 Hiff (ex_intro _ out E)) as Hf. apply Forall_cons in Hf as [Hf _]. discriminate Hf.
Defined.
