(* ===== verification/Scheduler.v ===== *)
(** * internal/scheduler/scheduler.go: one goroutine per probe.

    The scheduler's map names the running workers; the goroutines ever started
    are kept in [goroutines] and the map holds their indices, so that a worker
    whose map entry is overwritten or removed is still visible.  [Stop] is split
    at its lock boundaries ([collect], [cancelWorkers], [allExited]); a worker is
    the state machine of the loop in [startLocked]. *)

From Stdlib Require Import Relation_Operators Wellfounded.
From S2P Require Import Prelude.
From S2P Require Import Types.
From S2P Require Import Pipeline.

Section Scheduler.
Context {P : Type}.
Variable factory : ProbeConfig -> res string P.

(** Where a worker goroutine is: not begun, in its select, inside [p.Run],
    sending the results of a run, returned ([w.done] closed). *)
Inductive workerPhase := WNew | WSelect | WRunning | WSending (rs : list ProbeResult) | WExited.

Record Worker := {
  w_cfg : ProbeConfig;
  w_prober : P;
  w_cancelled : bool;
  w_phase : workerPhase
}.

Record Scheduler := {
  workers : gmap string nat;
  goroutines : list Worker;
  onDroppedResult : bool;
  dropped : list (string * ProbeResult);  (* history: results dropped, by probe *)
  dropRecords : list string               (* history: calls of onDroppedResult *)
}.

Definition NewScheduler : Scheduler :=
  {| workers := ∅; goroutines := []; onDroppedResult := false; dropped := []; dropRecords := [] |}.

Definition SetDroppedResultRecorder (s : Scheduler) : Scheduler :=
  {| workers := workers s; goroutines := goroutines s; onDroppedResult := true; dropped := dropped s;
     dropRecords := dropRecords s |}.

(** ** Operations under the lock *)

Definition startLocked (s : Scheduler) (cfg : ProbeConfig) : res string Scheduler :=
  match factory cfg with
  | Err _ => Ok s                                  (* logged *)
  | Panic p => Panic p
  | Ok p =>
      Ok {| workers := <[Name cfg := length (goroutines s)]> (workers s);
            goroutines := goroutines s ++ [{| w_cfg := cfg; w_prober := p; w_cancelled := false; w_phase := WNew |}];
            onDroppedResult := onDroppedResult s; dropped := dropped s; dropRecords := dropRecords s |}
  end.

Fixpoint Start (s : Scheduler) (cfgs : list ProbeConfig) : res string Scheduler :=
  match cfgs with
  | [] => Ok s
  | cfg :: rest => s' ← startLocked s cfg; Start s' rest
  end.

Definition WorkerCount (s : Scheduler) : nat := size (workers s).

(** The locked part of [Stop]: empty the map, keep the workers to stop. *)
Definition collect (s : Scheduler) : Scheduler * list nat :=
  ({| workers := ∅; goroutines := goroutines s; onDroppedResult := onDroppedResult s; dropped := dropped s; dropRecords := dropRecords s |},
   snd <$> map_to_list (workers s)).

(** ** The rest of [Stop] *)

Definition setWorker (s : Scheduler) (id : nat) (w : Worker) : Scheduler :=
  {| workers := workers s; goroutines := <[id := w]> (goroutines s);
     onDroppedResult := onDroppedResult s; dropped := dropped s; dropRecords := dropRecords s |}.

Definition setWPhase (w : Worker) (ph : workerPhase) : Worker :=
  {| w_cfg := w_cfg w; w_prober := w_prober w; w_cancelled := w_cancelled w; w_phase := ph |}.

Definition cancelWorker (s : Scheduler) (id : nat) : Scheduler :=
  match goroutines s !! id with
  | Some w => setWorker s id {| w_cfg := w_cfg w; w_prober := w_prober w; w_cancelled := true; w_phase := w_phase w |}
  | None => s
  end.

Definition cancelWorkers (s : Scheduler) (ids : list nat) : Scheduler := foldl cancelWorker s ids.

Definition exited (w : Worker) : bool := match w_phase w with WExited => true | _ => false end.

(** [<-done] for every worker returns. *)
Definition allExited (s : Scheduler) (ids : list nat) : bool :=
  forallb (fun id => match goroutines s !! id with Some w => exited w | None => true end) ids.

(** ** The worker loop *)

(** The moves of a worker that need nothing from outside. *)
Inductive workerMove := MBegin | MTick | MLoop | MExit.

Definition workerStep (m : workerMove) (w : Worker) : res unit (option Worker) :=
  match w_phase w, m with
  | WNew, MBegin =>                               (* time.NewTicker(cfg.Interval) *)
      if Interval (w_cfg w) <=? 0 then Panic NonPositiveTickerInterval
      else Ok (Some (setWPhase w WSelect))
  | WSelect, MTick => Ok (Some (setWPhase w WRunning))   (* case <-ticker.C: p.Run(runCtx) *)
  | WSending [], MLoop => Ok (Some (setWPhase w WSelect))
  | WSelect, MExit =>                             (* case <-ctx.Done() *)
      if w_cancelled w then Ok (Some (setWPhase w WExited)) else Ok None
  | _, _ => Ok None
  end.

(** [results := p.Run(runCtx)] returned [rs]. *)
Definition workerReturn (rs : list ProbeResult) (w : Worker) : option Worker :=
  match w_phase w with WRunning => Some (setWPhase w (WSending rs)) | _ => None end.

(** The channel was full: logged, and recorded if a recorder is set. *)
Definition dropResult (s : Scheduler) (name : string) (r : ProbeResult) : Scheduler :=
  {| workers := workers s; goroutines := goroutines s; onDroppedResult := onDroppedResult s;
     dropped := dropped s ++ [(name, r)];
     dropRecords := if onDroppedResult s then dropRecords s ++ [name] else dropRecords s |}.

(** One iteration of the send loop of worker [id] on the shared channel. *)
Definition workerSend (s : Scheduler) (p : Pipeline) (id : nat) : res unit (option (Scheduler * Pipeline)) :=
  match goroutines s !! id with
  | Some w =>
      match w_phase w with
      | WSending (r :: rs) =>
          pipeSend p r ≫= fun '(p', ok) =>
          let s' := setWorker s id (setWPhase w (WSending rs)) in
          Ok (Some (if (ok : bool) then s' else dropResult s' (Name (w_cfg w)) r, p'))
      | _ => Ok None
      end
  | None => Ok None
  end.

(** ** Facts about the operations *)

(** A goroutine that is still running is known: in the map or in [ids]. *)
Definition covered (s : Scheduler) (ids : list nat) : Prop :=
  forall id w, goroutines s !! id = Some w -> exited w = false ->
    id ∈ ids \/ exists name, workers s !! name = Some id.

Definition mapped (s : Scheduler) : Prop :=
  forall name id, workers s !! name = Some id ->
    exists w, goroutines s !! id = Some w /\ Name (w_cfg w) = name.

Lemma startLocked_covered s cfg s' :
  startLocked s cfg = Ok s' -> workers s !! Name cfg = None -> covered s [] -> covered s' [].
Proof.
  unfold startLocked. destruct (factory cfg) as [p| |] eqn:Ef; [|by intros [= ->]|done].
  intros [= <-] Hn Hc id w. simpl. intros Hw He. right.
  destruct (decide (id = length (goroutines s))) as [->|Hne].
  - exists (Name cfg). apply lookup_insert_eq.
  - rewrite lookup_snoc_Some in Hw. destruct Hw as [[_ Hw]|[-> _]]; [|done].
    destruct (Hc id w Hw He) as [Hid|(name & Hid)]; [by apply not_elem_of_nil in Hid|].
    exists name. rewrite lookup_insert_ne; [done|]. congruence.
Qed.

Lemma startLocked_mapped s cfg s' : startLocked s cfg = Ok s' -> mapped s -> mapped s'.
Proof.
  unfold startLocked. destruct (factory cfg) as [p| |] eqn:Ef; [|by intros [= ->]|done].
  intros [= <-] Hm name id. simpl. destruct (decide (name = Name cfg)) as [->|].
  - rewrite lookup_insert_eq. intros [= <-]. eexists. split; [by apply list_lookup_middle|done].
  - rewrite lookup_insert_ne by done. intros Hid. destruct (Hm _ _ Hid) as (w & Hw & Hn).
    exists w. split; [|done]. by apply lookup_app_l_Some.
Qed.

Lemma collect_covered s :
  covered s [] -> covered (fst (collect s)) (snd (collect s)) /\ workers (fst (collect s)) = ∅.
Proof.
  intros Hc. split; [|done]. intros id w Hw He. left.
  destruct (Hc id w Hw He) as [Hid|(name & Hid)]; [by apply not_elem_of_nil in Hid|].
  simpl. apply list_elem_of_fmap. exists (name, id). split; [done|]. by apply elem_of_map_to_list.
Qed.

Lemma allExited_covered s ids :
  covered s ids -> workers s = ∅ -> allExited s ids = true -> covered s [].
Proof.
  intros Hc Hw Ha id w Hid He. destruct (Hc id w Hid He) as [Hin|(name & Hn)].
  - unfold allExited in Ha. rewrite forallb_forall in Ha. specialize (Ha id).
    rewrite Hid in Ha. rewrite Ha in He; [done|]. by apply list_elem_of_In.
  - rewrite Hw in Hn. done.
Qed.

(** Updating one goroutine's state without resurrecting it. *)
Lemma setWorker_covered s id w w' ids :
  goroutines s !! id = Some w -> (exited w = true -> exited w' = true) ->
  covered s ids -> covered (setWorker s id w') ids.
Proof.
  intros Hw He Hc i v. simpl. intros Hv Hev. destruct (decide (i = id)) as [->|].
  - rewrite list_lookup_insert_eq in Hv by (by apply lookup_lt_Some in Hw). simplify_eq.
    apply (Hc id w Hw). destruct (exited w); [|done]. rewrite He in Hev; done.
  - rewrite list_lookup_insert_ne in Hv by done. by eapply Hc.
Qed.

Lemma cancelWorkers_covered s ids ids' : covered s ids' -> covered (cancelWorkers s ids) ids'.
Proof.
  revert s. induction ids as [|id ids IH]; intros s Hc; [done|]. simpl. apply IH.
  unfold cancelWorker. destruct (goroutines s !! id) as [w|] eqn:E; [|done].
  by eapply setWorker_covered.
Qed.

Lemma cancelWorkers_fields s ids :
  workers (cancelWorkers s ids) = workers s /\ dropped (cancelWorkers s ids) = dropped s.
Proof.
  revert s. induction ids as [|id ids IH]; intros s; [done|]. simpl.
  destruct (IH (cancelWorker s id)) as [-> ->]. unfold cancelWorker. by destruct (goroutines s !! id).
Qed.

(** ** Starting a set of probes *)

(** The goroutine a configuration gets. *)
Definition freshWorker (cfg : ProbeConfig) : option Worker :=
  match factory cfg with
  | Ok p => Some {| w_cfg := cfg; w_prober := p; w_cancelled := false; w_phase := WNew |}
  | _ => None
  end.

Lemma Start_spec s cfgs s' :
  Start s cfgs = Ok s' -> NoDup (Name <$> cfgs) ->
  (forall cfg, cfg ∈ cfgs -> workers s !! Name cfg = None) ->
  goroutines s' = goroutines s ++ omap freshWorker cfgs /\
  size (workers s') = (size (workers s) + length (omap freshWorker cfgs))%nat /\
  (covered s [] -> covered s' []) /\ (mapped s -> mapped s').
Proof.
  revert s. induction cfgs as [|cfg cfgs IH]; intros s; cbn [Start].
  { intros [= ->] _ _. simpl. rewrite app_nil_r. split; [done|]. split; [lia|done]. }
  intros E Hnd Hfree. apply NoDup_cons in Hnd as [Hni Hnd].
  destruct (startLocked s cfg) as [s1| |] eqn:E1; [|done..]. simpl in E.
  assert (workers s !! Name cfg = None) as Hf by (apply Hfree; constructor).
  pose proof (startLocked_covered s cfg s1 E1 Hf) as Hcov. pose proof (startLocked_mapped s cfg s1 E1) as Hmap.
  destruct (IH s1 E Hnd) as (I1 & I2 & I3 & I4).
  { intros c Hc. unfold startLocked in E1. destruct (factory cfg); [| |done]; injection E1 as <-.
    - simpl. rewrite lookup_insert_ne.
      + apply Hfree. by constructor.
      + intros Heq. apply Hni. rewrite Heq. apply list_elem_of_fmap. eauto.
    - apply Hfree. by constructor. }
  split; [|split; [|auto]].
  - rewrite I1. unfold startLocked, freshWorker in *. cbn [omap list_omap].
    destruct (factory cfg); [| |done]; injection E1 as <-; simpl; [by rewrite <- app_assoc|done].
  - rewrite I2. unfold startLocked, freshWorker in *. cbn [omap list_omap].
    destruct (factory cfg); [| |done]; injection E1 as <-; simpl; [|done].
    rewrite map_size_insert_None by done. lia.
Qed.

(** starting a set of probes with distinct names launches exactly one
    goroutine per probe the factory accepts, in order, and registers all of them:
    the worker count grows by exactly that number, every running goroutine can
    be found in the map under its probe's name, and nothing else is touched. *)
Theorem Start_exact s cfgs s' :
  Start s cfgs = Ok s' -> NoDup (Name <$> cfgs) -> workers s = ∅ -> covered s [] ->
  goroutines s' = goroutines s ++ omap freshWorker cfgs /\
  WorkerCount s' = length (omap freshWorker cfgs) /\ covered s' [] /\ mapped s'.
Proof.
  intros E Hnd Hw Hc. destruct (Start_spec s cfgs s' E Hnd) as (H1 & H2 & H3 & H4).
  - intros. by rewrite Hw.
  - split; [done|]. unfold WorkerCount. rewrite H2, Hw, map_size_empty. split; [done|].
    split; [auto|]. apply H4. intros name id. by rewrite Hw.
Qed.

(** ** Stopping a worker *)

(** What [p.Run] may return. *)
Variable runs : P -> list ProbeResult -> Prop.

(** What worker [id] can do once its select takes no tick any more. *)
Inductive ownStep (id : nat) : Scheduler * Pipeline -> Scheduler * Pipeline -> Prop :=
  | stop_move s p m w w' :
      goroutines s !! id = Some w -> m <> MTick -> workerStep m w = Ok (Some w') ->
      ownStep id (s, p) (setWorker s id w', p)
  | stop_return s p w w' rs :
      goroutines s !! id = Some w -> runs (w_prober w) rs -> workerReturn rs w = Some w' ->
      ownStep id (s, p) (setWorker s id w', p)
  | stop_send s p sp' : workerSend s p id = Ok (Some sp') -> ownStep id (s, p) sp'.

(** How many moves are left: a run in progress may return any number of
    results, so it weighs more than every batch. *)
Definition phaseMeasure (ph : workerPhase) : nat * nat :=
  match ph with
  | WRunning => (1, 0)
  | WNew => (0, 2) | WSelect => (0, 1) | WSending rs => (0, 2 + length rs) | WExited => (0, 0)
  end%nat.

Definition phaseLt (ph1 ph2 : workerPhase) : Prop := slexprod nat nat lt lt (phaseMeasure ph1) (phaseMeasure ph2).

Lemma phaseLt_wf : well_founded phaseLt.
Proof. apply (wf_inverse_image workerPhase (nat * nat)), wf_slexprod; apply lt_wf. Qed.

Definition workerPhaseOf (id : nat) (sp : Scheduler * Pipeline) : workerPhase :=
  match goroutines (fst sp) !! id with Some w => w_phase w | None => WExited end.

Lemma workerStep_measure m w w' :
  workerStep m w = Ok (Some w') -> m <> MTick -> exists ph, w' = setWPhase w ph /\ phaseLt ph (w_phase w).
Proof.
  unfold workerStep. destruct (w_phase w) as [| | |[|r rs]|], m; try done.
  - destruct (_ <=? 0); [done|]. intros [= <-] _. eexists. split; [done|]. right. simpl. lia.
  - destruct (w_cancelled w) eqn:Ec; [|done]. intros [= <-] _. eexists. split; [done|]. right. simpl. lia.
  - intros [= <-] _. eexists. split; [done|]. right. simpl. lia.
Qed.

Lemma setWorker_lookup s id w w' :
  goroutines s !! id = Some w -> goroutines (setWorker s id w') !! id = Some w'.
Proof. intros H. apply list_lookup_insert_eq. by apply lookup_lt_Some in H. Qed.

Lemma workerSend_inv s p id s' p' :
  workerSend s p id = Ok (Some (s', p')) ->
  exists w r rs ok, goroutines s !! id = Some w /\ w_phase w = WSending (r :: rs) /\
    pipeSend p r = Ok (p', ok) /\
    goroutines s' = goroutines (setWorker s id (setWPhase w (WSending rs))) /\
    workers s' = workers s /\
    dropped s' = if ok then dropped s else dropped s ++ [(Name (w_cfg w), r)].
Proof.
  unfold workerSend. destruct (goroutines s !! id) as [w|]; [|done].
  destruct (w_phase w) as [| | |[|r rs]|] eqn:E; try done.
  destruct (pipeSend p r) as [[p1 ok]| |] eqn:Es; [|done..]. simpl. intros [= <- <-].
  exists w, r, rs, ok. destruct ok; auto 10.
Qed.

(** What stays true of a cancelled worker until it has exited. *)
Definition stopping (id : nat) (sp : Scheduler * Pipeline) : Prop :=
  closed (results (snd sp)) = false /\
  exists w, goroutines (fst sp) !! id = Some w /\ w_cancelled w = true /\ 0 < Interval (w_cfg w) /\
    exists rs, runs (w_prober w) rs.

Lemma pipeSend_open p r p' ok : pipeSend p r = Ok (p', ok) -> closed (results p') = closed (results p).
Proof.
  unfold pipeSend, trySend. destruct (closed (results p)) eqn:E; [done|].
  destruct (_ <? _)%nat; by intros [= <- <-].
Qed.

(** Worker [id] changes phase only. *)
Lemma stopping_setWPhase id s p w ph p' sc :
  stopping id (s, p) -> goroutines s !! id = Some w -> phaseLt ph (w_phase w) ->
  closed (results p') = closed (results p) -> goroutines sc = goroutines (setWorker s id (setWPhase w ph)) ->
  stopping id (sc, p') /\ phaseLt (workerPhaseOf id (sc, p')) (workerPhaseOf id (s, p)).
Proof.
  intros (Ho & v & Hv & Hc & Hi & Hr) Hw Hlt Hcl Hg. cbn [fst snd] in *. rewrite Hw in Hv. injection Hv as <-.
  unfold stopping, workerPhaseOf. cbn [fst snd]. rewrite Hg, (setWorker_lookup _ _ w), Hw by done.
  split; [|done]. split; [congruence|]. eexists. split; [done|]. by split.
Qed.

Lemma ownStep_stopping id sp sp' :
  stopping id sp -> ownStep id sp sp' ->
  stopping id sp' /\ phaseLt (workerPhaseOf id sp') (workerPhaseOf id sp).
Proof.
  intros Hst Hs. destruct Hs as [s p m w w' Hw Hm E|s p w w' rs Hw _ E|s p [s' p'] E].
  - destruct (workerStep_measure _ _ _ E Hm) as (ph & -> & Hlt). by eapply stopping_setWPhase.
  - unfold workerReturn in E. destruct (w_phase w) eqn:Eph; simplify_eq. eapply stopping_setWPhase; [done..| |done|done].
    rewrite Eph. left. simpl. lia.
  - apply workerSend_inv in E as (w & r & rs & ok & Hw & Hph & Hs & Hg & _ & _).
    eapply stopping_setWPhase; [done..| |by eapply pipeSend_open|done]. rewrite Hph. right. simpl. lia.
Qed.

Lemma pipeSend_total p r : closed (results p) = false -> exists p' ok, pipeSend p r = Ok (p', ok).
Proof. intros Ho. unfold pipeSend, trySend. rewrite Ho. destruct (_ <? _)%nat; simpl; eauto. Qed.

Lemma stopping_progress id sp :
  stopping id sp -> (exists w, goroutines (fst sp) !! id = Some w /\ exited w = true) \/ exists sp', ownStep id sp sp'.
Proof.
  destruct sp as [s p]. intros (Ho & w & Hw & Hc & Hi & rs0 & Hr). simpl in *.
  destruct (w_phase w) as [| | |[|r rs]|] eqn:E; [right..|].
  - eexists. apply (stop_move _ _ _ MBegin w (setWPhase w WSelect)); [done..|]. unfold workerStep. rewrite E.
    destruct (Z.leb_spec (Interval (w_cfg w)) 0); [lia|done].
  - eexists. apply (stop_move _ _ _ MExit w (setWPhase w WExited)); [done..|]. unfold workerStep. by rewrite E, Hc.
  - eexists. apply (stop_return _ _ _ w (setWPhase w (WSending rs0)) rs0); [done..|]. unfold workerReturn. by rewrite E.
  - eexists. apply (stop_move _ _ _ MLoop w (setWPhase w WSelect)); [done..|]. unfold workerStep. by rewrite E.
  - destruct (pipeSend_total p r Ho) as (p' & ok & Es). eexists. apply stop_send. unfold workerSend. rewrite Hw, E, Es. reflexivity.
  - left. exists w. unfold exited. by rewrite E.
Qed.

(** [Stop] cannot hang on a worker: a cancelled worker with a valid interval
    and a prober whose runs return, wherever it is in its loop (even inside a
    run, or in the middle of sending a batch into a full channel), makes only
    finitely many further moves of its own and is never blocked before it has
    exited, since the sends do not wait. *)
Theorem cancelled_worker_exits id s p :
  stopping id (s, p) ->
  Acc (fun a b => ownStep id b a /\ stopping id b) (s, p) /\
  forall sp', rtc (ownStep id) (s, p) sp' ->
    (exists w, goroutines (fst sp') !! id = Some w /\ exited w = true) \/ exists sp'', ownStep id sp' sp''.
Proof.
  intros Hst. split.
  - clear Hst. remember (workerPhaseOf id (s, p)) as ph eqn:E. generalize dependent (s, p). clear s p.
    induction ph as [ph IH] using (well_founded_induction phaseLt_wf). intros sp ->. constructor.
    intros sp' [Hs Hst]. eapply IH; [|reflexivity]. by apply ownStep_stopping.
  - intros sp' H. apply stopping_progress. revert Hst.
    induction H as [|x y z Hxy _ IH]; [done|]. intros Hst. apply IH. by eapply ownStep_stopping.
Qed.
End Scheduler.
Arguments Worker : clear implicits.
Arguments Scheduler : clear implicits.

(** ** Concrete instances *)

Definition demoFactory (cfg : ProbeConfig) : res string string :=
  if (Type_ cfg =? "icmp")%string then Ok (Name cfg) else Err "unknown probe type".

Definition demoCfg (name type : string) : ProbeConfig := {|
  Name := name; Type_ := type; Targets := ["192.0.2.1"]; MaxResolvedIPs := 0; SourceIP := "";
  Interval := 30000; PacketInterval := 1000; Timeout := 5000; Count := 3; Labels := None;
  HTTP := None; TCP := None; UDP := None; DNS := None |}.

Lemma Start_exact_witness :
  exists s', Start demoFactory NewScheduler [demoCfg "a" "icmp"; demoCfg "b" "smtp"; demoCfg "c" "icmp"] = Ok s' /\
    WorkerCount s' = 2%nat /\ covered s' [].
Proof.
  eexists. split; [reflexivity|].
  assert (NoDup (Name <$> [demoCfg "a" "icmp"; demoCfg "b" "smtp"; demoCfg "c" "icmp"])) as Hn
    by (apply (bool_decide_unpack _); vm_compute; exact I).
  assert (covered (NewScheduler (P := string)) []) as Hc by (intros id w; simpl; by rewrite lookup_nil).
  destruct (Start_exact demoFactory NewScheduler [demoCfg "a" "icmp"; demoCfg "b" "smtp"; demoCfg "c" "icmp"]
    _ eq_refl Hn eq_refl Hc) as (_ & H & H' & _).
  split; [exact H|exact H'].
Defined.

(** A worker in the middle of a run. *)
Lemma cancelled_worker_exits_witness :
  let w := {| w_cfg := demoCfg "a" "icmp"; w_prober := "a"; w_cancelled := true; w_phase := WRunning |} in
  let runs (_ : string) rs := rs = [demoResult 1; demoResult 2] in
  Acc (fun a b => ownStep runs 0 b a /\ stopping runs 0 b)
    ({| workers := ∅; goroutines := [w]; onDroppedResult := true; dropped := []; dropRecords := [] |}, New demoExporters 1).
Proof.
  intros w runs. refine (proj1 (cancelled_worker_exits runs 0 _ _ _)).
  split; [done|]. exists w. split; [done|]. split; [done|]. split; [done|]. by eexists.
Defined.
