(* ===== verification/System.v ===== *)
(** * cmd/trimon/main.go: the composed program.

    Main, the reload handler of the HTTP server, the probe goroutines and the
    pipeline run concurrently; a [step] is one move of one of them.  Main and
    the handler are lists of instructions, split where they take a lock, block
    or become visible to another goroutine.  [s.mu] is explicit; [reloadMu] lets
    one handler run at a time, so there is one [reloadPC].  The process ends when
    main's list is empty, when some goroutine panics, or when a termination
    signal arrives before [signal.Notify] has claimed it. *)

From S2P Require Import Prelude.
From S2P Require Import Types.
From S2P Require Import Pipeline.
From S2P Require Import Scheduler.

Inductive instr :=
  | ISrvStart                          (* srv.Start() *)
  | IPipeGo                            (* go pipe.Run(ctx) *)
  | IStart (cfgs : list ProbeConfig)   (* sched.Start: s.mu.Lock() *)
  | IStarting (cfgs : list ProbeConfig) (* its loop; [] is s.mu.Unlock() *)
  | INotify                            (* signal.Notify(sigCh, ...) *)
  | IWaitSignal                        (* <-sigCh *)
  | ICollect                           (* sched.Stop: the locked loop *)
  | ICancel (ids : list nat)           (* its cancel() calls *)
  | IWait (ids : list nat)             (* its <-done waits *)
  | ICancelPipe                        (* cancel() *)
  | IWaitPipe                          (* pipe.Wait() *)
  | ICloseExporter                     (* exp.Close() *)
  | ISrvShutdown.                      (* srv.Shutdown *)

(** sched.Stop(), cancel(), pipe.Wait(), exp.Close(), srv.Shutdown() *)
Definition afterStop : list instr := [ICancelPipe; IWaitPipe; ICloseExporter; ISrvShutdown].
Definition shutdown : list instr := ICollect :: afterStop.

(** main from [srv.Start()] on. *)
Definition mainProgram (cfgs : list ProbeConfig) : list instr :=
  [ISrvStart; IPipeGo; IStart cfgs; INotify; IWaitSignal] ++ shutdown.

(** [sched.Reload(newCfg.Probes)] in the reload callback. *)
Definition reloadProgram (cfgs : list ProbeConfig) : list instr := [ICollect; IStart cfgs].

(** The cases of a step, with the names the proofs use. *)
Ltac step_cases Hs :=
  destruct Hs as [s s' Hlive H|s s' cfgs Hlive Hld H|s s' Hlive H|s Hlive|s s' m id Hlive H|s id w w' rs Hlive Hid Hrun H|s s' id Hlive H|s s' m Hlive H].

(** ** The state, and the moves of the goroutines *)

Section State.
Context {P : Type}.

Record System := {
  sched : Scheduler P;
  pipe : Pipeline;
  pipeGo : bool;                       (* pipe.Run has been started *)
  mainPC : list instr;
  reloadPC : option (list instr);      (* the handler that holds reloadMu *)
  muHeld : bool;                       (* s.mu is held across a blocking point *)
  srvUp : bool;
  notified : bool;                     (* SIGTERM and SIGINT go to sigCh *)
  signalled : bool;                    (* sigCh holds a signal, or main has taken it *)
  killed : bool;                       (* a signal arrived before Notify *)
  exporterClosed : bool;
  panicked : option go_panic;
  produced : list ProbeResult          (* history: what the probe runs returned *)
}.

Definition boot (exps : list Exporter) (bufferSize : Z) (cfgs : list ProbeConfig) : System := {|
  sched := SetDroppedResultRecorder NewScheduler;
  pipe := SetExportErrorRecorder (New exps bufferSize);
  pipeGo := false; mainPC := mainProgram cfgs; reloadPC := None; muHeld := false; srvUp := false;
  notified := false; signalled := false; killed := false; exporterClosed := false; panicked := None; produced := [] |}.

(** The scheduler and the pipeline move; a run returned [rs]. *)
Definition upd (s : System) (sc : Scheduler P) (p : Pipeline) (rs : list ProbeResult) : System := {|
  sched := sc; pipe := p; pipeGo := pipeGo s; mainPC := mainPC s; reloadPC := reloadPC s;
  muHeld := muHeld s; srvUp := srvUp s; notified := notified s; signalled := signalled s; killed := killed s; exporterClosed := exporterClosed s;
  panicked := panicked s; produced := produced s ++ rs |}.

Definition fail (s : System) (p : go_panic) : System := {|
  sched := sched s; pipe := pipe s; pipeGo := pipeGo s; mainPC := mainPC s; reloadPC := reloadPC s;
  muHeld := muHeld s; srvUp := srvUp s; notified := notified s; signalled := signalled s; killed := killed s; exporterClosed := exporterClosed s;
  panicked := Some p; produced := produced s |}.

(** The state a thread's instruction may change, with the thread's new program. *)
Definition jump (main : bool) (s : System) (sc : Scheduler P) (mu : bool) (pc : list instr) : System := {|
  sched := sc; pipe := pipe s; pipeGo := pipeGo s;
  mainPC := if main then pc else mainPC s;
  reloadPC := if main then reloadPC s else match pc with [] => None | _ => Some pc end;
  muHeld := mu; srvUp := srvUp s; notified := notified s; signalled := signalled s; killed := killed s; exporterClosed := exporterClosed s;
  panicked := panicked s; produced := produced s |}.

Definition setMain (s : System) (p : Pipeline) (go up closed : bool) (pc : list instr) : System := {|
  sched := sched s; pipe := p; pipeGo := go; mainPC := pc; reloadPC := reloadPC s; muHeld := muHeld s;
  srvUp := up; notified := notified s; signalled := signalled s; killed := killed s; exporterClosed := closed; panicked := panicked s; produced := produced s |}.

(** POST /reload: the handler takes reloadMu and [config.Load] returned [cfgs]. *)
Definition requestReload (cfgs : list ProbeConfig) (s : System) : option System :=
  match reloadPC s with
  | None => if srvUp s then
      Some {| sched := sched s; pipe := pipe s; pipeGo := pipeGo s; mainPC := mainPC s;
              reloadPC := Some (reloadProgram cfgs); muHeld := muHeld s; srvUp := srvUp s;
              notified := notified s; signalled := signalled s; killed := killed s;
              exporterClosed := exporterClosed s; panicked := panicked s; produced := produced s |}
      else None
  | Some _ => None
  end.

(** The signals go to [sigCh] from now on. *)
Definition notify (s : System) (pc : list instr) : System := {|
  sched := sched s; pipe := pipe s; pipeGo := pipeGo s; mainPC := pc; reloadPC := reloadPC s;
  muHeld := muHeld s; srvUp := srvUp s; notified := true; signalled := signalled s; killed := killed s;
  exporterClosed := exporterClosed s; panicked := panicked s; produced := produced s |}.

(** SIGTERM or SIGINT: sent to the channel (which keeps one), or fatal if main
    has not asked for it yet. *)
Definition signal (s : System) : System := {|
  sched := sched s; pipe := pipe s; pipeGo := pipeGo s; mainPC := mainPC s; reloadPC := reloadPC s;
  muHeld := muHeld s; srvUp := srvUp s; notified := notified s; signalled := signalled s || notified s;
  killed := negb (notified s); exporterClosed := exporterClosed s;
  panicked := panicked s; produced := produced s |}.

(** The goroutine [id] begins, takes a tick, loops or exits. *)
Definition workerOwn (m : workerMove) (id : nat) (s : System) : option System :=
  match goroutines (sched s) !! id with
  | None => None
  | Some w =>
      match workerStep m w with
      | Ok (Some w') => Some (upd s (setWorker (sched s) id w') (pipe s) [])
      | Panic p => Some (fail s p)
      | _ => None
      end
  end.

Definition workerSends (id : nat) (s : System) : option System :=
  match workerSend (sched s) (pipe s) id with
  | Ok (Some (sc, p)) => Some (upd s sc p [])
  | Panic p => Some (fail s p)
  | _ => None
  end.

Definition pipeMoves (m : pipeMove) (s : System) : option System :=
  if pipeGo s then
    match pipeStep m (pipe s) with
    | Ok (Some p) => Some (upd s (sched s) p [])
    | Panic p => Some (fail s p)
    | _ => None
    end
  else None.

(** The process is still running. *)
Definition alive (s : System) : Prop := panicked s = None /\ killed s = false /\ mainPC s <> [].

End State.
Arguments System : clear implicits.

(** The two ways a goroutine or the pipeline moves: it makes its move, or it
    panics and takes the process down. *)
Ltac own_cases H :=
  unfold workerOwn in H;
  match type of H with context [goroutines ?sc !! ?id] => destruct (goroutines sc !! id) as [w|] eqn:Hid; [|done] end;
  match type of H with context [workerStep ?m ?w] => destruct (workerStep m w) as [[w'|]| |] eqn:E; [|done|done|] end;
  injection H as <-.

Ltac return_cases H := unfold workerReturn in H; match type of H with context [w_phase ?w] => destruct (w_phase w) eqn:Hph end; simplify_eq.

Ltac send_cases H :=
  unfold workerSends in H;
  match type of H with context [workerSend ?sc ?p ?id] => destruct (workerSend sc p id) as [[[sc' p']|]| |] eqn:E; [|done|done|] end;
  injection H as <-;
  [match goal with E : workerSend _ _ _ = _ |- _ => apply workerSend_inv in E as (w & r & rs & ok & Hid & Hph & Hsend & Hg & Hws & Hdr) end|].

Ltac pipe_cases H :=
  unfold pipeMoves in H;
  match type of H with context [pipeGo ?s] => destruct (pipeGo s); [|done] end;
  match type of H with context [pipeStep ?m ?p] => destruct (pipeStep m p) as [[p'|]| |] eqn:E; [|done|done|] end;
  injection H as <-.

(** ** The steps *)

Section System.
Context {P : Type}.
#[local] Notation System := (System P).
Variable factory : ProbeConfig -> res string P.
(** What [p.Run] may return, and what [config.Load] may return on a reload. *)
Variable runs : P -> list ProbeResult -> Prop.
Variable loads : list ProbeConfig -> Prop.

(** The scheduler instructions, which both threads execute. *)
Definition schedInstr (main : bool) (s : System) (i : instr) (rest : list instr) : option System :=
  match i with
  | IStart cfgs => if muHeld s then None else Some (jump main s (sched s) true (IStarting cfgs :: rest))
  | IStarting [] => Some (jump main s (sched s) false rest)
  | IStarting (cfg :: cfgs) =>
      match startLocked factory (sched s) cfg with
      | Ok sc => Some (jump main s sc (muHeld s) (IStarting cfgs :: rest))
      | Err _ => None
      | Panic p => Some (fail s p)
      end
  | ICollect =>
      if muHeld s then None
      else let '(sc, ids) := collect (sched s) in
           Some (jump main s sc (muHeld s) (ICancel ids :: IWait ids :: rest))
  | ICancel ids => Some (jump main s (cancelWorkers (sched s) ids) (muHeld s) rest)
  | IWait ids => if allExited (sched s) ids then Some (jump main s (sched s) (muHeld s) rest) else None
  | _ => None
  end.

Definition mainStep (s : System) : option System :=
  match mainPC s with
  | [] => None
  | i :: rest =>
      match i with
      | ISrvStart => Some (setMain s (pipe s) (pipeGo s) true (exporterClosed s) rest)
      | IPipeGo => Some (setMain s (pipe s) true (srvUp s) (exporterClosed s) rest)
      | INotify => Some (notify s rest)
      | IWaitSignal => if signalled s
                       then Some (setMain s (pipe s) (pipeGo s) (srvUp s) (exporterClosed s) rest) else None
      | ICancelPipe => Some (setMain s (cancel (pipe s)) (pipeGo s) (srvUp s) (exporterClosed s) rest)
      | IWaitPipe => if bool_decide (phase (pipe s) = PReturned)
                     then Some (setMain s (pipe s) (pipeGo s) (srvUp s) (exporterClosed s) rest) else None
      | ICloseExporter => Some (setMain s (pipe s) (pipeGo s) (srvUp s) true rest)
      | ISrvShutdown => Some (setMain s (pipe s) (pipeGo s) false (exporterClosed s) rest)
      | _ => schedInstr true s i rest
      end
  end.

Definition reloadStep (s : System) : option System :=
  match reloadPC s with
  | Some (i :: rest) => schedInstr false s i rest
  | _ => None
  end.

Inductive step : System -> System -> Prop :=
  | step_main s s' : alive s -> mainStep s = Some s' -> step s s'
  | step_request s s' cfgs : alive s -> loads cfgs -> requestReload cfgs s = Some s' -> step s s'
  | step_reload s s' : alive s -> reloadStep s = Some s' -> step s s'
  | step_signal s : alive s -> step s (signal s)
  | step_worker s s' m id : alive s -> workerOwn m id s = Some s' -> step s s'
  | step_return s id w w' rs : alive s -> goroutines (sched s) !! id = Some w -> runs (w_prober w) rs ->
      workerReturn rs w = Some w' -> step s (upd s (setWorker (sched s) id w') (pipe s) rs)
  | step_send s s' id : alive s -> workerSends id s = Some s' -> step s s'
  | step_pipe s s' m : alive s -> pipeMoves m s = Some s' -> step s s'.

(** ** What holds of every execution *)

(** The results a goroutine still has to send. *)
Definition inFlight (ph : workerPhase) : list ProbeResult :=
  match ph with WSending rs => rs | _ => [] end.

Definition phases (sc : Scheduler P) : list workerPhase := w_phase <$> goroutines sc.

(** Everything the goroutines still have to send. *)
Definition flight (phs : list workerPhase) : list ProbeResult := concat (inFlight <$> phs).

(** The pipeline invariant holds, every produced result satisfies [Q], and every
    produced result is accounted for exactly once. *)
Record sys_inv (Q : ProbeResult -> Prop) (s : System) : Prop := {
  si_pipe : pipe_inv (pipe s);
  si_Q : Forall Q (produced s);
  si_account : produced s ≡ₚ accepted (pipe s) ++ (snd <$> dropped (sched s)) ++ flight (phases (sched s))
}.

Lemma flight_insert phs id ph0 :
  phs !! id = Some ph0 ->
  exists A B, flight phs = A ++ inFlight ph0 ++ B /\
    forall ph, flight (<[id := ph]> phs) = A ++ inFlight ph ++ B.
Proof.
  intros H. exists (flight (take id phs)), (flight (drop (S id) phs)). unfold flight. split.
  - rewrite <- (take_drop_middle phs id ph0 H) at 1. by rewrite fmap_app, concat_app.
  - intros ph. rewrite insert_take_drop by (by apply lookup_lt_Some in H). by rewrite fmap_app, concat_app.
Qed.

Lemma flight_new phs : flight (phs ++ [WNew]) = flight phs.
Proof. unfold flight. rewrite fmap_app, concat_app. simpl. by rewrite app_nil_r. Qed.

Lemma cancelWorkers_phases (sc : Scheduler P) ids : phases (cancelWorkers sc ids) = phases sc.
Proof.
  revert sc. induction ids as [|id ids IH]; intros sc; [done|]. simpl. rewrite IH.
  unfold phases, cancelWorker. destruct (goroutines sc !! id) as [w|] eqn:E; [|done]. simpl.
  rewrite list_fmap_insert. apply list_insert_id. by rewrite list_lookup_fmap, E.
Qed.

Lemma startLocked_phases (sc : Scheduler P) cfg sc' :
  startLocked factory sc cfg = Ok sc' ->
  dropped sc' = dropped sc /\ (phases sc' = phases sc \/ phases sc' = phases sc ++ [WNew]).
Proof.
  unfold startLocked, phases. destruct (factory cfg); [| |done]; intros [= <-]; [|auto].
  simpl. rewrite fmap_app. auto.
Qed.

(** What a scheduler instruction may do to the shared state. *)
Definition sched_move (sc sc' : Scheduler P) : Prop :=
  dropped sc' = dropped sc /\ (phases sc' = phases sc \/ phases sc' = phases sc ++ [WNew]).

Lemma schedInstr_move main s i rest s' :
  schedInstr main s i rest = Some s' -> pipe s' = pipe s /\ sched_move (sched s) (sched s').
Proof.
  unfold schedInstr, sched_move. destruct i as [| |cfgs|[|cfg cfgs]| | | |ids|ids| | | |]; try done.
  - destruct (muHeld s); [done|]. intros [= <-]. simpl. auto.
  - intros [= <-]. simpl. auto.
  - destruct (startLocked factory (sched s) cfg) as [sc| |] eqn:E; [|done|]; intros [= <-]; simpl; [|auto].
    split; [done|]. by eapply startLocked_phases.
  - destruct (muHeld s); [done|]. intros [= <-]. simpl. auto.
  - intros [= <-]. simpl. rewrite cancelWorkers_phases. destruct (cancelWorkers_fields (sched s) ids). auto.
  - destruct (allExited _ _); [|done]. intros [= <-]. simpl. auto.
Qed.

Lemma mainStep_move s s' :
  mainStep s = Some s' ->
  (pipe s' = pipe s \/ pipe s' = cancel (pipe s)) /\ sched_move (sched s) (sched s').
Proof.
  unfold mainStep, sched_move. destruct (mainPC s) as [|i rest]; [done|].
  destruct i; try (intros H; apply schedInstr_move in H as [-> H]; by auto);
    repeat case_match; intros; simplify_eq; simpl; auto.
Qed.

Lemma schedInstr_produced main s i rest s' :
  schedInstr main s i rest = Some s' -> produced s' = produced s.
Proof.
  unfold schedInstr. destruct i as [| |cfgs|[|cfg cfgs]| | | |ids|ids| | | |]; try done;
    repeat case_match; intros; by simplify_eq.
Qed.

Lemma mainStep_produced s s' : mainStep s = Some s' -> produced s' = produced s.
Proof.
  unfold mainStep. destruct (mainPC s) as [|i rest]; [done|].
  destruct i; try (apply schedInstr_produced); repeat case_match; intros; by simplify_eq.
Qed.

Section Conservation.
Context (Q : ProbeResult -> Prop) (runs_Q : forall p rs, runs p rs -> Forall Q rs).

Lemma sched_move_inv s s' :
  sys_inv Q s -> sched_move (sched s) (sched s') -> pipe_inv (pipe s') ->
  accepted (pipe s') = accepted (pipe s) -> produced s' = produced s -> sys_inv Q s'.
Proof.
  intros [H1 H2 H3] [Hd Hp] Hpi Ha Hpr. split; [done|by rewrite Hpr|]. rewrite Hpr, Ha, Hd.
  destruct Hp as [-> | ->]; [done|]. by rewrite flight_new.
Qed.

(** One goroutine moves between phases, having got [rs] from a run. *)
Lemma worker_inv s id w ph rs :
  sys_inv Q s -> goroutines (sched s) !! id = Some w -> Forall Q rs ->
  inFlight (w_phase w) = [] -> inFlight ph = rs ->
  sys_inv Q (upd s (setWorker (sched s) id (setWPhase w ph)) (pipe s) rs).
Proof.
  intros [H1 H2 H3] Hw Hq H0 Hph. split; simpl; [done|by apply Forall_app|].
  unfold phases in *. simpl. rewrite list_fmap_insert.
  destruct (flight_insert (w_phase <$> goroutines (sched s)) id (w_phase w)) as (A & B & E1 & E2).
  { by rewrite list_lookup_fmap, Hw. }
  simpl. rewrite E2, Hph, H3, E1, H0. simpl. solve_Permutation.
Qed.

Lemma workerStep_phase m (w w' : Worker P) :
  workerStep m w = Ok (Some w') ->
  exists ph, w' = setWPhase w ph /\ inFlight ph = [] /\ inFlight (w_phase w) = [].
Proof.
  unfold workerStep. destruct (w_phase w) as [| | |[|r rs]|], m; try done.
  - destruct (_ <=? 0); [done|]. intros [= <-]. eauto.
  - intros [= <-]. eauto.
  - destruct (w_cancelled w) eqn:E; [|done]. intros [= <-]. eauto.
  - intros [= <-]. eauto.
Qed.

Lemma pipeSend_accepted p r p' ok :
  pipeSend p r = Ok (p', ok) -> accepted p' = if ok then accepted p ++ [r] else accepted p.
Proof.
  unfold pipeSend, trySend. destruct (closed _); [done|]. destruct (_ <? _)%nat; by intros [= <- <-].
Qed.

Lemma pipeStep_accepted m p p' : pipeStep m p = Ok (Some p') -> accepted p' = accepted p.
Proof. intros H%pipeStep_moved. destruct H; try done. by apply exportOne_fields. Qed.

Lemma cancel_inv p : pipe_inv p -> pipe_inv (cancel p).
Proof. by intros [H1 H2 H3 H4 H5]; split. Qed.

Lemma fail_inv s p : sys_inv Q s -> sys_inv Q (fail s p).
Proof. by intros [H1 H2 H3]; split. Qed.

Lemma send_inv s s' id : sys_inv Q s -> workerSends id s = Some s' -> sys_inv Q s'.
Proof.
  intros Hi. unfold workerSends.
  destruct (workerSend (sched s) (pipe s) id) as [[[sc p]|]| |] eqn:E; [|done..|].
  - intros [= <-]. apply workerSend_inv in E as (w & r & rs & ok & Hw & Hph & Hs & Hg & _ & Hd).
    destruct Hi as [H1 H2 H3].
    destruct (flight_insert (phases (sched s)) id (WSending (r :: rs))) as (A & B & E1 & E2).
    { unfold phases. by rewrite list_lookup_fmap, Hw, <- Hph. }
    split; simpl; rewrite ?app_nil_r; [by eapply pipeSend_inv|done|].
    unfold phases in *. rewrite Hg. simpl. rewrite list_fmap_insert. simpl.
    rewrite (pipeSend_accepted _ _ _ _ Hs), Hd, H3, E1, E2. simpl.
    destruct ok; rewrite ?fmap_app; simpl; solve_Permutation.
  - intros [= <-]. by apply fail_inv.
Qed.

Lemma step_sys_inv s s' : sys_inv Q s -> step s s' -> sys_inv Q s'.
Proof.
  intros Hi Hs. step_cases Hs.
  - assert (produced s' = produced s) as Hpr by by eapply mainStep_produced.
    apply mainStep_move in H as [Hp Hm]. eapply sched_move_inv; [done|done| | |done].
    + destruct Hp as [-> | ->]; [apply Hi|apply cancel_inv, Hi].
    + by destruct Hp as [-> | ->].
  - unfold requestReload in H. destruct (reloadPC s), (srvUp s); simplify_eq. by destruct Hi; split.
  - unfold reloadStep in H. destruct (reloadPC s) as [[|i rest]|]; [done| |done].
    assert (produced s' = produced s) as Hpr by by eapply schedInstr_produced.
    apply schedInstr_move in H as [Hp Hm]. eapply sched_move_inv; [done|done|..]; rewrite ?Hp; [apply Hi|done..].
  - by destruct Hi; split.
  - own_cases H; [|by apply fail_inv]. apply workerStep_phase in E as (ph & -> & Hf & Hf'). by apply worker_inv.
  - return_cases H. apply worker_inv; try done; [by eapply runs_Q|by rewrite Hph].
  - by eapply send_inv.
  - pipe_cases H; [|by apply fail_inv].
    eapply sched_move_inv; [done|by split; auto| | |]; simpl.
    + eapply pipeStep_inv; [apply Hi|done].
    + by eapply pipeStep_accepted.
    + apply app_nil_r.
Qed.

Lemma boot_inv exps n cfgs : sys_inv Q (boot exps n cfgs).
Proof. split; simpl; [|constructor|done]. split; simpl; done || lia. Qed.

Lemma reachable_inv exps n cfgs s : rtc step (boot exps n cfgs) s -> sys_inv Q s.
Proof.
  intros H. pose proof (boot_inv exps n cfgs) as Hi. revert Hi.
  induction H as [|x y z Hxy _ IH]; [done|]. intros Hi. apply IH. by eapply step_sys_inv.
Qed.
End Conservation.

(** ** Results are dropped only when the channel is full *)

(** What a step may do to the dropped results and to the channel's capacity. *)
Definition drop_move (s s' : System) : Prop :=
  cap (results (pipe s')) = cap (results (pipe s)) /\
  (dropped (sched s') = dropped (sched s) \/
   (length (buf (results (pipe s))) = cap (results (pipe s)) /\
    exists name r, dropped (sched s') = dropped (sched s) ++ [(name, r)])).

Lemma step_drop_move s s' : pipe_inv (pipe s) -> step s s' -> drop_move s s'.
Proof.
  intros Hi Hs. unfold drop_move. step_cases Hs.
  - apply mainStep_move in H as [[-> | ->] [Hd _]]; auto.
  - unfold requestReload in H. destruct (reloadPC s), (srvUp s); simplify_eq. auto.
  - unfold reloadStep in H. destruct (reloadPC s) as [[|i rest]|]; [done| |done].
    apply schedInstr_move in H as [-> [Hd _]]. auto.
  - auto.
  - own_cases H; auto.
  - auto.
  - send_cases H; [|auto]. apply pipeSend_full in Hsend as [Hc Hf]; [|done]. simpl. split; [done|].
    rewrite Hdr. destruct ok; [by left|right]. split; [by apply Hf|eauto].
  - pipe_cases H; [|auto]. apply pipeStep_cap in E. auto.
Qed.

(** The capacity in every reachable state, and what the next step may drop. *)
Lemma reachable_drop exps n cfgs s :
  rtc step (boot exps n cfgs) s ->
  cap (results (pipe s)) = Z.to_nat n /\ forall s', step s s' -> drop_move s s'.
Proof.
  intros H. assert (forall x, rtc step (boot exps n cfgs) x -> pipe_inv (pipe x)) as Hp.
  { intros x Hx. apply (reachable_inv (fun _ => True)) in Hx; [apply Hx|]. intros. by apply Forall_forall. }
  split; [|intros; apply step_drop_move; auto]. revert H.
  apply (rtc_ind_r (fun x => cap (results (pipe x)) = Z.to_nat n)); [done|].
  intros x y Hx Hxy <-. by apply (step_drop_move x y (Hp x Hx)).
Qed.

(** ** Shutdown without a concurrent reload *)

(** Configurations [config.Load] accepts: distinct names, positive intervals
    (guaranteed for every type but HTTP), and no panic in the factory. *)
Record good (cfgs : list ProbeConfig) : Prop := {
  good_names : NoDup (Name <$> cfgs);
  good_intervals : Forall (fun c => 0 < Interval c) cfgs;
  good_factory : Forall (fun c => forall p, factory c <> Panic p) cfgs
}.

(** Main has started the probes and has yet to take the signal. *)
Definition serving (pc : list instr) : bool :=
  match pc with (INotify | IWaitSignal) :: _ => true | _ => false end.

(** A reload is in progress only then, and only if no signal has been delivered. *)
Definition calm (s : System) : Prop :=
  reloadPC s = None \/ (signalled s = false /\ serving (mainPC s) = true).

Definition calmStep (s s' : System) : Prop := step s s' /\ calm s'.

(** Where the control threads are in a calm execution. *)
Inductive ctl :=
  | CBoot (k : nat) (cfgs : list ProbeConfig)
  | CMainStarting (cfgs : list ProbeConfig)
  | CServe
  | CRCollect (cfgs : list ProbeConfig)
  | CRCancel (ids : list nat) (cfgs : list ProbeConfig)
  | CRWait (ids : list nat) (cfgs : list ProbeConfig)
  | CRStart (cfgs : list ProbeConfig)
  | CRStarting (cfgs : list ProbeConfig)
  | CCollect
  | CCancel (ids : list nat)
  | CWait (ids : list nat)
  | CStopped
  | CDrain (k : nat).

(** Main while it serves: before and after [signal.Notify]. *)
Definition serveMain (notified : bool) : list instr :=
  (if notified then [] else [INotify]) ++ IWaitSignal :: shutdown.

Definition ctlMain (notified : bool) (c : ctl) : list instr :=
  match c with
  | CBoot k cfgs => skipn k (mainProgram cfgs)
  | CMainStarting cfgs => IStarting cfgs :: serveMain false
  | CServe | CRCollect _ | CRCancel _ _ | CRWait _ _ | CRStart _ | CRStarting _ => serveMain notified
  | CCollect => shutdown
  | CCancel ids => ICancel ids :: IWait ids :: afterStop
  | CWait ids => IWait ids :: afterStop
  | CStopped => afterStop
  | CDrain k => skipn (S k) afterStop
  end.

Definition ctlReload (c : ctl) : option (list instr) :=
  match c with
  | CRCollect cfgs => Some [ICollect; IStart cfgs]
  | CRCancel ids cfgs => Some [ICancel ids; IWait ids; IStart cfgs]
  | CRWait ids cfgs => Some [IWait ids; IStart cfgs]
  | CRStart cfgs => Some [IStart cfgs]
  | CRStarting cfgs => Some [IStarting cfgs]
  | _ => None
  end.

Definition ctlMu (c : ctl) : bool :=
  match c with CMainStarting _ | CRStarting _ => true | _ => false end.

(** The workers a running [Stop] is waiting for. *)
Definition ctlIds (c : ctl) : list nat :=
  match c with CRCancel ids _ | CRWait ids _ | CCancel ids | CWait ids => ids | _ => [] end.

(** The probes still to be started. *)
Definition ctlCfgs (c : ctl) : list ProbeConfig :=
  match c with
  | CBoot _ cfgs | CMainStarting cfgs | CRCollect cfgs | CRCancel _ cfgs | CRWait _ cfgs | CRStart cfgs
  | CRStarting cfgs => cfgs
  | _ => []
  end.

(** The map is empty between a [Stop] and the next [Start]. *)
Definition ctlEmpty (c : ctl) : bool :=
  match c with
  | CBoot _ _ | CRCancel _ _ | CRWait _ _ | CRStart _ | CCancel _ | CWait _ | CStopped | CDrain _ => true
  | _ => false
  end.

Definition pipeOpen (p : Pipeline) : Prop :=
  ctxCancelled p = false /\ phase p = PRunning /\ closed (results p) = false.

Definition ctlPipe (c : ctl) (p : Pipeline) : Prop :=
  match c with
  | CDrain k => draining (accepted p) p /\ (k <> 0%nat -> phase p = PReturned)
  | CBoot k _ => pipeOpen p /\ (k <= 2)%nat
  | _ => pipeOpen p
  end.

(** [signal.Notify] comes after the start and before the shutdown; no signal
    reaches the channel before it and none kills the process after it. *)
Definition ctlNotified (c : ctl) : option bool :=
  match c with
  | CBoot _ _ | CMainStarting _ => Some false
  | CCollect | CCancel _ | CWait _ | CStopped | CDrain _ => Some true
  | _ => None
  end.

Record ctlSignals (c : ctl) (s : System) : Prop := {
  cs_notified : forall b, ctlNotified c = Some b -> notified s = b;
  cs_signalled : signalled s = true -> notified s = true;
  cs_killed : killed s = true -> notified s = false
}.

Record at_ctl (c : ctl) (s : System) : Prop := {
  ac_alive : panicked s = None;
  ac_main : mainPC s = ctlMain (notified s) c;
  ac_reload : reloadPC s = ctlReload c;
  ac_mu : muHeld s = ctlMu c;
  ac_empty : ctlEmpty c = true -> workers (sched s) = ∅;
  ac_free : ctlMu c = true -> forall cfg, cfg ∈ ctlCfgs c -> workers (sched s) !! Name cfg = None;
  ac_covered : covered (sched s) (ctlIds c);
  ac_good : good (ctlCfgs c);
  ac_positive : Forall (fun w => 0 < Interval (w_cfg w)) (goroutines (sched s));
  ac_pipe_inv : pipe_inv (pipe s);
  ac_pipe : ctlPipe c (pipe s);
  ac_signals : ctlSignals c s
}.

Lemma ctlSignals_same c s s' :
  notified s' = notified s -> signalled s' = signalled s -> killed s' = killed s -> ctlSignals c s -> ctlSignals c s'.
Proof. intros En Es Ek [H1 H2 H3]. split; rewrite ?En, ?Es, ?Ek; done. Qed.

(** The next control point is on the same side of [signal.Notify]. *)
Lemma ctlSignals_next c c' s s' :
  ctlSignals c s -> notified s' = notified s -> signalled s' = signalled s -> killed s' = killed s ->
  (forall b, ctlNotified c' = Some b -> notified s = b) -> ctlSignals c' s'.
Proof. intros [H1 H2 H3] En Es Ek Hb. split; rewrite ?En, ?Es, ?Ek; done. Qed.

(** No goroutine is left once the map is empty and nothing is awaited. *)
Lemma drained_all_exited (sc : Scheduler P) id w :
  covered sc [] -> workers sc = ∅ -> goroutines sc !! id = Some w -> w_phase w = WExited.
Proof.
  intros Hc Hw Hid. destruct (exited w) eqn:E.
  - unfold exited in E. by destruct (w_phase w).
  - destruct (Hc id w Hid E) as [H|(name & H)]; [by apply not_elem_of_nil in H|]. by rewrite Hw in H.
Qed.

Lemma at_ctl_live_open c s id w :
  at_ctl c s -> goroutines (sched s) !! id = Some w -> w_phase w <> WExited -> pipeOpen (pipe s).
Proof.
  intros [] Hid Hw. destruct c; simpl in *; try done; try tauto.
  exfalso. apply Hw. eapply drained_all_exited; eauto.
Qed.

(** Goroutine [id] moves; the channel may take a result. *)
Lemma at_ctl_worker c s id w ph p rs sc :
  at_ctl c s -> goroutines (sched s) !! id = Some w -> w_phase w <> WExited ->
  pipe_inv p -> (pipeOpen (pipe s) -> pipeOpen p) ->
  workers sc = workers (sched s) -> goroutines sc = goroutines (setWorker (sched s) id (setWPhase w ph)) ->
  at_ctl c (upd s sc p rs).
Proof.
  intros Ha Hid Hph Hpi Hpo Hws Hgs. pose proof (at_ctl_live_open _ _ _ _ Ha Hid Hph) as Ho. destruct Ha.
  split; simpl; rewrite ?Hws, ?Hgs; try done.
  - assert (covered (setWorker (sched s) id (setWPhase w ph)) (ctlIds c)) as Hcov.
    { eapply setWorker_covered; [done| |done]. unfold exited. by destruct (w_phase w). }
    intros i v. rewrite Hws, Hgs. apply Hcov.
  - apply Forall_insert; [done|]. exact (Forall_lookup_1 _ _ _ _ ac_positive0 Hid).
  - destruct c; simpl in *; auto; [destruct ac_pipe0; auto|].
    exfalso. apply Hph. eapply drained_all_exited; eauto.
  - by apply (ctlSignals_same c s).
Qed.

Lemma pipeStep_open m p : pipe_inv p -> pipeOpen p ->
  (exists p', pipeStep m p = Ok (Some p') /\ pipeOpen p') \/ pipeStep m p = Ok None.
Proof.
  intros Hi (Hc & Hp & Ho). destruct (pipeStep_panics m p) as [[[p'|] E]|[? _]]; [left|by right|congruence].
  - exists p'. split; [done|]. apply pipeStep_moved in E.
    destruct E as [r c Hh _ Hr|r Hh| | | |]; try congruence; unfold pipeOpen.
    + apply recv_cons in Hr as (_ & _ & Hr). simpl. by rewrite Hr.
    + by destruct (exportOne_fields p r) as (-> & -> & -> & _).
Qed.

Lemma pipeSend_pipeOpen p r p' ok : pipeSend p r = Ok (p', ok) -> pipeOpen p -> pipeOpen p'.
Proof.
  unfold pipeSend, trySend. intros H (Hc & Hp & Ho). rewrite Ho in H.
  destruct (_ <? _)%nat; injection H as <- <-; done.
Qed.

Lemma pipeSend_ok p r : pipeOpen p -> exists p' ok, pipeSend p r = Ok (p', ok).
Proof.
  intros (_ & _ & Ho). unfold pipeSend, trySend. rewrite Ho. destruct (_ <? _)%nat; simpl; eauto.
Qed.

Lemma at_ctl_pipe c s p :
  at_ctl c s -> pipe_inv p -> ctlPipe c p -> at_ctl c (upd s (sched s) p []).
Proof. intros [] Hi Hp. split; try done. by apply (ctlSignals_same c s). Qed.

(** Moves of the workers and of the pipeline keep the control point, and none
    of them panics. *)
Lemma at_ctl_workerOwn c s m id s' : at_ctl c s -> workerOwn m id s = Some s' -> at_ctl c s'.
Proof.
  intros Ha. unfold workerOwn. destruct (goroutines (sched s) !! id) as [w|] eqn:Hid; [|done].
  pose proof (Forall_lookup_1 _ _ _ _ (ac_positive _ _ Ha) Hid) as Hpos. simpl in Hpos.
  destruct (workerStep m w) as [[w'|]| |] eqn:E; [|done..|]; intros [= <-].
  - assert (w_phase w <> WExited) as Hne by (intros H; unfold workerStep in E; rewrite H in E; by destruct m).
    apply workerStep_phase in E as (ph & -> & _).
    eapply (at_ctl_worker c s id w ph); try done. apply Ha.
  - exfalso. unfold workerStep in E. destruct (w_phase w) as [| | |[|r rs]|], m; try done.
    + destruct (Z.leb_spec (Interval (w_cfg w)) 0); [lia|done].
    + by destruct (w_cancelled w).
Qed.

Lemma at_ctl_send c s id s' : at_ctl c s -> workerSends id s = Some s' -> at_ctl c s'.
Proof.
  intros Ha. unfold workerSends. destruct (workerSend (sched s) (pipe s) id) as [[[sc p]|]| |] eqn:E;
    [|done..|]; intros [= <-].
  - apply workerSend_inv in E as (w & r & rs & ok & Hid & Hph & Hs & Hg & Hw & Hd).
    eapply (at_ctl_worker c s id w (WSending rs)); try done; [by rewrite Hph| |by apply (pipeSend_pipeOpen _ r _ ok)].
    eapply pipeSend_inv; [apply Ha|done].
  - exfalso. unfold workerSend in E. destruct (goroutines (sched s) !! id) as [w|] eqn:Hid; [|done].
    destruct (w_phase w) as [| | |[|r rs]|] eqn:Hph; try done.
    destruct (pipeSend_ok (pipe s) r) as (p' & ok & Es); [|by rewrite Es in E].
    eapply at_ctl_live_open; eauto. by rewrite Hph.
Qed.

Lemma at_ctl_pipeMoves c s m s' : at_ctl c s -> pipeMoves m s = Some s' -> at_ctl c s'.
Proof.
  intros Ha. unfold pipeMoves. destruct (pipeGo s); [|done]. pose proof (ac_pipe_inv _ _ Ha) as Hi.
  assert (pipeOpen (pipe s) \/ exists k, c = CDrain k) as [Ho|[k ->]].
  { pose proof (ac_pipe _ _ Ha) as H. destruct c; simpl in H; eauto; left; tauto. }
  - destruct (pipeStep_open m (pipe s) Hi Ho) as [(p' & E & Ho')|E]; rewrite E; [|done].
    intros [= <-]. apply at_ctl_pipe; [done|by eapply pipeStep_inv|].
    pose proof (ac_pipe _ _ Ha) as H. destruct c; simpl in *; try done; [tauto|].
    exfalso. destruct H as [[_ Hc _ _ _] _]. destruct Ho as [Hn _]. congruence.
  - destruct (ac_pipe _ _ Ha) as [Hd Hk].
    destruct (pipeStep m (pipe s)) as [[p|]| |] eqn:E; [|done..|]; intros [= <-].
    + assert (runStep (pipe s) p) as Hr by by exists m.
      apply at_ctl_pipe; [done|by eapply pipeStep_inv|]. simpl.
      rewrite (pipeStep_accepted _ _ _ E). split; [by eapply runStep_draining|].
      intros Hk0. by destruct (pipeStep_returned m (pipe s) p Hi (Hk Hk0)).
    + destruct (pipeStep_panics m (pipe s)) as [[r Er]|[Hp Hcl]]; [congruence|].
      rewrite (dr_open _ _ Hd), Hp in Hcl. done.
Qed.

(** ** The control threads *)

Lemma cancelWorkers_positive (sc : Scheduler P) ids :
  Forall (fun w => 0 < Interval (w_cfg w)) (goroutines sc) ->
  Forall (fun w => 0 < Interval (w_cfg w)) (goroutines (cancelWorkers sc ids)).
Proof.
  revert sc. induction ids as [|id ids IH]; intros sc H; [done|]. simpl. apply IH.
  unfold cancelWorker. destruct (goroutines sc !! id) as [w|] eqn:E; [|done]. simpl.
  apply Forall_insert; [done|]. exact (Forall_lookup_1 _ _ _ _ H E).
Qed.

Lemma good_cons cfg cfgs :
  good (cfg :: cfgs) -> good cfgs /\ (forall p, factory cfg <> Panic p) /\ 0 < Interval cfg /\
    Name cfg ∉ (Name <$> cfgs).
Proof.
  intros [H1 H2 H3]. apply NoDup_cons in H1 as [? ?]. apply Forall_cons in H2 as [? ?].
  apply Forall_cons in H3 as [? ?]. by split.
Qed.

(** One more probe is started by either thread. *)
Lemma startLocked_ok (sc : Scheduler P) cfg cfgs :
  good (cfg :: cfgs) -> covered sc [] -> (forall c, c ∈ cfg :: cfgs -> workers sc !! Name c = None) ->
  Forall (fun w => 0 < Interval (w_cfg w)) (goroutines sc) ->
  exists sc', startLocked factory sc cfg = Ok sc' /\ covered sc' [] /\
    (forall c, c ∈ cfgs -> workers sc' !! Name c = None) /\
    Forall (fun w => 0 < Interval (w_cfg w)) (goroutines sc').
Proof.
  intros Hg Hc Hf Hp. apply good_cons in Hg as (Hg & Hnp & Hi & Hn).
  assert (workers sc !! Name cfg = None) as Hfree by (apply Hf; constructor).
  pose proof (startLocked_covered factory sc cfg) as Hcov. unfold startLocked in *.
  destruct (factory cfg) as [p|e|p]; [| |by destruct (Hnp p)].
  - eexists. split; [reflexivity|]. split; [by eapply Hcov|]. split.
    + intros c Hin. simpl. rewrite lookup_insert_ne; [apply Hf; by constructor|].
      intros E. apply Hn. rewrite E. apply list_elem_of_fmap. eauto.
    + simpl. apply Forall_app. split; [done|]. by repeat constructor.
  - exists sc. split; [done|]. split; [done|]. split; [|done]. intros c Hin. apply Hf. by constructor.
Qed.

(** Build the next control point from the current one. *)
Ltac next_ctl c' :=
  exists c'; split; simpl in *; auto; try done;
  try (solve [eapply ctlSignals_next; [eassumption|reflexivity..|]; intros ? [= <-]; congruence]).

(** Main serves: where it is, and that it is past neither end. *)
Lemma ctlMain_serving b c : ctlNotified c = None -> ctlMain b c = serveMain b.
Proof. by destruct c. Qed.

(** [signal.Notify], with a reload in progress or not. *)
Lemma at_ctl_notify c s :
  at_ctl c s -> killed s = false -> ctlNotified c = None -> at_ctl c (notify s (IWaitSignal :: shutdown)).
Proof.
  intros [] Hk Hc. split; try done; simpl; [by rewrite ctlMain_serving|].
  destruct ac_signals0. split; simpl; [|done|]; congruence.
Qed.

Lemma at_ctl_main_serving c s s' :
  at_ctl c s -> killed s = false -> calm s' -> ctlNotified c = None -> mainStep s = Some s' ->
  exists c', at_ctl c' s'.
Proof.
  intros Ha Hk Hcalm Hc. pose proof (ac_main _ _ Ha) as Hm. rewrite ctlMain_serving in Hm by done.
  unfold mainStep. rewrite Hm. destruct (notified s) eqn:En; simpl.
  - destruct (signalled s) eqn:Es; [|done]. intros [= <-]. pose proof (ac_signals _ _ Ha) as Hsg.
    destruct Ha as [Hal _ Hr Hmu He Hf Hcv Hg Hp Hi Hpi _]. destruct Hcalm as [Hcalm|[Hcalm _]]; simpl in Hcalm; [|congruence].
    rewrite Hcalm in Hr. destruct c; try done. next_ctl CCollect.
  - intros [= <-]. exists c. by apply at_ctl_notify.
Qed.

Lemma at_ctl_main c s s' :
  at_ctl c s -> killed s = false -> calm s' -> mainStep s = Some s' -> exists c', at_ctl c' s'.
Proof.
  intros Ha Hk Hcalm. destruct (ctlNotified c) as [b|] eqn:Ec; [|by eapply at_ctl_main_serving].
  pose proof (cs_notified _ _ (ac_signals _ _ Ha) b Ec) as Hb.
  destruct Ha as [Hal Hm Hr Hmu He Hf Hc Hg Hp Hi Hpi Hsg]. unfold mainStep. rewrite Hm.
  destruct c as [k cfgs|cfgs| |cfgs|ids cfgs|ids cfgs|cfgs|cfgs| |ids|ids| |k]; try done; cbn [ctlMain]; injection Ec as <-.
  - destruct Hpi as [Hpi Hkk]. destruct k as [|[|[|k]]]; [| | |lia]; simpl.
    + intros [= <-]. next_ctl (CBoot 1 cfgs).
    + intros [= <-]. next_ctl (CBoot 2 cfgs).
    + rewrite Hmu. intros [= <-]. next_ctl (CMainStarting cfgs). intros _ cfg _. by rewrite He.
  - destruct cfgs as [|cfg cfgs]; simpl.
    + intros [= <-]. next_ctl CServe. by rewrite Hb.
    + destruct (startLocked_ok (sched s) cfg cfgs Hg Hc (Hf eq_refl) Hp) as (sc & -> & H1 & H2 & H3).
      intros [= <-]. next_ctl (CMainStarting cfgs). by apply good_cons in Hg as [? _].
  - simpl. rewrite Hmu. intros [= <-]. destruct (collect_covered (sched s) Hc) as [Hcc _].
    next_ctl (CCancel (snd <$> map_to_list (workers (sched s)))).
  - simpl. intros [= <-]. next_ctl (CWait ids).
    + intros _. destruct (cancelWorkers_fields (sched s) ids) as [-> _]. auto.
    + by apply cancelWorkers_covered.
    + by apply cancelWorkers_positive.
  - simpl. destruct (allExited (sched s) ids) eqn:Ea; [|done]. intros [= <-]. next_ctl CStopped.
    by apply (allExited_covered _ ids); auto.
  - simpl. intros [= <-]. next_ctl (CDrain 0).
    + by apply cancel_inv.
    + split; [|done]. destruct Hpi as (H1 & H2 & H3). split; simpl; try done; [by apply cancel_inv|..].
      * rewrite H2. by intros [|].
      * by rewrite H2, H3.
  - destruct Hpi as [Hd Hkk]. destruct k as [|[|[|k]]]; simpl.
    + destruct (bool_decide (phase (pipe s) = PReturned)) eqn:Eb; [|done]. bool_prop. intros [= <-].
      next_ctl (CDrain 1).
    + intros [= <-]. next_ctl (CDrain 2).
    + intros [= <-]. next_ctl (CDrain 3).
    + by destruct k.
Qed.

Lemma at_ctl_reload c s s' :
  at_ctl c s -> reloadStep s = Some s' -> exists c', at_ctl c' s'.
Proof.
  intros [Hal Hm Hr Hmu He Hf Hc Hg Hp Hi Hpi Hsg]. unfold reloadStep. rewrite Hr.
  destruct c as [k cfgs|cfgs| |cfgs|ids cfgs|ids cfgs|cfgs|cfgs| |ids|ids| |k]; cbn [ctlReload]; try done; simpl.
  - rewrite Hmu. intros [= <-]. destruct (collect_covered (sched s) Hc) as [Hcc _].
    next_ctl (CRCancel (snd <$> map_to_list (workers (sched s))) cfgs).
  - intros [= <-]. next_ctl (CRWait ids cfgs).
    + intros _. destruct (cancelWorkers_fields (sched s) ids) as [-> _]. auto.
    + by apply cancelWorkers_covered.
    + by apply cancelWorkers_positive.
  - destruct (allExited (sched s) ids) eqn:Ea; [|done]. intros [= <-]. next_ctl (CRStart cfgs).
    by apply (allExited_covered _ ids); auto.
  - rewrite Hmu. intros [= <-]. next_ctl (CRStarting cfgs). intros _ cfg _. by rewrite He.
  - destruct cfgs as [|cfg cfgs]; simpl.
    + intros [= <-]. next_ctl CServe.
    + destruct (startLocked_ok (sched s) cfg cfgs Hg Hc (Hf eq_refl) Hp) as (sc & -> & H1 & H2 & H3).
      intros [= <-]. next_ctl (CRStarting cfgs). by apply good_cons in Hg as [? _].
Qed.

Lemma at_ctl_request c s s' cfgs :
  at_ctl c s -> good cfgs -> calm s' -> requestReload cfgs s = Some s' -> exists c', at_ctl c' s'.
Proof.
  intros [Hal Hm Hr Hmu He Hf Hc Hg Hp Hi Hpi Hsg] Hgood Hcalm. unfold requestReload.
  destruct (reloadPC s) eqn:Er; [done|]. destruct (srvUp s); [|done]. intros [= <-].
  destruct Hcalm as [H|(Hs & H)]; simpl in *; [done|]. rewrite Hm in H.
  destruct c as [k cfgs0|cfgs0| |cfgs0|ids cfgs0|ids cfgs0|cfgs0|cfgs0| |ids|ids| |k]; try done; simpl in *.
  - destruct Hpi as [_ Hk]. destruct k as [|[|[|k]]]; simpl in H; try done. lia.
  - next_ctl (CRCollect cfgs).
  - destruct k as [|[|[|k]]]; simpl in H; try done. by destruct k.
Qed.

Lemma calmStep_at_ctl c s s' :
  (forall cfgs, loads cfgs -> good cfgs) ->
  at_ctl c s -> calmStep s s' -> exists c', at_ctl c' s'.
Proof.
  intros Hl Ha [Hs Hcalm].
  step_cases Hs.
  - eapply at_ctl_main; eauto; apply Hlive.
  - eapply at_ctl_request; eauto.
  - by eapply at_ctl_reload.
  - exists c. destruct Ha, Hlive as (_ & Hk & _). split; try done. destruct ac_signals0. split; simpl; [done|..].
    + destruct (notified s); [done|]. rewrite orb_false_r. done.
    + by destruct (notified s).
  - exists c. by eapply at_ctl_workerOwn.
  - exists c. return_cases H. eapply (at_ctl_worker c s id w (WSending rs)); try done; [by rewrite Hph|apply Ha].
  - exists c. by eapply at_ctl_send.
  - exists c. by eapply at_ctl_pipeMoves.
Qed.

Lemma calm_reachable exps n cfgs s :
  (forall cfgs, loads cfgs -> good cfgs) -> good cfgs ->
  rtc calmStep (boot exps n cfgs) s -> exists c, at_ctl c s.
Proof.
  intros Hl Hg H.
  assert (exists c, at_ctl c (boot exps n cfgs)) as Hb.
  { exists (CBoot 0 cfgs). split; simpl; try done; split; simpl; try done; [lia..|congruence]. }
  revert Hb. induction H as [|x y z Hxy _ IH]; [done|]. intros [c Hc]. apply IH. by eapply calmStep_at_ctl.
Qed.

(** What is true when main has returned. *)
Definition wound (s : System) : Prop :=
  (forall id w, goroutines (sched s) !! id = Some w -> w_phase w = WExited) /\
  closed (results (pipe s)) = true /\ exported (pipe s) = accepted (pipe s).

Lemma at_ctl_wound c s : at_ctl c s -> mainPC s = [] -> wound s.
Proof.
  intros [_ Hmain _ _ He _ Hc _ _ Hi Hpi _] Hm. rewrite Hm in Hmain.
  destruct c as [k cfgs0|cfgs0| |cfgs0|ids cfgs0|ids cfgs0|cfgs0|cfgs0| |ids|ids| |k]; try done;
    try (by simpl in Hmain; destruct (notified s)).
  - destruct Hpi as [_ Hk]. destruct k as [|[|[|k]]]; try done. lia.
  - destruct Hpi as [Hd Hk]. assert (phase (pipe s) = PReturned) as Hph.
    { apply Hk. by intros ->. }
    split; [intros; by eapply drained_all_exited; eauto|].
    destruct Hd as [_ _ _ Hb Ho]. rewrite Hph, bool_decide_true in Ho by done. split; [done|].
    pose proof (inv_fifo _ Hi) as Hf. rewrite (inv_hand _ Hi), Hb, app_nil_r in Hf by auto. done.
Qed.

(** The shutdown order of main is safe for every calm execution. *)
Lemma calm_shutdown_safe exps n cfgs s :
  (forall cfgs, loads cfgs -> good cfgs) -> good cfgs ->
  rtc calmStep (boot exps n cfgs) s -> panicked s = None /\ (mainPC s = [] -> wound s).
Proof.
  intros Hl Hg H. destruct (calm_reachable exps n cfgs s Hl Hg H) as [c Ha].
  split; [apply Ha|]. by eapply at_ctl_wound.
Qed.

(** Results are conserved in every execution, races included. *)
Lemma system_accounts Q exps n cfgs s :
  (forall p rs, runs p rs -> Forall Q rs) ->
  rtc step (boot exps n cfgs) s ->
  produced s ≡ₚ exported (pipe s) ++ option_list (inHand (pipe s)) ++ buf (results (pipe s)) ++
                (snd <$> dropped (sched s)) ++ flight (phases (sched s)) /\
  Forall Q (exported (pipe s)) /\
  length (exportCalls (pipe s)) = (length (exported (pipe s)) * length (exporters (pipe s)))%nat /\
  (length (buf (results (pipe s))) <= Z.to_nat n)%nat /\
  forall s', step s s' -> dropped (sched s') = dropped (sched s) \/
    (length (buf (results (pipe s))) = Z.to_nat n /\
     exists name r, dropped (sched s') = dropped (sched s) ++ [(name, r)]).
Proof.
  intros HQ H. destruct (reachable_drop exps n cfgs s H) as [Hcap Hd].
  destruct (reachable_inv Q HQ exps n cfgs s H) as [Hi Hq Ha].
  pose proof (inv_fifo _ Hi) as Hf. rewrite <- Hcap. split; [|split; [|split; [|split]]].
  - rewrite Ha, Hf. by rewrite <- !app_assoc.
  - rewrite Ha, Hf in Hq. apply Forall_app in Hq as [Hq _]. by apply Forall_app in Hq as [Hq _].
  - apply Hi.
  - apply Hi.
  - intros s' Hs'. by apply Hd.
Qed.

(** The wiring of the pipeline in every execution. *)
Lemma step_wired exps n s s' : step s s' -> wired exps n (pipe s) -> wired exps n (pipe s').
Proof.
  intros Hs Hw. step_cases Hs; try done.
  - apply mainStep_move in H as [[-> | ->] _]; [done|]. by destruct Hw; split.
  - unfold requestReload in H. repeat case_match; by simplify_eq.
  - unfold reloadStep in H. destruct (reloadPC s) as [[|i rest]|]; [done| |done]. by apply schedInstr_move in H as [-> _].
  - by own_cases H.
  - send_cases H; [|done]. by eapply pipeSend_wired.
  - pipe_cases H; [|done]. by eapply pipeStep_wired.
Qed.

Lemma reachable_wired exps n cfgs s :
  rtc step (boot exps n cfgs) s -> wired exps (Z.to_nat n) (pipe s).
Proof.
  intros H. assert (wired exps (Z.to_nat n) (pipe (boot (P := P) exps n cfgs))) as Hw by by split.
  revert Hw. induction H; eauto using step_wired.
Qed.

End System.
