(* ===== verification/Provenance.v ===== *)
(** * Where the goroutines and their results come from.

    Every goroutine runs the prober the factory built from a configuration that
    was loaded, and its results carry that configuration's name, in every
    execution of the system, races included. *)

From S2P Require Import Prelude.
From S2P Require Import Types.
From S2P Require Import Pipeline.
From S2P Require Import Scheduler.
From S2P Require Import System.

(** ** Results carry the name of the worker that produced them *)

Section Tags.
Context {P : Type} (factory : ProbeConfig -> res string P) (runs : P -> list ProbeResult -> Prop)
  (loads : list ProbeConfig -> Prop).
Context (runs_name : forall cfg p rs, factory cfg = Ok p -> runs p rs ->
  Forall (fun r => ProbeName r = Name cfg) rs).

Definition taggedWorker (w : Worker P) : Prop :=
  factory (w_cfg w) = Ok (w_prober w) /\
  Forall (fun r => ProbeName r = Name (w_cfg w)) (inFlight (w_phase w)).

(** A dropped result has the name it is recorded under, and every drop is
    recorded. *)
Definition tagged (sc : Scheduler P) : Prop :=
  Forall taggedWorker (goroutines sc) /\
  Forall (fun d => ProbeName (snd d) = fst d) (dropped sc) /\
  onDroppedResult sc = true /\ dropRecords sc = fst <$> dropped sc.

Lemma cancelWorkers_tagged sc ids : tagged sc -> tagged (cancelWorkers sc ids).
Proof.
  revert sc. induction ids as [|id ids IH]; intros sc Ht; [done|]. simpl. apply IH.
  unfold cancelWorker. destruct (goroutines sc !! id) as [w|] eqn:E; [|done].
  destruct Ht as [Hg Hd]. split; [|done]. apply Forall_insert; [done|].
  rewrite Forall_lookup in Hg. apply (Hg id w E).
Qed.

Lemma startLocked_tagged sc cfg sc' : startLocked factory sc cfg = Ok sc' -> tagged sc -> tagged sc'.
Proof.
  unfold startLocked. destruct (factory cfg) as [p| |] eqn:E; [|by intros [= <-]|done].
  intros [= <-] [Hg Hd]. split; [|done]. apply Forall_app. split; [done|]. by repeat constructor.
Qed.

Lemma schedInstr_tagged main s i rest s' :
  schedInstr factory main s i rest = Some s' -> tagged (sched s) -> tagged (sched s').
Proof.
  intros H Ht. unfold schedInstr in H. destruct i as [| |cfgs|[|cfg cfgs]| | | |ids|ids| | | |]; try done.
  - destruct (muHeld s); [done|]. by injection H as <-.
  - by injection H as <-.
  - destruct (startLocked factory (sched s) cfg) eqn:E; [|done|]; injection H as <-; [|done].
    by eapply startLocked_tagged.
  - destruct (muHeld s); [done|]. by injection H as <-.
  - injection H as <-. by apply cancelWorkers_tagged.
  - destruct (allExited _ _); [|done]. by injection H as <-.
Qed.

Lemma worker_tagged sc id w ph :
  goroutines sc !! id = Some w -> tagged sc ->
  Forall (fun r => ProbeName r = Name (w_cfg w)) (inFlight ph) -> tagged (setWorker sc id (setWPhase w ph)).
Proof.
  intros Hw [Hg Hd] Hf. split; [|done]. apply Forall_insert; [done|].
  rewrite Forall_lookup in Hg. by destruct (Hg id w Hw).
Qed.

Lemma workerSend_tagged sc p id sc' p' :
  workerSend sc p id = Ok (Some (sc', p')) -> tagged sc -> tagged sc'.
Proof.
  intros H Ht. unfold workerSend in H. destruct (goroutines sc !! id) as [w|] eqn:Hw; [|done].
  destruct (w_phase w) as [| | |[|r rs]|] eqn:Hph; try done.
  assert (Forall (fun r => ProbeName r = Name (w_cfg w)) (r :: rs)) as Hf.
  { destruct Ht as [Hg _]. rewrite Forall_lookup in Hg. destruct (Hg id w Hw) as [_ Hf]. by rewrite Hph in Hf. }
  apply Forall_cons in Hf as [Hr Hrs]. pose proof (worker_tagged sc id w (WSending rs) Hw Ht Hrs) as [Hg Hd].
  destruct (pipeSend p r) as [[p'' ok]| |]; [|done..]. injection H as <- <-.
  destruct ok; [done|]. destruct Hd as (Hd & Hon & Hrec). split; [done|]. split; [|split; [done|]].
  - apply Forall_app. split; [done|]. by repeat constructor.
  - simpl in *. rewrite Hon, Hrec, fmap_app. done.
Qed.

Lemma step_tagged s s' : step factory runs loads s s' -> tagged (sched s) -> tagged (sched s').
Proof.
  intros Hs Ht. step_cases Hs.
  - unfold mainStep in H. destruct (mainPC s) as [|i rest]; [done|].
    destruct i; try (by eapply schedInstr_tagged); repeat case_match; by simplify_eq.
  - unfold requestReload in H. destruct (reloadPC s), (srvUp s); by simplify_eq.
  - unfold reloadStep in H. destruct (reloadPC s) as [[|i rest]|]; [done| |done]. by eapply schedInstr_tagged.
  - done.
  - own_cases H; [|done]. apply workerStep_phase in E as (ph & -> & Hf & _). simpl. apply worker_tagged; [done..|by rewrite Hf].
  - return_cases H. apply worker_tagged; [done..|]. simpl.
    destruct Ht as [Hg _]. rewrite Forall_lookup in Hg. destruct (Hg id w Hid) as [Hp _]. by eapply runs_name.
  - unfold workerSends in H. destruct (workerSend _ _ _) as [[[sc p]|]| |] eqn:E; [|done..|]; injection H as <-; [|done].
    by eapply workerSend_tagged.
  - by pipe_cases H.
Qed.

Lemma reachable_tagged exps n cfgs s : rtc (step factory runs loads) (boot exps n cfgs) s -> tagged (sched s).
Proof.
  intros H. assert (tagged (sched (boot (P := P) exps n cfgs))) as Ht by by split.
  revert Ht. induction H as [|x y z Hxy _ IH]; [done|]. intros Ht. apply IH. by eapply step_tagged.
Qed.
End Tags.

(** ** Goroutines run loaded configurations *)

Section Origin.
Context {P : Type} (factory : ProbeConfig -> res string P) (runs : P -> list ProbeResult -> Prop)
  (loads : list ProbeConfig -> Prop).
Context (Good : ProbeConfig -> Prop) (loads_Good : forall cfgs, loads cfgs -> Forall Good cfgs).

(** The probes an instruction, or a program, still has to start. *)
Definition instrCfgs (i : instr) : list ProbeConfig :=
  match i with IStart cfgs | IStarting cfgs => cfgs | _ => [] end.

Definition toStart (pc : list instr) : list ProbeConfig := concat (instrCfgs <$> pc).

(** What a goroutine was started with. *)
Definition origin (w : Worker P) : ProbeConfig * P := (w_cfg w, w_prober w).

Definition built (o : ProbeConfig * P) : Prop := Good (fst o) /\ factory (fst o) = Ok (snd o).

Record made (s : System P) : Prop := {
  md_running : Forall built (origin <$> goroutines (sched s));
  md_main : Forall Good (toStart (mainPC s));
  md_reload : Forall Good (toStart (default [] (reloadPC s)))
}.

Lemma origins_insert (gs : list (Worker P)) id w w' :
  gs !! id = Some w -> origin w' = origin w -> origin <$> <[id := w']> gs = origin <$> gs.
Proof. intros Hid Hc. rewrite list_fmap_insert, Hc. apply list_insert_id. by rewrite list_lookup_fmap, Hid. Qed.

(** No goroutine starts: those there are keep their origin. *)
Definition sameOrigins (sc sc' : Scheduler P) : Prop := origin <$> goroutines sc' = origin <$> goroutines sc.

Lemma cancelWorkers_origins (sc : Scheduler P) ids : sameOrigins sc (cancelWorkers sc ids).
Proof.
  unfold sameOrigins. revert sc. induction ids as [|id ids IH]; intros sc; [done|]. simpl. rewrite IH.
  unfold cancelWorker. destruct (goroutines sc !! id) as [w|] eqn:E; [|done]. by apply (origins_insert _ _ w).
Qed.

Lemma schedInstr_origins main s i rest s' :
  schedInstr factory main s i rest = Some s' ->
  sameOrigins (sched s) (sched s') \/
  exists cfg cfgs sc, i = IStarting (cfg :: cfgs) /\ startLocked factory (sched s) cfg = Ok sc /\
    s' = jump main s sc (muHeld s) (IStarting cfgs :: rest).
Proof.
  unfold schedInstr. destruct i as [| |cfgs|[|cfg cfgs]| | | |ids|ids| | | |]; try done.
  - destruct (muHeld s); [done|]. intros [= <-]. by left.
  - intros [= <-]. by left.
  - destruct (startLocked factory (sched s) cfg) as [sc| |] eqn:E; [|done|]; intros [= <-]; [|by left].
    right. by exists cfg, cfgs, sc.
  - destruct (muHeld s); [done|]. intros [= <-]. by left.
  - intros [= <-]. left. apply cancelWorkers_origins.
  - destruct (allExited _ _); [|done]. intros [= <-]. by left.
Qed.

Lemma schedInstr_toStart main s i rest s' :
  schedInstr factory main s i rest = Some s' ->
  Forall Good (toStart (i :: rest)) ->
  (main = true -> mainPC s = i :: rest) -> (main = false -> reloadPC s = Some (i :: rest)) ->
  made s -> made s'.
Proof.
  intros H Hpc Hm Hr [Hg Hmain Hrel].
  assert (Forall built (origin <$> goroutines (sched s'))) as Hg'.
  { destruct (schedInstr_origins _ _ _ _ _ H) as [->|(cfg & cfgs & sc & -> & E & ->)]; [done|].
    unfold startLocked in E. destruct (factory cfg) eqn:Ef; [| |done]; injection E as <-; simpl; [|done].
    rewrite fmap_app. apply Forall_app. split; [done|]. constructor; [|done].
    apply Forall_cons in Hpc as [? _]. by split. }
  assert (forall pc, Forall Good (toStart pc) -> mainPC s' = (if main then pc else mainPC s) ->
    default [] (reloadPC s') = (if main then default [] (reloadPC s) else pc) -> made s') as Hset.
  { intros pc Hf E1 E2. destruct main; split; rewrite ?E1, ?E2; done. }
  unfold schedInstr in H. destruct i as [| |cfgs|[|cfg cfgs]| | | |ids|ids| | | |]; try done.
  - destruct (muHeld s); [done|]. injection H as <-. apply (Hset (IStarting cfgs :: rest)); [done|done|by destruct main].
  - injection H as <-. apply (Hset rest); [done|done|by destruct main, rest].
  - destruct (startLocked _ _ _); [|done|]; injection H as <-; [|by split].
    apply (Hset (IStarting cfgs :: rest)); [by apply Forall_cons in Hpc as [_ ?]|done|by destruct main].
  - destruct (muHeld s); [done|]. simpl in H. injection H as <-. by eapply Hset; [|done|by destruct main].
  - injection H as <-. apply (Hset rest); [done|done|by destruct main, rest].
  - destruct (allExited _ _); [|done]. injection H as <-. apply (Hset rest); [done|done|by destruct main, rest].
Qed.

Lemma made_same s s' :
  sameOrigins (sched s) (sched s') -> mainPC s' = mainPC s -> reloadPC s' = reloadPC s -> made s -> made s'.
Proof. intros Hs Hm Hr [Hg H1 H2]. split; [by rewrite Hs|by rewrite Hm|by rewrite Hr]. Qed.

Lemma step_made s s' : step factory runs loads s s' -> made s -> made s'.
Proof.
  intros Hs Hi. step_cases Hs.
  - unfold mainStep in H. destruct (mainPC s) as [|i rest] eqn:Hm; [done|].
    assert (Forall Good (toStart (i :: rest))) as Hpc by (rewrite <- Hm; apply Hi).
    destruct i; try (by eapply (schedInstr_toStart true)); repeat case_match; simplify_eq;
      destruct Hi as [H1 H2 H3]; by split.
  - unfold requestReload in H. destruct (reloadPC s), (srvUp s); simplify_eq. destruct Hi as [H1 H2 _]. split; [done..|].
    unfold toStart. simpl. rewrite app_nil_r. by apply loads_Good.
  - unfold reloadStep in H. destruct (reloadPC s) as [[|i rest]|] eqn:Er; [done| |done].
    eapply (schedInstr_toStart false); [exact H| |done|done|done]. destruct Hi as [_ _ H3]. by rewrite Er in H3.
  - by apply (made_same s).
  - own_cases H; [|by apply (made_same s)].
    apply workerStep_phase in E as (ph & -> & _). apply (made_same s); [|done..]. by apply (origins_insert _ _ w).
  - return_cases H. apply (made_same s); [|done..]. by apply (origins_insert _ _ w).
  - send_cases H; [|by apply (made_same s)]. apply (made_same s); [|done..].
    unfold sameOrigins. simpl. rewrite Hg. by apply (origins_insert _ _ w).
  - pipe_cases H; by apply (made_same s).
Qed.

Lemma reachable_made exps n cfgs s :
  Forall Good cfgs -> rtc (step factory runs loads) (boot exps n cfgs) s -> made s.
Proof.
  intros Hg H. assert (made (boot exps n cfgs)) as Hb.
  { split; simpl; [constructor| |constructor]. unfold toStart. simpl. by rewrite app_nil_r. }
  revert Hb. induction H; eauto using step_made.
Qed.

Lemma made_worker s id w : made s -> goroutines (sched s) !! id = Some w -> built (origin w).
Proof. intros [Hg _ _] Hid. apply (Forall_lookup_1 _ _ id _ Hg). by rewrite list_lookup_fmap, Hid. Qed.
End Origin.
