(* ===== verification/Main.v ===== *)
(** * cmd/trimon/main.go: the probe factory, the wired program and its races.

    [probeFactory] builds one of the five probers; [proberRuns] is what their
    [Run] can return; the system of System.v is instantiated with both and with
    the configurations that validation accepts. *)

From S2P Require Import Prelude.
From S2P Require Import GoStrings.
From S2P Require Import GoNet.
From S2P Require Import Types.
From S2P Require Import Probe.
From S2P Require Import Prober.
From S2P Require Import Config.
From S2P Require Import Tcp.
From S2P Require Import Udp.
From S2P Require Import Dns.
From S2P Require Import Http.
From S2P Require Import Icmp.
From S2P Require Import Pipeline.
From S2P Require Import Scheduler.
From S2P Require Import System.
From S2P Require Import Provenance.

(** ** The factory *)

Inductive AnyProber :=
  | PIcmp (p : icmpProber)
  | PTcp (p : tcpProber)
  | PUdp (p : udpProber)
  | PDns (p : dnsProber)
  | PHttp (p : httpProber).

Definition probeFactory (u : UnicodeTables) (cfg : ProbeConfig) : res string AnyProber :=
  if (Type_ cfg =? ProbeTypeICMP)%string then Ok (PIcmp {| ip_cfg := cfg |})
  else if (Type_ cfg =? ProbeTypeTCP)%string then Ok (PTcp {| tp_cfg := cfg |})
  else if (Type_ cfg =? ProbeTypeUDP)%string then Ok (PUdp {| up_cfg := cfg |})
  else if (Type_ cfg =? ProbeTypeDNS)%string then Ok (PDns {| dp_cfg := cfg |})
  else if (Type_ cfg =? ProbeTypeHTTP)%string then p ← Http.New cfg; Ok (PHttp p)
  else Err ("unknown probe type " +:+ Quote u (Type_ cfg)).

(** The results one run of a prober may hand to the scheduler. *)
Definition mayReturn {A} `{Prober A} (p : A) (rs : list ProbeResult) : Prop :=
  exists env out, pr_valid p /\ pr_env_ok p env /\ pr_run p env = Ok out /\ rs = default [] out.

Definition proberRuns (p : AnyProber) (rs : list ProbeResult) : Prop :=
  match p with
  | PIcmp q => mayReturn q rs
  | PTcp q => mayReturn q rs
  | PUdp q => mayReturn q rs
  | PDns q => mayReturn q rs
  | PHttp q => mayReturn q rs
  end.

(** The promise of the interface, for results of any prober. *)
Definition promised (r : ProbeResult) : Prop := exists cfg typ, result_ok cfg typ r.

Lemma mayReturn_promised {A} `{ProberLaws A} (p : A) rs : mayReturn p rs -> Forall promised rs.
Proof.
  intros (env & out & Hv & He & Hrun & ->). destruct (pr_run_ok p env Hv He) as (rs & E & Hok).
  rewrite Hrun in E. injection E as ->. destruct rs as [l|]; [|constructor]. simpl.
  eapply Forall_impl; [by apply Hok|]. intros r Hr. by exists (pr_cfg p), (pr_type p).
Qed.

Lemma proberRuns_promised p rs : proberRuns p rs -> Forall promised rs.
Proof. destruct p; simpl; apply mayReturn_promised. Qed.

Lemma HTTP_New_ok cfg hcfg : HTTP cfg = Some hcfg -> exists p, Http.New cfg = Ok p.
Proof. intros H. destruct (New_spec cfg hcfg H) as (cs & E & _). eauto. Qed.

(** The factory accepts every configuration the validation lets through, and
    the prober it builds is one its interface law applies to. *)
Definition validProber (p : AnyProber) : Prop :=
  match p with
  | PIcmp q => pr_valid q
  | PTcp q => pr_valid q
  | PUdp q => pr_valid q
  | PDns q => pr_valid q
  | PHttp q => pr_valid q
  end.

Lemma New_cfg cfg p : Http.New cfg = Ok p -> hp_cfg p = cfg.
Proof. unfold Http.New. destruct (addClients _ _ _); [|done..]. by intros [= <-]. Qed.

Lemma probeFactory_wf u env cfg :
  wf_probe env cfg -> Count cfg < 2 ^ 53 -> exists p, probeFactory u cfg = Ok p /\ validProber p.
Proof.
  intros (_ & _ & _ & _ & Ht & _ & Hb) Hc. unfold probeFactory.
  assert (Type_ cfg <> ProbeTypeHTTP -> 1 <= Count cfg) as Hcount by (intros H; destruct (Ht H); lia).
  destruct Hb as [(E & _)|[(E & (h & Eh & _) & _)|[(E & (t & Et & _) & _)|[(E & (d & Ed & _) & _)|(E & (n & En & _) & _)]]]];
    rewrite E in *; cbn; try (eexists; split; [reflexivity|]; simpl; rewrite ?Et, ?Ed, ?En; split; [done|split; [|done]; by apply Hcount]).
  - by eexists.
  - destruct (HTTP_New_ok cfg h Eh) as [p Ep]. rewrite Ep. exists (PHttp p). split; [done|]. simpl.
    rewrite (New_cfg _ _ Ep), Eh. done.
Qed.

(** ** Runs return *)

(** The goroutines of the fan-out finish one after the other. *)
Definition inTurn {Net} (env : RunEnv Net) (n : nat) : RunEnv Net := {|
  env_unicode := env_unicode env; env_lookup := env_lookup env; env_now := env_now env; env_net := env_net env;
  env_cancelled := env_cancelled env; env_order := seq 0 n |}.

Lemma mayReturn_ex {A} `{ProberLaws A} (p : A) : pr_valid p -> (exists env, pr_env_ok p env) -> exists rs, mayReturn p rs.
Proof. intros Hv [env He]. destruct (pr_run_ok p env Hv He) as (out & E & _). exists (default [] out), env, out. auto. Qed.

Definition itemCount {Net} (env : RunEnv Net) (cfg : ProbeConfig) : nat :=
  length (ExpandTargets (env_lookup env) (Targets cfg) (MaxResolvedIPs cfg)).

(** Every prober the interface law applies to has a run that returns. *)
Lemma prober_returns p : validProber p -> exists rs, proberRuns p rs.
Proof.
  destruct p as [q|q|q|q|q]; intros Hv; (apply mayReturn_ex; [exact Hv|]).
  - exists (inTurn demoIcmpEnv (itemCount demoIcmpEnv (ip_cfg q))). split; [by unfold completes|]. intros. apply demoStats_ok.
  - exists (inTurn demoTcpEnv (itemCount demoTcpEnv (tp_cfg q))). by simpl; unfold completes.
  - exists (inTurn demoUdpEnv (itemCount demoUdpEnv (up_cfg q))). by simpl; unfold completes.
  - exists {| de_run := inTurn (de_run demoDnsEnv) (length (Targets (dp_cfg q)));
              Fqdn := Fqdn demoDnsEnv; ClientConfigFromFile := ClientConfigFromFile demoDnsEnv |}. simpl. reflexivity.
  - exists (inTurn (demoHttpEnv 0) (itemCount (demoHttpEnv 0) (hp_cfg q))). by simpl; unfold completes.
Qed.

(** Every result carries the name of the probe whose run returned it. *)
Lemma mayReturn_name {A} `{ProberLaws A} (p : A) rs :
  mayReturn p rs -> Forall (fun r => ProbeName r = Name (pr_cfg p)) rs.
Proof.
  intros (env & out & Hv & He & Hrun & ->). destruct (pr_run_ok p env Hv He) as (rs & E & Hok).
  rewrite Hrun in E. injection E as ->. destruct rs as [l|]; [|constructor]. simpl.
  eapply Forall_impl; [by apply Hok|]. intros r Hr. apply Hr.
Qed.

Lemma proberRuns_name u cfg p rs :
  probeFactory u cfg = Ok p -> proberRuns p rs -> Forall (fun r => ProbeName r = Name cfg) rs.
Proof.
  unfold probeFactory. intros E H.
  repeat (destruct (_ =? _)%string in E; [try (injection E as <-; exact (mayReturn_name _ _ H))|]); [|done].
  destruct (Http.New cfg) as [q| |] eqn:En; [|done..]. simpl in E. injection E as <-.
  rewrite <- (New_cfg cfg q En). exact (mayReturn_name _ _ H).
Qed.

(** ** Every execution *)

(** C3: the whole program.  In every execution of the wired system, whatever the
    configuration, the reloads and the interleaving, the results the probe runs
    returned are exactly the exported ones, the one the pipeline has received and
    is about to dispatch, the buffered ones, the dropped ones, and the ones a
    goroutine is still sending; every drop was recorded under the probe's name;
    every exported one was handed to every exporter and keeps the probers'
    promise: the status is set, received never exceeds sent, an up status means a
    reply, success means no loss, an error carries no port state.  The buffer
    never outgrows the configured size, and a step drops a result, a single one,
    only from a state in which the buffer is full. *)
Theorem program_results_accounted u loads exps n cfgs s :
  rtc (step (probeFactory u) proberRuns loads) (boot exps n cfgs) s ->
  produced s ≡ₚ exported (pipe s) ++ option_list (inHand (pipe s)) ++ buf (results (pipe s)) ++
                (snd <$> dropped (sched s)) ++ flight (phases (sched s)) /\
  dropRecords (sched s) = (fun d => ProbeName (snd d)) <$> dropped (sched s) /\
  Forall promised (exported (pipe s)) /\
  length (exportCalls (pipe s)) = (length (exported (pipe s)) * length (exporters (pipe s)))%nat /\
  (length (buf (results (pipe s))) <= Z.to_nat n)%nat /\
  forall s', step (probeFactory u) proberRuns loads s s' -> dropped (sched s') = dropped (sched s) \/
    (length (buf (results (pipe s))) = Z.to_nat n /\
     exists name r, dropped (sched s') = dropped (sched s) ++ [(name, r)]).
Proof.
  intros H. destruct (system_accounts _ _ _ _ _ _ _ _ proberRuns_promised H) as (H1 & H2 & H3 & H4 & H5).
  split; [done|]. split; [|done].
  destruct (reachable_tagged _ _ loads (proberRuns_name u) _ _ _ _ H) as (_ & Hd & _ & ->).
  apply list_fmap_ext. intros i d Hi. symmetry. exact (Forall_lookup_1 _ _ _ _ Hd Hi).
Qed.

(** ** Shutdown of a loaded configuration *)

(** What main needs of a loaded configuration: [ValidConfig], plus what the
    validation does not check (see [http_interval_panics]). *)
Record runnable (env : ConfigEnv) (cfgs : list ProbeConfig) : Prop := {
  run_names : NoDup (Name <$> cfgs);
  run_probes : Forall (wf_probe env) cfgs;
  run_counts : Forall (fun c => Count c < 2 ^ 53) cfgs;
  run_http : Forall (fun c => Type_ c = ProbeTypeHTTP -> 0 < Interval c) cfgs
}.

Lemma runnable_good u env cfgs : runnable env cfgs -> good (probeFactory u) cfgs.
Proof.
  intros [Hn Hp Hc Hh]. split; [done|..]; apply Forall_forall; intros c Hin;
    rewrite Forall_forall in Hp, Hc, Hh.
  - destruct (decide (Type_ c = ProbeTypeHTTP)); [by apply Hh|].
    destruct (Hp c Hin) as (_ & _ & _ & _ & Ht & _). by apply Ht.
  - intros p E. destruct (probeFactory_wf u env c (Hp c Hin) (Hc c Hin)) as (q & Eq & _). congruence.
Qed.

(** the shutdown order of main is safe.  Started from any validated
    configuration and reloaded with any others, as long as no reload is in
    progress once the signal arrives: however the probe goroutines, the pipeline
    and main interleave, nothing panics (in particular no goroutine sends on
    the closed results channel), and when main returns every probe goroutine
    has exited, the channel is closed and every accepted result has been
    exported. *)
Theorem program_shutdown_safe u env exps n cfgs s :
  runnable env cfgs ->
  rtc (calmStep (probeFactory u) proberRuns (runnable env)) (boot exps n cfgs) s ->
  panicked s = None /\
  (mainPC s = [] ->
     (forall id w, goroutines (sched s) !! id = Some w -> w_phase w = WExited) /\
     closed (results (pipe s)) = true /\ exported (pipe s) = accepted (pipe s)).
Proof.
  intros Hr. apply calm_shutdown_safe.
  - intros. by eapply runnable_good.
  - by eapply runnable_good.
Qed.

(** ** Where the program can panic *)

(** Run one instruction of main, of the handler or of the pipeline. *)
Ltac sys_main := eapply rtc_l; [eapply step_main; [by split|vm_compute; reflexivity]|].
Ltac sys_reload := eapply rtc_l; [eapply step_reload; [by split|vm_compute; reflexivity]|].
Ltac sys_pipe m := eapply rtc_l; [eapply (step_pipe _ _ _ _ _ m); [by split|vm_compute; reflexivity]|].

Ltac sys_worker m id :=
  eapply rtc_l; [eapply (step_worker _ _ _ _ _ m id); [by split|vm_compute; reflexivity]|].
Ltac sys_send id := eapply rtc_l; [eapply (step_send _ _ _ _ _ id); [by split|vm_compute; reflexivity]|].
Ltac sys_signal := eapply rtc_l; [eapply step_signal; by split|].

Ltac sys_main' := eapply rtc_l; [eapply step_main; [by split|reflexivity]|].

Definition demoTables : UnicodeTables :=
  {| mapUpper := id; mapLower := id; foldEqual := String.eqb; quoteRunes := id |}.

Definition demoRun : list ProbeResult :=
  match Icmp.Run demoIcmpEnv demoIcmpConfig with Ok (Some rs) => rs | _ => [] end.

Lemma demoRun_ok : proberRuns (PIcmp {| ip_cfg := demoIcmpConfig |}) demoRun.
Proof.
  exists demoIcmpEnv, (Some demoRun). split; [done|]. split.
  - split; [|intros; apply demoStats_ok]. unfold completes. vm_compute. reflexivity.
  - split; [vm_compute; reflexivity|done].
Qed.

(** C37: a reload that arrives between [sched.Stop()] and the end of the server
    can crash the process: the handler starts new workers after main has
    stopped them all, the pipeline drains and closes the channel, and the next
    result is sent on the closed channel. *)
Theorem reload_during_shutdown_panics :
  exists s, rtc (step (probeFactory demoTables) proberRuns (fun cfgs => cfgs = [demoIcmpConfig]))
              (boot demoExporters 10 [demoIcmpConfig]) s /\
    panicked s = Some SendOnClosedChannel.
Proof.
  eexists. split.
  - do 6 sys_main. sys_worker MBegin 0%nat. sys_signal. do 3 sys_main. sys_worker MExit 0%nat. sys_main.
    eapply rtc_l; [eapply (step_request _ _ _ _ _ [demoIcmpConfig]); [by split|done|vm_compute; reflexivity]|].
    do 6 sys_reload. sys_worker MBegin 1%nat. sys_main.
    sys_pipe MCancelSeen. sys_pipe MDrained. sys_pipe MClose.
    sys_worker MTick 1%nat.
    eapply rtc_l; [eapply (step_return _ _ _ _ 1%nat _ _ demoRun); [by split|reflexivity|exact demoRun_ok|reflexivity]|].
    sys_send 1%nat. apply rtc_refl.
  - reflexivity.
Qed.

(** C38: a reload that arrives between [srv.Start()] and [sched.Start()] leaks
    workers: main's [Start] overwrites the map entries the handler has just
    registered, and when both are done a goroutine is still running that no
    later [Stop] will ever find. *)
Theorem reload_before_start_leaks :
  exists s w, rtc (step (probeFactory demoTables) proberRuns (fun cfgs => cfgs = [demoIcmpConfig]))
                (boot demoExporters 10 [demoIcmpConfig]) s /\
    mainPC s = IWaitSignal :: shutdown /\ reloadPC s = None /\ panicked s = None /\
    goroutines (sched s) !! 0%nat = Some w /\ w_phase w = WSelect /\
    forall name, workers (sched s) !! name <> Some 0%nat.
Proof.
  do 2 eexists. split.
  - sys_main.
    eapply rtc_l; [eapply (step_request _ _ _ _ _ [demoIcmpConfig]); [by split|done|vm_compute; reflexivity]|].
    do 6 sys_reload. sys_worker MBegin 0%nat. do 5 sys_main. apply rtc_refl.
  - do 3 (split; [reflexivity|]). split; [reflexivity|]. split; [reflexivity|].
    match goal with |- forall name, ?m !! _ <> _ =>
      assert (m = {["gw" := 1%nat]}) as -> by (vm_compute; reflexivity) end.
    intros name [_ H]%lookup_singleton_Some. done.
Qed.

(** A goroutine whose ticker period is not positive panics when it begins. *)
Lemma begin_panics {P} factory runs loads (s : System P) id w :
  alive s -> goroutines (sched s) !! id = Some w -> w_phase w = WNew -> Interval (w_cfg w) <= 0 ->
  step factory runs loads s (fail s NonPositiveTickerInterval).
Proof.
  intros Ha Hid Hph Hi. apply (step_worker _ _ _ _ _ MBegin id); [done|].
  unfold workerOwn, workerStep. rewrite Hid, Hph. by rewrite (proj2 (Z.leb_le _ _) Hi).
Qed.

(** C39: the validation accepts HTTP probes with a zero or negative
    [probe_every] (the timing rules are skipped for them), and starting such a
    probe crashes the process: [time.NewTicker] panics in the new goroutine. *)
Theorem http_interval_panics u env r g pc runs loads exps n :
  range_ok env -> mergeAndValidateProbe env r g = Ok pc ->
  Type_ pc = ProbeTypeHTTP -> Interval pc <= 0 ->
  exists s, rtc (step (probeFactory u) runs loads) (boot exps n [pc]) s /\
    panicked s = Some NonPositiveTickerInterval.
Proof.
  intros Hr Hm Ht Hi. destruct (wf_merged env r g pc Hr Hm) as [Hwf _].
  assert (exists p, probeFactory u pc = Ok p) as [p Hp].
  { destruct Hwf as (_ & _ & _ & _ & _ & _ & Hb). unfold probeFactory. rewrite Ht. simpl.
    destruct Hb as [(E & _)|[(_ & (h & Eh & _) & _)|[(E & _)|[(E & _)|(E & _)]]]]; try (rewrite Ht in E; done).
    destruct (HTTP_New_ok pc h Eh) as [q ->]. by eexists. }
  eexists. split.
  - do 3 sys_main'. eapply rtc_l; [eapply step_main; [by split|]|].
    { cbn [mainStep setMain jump boot mainPC schedInstr sched]. unfold startLocked. rewrite Hp. reflexivity. }
    eapply rtc_l; [eapply (begin_panics _ _ _ _ 0%nat); [by split|reflexivity|reflexivity|exact Hi]|].
    apply rtc_refl.
  - reflexivity.
Qed.

Definition zeroIntervalRaw : rawProbeConfig :=
  {| r_Name := "site"; r_Type := "http"; r_Targets := ["192.0.2.1"]; r_MaxResolvedIPs := 0; r_SourceIP := "";
     r_Interval := Some 0; r_PacketInterval := None; r_Timeout := None; r_Count := None; r_Labels := None;
     r_HTTP := Some {| rh_Scheme := ""; rh_Port := 0; rh_Path := ""; rh_Method := ""; rh_ExpectedStatus := 0;
                       rh_FollowRedirects := None; rh_TLSExpiryWarningDays := 0 |};
     r_TCP := None; r_UDP := None; r_DNS := None |}.

Lemma http_interval_panics_witness :
  exists pc s, mergeAndValidateProbe demoEnv zeroIntervalRaw demoGlobal = Ok pc /\
    rtc (step (probeFactory demoTables) (fun _ _ => False) (fun _ => False)) (boot demoExporters 10 [pc]) s /\
    panicked s = Some NonPositiveTickerInterval.
Proof.
  destruct (mergeAndValidateProbe demoEnv zeroIntervalRaw demoGlobal) as [pc| |] eqn:E;
    [|vm_compute in E; discriminate..].
  exists pc. assert (Type_ pc = ProbeTypeHTTP /\ Interval pc = 0) as [Ht Hi]
    by (vm_compute in E; injection E as <-; by split).
  destruct (http_interval_panics demoTables demoEnv zeroIntervalRaw demoGlobal pc (fun _ _ => False) (fun _ => False)
    demoExporters 10 demo_range E Ht ltac:(lia)) as (s & H1 & H2).
  by exists s.
Defined.

(** ** A complete run: start, one probe run, signal, shutdown. *)

Definition demoGwRaw : rawProbeConfig :=
  {| r_Name := "gw"; r_Type := "icmp"; r_Targets := ["192.0.2.1"; "::1"]; r_MaxResolvedIPs := 0;
     r_SourceIP := ""; r_Interval := None; r_PacketInterval := None; r_Timeout := None; r_Count := None;
     r_Labels := None; r_HTTP := None; r_TCP := None; r_UDP := None; r_DNS := None |}.

Definition demoGw : ProbeConfig := {|
  Name := "gw"; Type_ := "icmp"; Targets := ["192.0.2.1"; "::1"]; MaxResolvedIPs := 0; SourceIP := "127.0.0.1";
  Interval := 30 * Second; PacketInterval := 1 * Second; Timeout := 5 * Second; Count := 3; Labels := None;
  HTTP := None; TCP := None; UDP := None; DNS := None |}.

Lemma demoGw_runnable : runnable demoEnv [demoGw].
Proof.
  split.
  - simpl. apply NoDup_singleton.
  - constructor; [|constructor]. apply (wf_merged demoEnv demoGwRaw demoGlobal); [apply demo_range|].
    vm_compute. reflexivity.
  - constructor; [vm_compute; reflexivity|constructor].
  - constructor; [intros H; vm_compute in H; discriminate|constructor].
Qed.

Definition demoGwRun : list ProbeResult :=
  match Icmp.Run demoIcmpEnv demoGw with Ok (Some rs) => rs | _ => [] end.

Lemma demoGwRun_ok : proberRuns (PIcmp {| ip_cfg := demoGw |}) demoGwRun.
Proof.
  exists demoIcmpEnv, (Some demoGwRun). split; [done|]. split.
  - split; [|intros; apply demoStats_ok]. unfold completes. vm_compute. reflexivity.
  - split; [vm_compute; reflexivity|done].
Qed.

Ltac calm_l t := eapply rtc_l; [split; [t|left; reflexivity]|].
Ltac calm_main := calm_l ltac:(eapply step_main; [by split|vm_compute; reflexivity]).
Ltac calm_worker m := calm_l ltac:(eapply (step_worker _ _ _ _ _ m 0%nat); [by split|vm_compute; reflexivity]).
Ltac calm_send := calm_l ltac:(eapply (step_send _ _ _ _ _ 0%nat); [by split|vm_compute; reflexivity]).
Ltac calm_pipe m := calm_l ltac:(eapply (step_pipe _ _ _ _ _ m); [by split|vm_compute; reflexivity]).

Lemma demo_full_run loads :
  exists s, rtc (calmStep (probeFactory demoTables) proberRuns loads) (boot demoExporters 1 [demoGw]) s /\
    mainPC s = [] /\ length (exported (pipe s)) = 1%nat /\ length (dropped (sched s)) = 1%nat.
Proof.
  eexists. split.
  - do 6 calm_main. calm_worker MBegin.
    calm_worker MTick. calm_l ltac:(eapply (step_return _ _ _ _ 0%nat _ _ demoGwRun); [by split|reflexivity|exact demoGwRun_ok|reflexivity]).
    do 2 calm_send. calm_worker MLoop. calm_l ltac:(eapply step_signal; by split). do 3 calm_main.
    calm_worker MExit. do 2 calm_main. calm_pipe MCancelSeen. calm_pipe MRecv. calm_pipe MDispatch. calm_pipe MDrained.
    calm_pipe MClose. do 3 calm_main. apply rtc_refl.
  - do 2 (split; [reflexivity|]). reflexivity.
Qed.

(** Main is serving, a result is buffered and a second run is in progress when the
    signal arrives. *)
Lemma demo_signalled_run loads :
  exists s w, rtc (calmStep (probeFactory demoTables) proberRuns loads) (boot demoExporters 1 [demoGw]) s /\
    signalled s = true /\ mainPC s = IWaitSignal :: shutdown /\ length (buf (results (pipe s))) = 1%nat /\
    goroutines (sched s) !! 0%nat = Some w /\ w_phase w = WRunning.
Proof.
  do 2 eexists. split.
  - do 6 calm_main. calm_worker MBegin.
    calm_worker MTick. calm_l ltac:(eapply (step_return _ _ _ _ 0%nat _ _ demoGwRun); [by split|reflexivity|exact demoGwRun_ok|reflexivity]).
    do 2 calm_send. calm_worker MLoop. calm_worker MTick. calm_l ltac:(eapply step_signal; by split). apply rtc_refl.
  - do 4 (split; [reflexivity|]). reflexivity.
Qed.

Lemma calm_step {P} factory runs loads (s s' : System P) :
  rtc (calmStep factory runs loads) s s' -> rtc (step factory runs loads) s s'.
Proof. induction 1 as [|x y z [H _] _ IH]; [apply rtc_refl|]. by eapply rtc_l. Qed.

Lemma program_results_accounted_witness :
  exists s, rtc (step (probeFactory demoTables) proberRuns (fun _ => False)) (boot demoExporters 1 [demoGw]) s /\
    length (exported (pipe s)) = 1%nat /\ Forall promised (exported (pipe s)).
Proof.
  destruct (demo_full_run (fun _ => False)) as (s & H & _ & He & _). apply calm_step in H. exists s.
  split; [done|]. split; [done|].
  exact (proj1 (proj2 (proj2 (program_results_accounted demoTables (fun _ => False) demoExporters 1 [demoGw] s H)))).
Defined.

Lemma program_shutdown_safe_witness :
  exists s, rtc (calmStep (probeFactory demoTables) proberRuns (runnable demoEnv)) (boot demoExporters 1 [demoGw]) s /\
    mainPC s = [] /\ panicked s = None /\ closed (results (pipe s)) = true /\ exported (pipe s) = accepted (pipe s).
Proof.
  destruct (demo_full_run (runnable demoEnv)) as (s & H & Hm & _). exists s. split; [done|]. split; [done|].
  destruct (program_shutdown_safe demoTables demoEnv demoExporters 1 [demoGw] s demoGw_runnable H) as [Hp Hend].
  split; [done|]. by destruct (Hend Hm) as (_ & Hc & He).
Defined.

(** ** Targets that validation accepts and no run ever probes *)

(** a target that is not an IP for [net.ParseIP] but resolves to itself (an
    IPv6 literal with a zone) passes validation, and every run then takes it
    for an unresolvable name: its only work item carries [IP == FQDN], the
    marker of a failed lookup, so each result is a resolve error. *)
Theorem self_resolving_target_never_probed env t u now cfg maxIPs typ :
  ParseIP t = None -> LookupHost env t = inr [t] -> t <> "" ->
  validateOneTarget env t = Ok () /\
  ExpandTargets (LookupHost env) [t] maxIPs = [{| wi_IP := t; wi_FQDN := t |}] /\
  forall wi, wi ∈ ExpandTargets (LookupHost env) [t] maxIPs ->
    exists r, NewResult u now cfg wi typ = (r, false) /\ ErrorType r = "resolve_error".
Proof.
  intros Hp Hl Hne.
  assert (ExpandTargets (LookupHost env) [t] maxIPs = [{| wi_IP := t; wi_FQDN := t |}]) as He.
  { rewrite ExpandTargets_concat. simpl. unfold expandSpec. rewrite Hp, Hl. simpl.
    rewrite decide_False by apply not_elem_of_empty. destruct (Z.ltb_spec 0 maxIPs); [|done].
    by destruct (Z.to_nat maxIPs) as [|[|k]] eqn:Ek; [lia|..]. }
  split; [unfold validateOneTarget; by rewrite Hp, Hl|]. split; [done|].
  rewrite He. intros wi ->%list_elem_of_singleton. unfold NewResult. simpl.
  rewrite String.eqb_refl, (proj2 (String.eqb_neq t "") Hne). simpl. eauto.
Qed.

Lemma self_resolving_target_never_probed_witness :
  exists r, NewResult demoTables 0 demoGw {| wi_IP := "fe80::1%eth0"; wi_FQDN := "fe80::1%eth0" |} "icmp" = (r, false).
Proof.
  destruct (self_resolving_target_never_probed
    {| LookupHost := fun h => inr [h]; localInterfaceAddrs := inl ""; rangeLabels := map_to_list;
       ResolveTCPAddr := fun _ => None; unicodeTables := demoTables |}
    "fe80::1%eth0" demoTables 0 demoGw 0 "icmp" eq_refl eq_refl ltac:(done)) as (_ & He & H).
  destruct (H {| wi_IP := "fe80::1%eth0"; wi_FQDN := "fe80::1%eth0" |}) as (r & E & _).
  - rewrite He. constructor.
  - by exists r.
Defined.
