(* ===== verification/Observability.v ===== *)
(** * The metrics of the running program.

    What the counters of the telemetry exporter show in any state the program
    of System.v and Main.v can reach: the exporter records the exported results
    and the drops the scheduler reports to it ([sched.SetDroppedResultRecorder]
    and [pipe.SetExportErrorRecorder] in cmd/trimon/main.go). *)

From S2P Require Import Prelude.
From S2P Require Import GoStrings.
From S2P Require Import Types.
From S2P Require Import Prober.
From S2P Require Import Otlp.
From S2P Require Import Pipeline.
From S2P Require Import Scheduler.
From S2P Require Import System.
From S2P Require Import Icmp.
From S2P Require Import Tcp.
From S2P Require Import Udp.
From S2P Require Import Dns.
From S2P Require Import Http.
From S2P Require Import Provenance.
From S2P Require Import Main.

(** The recorder the pipeline calls for every failed export. *)
Definition recordErrors (names : list string) : list Measurement := concat (RecordExporterError stdHandles <$> names).

(** The measurements the exporter has recorded in the state [s]. *)
Definition recorded (range : nat -> gmap string string -> list (string * string))
    {P} (s : @System P) : list Measurement :=
  exportAll stdHandles range 0 (exported (pipe s)) ++ recordDropped stdHandles (dropRecords (sched s)) ++
  recordErrors (exportErrors (pipe s)).

Lemma exportAll_other newSet range n c sel rs :
  c = "trimon.probe.results_dropped" \/ c = "trimon.exporter.errors" ->
  counterTotal newSet c sel (exportAll stdHandles range n rs) = 0.
Proof.
  intros Hc. revert n. induction rs as [|r rs IH]; intros n; [done|]. cbn [exportAll].
  rewrite counterTotal_app, Export_total, IH. destruct Hc as [-> | ->]; simpl; by destruct (IsError _).
Qed.

Lemma recordDropped_other newSet c sel names :
  c <> "trimon.probe.results_dropped" ->
  counterTotal newSet c sel (recordDropped stdHandles names) = 0.
Proof.
  intros Hc. induction names as [|n names IH]; [done|]. unfold recordDropped in *.
  cbn [fmap list_fmap concat]. rewrite counterTotal_app, IH.
  cbn [RecordDroppedResult counterTotal stdHandles resultsDropped inst_Name].
  rewrite (proj2 (String.eqb_neq _ _)) by congruence. done.
Qed.

Lemma recordErrors_other newSet c sel names :
  c <> "trimon.exporter.errors" -> counterTotal newSet c sel (recordErrors names) = 0.
Proof.
  intros Hc. induction names as [|n names IH]; [done|]. unfold recordErrors in *.
  cbn [fmap list_fmap concat]. rewrite counterTotal_app, IH.
  cbn [RecordExporterError counterTotal stdHandles exporterErrors inst_Name].
  rewrite (proj2 (String.eqb_neq _ _)) by congruence. done.
Qed.

(** The series of one exporter. *)
Definition ofExporter (name : string) (s : gmap string string) : bool :=
  bool_decide (s !! "exporter.name" = Some name).

Lemma recordErrors_total newSet name names :
  attribute_sets newSet ->
  counterTotal newSet "trimon.exporter.errors" (ofExporter name) (recordErrors names) =
  countZ (fun n => (n =? name)%string) names.
Proof.
  intros [Hl Hn]. induction names as [|n names IH]; [done|]. unfold recordErrors in *. cbn [fmap list_fmap concat].
  rewrite counterTotal_app, IH, countZ_cons. cbn [RecordExporterError counterTotal stdHandles exporterErrors inst_Name].
  cbn [String.eqb Ascii.eqb Bool.eqb andb]. unfold ofExporter.
  pose proof (Hl [] [] "exporter.name" n ltac:(apply not_elem_of_nil)) as E. simpl in E. rewrite E.
  destruct (String.eqb_spec n name) as [->|]; [rewrite bool_decide_eq_true_2 by done; lia|].
  rewrite bool_decide_eq_false_2 by congruence. lia.
Qed.

Lemma countZ_names name (l : list (string * ProbeResult)) :
  Forall (fun d => ProbeName (snd d) = fst d) l ->
  countZ (fun n => (n =? name)%string) (fst <$> l) = countZ (hasName name) (snd <$> l).
Proof.
  induction 1 as [|[n r] l Hn _ IH]; [done|]. cbn [fmap list_fmap]. rewrite !countZ_cons.
  unfold hasName at 1. cbn [fst snd] in *. rewrite Hn. f_equal. exact IH.
Qed.

(** C4: the metrics account for every result.  In every state of every execution
    of the wired program, for every probe: the results its runs returned are
    those counted by trimon.probe.runs, those counted by
    trimon.probe.results_dropped, and those in the pipeline's hand, still in the
    channel or being sent; trimon.probe.errors counts exactly the exported error
    results; trimon.exporter.errors counts, for every exporter name, exactly the
    exported results for which the [Export] of an exporter of that name returned
    an error; and in any set of series trimon.probe.packets_received never exceeds
    trimon.probe.packets_sent. *)
Theorem program_metrics_account newSet range u loads exps n cfgs s name :
  attribute_sets newSet ->
  rtc (step (probeFactory u) proberRuns loads) (boot exps n cfgs) s ->
  let total c sel := counterTotal newSet c sel (recorded range s) in
  countZ (hasName name) (produced s) =
    total "trimon.probe.runs" (named name) + total "trimon.probe.results_dropped" (named name) +
    countZ (hasName name) (option_list (inHand (pipe s))) + countZ (hasName name) (buf (results (pipe s))) +
    countZ (hasName name) (flight (phases (sched s))) /\
  total "trimon.probe.errors" (named name) = countZ (hasError name) (exported (pipe s)) /\
  (forall exporter, total "trimon.exporter.errors" (ofExporter exporter) =
     countZ (fun n => (n =? exporter)%string) (failedExports exps [] (exported (pipe s)))) /\
  forall sel, 0 <= total "trimon.probe.packets_received" sel <= total "trimon.probe.packets_sent" sel.
Proof.
  intros Hset Hr total. unfold total, recorded.
  destruct (system_accounts _ _ _ _ _ _ _ _ proberRuns_promised Hr) as (Hperm & Hprom & _).
  destruct (reachable_tagged _ _ loads (proberRuns_name u) _ _ _ _ Hr) as (_ & Hd & _ & Hrec).
  rewrite Hrec, (wi_errors _ _ _ (reachable_wired _ _ _ _ _ _ _ Hr)).
  rewrite !counterTotal_app. repeat setoid_rewrite counterTotal_app. split_and!.
  - rewrite (exportAll_runs newSet Hset), exportAll_other, (recordDropped_total newSet), countZ_names by auto.
    rewrite recordDropped_other, !recordErrors_other by done. rewrite (countZ_perm _ _ _ Hperm), !countZ_app. lia.
  - rewrite (exportAll_errors newSet Hset), recordDropped_other, recordErrors_other by done. lia.
  - intros x. rewrite exportAll_other, recordDropped_other, (recordErrors_total newSet) by auto. lia.
  - intros sel. rewrite !recordDropped_other, !recordErrors_other, !Z.add_0_r by done. apply exportAll_packets.
    eapply Forall_impl; [exact Hprom|]. intros r (cfg & typ & Hok). apply Hok.
Qed.

(** The OTLP exporter of the demo fails on every result. *)
Lemma program_metrics_account_witness :
  exists s, rtc (step (probeFactory demoTables) proberRuns (fun _ => False)) (boot demoExporters 1 [demoGw]) s /\
    length (exported (pipe s)) = 1%nat /\
    countZ (hasName "gw") (produced s) =
      counterTotal demoSet "trimon.probe.runs" (named "gw") (recorded (fun _ => map_to_list) s) +
      counterTotal demoSet "trimon.probe.results_dropped" (named "gw") (recorded (fun _ => map_to_list) s) +
      countZ (hasName "gw") (option_list (inHand (pipe s))) + countZ (hasName "gw") (buf (results (pipe s))) +
      countZ (hasName "gw") (flight (phases (sched s))) /\
    counterTotal demoSet "trimon.exporter.errors" (ofExporter "otlp") (recorded (fun _ => map_to_list) s) = 1.
Proof.
  destruct (demo_full_run (fun _ => False)) as (s & H & _ & He & _). apply calm_step in H. exists s.
  split; [done|]. split; [done|].
  destruct (program_metrics_account demoSet (fun _ => map_to_list) demoTables (fun _ => False)
    demoExporters 1 [demoGw] s "gw" demo_sets H) as (H1 & _ & H3 & _).
  split; [exact H1|]. rewrite (H3 "otlp"). by destruct (exported (pipe s)) as [|r [|]].
Defined.
