(* ===== verification/Liveness.v ===== *)
(** * The shutdown of the composed program terminates.

    The moves that are up to the program itself ([ownMove]) decrease a measure
    made of the runs in progress and of what is left of main, of the goroutines
    and of the drain; the ticks, which are up to the clock and the runtime's
    choice in a select, are paid from a budget.  As long as main has not returned
    some move of the program is possible, so main returns in every execution with
    finitely many ticks. *)

From Stdlib Require Import Relation_Operators Wellfounded.
From S2P Require Import Prelude.
From S2P Require Import GoStrings.
From S2P Require Import Types.
From S2P Require Import Probe.
From S2P Require Import Prober.
From S2P Require Import Config.
From S2P Require Import Icmp.
From S2P Require Import Pipeline.
From S2P Require Import Scheduler.
From S2P Require Import System.
From S2P Require Import Provenance.
From S2P Require Import Main.

Section Liveness.
Context {P : Type} (factory : ProbeConfig -> res string P).
Context (runs : P -> list ProbeResult -> Prop) (loads : list ProbeConfig -> Prop).

(** A move of main, of the reload handler, of a goroutine or of the pipeline; a
    run that returns is one of them, a tick is not. *)
Inductive ownMove : System P -> System P -> Prop :=
  | own_main s s' : alive s -> mainStep factory s = Some s' -> ownMove s s'
  | own_reload s s' : alive s -> reloadStep factory s = Some s' -> ownMove s s'
  | own_worker s s' m id : alive s -> m <> MTick -> workerOwn m id s = Some s' -> ownMove s s'
  | own_return s id w w' rs : alive s -> goroutines (sched s) !! id = Some w -> runs (w_prober w) rs ->
      workerReturn rs w = Some w' -> ownMove s (upd s (setWorker (sched s) id w') (pipe s) rs)
  | own_send s s' id : alive s -> workerSends id s = Some s' -> ownMove s s'
  | own_pipe s s' m : alive s -> pipeMoves m s = Some s' -> ownMove s s'.

(** A goroutine's select takes the ticker, and its prober runs. *)
Definition tickMove (s s' : System P) : Prop := exists id, alive s /\ workerOwn MTick id s = Some s'.

(** The program winds down: its own moves, and at most [fst] ticks. *)
Definition winding (x y : nat * System P) : Prop :=
  (fst x = fst y /\ ownMove (snd x) (snd y)) \/ (fst x = S (fst y) /\ tickMove (snd x) (snd y)).

Lemma ownMove_step s s' : ownMove s s' -> step factory runs loads s s'.
Proof. destruct 1; eauto using step. Qed.

Lemma tickMove_step s s' : tickMove s s' -> step factory runs loads s s'.
Proof. intros (id & ? & ?). eauto using step. Qed.

Lemma winding_step x y : winding x y -> step factory runs loads (snd x) (snd y).
Proof. intros [[_ H]|[_ H]]; [by apply ownMove_step|by apply tickMove_step]. Qed.

(** ** The measure *)

(** Starting a probe also creates a goroutine, which weighs 2. *)
Definition instrWeight (i : instr) : nat :=
  match i with
  | IStart cfgs => 3 * length cfgs + 2
  | IStarting cfgs => 3 * length cfgs + 1
  | ICollect => 3
  | _ => 1
  end.

(** A result to send may also become one to receive and to dispatch; what a run in progress will
    return is not known, so it is counted apart. *)
Definition phaseWeight (ph : workerPhase) : nat :=
  match ph with WNew => 2 | WSelect => 1 | WRunning => 0 | WSending rs => 2 + 3 * length rs | WExited => 0 end.

Definition runWeight (ph : workerPhase) : nat := match ph with WRunning => 1 | _ => 0 end.

Definition programWeight (pc : list instr) : nat := sum_list_with instrWeight pc.
Definition workersWeight (sc : Scheduler P) : nat := sum_list_with phaseWeight (phases sc).
Definition inRuns (sc : Scheduler P) : nat := sum_list_with runWeight (phases sc).

Definition weight (s : System P) : nat :=
  programWeight (mainPC s) + programWeight (default [] (reloadPC s)) + workersWeight (sched s) +
  drainMeasure (pipe s).

Lemma sum_insert (f : workerPhase -> nat) (phs : list workerPhase) id ph0 ph :
  phs !! id = Some ph0 ->
  (sum_list_with f (<[id := ph]> phs) + f ph0 = sum_list_with f phs + f ph)%nat.
Proof.
  revert id. induction phs as [|x phs IH]; intros [|id] H; simplify_eq/=; [lia|].
  specialize (IH id H). lia.
Qed.

Lemma setWorker_weight (sc : Scheduler P) id w ph :
  goroutines sc !! id = Some w ->
  (workersWeight (setWorker sc id (setWPhase w ph)) + phaseWeight (w_phase w) = workersWeight sc + phaseWeight ph /\
   inRuns (setWorker sc id (setWPhase w ph)) + runWeight (w_phase w) = inRuns sc + runWeight ph)%nat.
Proof.
  intros H. unfold workersWeight, inRuns, phases. simpl. rewrite list_fmap_insert.
  split; apply sum_insert; by rewrite list_lookup_fmap, H.
Qed.

Lemma startLocked_weight (sc : Scheduler P) cfg sc' :
  startLocked factory sc cfg = Ok sc' -> (workersWeight sc' <= workersWeight sc + 2)%nat.
Proof.
  intros H. destruct (startLocked_phases factory sc cfg sc' H) as [_ [E|E]]; unfold workersWeight; rewrite E; [lia|].
  rewrite sum_list_with_app. simpl. lia.
Qed.

(** A scheduler instruction, executed by either thread. *)
Definition executes (main : bool) (s : System P) (i : instr) (rest : list instr) : Prop :=
  if main then mainPC s = i :: rest else reloadPC s = Some (i :: rest).

Lemma jump_weight main s i rest sc mu pc :
  executes main s i rest ->
  (workersWeight sc + programWeight pc < workersWeight (sched s) + programWeight (i :: rest))%nat ->
  (weight (jump main s sc mu pc) < weight s)%nat.
Proof.
  intros Hpc Hlt. unfold weight, executes, programWeight in *.
  destruct main; simpl; rewrite Hpc; simpl in *; [lia|]. destruct pc; simpl in *; lia.
Qed.

Lemma cancelWorkers_weight (sc : Scheduler P) ids : workersWeight (cancelWorkers sc ids) = workersWeight sc.
Proof. unfold workersWeight. by rewrite cancelWorkers_phases. Qed.

Lemma schedInstr_weight main s i rest s' :
  executes main s i rest -> schedInstr factory main s i rest = Some s' -> panicked s' = None ->
  (weight s' < weight s)%nat.
Proof.
  intros Hpc. unfold schedInstr, programWeight.
  destruct i as [| |cfgs|[|cfg cfgs]| | | |ids|ids| | | |]; try done.
  - destruct (muHeld s); [done|]. intros [= <-] _. eapply jump_weight; [done|]. unfold programWeight. simpl. lia.
  - intros [= <-] _. eapply jump_weight; [done|]. unfold programWeight. simpl. lia.
  - destruct (startLocked factory (sched s) cfg) as [sc| |] eqn:E; [|done|]; intros [= <-]; [|done]. intros _.
    apply startLocked_weight in E. eapply jump_weight; [done|]. unfold programWeight. simpl. lia.
  - destruct (muHeld s); [done|]. intros [= <-] _. eapply jump_weight; [done|].
    unfold programWeight, workersWeight, phases. simpl. lia.
  - intros [= <-] _. eapply jump_weight; [done|]. rewrite cancelWorkers_weight. unfold programWeight. simpl. lia.
  - destruct (allExited _ _); [|done]. intros [= <-] _. eapply jump_weight; [done|]. unfold programWeight. simpl. lia.
Qed.

Lemma mainStep_weight s s' : mainStep factory s = Some s' -> panicked s' = None -> (weight s' < weight s)%nat.
Proof.
  intros H Hp. destruct (mainPC s) as [|i rest] eqn:Hm; [by unfold mainStep in H; rewrite Hm in H|].
  assert (forall go up cl, (weight (setMain s (pipe s) go up cl rest) < weight s)%nat) as Hset.
  { intros. unfold weight, programWeight. simpl. rewrite Hm. destruct i; simpl; lia. }
  unfold mainStep in H. rewrite Hm in H.
  destruct i; try (by eapply (schedInstr_weight true); [exact Hm|exact H|done]);
    repeat case_match; simplify_eq; try apply Hset;
    unfold weight, programWeight, drainMeasure; simpl; rewrite Hm; simpl; lia.
Qed.

Lemma reloadStep_weight s s' : reloadStep factory s = Some s' -> panicked s' = None -> (weight s' < weight s)%nat.
Proof.
  unfold reloadStep. destruct (reloadPC s) as [[|i rest]|] eqn:E; [done| |done].
  by apply (schedInstr_weight false).
Qed.

Lemma upd_weight s sc p rs :
  (workersWeight sc + drainMeasure p < workersWeight (sched s) + drainMeasure (pipe s))%nat ->
  (weight (upd s sc p rs) < weight s)%nat.
Proof. unfold weight. simpl. lia. Qed.

Lemma workerOwn_weight m id s s' :
  workerOwn m id s = Some s' -> m <> MTick -> panicked s' = None ->
  (weight s' < weight s /\ inRuns (sched s') = inRuns (sched s))%nat.
Proof.
  unfold workerOwn. destruct (goroutines (sched s) !! id) as [w|] eqn:Hid; [|done].
  destruct (workerStep m w) as [[w'|]| |] eqn:E; [|done..|]; intros [= <-] Hm; [|done]. intros _.
  assert (exists ph, w' = setWPhase w ph /\ (phaseWeight ph < phaseWeight (w_phase w))%nat /\
    runWeight ph = runWeight (w_phase w)) as (ph & -> & Hlt & Hrun).
  { revert E. unfold workerStep. destruct (w_phase w) as [| | |[|r rs]|], m; try done.
    - destruct (_ <=? 0); [done|]. intros [= <-]. eexists. split; [done|]. simpl. lia.
    - destruct (w_cancelled w); [|done]. intros [= <-]. eexists. split; [done|]. simpl. lia.
    - intros [= <-]. eexists. split; [done|]. simpl. lia. }
  destruct (setWorker_weight (sched s) id w ph Hid). split; [apply upd_weight|simpl]; lia.
Qed.

(** The next run begins. *)
Lemma workerOwn_tick id s s' :
  workerOwn MTick id s = Some s' -> (weight s' < weight s /\ inRuns (sched s') = S (inRuns (sched s)))%nat.
Proof.
  unfold workerOwn, workerStep. destruct (goroutines (sched s) !! id) as [w|] eqn:Hid; [|done].
  destruct (w_phase w) as [| | |[|r rs]|] eqn:E; try done. intros [= <-].
  destruct (setWorker_weight (sched s) id w WRunning Hid) as [H1 H2]. rewrite E in H1, H2. simpl in H1, H2.
  split; [apply upd_weight|simpl]; lia.
Qed.

Lemma workerReturn_inRuns s id w w' rs :
  goroutines (sched s) !! id = Some w -> workerReturn rs w = Some w' ->
  (inRuns (setWorker (sched s) id w') < inRuns (sched s))%nat.
Proof.
  intros Hid. unfold workerReturn. destruct (w_phase w) eqn:E; try done. intros [= <-].
  destruct (setWorker_weight (sched s) id w (WSending rs) Hid) as [_ H]. rewrite E in H. simpl in H. lia.
Qed.

Lemma sched_move_inRuns (sc sc' : Scheduler P) : sched_move sc sc' -> inRuns sc' = inRuns sc.
Proof.
  intros [_ [E|E]]; unfold inRuns; rewrite E; [done|]. rewrite sum_list_with_app. simpl. lia.
Qed.

Lemma pipeSend_measure p r p' ok : pipeSend p r = Ok (p', ok) -> (drainMeasure p' <= 2 + drainMeasure p)%nat.
Proof.
  unfold pipeSend, trySend. destruct (closed _); [done|].
  destruct (_ <? _)%nat; intros [= <- <-]; unfold drainMeasure; simpl; rewrite ?length_app; simpl; lia.
Qed.

Lemma workerSends_weight id s s' :
  workerSends id s = Some s' -> panicked s' = None ->
  (weight s' < weight s /\ inRuns (sched s') = inRuns (sched s))%nat.
Proof.
  unfold workerSends. destruct (workerSend (sched s) (pipe s) id) as [[[sc p]|]| |] eqn:E; [|done..|];
    intros [= <-]; [|done]. intros _.
  apply workerSend_inv in E as (w & r & rs & ok & Hid & Hph & Hs & Hg & _ & _).
  destruct (setWorker_weight (sched s) id w (WSending rs) Hid) as [Hw Hr]. rewrite Hph in Hw, Hr.
  apply pipeSend_measure in Hs. unfold workersWeight, inRuns, phases in Hw, Hr.
  split; [apply upd_weight|]; unfold workersWeight, inRuns, phases; simpl in *; rewrite Hg; simpl; lia.
Qed.

Lemma pipeMoves_weight m s s' : pipeMoves m s = Some s' -> panicked s' = None -> (weight s' < weight s)%nat.
Proof.
  unfold pipeMoves. destruct (pipeGo s); [|done]. destruct (pipeStep m (pipe s)) as [[p|]| |] eqn:E; [|done..|];
    intros [= <-]; [|done]. intros _. apply upd_weight.
  assert (runStep (pipe s) p) as H%runStep_decreases by by exists m. lia.
Qed.

(** A run has returned, or there is less to do. *)
Lemma ownMove_weight s s' :
  ownMove s s' -> panicked s' = None ->
  (inRuns (sched s') < inRuns (sched s) \/ (inRuns (sched s') = inRuns (sched s) /\ weight s' < weight s))%nat.
Proof.
  intros Hs Hp. destruct Hs as [s s' _ H|s s' _ H|s s' m id _ Hm H|s id w w' rs _ Hid _ H|s s' id _ H|s s' m _ H].
  - right. split; [|by apply mainStep_weight]. apply mainStep_move in H as [_ H]. by apply sched_move_inRuns.
  - right. split; [|by apply reloadStep_weight]. unfold reloadStep in H.
    destruct (reloadPC s) as [[|i rest]|]; [done| |done]. apply schedInstr_move in H as [_ H]. by apply sched_move_inRuns.
  - right. by destruct (workerOwn_weight _ _ _ _ H Hm Hp).
  - left. by eapply workerReturn_inRuns.
  - right. by destruct (workerSends_weight _ _ _ H Hp).
  - right. split; [|by eapply pipeMoves_weight]. by pipe_cases H.
Qed.

(** ** The invariant *)

(** The workers main is waiting for have been cancelled. *)
Definition awaited (s : System P) : Prop :=
  forall ids rest, mainPC s = IWait ids :: rest ->
  forall id w, id ∈ ids -> goroutines (sched s) !! id = Some w -> w_cancelled w = true.

(** [pipe.Run] has been started once main is past its [go] statement. *)
Definition launched (s : System P) : Prop := pipeGo s = true \/ IPipeGo ∈ mainPC s.

Lemma cancelWorker_cancelled (sc : Scheduler P) id i w :
  goroutines (cancelWorker sc id) !! i = Some w ->
  (i = id /\ w_cancelled w = true) \/ (i <> id /\ goroutines sc !! i = Some w).
Proof.
  unfold cancelWorker. destruct (decide (i = id)) as [->|].
  - destruct (goroutines sc !! id) as [v|] eqn:E; [|congruence].
    rewrite (setWorker_lookup _ _ v) by done. intros [= <-]. auto.
  - destruct (goroutines sc !! id) as [v|] eqn:E; [|auto]. simpl. rewrite list_lookup_insert_ne by done. auto.
Qed.

Lemma cancelWorkers_cancelled (sc : Scheduler P) ids i w :
  (i ∈ ids \/ forall v, goroutines sc !! i = Some v -> w_cancelled v = true) ->
  goroutines (cancelWorkers sc ids) !! i = Some w -> w_cancelled w = true.
Proof.
  revert sc. induction ids as [|id ids IH]; intros sc H; simpl.
  { destruct H as [H|H]; [by apply not_elem_of_nil in H|]. apply H. }
  apply IH. destruct (decide (i = id)) as [->|Hne].
  - right. intros v Hv. by destruct (cancelWorker_cancelled _ _ _ _ Hv) as [[_ ?]|[? _]].
  - destruct H as [H|H]; [left; set_solver|right]. intros v Hv.
    destruct (cancelWorker_cancelled _ _ _ _ Hv) as [[? _]|[_ ?]]; [done|auto].
Qed.

Lemma setWPhase_cancelled (sc : Scheduler P) id w ph i v :
  goroutines sc !! id = Some w -> goroutines (setWorker sc id (setWPhase w ph)) !! i = Some v ->
  exists v0, goroutines sc !! i = Some v0 /\ w_cancelled v = w_cancelled v0.
Proof.
  intros Hid. destruct (decide (i = id)) as [->|].
  - rewrite (setWorker_lookup _ _ w) by done. intros [= <-]. eauto.
  - simpl. rewrite list_lookup_insert_ne by done. eauto.
Qed.

(** A goroutine that moves neither changes main nor undoes a cancellation. *)
Lemma awaited_worker s s' id w ph :
  awaited s -> mainPC s' = mainPC s -> goroutines (sched s) !! id = Some w ->
  goroutines (sched s') = goroutines (setWorker (sched s) id (setWPhase w ph)) -> awaited s'.
Proof.
  intros Ha Hm Hid Hg ids rest Hpc i v Hin. rewrite Hg. intros Hv.
  destruct (setWPhase_cancelled _ _ _ _ _ _ Hid Hv) as (v0 & H0 & ->).
  rewrite Hm in Hpc. by eapply Ha.
Qed.

Lemma awaited_same s s' :
  awaited s -> mainPC s' = mainPC s -> goroutines (sched s') = goroutines (sched s) -> awaited s'.
Proof. intros Ha Hm Hg ids rest. rewrite Hm, Hg. apply Ha. Qed.

Lemma awaited_main c s s' : at_ctl factory c s -> mainStep factory s = Some s' -> awaited s'.
Proof.
  intros [_ Hm _ Hmu _ _ _ _ _ _ Hpi _]. unfold mainStep, awaited. rewrite Hm.
  destruct c as [k cfgs|cfgs| |cfgs|ids cfgs|ids cfgs|cfgs|cfgs| |ids|ids| |k]; cbn [ctlMain];
    try (by destruct (notified s); simpl; repeat case_match; intros; simplify_eq).
  - destruct Hpi as [_ Hk]. destruct k as [|[|[|k]]]; [| | |lia]; simpl; rewrite ?Hmu; by intros [= <-].
  - destruct cfgs as [|cfg cfgs]; simpl; repeat case_match; intros; simplify_eq; simpl in *; congruence.
  - simpl. intros [= <-] ids' rest [= <- <-] id w Hin. simpl. apply cancelWorkers_cancelled. auto.
  - destruct k as [|[|[|[|k]]]]; simpl; repeat case_match; intros; simplify_eq; simpl in *; congruence.
Qed.

Lemma calmStep_awaited c s s' :
  at_ctl factory c s -> awaited s -> step factory runs loads s s' -> awaited s'.
Proof.
  intros Hc Ha Hs.
  step_cases Hs.
  - by eapply awaited_main.
  - unfold requestReload in H. repeat case_match; simplify_eq. by eapply awaited_same.
  - destruct Hc as [_ Hm Hr _ _ _ _ _ _ _ _ _]. unfold reloadStep in H. rewrite Hr in H.
    assert (mainPC s' = mainPC s) as Hm'.
    { unfold schedInstr in H. destruct c; try done; simpl in *; repeat case_match; by simplify_eq. }
    intros ids rest. rewrite Hm', Hm. destruct c; try done; simpl; by destruct (notified s).
  - by eapply awaited_same.
  - own_cases H; [|by eapply awaited_same].
    apply workerStep_phase in E as (ph & -> & _). by eapply awaited_worker.
  - return_cases H. by eapply awaited_worker.
  - send_cases H; [by eapply awaited_worker|by eapply awaited_same].
  - pipe_cases H; by eapply awaited_same.
Qed.
Lemma schedInstr_launched main s i rest s' :
  executes main s i rest -> schedInstr factory main s i rest = Some s' ->
  launched s -> launched s'.
Proof.
  intros Hpc H [Hl|Hl]; unfold schedInstr in H; [left|right];
    destruct i as [| |cfgs|[|cfg cfgs]| | | |ids|ids| | | |]; try done; repeat case_match; simplify_eq; try done; simpl.
  all: destruct main; [|done]; simpl in Hpc; rewrite Hpc in Hl;
    repeat (apply elem_of_cons; right); apply elem_of_cons in Hl as [?|?]; done.
Qed.

Lemma step_launched s s' : step factory runs loads s s' -> launched s -> launched s'.
Proof.
  intros Hs. step_cases Hs;
    try done.
  - unfold mainStep in H. destruct (mainPC s) as [|i rest] eqn:Hm; [done|].
    destruct i; try (by eapply (schedInstr_launched true)); intros [Hl|Hl]; repeat case_match; simplify_eq;
      try (by left); right; rewrite Hm in Hl; by apply elem_of_cons in Hl as [?|?].
  - unfold requestReload in H. repeat case_match; by simplify_eq.
  - unfold reloadStep in H. destruct (reloadPC s) as [[|i rest]|] eqn:E; [done| |done].
    exact (schedInstr_launched false s i rest s' E H).
  - by own_cases H.
  - by send_cases H.
  - by pipe_cases H.
Qed.

(** A configuration whose runs return. *)
Definition canReturn (cfg : ProbeConfig) : Prop := forall p, factory cfg = Ok p -> exists rs, runs p rs.

(** What every calm execution keeps. *)
Record kept (s : System P) : Prop := {
  kept_ctl : exists c, at_ctl factory c s;
  kept_awaited : awaited s;
  kept_launched : launched s;
  kept_made : made factory canReturn s
}.

Hypothesis loads_good : forall cfgs, loads cfgs -> good factory cfgs.
Hypothesis loads_return : forall cfgs, loads cfgs -> Forall canReturn cfgs.

Lemma calmStep_kept s s' : kept s -> calmStep factory runs loads s s' -> kept s'.
Proof.
  intros [[c Hc] Ha Hl Hm] Hs. split.
  - by eapply calmStep_at_ctl.
  - destruct Hs. by eapply calmStep_awaited.
  - destruct Hs. by eapply step_launched.
  - destruct Hs. by eapply (step_made factory runs loads).
Qed.

Lemma calm_kept exps n cfgs s :
  good factory cfgs -> Forall canReturn cfgs -> rtc (calmStep factory runs loads) (boot exps n cfgs) s -> kept s.
Proof.
  intros Hg Hr H. assert (kept (boot exps n cfgs)) as Hk.
  { split; [|done| |].
    - eapply (calm_reachable factory runs loads); [exact loads_good|exact Hg|apply rtc_refl].
    - right. simpl. set_solver.
    - eapply (reachable_made factory runs loads); [exact loads_return|exact Hr|apply rtc_refl]. }
  revert Hk. induction H; eauto using calmStep_kept.
Qed.

(** The signal has been delivered and no reload is in progress. *)
Record shutting (s : System P) : Prop := {
  sh_kept : kept s;
  sh_signal : signalled s = true;
  sh_calm : reloadPC s = None
}.

Lemma ownMove_control s s' :
  ownMove s s' -> reloadPC s = None -> reloadPC s' = None /\ signalled s' = signalled s.
Proof.
  intros Hs Hr. destruct Hs as [s s' _ H|s s' _ H|s s' m id _ _ H|s id w w' rs _ _ _ _|s s' id _ H|s s' m _ H].
  - unfold mainStep in H. destruct (mainPC s) as [|i rest]; [done|].
    unfold schedInstr in H. destruct i; repeat case_match; by simplify_eq.
  - unfold reloadStep in H. by rewrite Hr in H.
  - by own_cases H.
  - done.
  - by send_cases H.
  - by pipe_cases H.
Qed.

Lemma winding_control x y :
  winding x y -> reloadPC (snd x) = None ->
  reloadPC (snd y) = None /\ signalled (snd y) = signalled (snd x).
Proof.
  destruct x as [k s], y as [k' s']. intros [[_ H]|[_ (id & _ & H)]]; [by apply ownMove_control|]. simpl in *.
  by own_cases H.
Qed.

(** Fewer runs left, in progress or still to begin, or as many and less to do. *)
Definition left_ (x : nat * System P) : nat * nat := (fst x + inRuns (sched (snd x)), weight (snd x))%nat.

Definition closer (x y : nat * System P) : Prop := slexprod nat nat lt lt (left_ x) (left_ y).

Lemma closer_wf : well_founded closer.
Proof. apply (wf_inverse_image (nat * System P) (nat * nat) (slexprod nat nat lt lt) left_), wf_slexprod; apply lt_wf. Qed.

Lemma winding_shutting x y : shutting (snd x) -> winding x y -> shutting (snd y) /\ closer y x.
Proof.
  intros [Hk Hs Hr] Hw. destruct (winding_control x y Hw Hr) as [Hr' Hs'].
  assert (kept (snd y)) as Hk'.
  { eapply calmStep_kept; [done|]. split; [by apply winding_step|]. by left. }
  split; [split; congruence|]. destruct Hk' as [[c Hc] _ _ _]. unfold closer, left_.
  destruct Hw as [[E H]|[E (id & _ & H)]]; rewrite E.
  - destruct (ownMove_weight _ _ H (ac_alive _ _ _ Hc)) as [Hlt|[-> Hlt]]; [left; lia|by right].
  - destruct (workerOwn_tick _ _ _ H) as [Hlt ->]. rewrite Nat.add_succ_r. by right.
Qed.

(** ** Progress *)

Lemma stopping_moves s id w :
  alive s -> pipeOpen (pipe s) -> goroutines (sched s) !! id = Some w -> w_cancelled w = true ->
  0 < Interval (w_cfg w) -> (exists rs, runs (w_prober w) rs) -> exited w = false -> exists s', ownMove s s'.
Proof.
  intros Hal (_ & _ & Ho) Hid Hc Hi Hr He.
  destruct (stopping_progress runs id (sched s, pipe s)) as [(v & Hv & Hve)|[sp' Hs]].
  - split; [done|]. eauto.
  - simpl in Hv. congruence.
  - remember (sched s, pipe s) as sp eqn:Esp.
    destruct Hs as [sc p m v v' Hv Hm E|sc p v v' rs Hv Hrs E|sc p [sc' p'] E]; injection Esp as -> ->.
    + eexists. apply (own_worker _ _ m id); [done|done|]. unfold workerOwn. by rewrite Hv, E.
    + eexists. by eapply (own_return _ id).
    + eexists. apply (own_send _ _ id); [done|]. unfold workerSends. by rewrite E.
Qed.

(** Main waits for its workers: either all have exited or one of them can move. *)
Lemma wait_progress s ids rest :
  alive s -> pipeOpen (pipe s) -> mainPC s = IWait ids :: rest -> awaited s ->
  Forall (fun w => 0 < Interval (w_cfg w)) (goroutines (sched s)) -> made factory canReturn s -> exists s', ownMove s s'.
Proof.
  intros Hal Ho Hm Ha Hp Hmd. destruct (allExited (sched s) ids) eqn:E.
  - eexists. apply own_main; [done|]. unfold mainStep. rewrite Hm. simpl. by rewrite E.
  - unfold allExited in E. apply not_true_iff_false in E. rewrite forallb_forall in E.
    assert (exists id w, id ∈ ids /\ goroutines (sched s) !! id = Some w /\ exited w = false) as (id & w & Hin & Hw & He).
    { clear -E. induction ids as [|id ids IH]; [by destruct E; intros ? []|].
      destruct (goroutines (sched s) !! id) as [w|] eqn:Hw; [destruct (exited w) eqn:He|].
      2: { exists id, w. split; [constructor|done]. }
      all: destruct IH as (i & v & Hi & Hv);
        [intros H; apply E; intros x [<-|Hx]; [by rewrite Hw|by apply H]|exists i, v; split; [by constructor|done]]. }
    apply (stopping_moves s id w); eauto; [exact (Forall_lookup_1 _ _ _ _ Hp Hw)|].
    destruct (made_worker _ _ _ _ _ Hmd Hw) as [Hret Hfac]. by apply Hret.
Qed.

Lemma drain_progress s rest :
  alive s -> mainPC s = IWaitPipe :: rest -> pipeGo s = true -> draining (accepted (pipe s)) (pipe s) ->
  exists s', ownMove s s'.
Proof.
  intros Hal Hm Hgo Hd. destruct (decide (phase (pipe s) = PReturned)) as [E|E].
  - eexists. apply own_main; [done|]. unfold mainStep. by rewrite Hm, bool_decide_true.
  - destruct (draining_progress _ _ Hd E) as (p & m & Hm'). eexists. apply (own_pipe _ _ m); [done|].
    unfold pipeMoves. by rewrite Hgo, Hm'.
Qed.

Lemma main_progress s s' : alive s -> mainStep factory s = Some s' -> exists s', ownMove s s'.
Proof. intros. exists s'. by apply own_main. Qed.

Lemma shutting_progress s : shutting s -> mainPC s = [] \/ exists s', ownMove s s'.
Proof.
  intros [[[c Ha] Haw Hla Hmd] Hs Hr]. destruct (decide (mainPC s = [])) as [|Hne]; [by left|right].
  assert (notified s = true) as Hn by (by apply (cs_signalled _ _ (ac_signals _ _ _ Ha))).
  assert (alive s) as Hal.
  { split; [apply Ha|]. split; [|done]. destruct (killed s) eqn:Ek; [|done].
    pose proof (cs_killed _ _ (ac_signals _ _ _ Ha) Ek). congruence. }
  destruct Ha as [_ Hm Hr' Hmu _ Hf Hc Hg Hp _ Hpi _]. unfold launched in Hla. rewrite Hr in Hr'.
  assert (forall s', mainStep factory s = Some s' -> exists s', ownMove s s') as Hgo by (intros; by eapply main_progress).
  unfold mainStep in Hgo. rewrite Hm, ?Hn in Hgo, Hla, Hne.
  destruct c as [k cfgs|cfgs| |cfgs|ids cfgs|ids cfgs|cfgs|cfgs| |ids|ids| |k]; cbn [ctlMain] in *; try done.
  - destruct Hpi as [_ Hk]. destruct k as [|[|[|k]]]; [| | |lia]; simpl in Hgo; rewrite ?Hmu in Hgo; by eapply Hgo.
  - destruct cfgs as [|cfg cfgs]; simpl in Hgo; [by eapply Hgo|].
    destruct (startLocked_ok factory (sched s) cfg cfgs Hg Hc (Hf eq_refl) Hp) as (sc & E & _).
    rewrite E in Hgo. by eapply Hgo.
  - rewrite Hs in Hgo. by eapply Hgo.
  - simpl in Hgo. rewrite Hmu in Hgo. by eapply Hgo.
  - by eapply Hgo.
  - by eapply wait_progress.
  - by eapply Hgo.
  - destruct k as [|[|[|k]]]; cbn in Hgo, Hne; try (by eapply Hgo); [|by destruct k].
    destruct Hpi as [Hd _]. eapply drain_progress; [done|exact Hm| |done].
    destruct Hla as [?|Hin]; [done|]. exfalso. simpl in Hin. set_solver.
Qed.

(** Main returns in every execution with finitely many ticks. *)
Lemma shutdown_inevitable s k :
  shutting s -> inevitably winding (fun x => mainPC (snd x) = [] /\ shutting (snd x)) (k, s).
Proof.
  intros Hs. apply (inevitably_wf _ (fun x => shutting (snd x)) _ closer closer_wf); [| |done].
  - intros [n t] H. simpl in *. destruct (shutting_progress t H) as [E|[t' Ht]]; [by left|right].
    exists (n, t'). by left.
  - intros x y. apply winding_shutting.
Qed.
End Liveness.

(** ** The wired program *)

Lemma calm_signalled {P} factory runs loads exps n cfgs (s : System P) :
  rtc (calmStep factory runs loads) (boot exps n cfgs) s -> signalled s = true -> reloadPC s = None.
Proof.
  intros H Hs. assert (calm (boot (P := P) exps n cfgs)) as Hc by by left.
  assert (calm s) as [?|[? _]]; [|done|congruence].
  clear Hs. induction H as [|x y z [_ Hy] _ IH]; auto.
Qed.

Lemma runnable_returns u env cfgs : runnable env cfgs -> Forall (canReturn (probeFactory u) proberRuns) cfgs.
Proof.
  intros [_ Hp Hc _]. apply Forall_forall. intros c Hin p E. rewrite Forall_forall in Hp, Hc.
  destruct (probeFactory_wf u env c (Hp c Hin) (Hc c Hin)) as (q & Eq & Hv). rewrite E in Eq. injection Eq as <-.
  by apply prober_returns.
Qed.

(** C2: the shutdown terminates.  Take any state that a calm execution of runnable
    configurations reaches after the signal was delivered to the channel set up
    by [signal.Notify] (calm: no reload during the start, none in progress when
    the signal arrives; runnable: valid, with positive HTTP intervals and counts
    below 2^53).  From there, as long as no further reload is requested
    ([reload_during_shutdown_panics] shows why) and at most [k] more ticks are
    taken instead of the cancellation, whatever the interleaving of main, the
    probe goroutines and the pipeline, whatever the selects choose, runs being in
    progress or not and each returning when it likes: main inevitably returns, no
    goroutine being stuck on the way; and then nothing has panicked, every probe
    goroutine has exited, the channel is closed and every accepted result has
    been exported. *)
Theorem program_shutdown_terminates u env exps n cfgs s k :
  runnable env cfgs ->
  rtc (calmStep (probeFactory u) proberRuns (runnable env)) (boot exps n cfgs) s ->
  signalled s = true ->
  inevitably (winding (probeFactory u) proberRuns)
    (fun x => mainPC (snd x) = [] /\ panicked (snd x) = None /\
       (forall id w, goroutines (sched (snd x)) !! id = Some w -> w_phase w = WExited) /\
       closed (results (pipe (snd x))) = true /\ exported (pipe (snd x)) = accepted (pipe (snd x)))
    (k, s).
Proof.
  intros Hr H Hs. eapply inevitably_impl; [|apply (shutdown_inevitable _ _ (runnable env))].
  - intros x [Hm [[[c Hc] _ _ _] _ _]]. destruct (at_ctl_wound _ c (snd x) Hc Hm) as (H1 & H2 & H3).
    split; [done|]. split; [apply Hc|done].
  - intros. by eapply runnable_good.
  - intros. by eapply runnable_returns.
  - split; [|done|by eapply calm_signalled].
    eapply calm_kept; [intros; by eapply runnable_good|intros; by eapply runnable_returns
                      |by eapply runnable_good|by eapply runnable_returns|exact H].
Qed.

Lemma program_shutdown_terminates_witness :
  exists s w, rtc (calmStep (probeFactory demoTables) proberRuns (runnable demoEnv)) (boot demoExporters 1 [demoGw]) s /\
    mainPC s = IWaitSignal :: shutdown /\ goroutines (sched s) !! 0%nat = Some w /\ w_phase w = WRunning /\
    inevitably (winding (probeFactory demoTables) proberRuns)
      (fun x => mainPC (snd x) = [] /\ exported (pipe (snd x)) = accepted (pipe (snd x))) (7%nat, s).
Proof.
  destruct (demo_signalled_run (runnable demoEnv)) as (s & w & H & Hs & Hm & _ & Hid & Hph).
  exists s, w. do 4 (split; [assumption|]).
  eapply inevitably_impl;
    [|exact (program_shutdown_terminates demoTables demoEnv demoExporters 1 [demoGw] s 7%nat demoGw_runnable H Hs)].
  intros x (H1 & _ & _ & _ & H2). by split.
Defined.
