(* ===== verification/Gauge.v ===== *)
(** * trimon.scheduler.goroutines: the live worker gauge.

    main registers [sched.WorkerCount], the size of the scheduler's map, as what
    the gauge reports.  The map and the running goroutines are shown to be in
    bijection whenever no [Stop] is under way, in the calm executions of System.v. *)

From S2P Require Import Prelude.
From S2P Require Import GoStrings.
From S2P Require Import Types.
From S2P Require Import Prober.
From S2P Require Import Config.
From S2P Require Import ConfigLoad.
From S2P Require Import Otlp.
From S2P Require Import Icmp.
From S2P Require Import Pipeline.
From S2P Require Import Scheduler.
From S2P Require Import System.
From S2P Require Import Main.

Section Gauge.
Context {P : Type} (factory : ProbeConfig -> res string P).
Context (runs : P -> list ProbeResult -> Prop) (loads : list ProbeConfig -> Prop).

(** The goroutines that have not returned. *)
Definition running (sc : Scheduler P) : nat := length (List.filter (fun w => negb (exited w)) (goroutines sc)).

(** A registered worker has its probe's name and has not been cancelled; only
    cancelled workers exit. *)
Record exact_map (sc : Scheduler P) : Prop := {
  em_map : forall name id, workers sc !! name = Some id ->
    exists w, goroutines sc !! id = Some w /\ Name (w_cfg w) = name /\ w_cancelled w = false;
  em_exit : forall id w, goroutines sc !! id = Some w -> exited w = true -> w_cancelled w = true
}.

Lemma startLocked_exact sc cfg sc' : startLocked factory sc cfg = Ok sc' -> exact_map sc -> exact_map sc'.
Proof.
  unfold startLocked. destruct (factory cfg) as [p| |]; [|by intros [= <-]|done]. intros [= <-] [Hm He]. split; simpl.
  - intros name id. destruct (decide (name = Name cfg)) as [->|].
    + rewrite lookup_insert_eq. intros [= <-]. eexists. split; [by apply list_lookup_middle|done].
    + rewrite lookup_insert_ne by done. intros Hid. destruct (Hm _ _ Hid) as (w & Hw & Hn).
      exists w. split; [|done]. by apply lookup_app_l_Some.
  - intros id w Hw Hx. apply lookup_snoc_Some in Hw as [[_ Hw]|[_ <-]]; [by eapply He|done].
Qed.

(** A goroutine changes phase; it exits only when cancelled. *)
Lemma setWPhase_exact sc id w ph :
  goroutines sc !! id = Some w -> (ph = WExited -> w_cancelled w = true) ->
  exact_map sc -> exact_map (setWorker sc id (setWPhase w ph)).
Proof.
  intros Hid Hc [Hm He]. split.
  - intros name i Hi. destruct (Hm name i Hi) as (v & Hv & Hn & Hcv). destruct (decide (i = id)) as [->|].
    + rewrite Hid in Hv. injection Hv as <-. exists (setWPhase w ph). split; [by eapply setWorker_lookup|done].
    + exists v. split; [|done]. simpl. by rewrite list_lookup_insert_ne.
  - intros i v. destruct (decide (i = id)) as [->|].
    + rewrite (setWorker_lookup _ _ w) by done. intros [= <-]. unfold exited. simpl. destruct ph; try done. auto.
    + simpl. rewrite list_lookup_insert_ne by done. apply He.
Qed.

Lemma cancelWorker_exit (sc : Scheduler P) id :
  (forall i w, goroutines sc !! i = Some w -> exited w = true -> w_cancelled w = true) ->
  forall i w, goroutines (cancelWorker sc id) !! i = Some w -> exited w = true -> w_cancelled w = true.
Proof.
  intros He i w. unfold cancelWorker. destruct (goroutines sc !! id) as [v|] eqn:E; [|apply He].
  destruct (decide (i = id)) as [->|].
  - rewrite (setWorker_lookup _ _ v) by done. by intros [= <-].
  - simpl. rewrite list_lookup_insert_ne by done. apply He.
Qed.

Lemma cancelWorkers_exact (sc : Scheduler P) ids : workers sc = ∅ -> exact_map sc -> exact_map (cancelWorkers sc ids).
Proof.
  intros Hw [_ He]. split.
  - destruct (cancelWorkers_fields sc ids) as [-> _]. rewrite Hw. intros name id. by rewrite lookup_empty.
  - clear Hw. revert sc He. induction ids as [|id ids IH]; intros sc He; [done|]. simpl. apply IH. by apply cancelWorker_exit.
Qed.

Lemma schedInstr_exact main s i rest s' :
  schedInstr factory main s i rest = Some s' -> (forall ids, i = ICancel ids -> workers (sched s) = ∅) ->
  exact_map (sched s) -> exact_map (sched s').
Proof.
  intros H Hi He. unfold schedInstr in H. destruct i as [| |cfgs|[|cfg cfgs]| | | |ids|ids| | | |]; try done.
  - destruct (muHeld s); [done|]. by injection H as <-.
  - by injection H as <-.
  - destruct (startLocked factory (sched s) cfg) as [sc| |] eqn:E; [|done|]; injection H as <-; [|done].
    by eapply startLocked_exact.
  - destruct (muHeld s); [done|]. injection H as <-. destruct He as [_ He]. split; [|done].
    intros name id. simpl. by rewrite lookup_empty.
  - injection H as <-. apply cancelWorkers_exact; [by eapply Hi|done].
  - destruct (allExited _ _); [|done]. by injection H as <-.
Qed.

Lemma step_exact c s s' :
  at_ctl factory c s -> step factory runs loads s s' -> exact_map (sched s) -> exact_map (sched s').
Proof.
  intros Ha Hs He. pose proof (ac_main _ _ _ Ha) as Hm. pose proof (ac_reload _ _ _ Ha) as Hr. pose proof (ac_empty _ _ _ Ha) as Hw.
  step_cases Hs; try done.
  - unfold mainStep in H. destruct (mainPC s) as [|i rest] eqn:Epc; [done|].
    assert (forall ids, i = ICancel ids -> workers (sched s) = ∅) as Hc.
    { intros ids ->. apply Hw. destruct c; try done; simpl in Hm; by destruct (notified s). }
    destruct i; try (by eapply schedInstr_exact); repeat case_match; by simplify_eq.
  - unfold requestReload in H. repeat case_match; by simplify_eq.
  - unfold reloadStep in H. destruct (reloadPC s) as [[|i rest]|] eqn:Epc; [done| |done].
    eapply schedInstr_exact; [exact H| |done]. intros ids ->. apply Hw. by destruct c.
  - own_cases H; [|done]. unfold workerStep in E.
    destruct (w_phase w) as [| | |[|r rs]|], m; try done.
    + destruct (_ <=? 0); [done|]. injection E as <-. by apply setWPhase_exact.
    + injection E as <-. by apply setWPhase_exact.
    + destruct (w_cancelled w) eqn:Ec; [|done]. injection E as <-. by apply setWPhase_exact.
    + injection E as <-. by apply setWPhase_exact.
  - return_cases H. by apply setWPhase_exact.
  - send_cases H; [|done].
    destruct (setWPhase_exact (sched s) id w (WSending rs) Hid ltac:(done) He) as [M1 M2]. split; simpl; rewrite Hg, ?Hws; done.
  - by pipe_cases H.
Qed.

Lemma calm_exact exps n cfgs s :
  (forall cfgs, loads cfgs -> good factory cfgs) -> good factory cfgs ->
  rtc (calmStep factory runs loads) (boot exps n cfgs) s -> exact_map (sched s).
Proof.
  intros Hl Hg H. assert (exact_map (sched (boot (P := P) exps n cfgs))) as He.
  { split; simpl; [intros name id; by rewrite lookup_empty|intros id w; by rewrite lookup_nil]. }
  destruct (calm_reachable factory runs loads exps n cfgs _ Hl Hg (rtc_refl _ _)) as [c Hc].
  revert c Hc He. induction H as [|x y z Hxy _ IH]; [done|]. intros c Hc He.
  destruct (calmStep_at_ctl _ _ _ c x y Hl Hc Hxy) as [c' Hc']. eapply IH; [exact Hc'|].
  destruct Hxy as [Hs _]. exact (step_exact c x y Hc Hs He).
Qed.

(** ** The size of the map *)

(** The indices of the elements that satisfy [p]. *)
Definition indices {A} (p : A -> bool) (l : list A) : list nat :=
  List.filter (fun i => match l !! i with Some x => p x | None => false end) (seq 0 (length l)).

Lemma indices_length {A} (p : A -> bool) l : length (indices p l) = length (List.filter p l).
Proof.
  induction l as [|x l IH] using rev_ind; [done|]. unfold indices in *.
  rewrite length_app, Nat.add_1_r, seq_S, List.filter_app, length_app, List.filter_app, length_app. f_equal.
  - rewrite <- IH. f_equal. apply filter_ext_in. intros i Hi%in_seq. by rewrite lookup_app_l by lia.
  - simpl. rewrite list_lookup_middle by done. by destruct (p x).
Qed.

Lemma indices_elem {A} (p : A -> bool) l i : i ∈ indices p l <-> exists x, l !! i = Some x /\ p x = true.
Proof.
  unfold indices. rewrite list_elem_of_In, filter_In, in_seq. split.
  - intros [_ H]. destruct (l !! i) as [x|]; [eauto|done].
  - intros (x & Hx & Hp). rewrite Hx. split; [|done]. apply lookup_lt_Some in Hx. lia.
Qed.

Lemma NoDup_values sc : exact_map sc -> NoDup (snd <$> map_to_list (workers sc)).
Proof.
  intros [Hm _]. apply NoDup_fmap_2_strong; [|apply NoDup_map_to_list].
  intros [n1 i1] [n2 i2] H1%elem_of_map_to_list H2%elem_of_map_to_list E. simpl in E. subst i2.
  destruct (Hm _ _ H1) as (w1 & Hw1 & <- & _). destruct (Hm _ _ H2) as (w2 & Hw2 & <- & _). congruence.
Qed.

(** With no [Stop] under way, the map names exactly the running goroutines. *)
Lemma WorkerCount_running sc : exact_map sc -> covered sc [] -> WorkerCount sc = running sc.
Proof.
  intros He Hc. unfold WorkerCount, running. rewrite <- indices_length, <- length_map_to_list, <- (length_fmap snd).
  apply Permutation_length, NoDup_Permutation; [by apply NoDup_values| |].
  - unfold indices. apply NoDup_ListNoDup, List.NoDup_filter, seq_NoDup.
  - intros id. rewrite indices_elem, list_elem_of_fmap. split.
    + intros ([name i] & -> & Hin%elem_of_map_to_list). destruct (em_map _ He _ _ Hin) as (w & Hw & _ & Hnc).
      exists w. split; [done|]. destruct (exited w) eqn:E; [|done]. rewrite (em_exit _ He _ _ Hw E) in Hnc. done.
    + intros (w & Hw & Hx%negb_true_iff). destruct (Hc id w Hw Hx) as [H|[name H]]; [by apply not_elem_of_nil in H|].
      exists (name, id). split; [done|]. by apply elem_of_map_to_list.
Qed.
End Gauge.

(** ** The gauge of the wired program *)

(** [exp.SetGoroutinesGetter(sched.WorkerCount)]: what a scrape asks. *)
Definition liveGetter {P} (sc : Scheduler P) : option Z := Some (Z.of_nat (WorkerCount sc)).

(** Main or the reload handler is inside [Stop], past its locked loop. *)
Definition insideStop (pc : list instr) : bool :=
  match pc with (ICancel _ | IWait _) :: _ => true | _ => false end.

Definition stopUnderWay {P} (s : System P) : bool := insideStop (mainPC s) || insideStop (default [] (reloadPC s)).

Lemma at_ctl_no_stop {P} factory c (s : System P) :
  at_ctl factory c s -> stopUnderWay s = false -> covered (sched s) [].
Proof.
  intros [_ Hm Hr _ _ _ Hc _ _ _ _ _] Hs. unfold stopUnderWay in Hs. rewrite Hm, Hr in Hs. destruct c; try done; simpl in Hs; by destruct (notified s).
Qed.

(** C16: the goroutine gauge is exact.  In every state of a calm execution of
    runnable configurations (no reload during the start or the shutdown; valid,
    with positive HTTP intervals and counts below 2^53) in which no [Stop] is
    waiting for its workers, whatever was started, reloaded or refused by the
    factory, a scrape of the telemetry exporter reports exactly the number of
    probe goroutines that have not returned: every one of them is registered,
    each under its own name, and none that has exited still is. *)
Theorem goroutines_gauge_exact u env sdk ocfg version commit e exps n cfgs s :
  runnable env cfgs -> Otlp.New sdk ocfg version commit = Ok e ->
  rtc (calmStep (probeFactory u) proberRuns (runnable env)) (boot exps n cfgs) s ->
  stopUnderWay s = false ->
  scrape e (liveGetter (sched s)) =
    [(buildInfo, 1, [("version", version); ("commit", commit); ("goversion", runtime_Version sdk)]);
     (goroutinesInfo, Z.of_nat (running (sched s)), [])].
Proof.
  intros Hr He H Hs. apply New_ok in He as (_ & _ & _ & _ & _ & _ & ->). unfold liveGetter. cbn [default].
  assert (forall cfgs, runnable env cfgs -> good (probeFactory u) cfgs) as Hl by (intros; by eapply runnable_good).
  destruct (calm_reachable (probeFactory u) proberRuns (runnable env) exps n cfgs s Hl (Hl _ Hr) H) as [c Hc].
  rewrite (WorkerCount_running (sched s)); [done| |by eapply at_ctl_no_stop].
  exact (calm_exact (probeFactory u) proberRuns (runnable env) exps n cfgs s Hl (Hl _ Hr) H).
Qed.

Lemma goroutines_gauge_exact_witness :
  exists e s, Otlp.New acceptingSDK (OTLP (o_Exporters ConfigLoad.opsDefaults)) "v1" "abc" = Ok e /\
    rtc (calmStep (probeFactory demoTables) proberRuns (runnable demoEnv)) (boot demoExporters 1 [demoGw]) s /\
    scrape e (liveGetter (sched s)) =
      [(buildInfo, 1, [("version", "v1"); ("commit", "abc"); ("goversion", "go1.24")]); (goroutinesInfo, 1, [])].
Proof.
  destruct (Otlp.New acceptingSDK (OTLP (o_Exporters ConfigLoad.opsDefaults)) "v1" "abc") as [e| |] eqn:E;
    [|vm_compute in E; discriminate..].
  assert (exists s, rtc (calmStep (probeFactory demoTables) proberRuns (runnable demoEnv)) (boot demoExporters 1 [demoGw]) s /\
    stopUnderWay s = false /\ running (sched s) = 1%nat) as (s & H & Hs & Hn).
  { eexists. split; [do 6 calm_main; apply rtc_refl|]. by split. }
  exists e, s. split; [reflexivity|]. split; [exact H|].
  pose proof (goroutines_gauge_exact demoTables demoEnv acceptingSDK _ "v1" "abc" e demoExporters 1 [demoGw] s
    demoGw_runnable E H Hs) as Hg. rewrite Hn in Hg. exact Hg.
Defined.
