(* ===== verification/Order.v ===== *)
(** * One probe at a time, and in order.

    A probe never has two goroutines at work, not even across a reload, and its
    results reach the exporters in the order its runs returned them. *)

From S2P Require Import Prelude.
From S2P Require Import Types.
From S2P Require Import Probe.
From S2P Require Import Prober.
From S2P Require Import Config.
From S2P Require Import Otlp.
From S2P Require Import Icmp.
From S2P Require Import Pipeline.
From S2P Require Import Scheduler.
From S2P Require Import System.
From S2P Require Import Provenance.
From S2P Require Import Main.
From S2P Require Import Observability.
From S2P Require Import Gauge.

Section Order.
Context {P : Type} (factory : ProbeConfig -> res string P).
Context (runs : P -> list ProbeResult -> Prop) (loads : list ProbeConfig -> Prop).

(** ** What a step does to the goroutines and to the results *)

(** One goroutine changes phase. *)
Definition moves (s s' : System P) (id : nat) (w : Worker P) (ph : workerPhase) : Prop :=
  goroutines (sched s) !! id = Some w /\ w_phase w <> WExited /\
  goroutines (sched s') = <[id := setWPhase w ph]> (goroutines (sched s)).

Inductive effect (s s' : System P) : Prop :=
  | eff_keep :       (* no goroutine starts or changes phase *)
      origin <$> goroutines (sched s') = origin <$> goroutines (sched s) -> phases (sched s') = phases (sched s) ->
      produced s' = produced s -> accepted (pipe s') = accepted (pipe s) -> effect s s'
  | eff_start cfg p : (* a goroutine starts *)
      goroutines (sched s') = goroutines (sched s) ++ [{| w_cfg := cfg; w_prober := p; w_cancelled := false; w_phase := WNew |}] ->
      startLocked factory (sched s) cfg = Ok (sched s') ->
      (exists rest, mainPC s = IStarting (cfg :: rest) :: serveMain false \/ reloadPC s = Some [IStarting (cfg :: rest)]) ->
      produced s' = produced s -> accepted (pipe s') = accepted (pipe s) -> effect s s'
  | eff_phase id w ph : (* one begins, takes a tick, loops or exits *)
      moves s s' id w ph -> inFlight (w_phase w) = [] -> inFlight ph = [] ->
      produced s' = produced s -> accepted (pipe s') = accepted (pipe s) -> effect s s'
  | eff_return id w rs : (* a run returns *)
      moves s s' id w (WSending rs) -> w_phase w = WRunning -> runs (w_prober w) rs ->
      produced s' = produced s ++ rs -> accepted (pipe s') = accepted (pipe s) -> effect s s'
  | eff_send id w r rs (ok : bool) : (* a result is sent, or dropped *)
      moves s s' id w (WSending rs) -> w_phase w = WSending (r :: rs) ->
      produced s' = produced s -> accepted (pipe s') = (if ok then accepted (pipe s) ++ [r] else accepted (pipe s)) ->
      effect s s'.

Lemma keep_same s s' :
  sched s' = sched s -> produced s' = produced s -> accepted (pipe s') = accepted (pipe s) -> effect s s'.
Proof. intros E ? ?. apply eff_keep; by rewrite ?E. Qed.

Lemma schedInstr_effect main s i rest s' :
  schedInstr factory main s i rest = Some s' ->
  (main = true -> mainPC s = i :: rest) -> (main = false -> reloadPC s = Some (i :: rest)) ->
  (forall cfgs, i = IStarting cfgs -> rest = if main then serveMain false else []) -> effect s s'.
Proof.
  intros H Hm Hr Hi. pose proof (schedInstr_produced _ _ _ _ _ _ H) as Hp.
  destruct (schedInstr_move _ _ _ _ _ _ H) as [Hpi [_ Hph]].
  assert (accepted (pipe s') = accepted (pipe s)) as Ha by by rewrite Hpi.
  destruct (schedInstr_origins _ _ _ _ _ _ H) as [Ho|(cfg & cfgs & sc & -> & E & ->)].
  - destruct Hph as [Hph|Hph]; [by apply eff_keep|]. exfalso.
    apply (f_equal length) in Hph. apply (f_equal length) in Ho. unfold phases in Hph.
    rewrite length_app, !length_fmap in *. simpl in Hph. lia.
  - pose proof E as E'. unfold startLocked in E'. destruct (factory cfg) as [p| |] eqn:Ef; [| |done]; injection E' as <-.
    + apply (eff_start _ _ cfg p); try done. exists cfgs. specialize (Hi _ eq_refl). subst rest.
      destruct main; [left|right]; auto.
    + by apply keep_same.
Qed.

Lemma step_effect c s s' : at_ctl factory c s -> step factory runs loads s s' -> effect s s'.
Proof.
  intros Ha Hs. pose proof (ac_main _ _ _ Ha) as Hm. pose proof (ac_reload _ _ _ Ha) as Hr.
  pose proof (ac_pipe _ _ _ Ha) as Hpi.
  step_cases Hs.
  - unfold mainStep in H. destruct (mainPC s) as [|i rest] eqn:Epc; [done|].
    assert (forall cfgs, i = IStarting cfgs -> rest = serveMain false) as Hi.
    { intros cfgs ->. destruct c as [k cfgs0|cfgs0| |cfgs0|ids cfgs0|ids cfgs0|cfgs0|cfgs0| |ids|ids| |k]; try done;
        try (by simpl in Hm; destruct (notified s)).
      - destruct Hpi as [_ Hk]. destruct k as [|[|[|k]]]; [done..|lia].
      - simpl in Hm. congruence.
      - destruct k as [|[|[|k]]]; simpl in Hm; try done. by destruct k. }
    destruct i; try (by eapply (schedInstr_effect true)); repeat case_match; simplify_eq; by apply keep_same.
  - unfold requestReload in H. repeat case_match; simplify_eq; by apply keep_same.
  - unfold reloadStep in H. destruct (reloadPC s) as [[|i rest]|] eqn:Epc; [done| |done].
    eapply (schedInstr_effect false); [exact H|done|done|]. intros cfgs ->. destruct c; simpl in Hr; congruence.
  - by apply keep_same.
  - own_cases H; [|by apply keep_same].
    assert (w_phase w <> WExited) as Hne by (intros Hx; unfold workerStep in E; rewrite Hx in E; by destruct m).
    apply workerStep_phase in E as (ph & -> & Hf & Hf').
    eapply (eff_phase _ _ id w ph); simpl; [by split|done..|apply app_nil_r|done].
  - return_cases H. apply (eff_return _ _ id w rs); try done. split; [done|]. split; [by rewrite Hph|done].
  - send_cases H; [|by apply keep_same].
    apply (eff_send _ _ id w r rs ok); simpl; [|done|apply app_nil_r|by eapply pipeSend_accepted].
    split; [done|]. split; [by rewrite Hph|]. simpl. by rewrite Hg.
  - pipe_cases H; apply keep_same; simpl; try done; [apply app_nil_r|by eapply pipeStep_accepted].
Qed.

(** ** One goroutine per probe *)

(** Goroutine [i] is at work for the probe [name]. *)
Definition serves (sc : Scheduler P) (name : string) (i : nat) : Prop :=
  exists w, goroutines sc !! i = Some w /\ exited w = false /\ Name (w_cfg w) = name.

Definition alone (sc : Scheduler P) : Prop :=
  forall name i j, serves sc name i -> serves sc name j -> i = j.

Lemma alone_shrink (sc sc' : Scheduler P) :
  (forall name i, serves sc' name i -> serves sc name i) -> alone sc -> alone sc'.
Proof. intros Hs Ha name i j Hi Hj. eapply Ha; by apply Hs. Qed.

Lemma serves_keep (sc sc' : Scheduler P) name i :
  origin <$> goroutines sc' = origin <$> goroutines sc -> phases sc' = phases sc -> serves sc' name i -> serves sc name i.
Proof.
  intros Ho Hp (w & Hi & He & Hn). unfold phases in Hp.
  assert ((origin <$> goroutines sc') !! i = (origin <$> goroutines sc) !! i) as Ho' by by rewrite Ho.
  assert ((w_phase <$> goroutines sc') !! i = (w_phase <$> goroutines sc) !! i) as Hp' by by rewrite Hp.
  rewrite !list_lookup_fmap, Hi in Ho'. rewrite !list_lookup_fmap, Hi in Hp'. destruct (goroutines sc !! i) as [v|] eqn:Hv; [|done].
  injection Ho' as Hc _. injection Hp' as Hph. exists v. unfold exited in *. rewrite <- Hph, <- Hc. auto.
Qed.

Lemma serves_moves s s' id w ph name i : moves s s' id w ph -> serves (sched s') name i -> serves (sched s) name i.
Proof.
  intros (Hid & Hne & Hg) (v & Hi & He & Hn). unfold serves. rewrite Hg in Hi. destruct (decide (i = id)) as [->|].
  - rewrite list_lookup_insert_eq in Hi by (by eapply lookup_lt_Some). injection Hi as <-.
    exists w. split; [done|]. split; [|done]. unfold exited. by destruct (w_phase w).
  - rewrite list_lookup_insert_ne in Hi by done. eauto.
Qed.

Lemma serves_start (sc : Scheduler P) w name i :
  forall sc', goroutines sc' = goroutines sc ++ [w] -> serves sc' name i ->
  serves sc name i \/ (i = length (goroutines sc) /\ name = Name (w_cfg w)).
Proof.
  intros sc' Hg (v & Hi & He & Hn). rewrite Hg in Hi. apply lookup_snoc_Some in Hi as [[_ Hi]|[-> ->]]; [left|right; by split].
  exists v. auto.
Qed.

Lemma step_alone c s s' :
  at_ctl factory c s -> exact_map (sched s) -> step factory runs loads s s' -> alone (sched s) -> alone (sched s').
Proof.
  intros Ha Hex Hs Hal. destruct (step_effect c s s' Ha Hs) as [Ho Hp _ _|cfg p Hg _ Hpc _ _|id w ph Hm _ _ _ _
    |id w rs Hm _ _ _ _|id w r rs ok Hm _ _ _];
    [eapply alone_shrink; [|done]; intros name i; by apply serves_keep| |eapply alone_shrink; [|done]; intros name i; by eapply serves_moves..].
  assert (covered (sched s) [] /\ workers (sched s) !! Name cfg = None) as [Hc Hfree].
  { destruct Ha as [_ Hm Hr Hmu _ Hf Hc _ _ _ Hpi _].
    destruct Hpc as (rest & [E|E]); rewrite ?Hm, ?Hr in E;
      (destruct c as [k cfgs|cfgs| |cfgs|ids cfgs|ids cfgs|cfgs|cfgs| |ids|ids| |k]; try done; simpl in E);
      try (by destruct (notified s)).
    - destruct Hpi as [_ Hk]. destruct k as [|[|[|k]]]; [done..|lia].
    - injection E as ->. split; [done|]. apply Hf; [done|constructor].
    - destruct k as [|[|[|k]]]; simpl in E; try done. by destruct k.
    - injection E as ->. split; [done|]. apply Hf; [done|constructor]. }
  assert (forall i, ~ serves (sched s) (Name cfg) i) as Hno.
  { intros i (w & Hi & He & Hn). destruct (Hc i w Hi He) as [Hin|[name Hname]]; [by apply not_elem_of_nil in Hin|].
    destruct (em_map _ Hex _ _ Hname) as (v & Hv & <- & _). congruence. }
  intros name i j Hi Hj. apply (serves_start _ _ _ _ _ Hg) in Hi as [Hi|[-> ->]]; apply (serves_start _ _ _ _ _ Hg) in Hj as [Hj|[-> Hj]].
  - by eapply Hal.
  - subst name. by destruct (Hno i).
  - simpl in Hj. by destruct (Hno j).
  - done.
Qed.
(** ** In order *)

(** The results of one probe. *)
Definition mine (name : string) : list ProbeResult -> list ProbeResult := List.filter (hasName name).

Lemma mine_app name l k : mine name (l ++ k) = mine name l ++ mine name k.
Proof. apply List.filter_app. Qed.

Lemma mine_all name l : Forall (fun r => ProbeName r = name) l -> mine name l = l.
Proof.
  induction 1 as [|r l Hr _ IH]; [done|]. unfold mine in *. simpl. unfold hasName at 1.
  by rewrite Hr, String.eqb_refl, IH.
Qed.

Lemma mine_none name l : (forall r, r ∈ l -> ProbeName r <> name) -> mine name l = [].
Proof.
  induction l as [|r l IH]; intros H; [done|]. unfold mine in *. simpl. unfold hasName at 1.
  destruct (String.eqb_spec (ProbeName r) name) as [E|_]; [by destruct (H r ltac:(constructor))|].
  apply IH. intros x Hx. apply H. by constructor.
Qed.

Lemma flight_elem phs r : r ∈ flight phs -> exists i ph, phs !! i = Some ph /\ r ∈ inFlight ph.
Proof.
  intros H. unfold flight in H. apply list_elem_of_In, in_concat in H as (l & Hl & Hr).
  apply list_elem_of_In, list_elem_of_fmap in Hl as (ph & -> & Hph). apply list_elem_of_lookup in Hph as [i Hi].
  exists i, ph. split; [done|]. by apply list_elem_of_In.
Qed.

(** Of what is being sent, only the goroutine at work for a probe has results of
    that probe. *)
Lemma flight_mine sc id w :
  alone sc -> Forall (taggedWorker factory) (goroutines sc) -> goroutines sc !! id = Some w -> exited w = false ->
  exists A B, flight (phases sc) = A ++ inFlight (w_phase w) ++ B /\
    (forall ph, flight (<[id := ph]> (phases sc)) = A ++ inFlight ph ++ B) /\
    mine (Name (w_cfg w)) A = [] /\ mine (Name (w_cfg w)) B = [].
Proof.
  intros Hal Ht Hid He. assert (phases sc !! id = Some (w_phase w)) as Hph by (unfold phases; by rewrite list_lookup_fmap, Hid).
  assert (forall j ph r, j <> id -> phases sc !! j = Some ph -> r ∈ inFlight ph -> ProbeName r <> Name (w_cfg w)) as Hother.
  { intros j ph r Hne Hj Hr E. unfold phases in Hj. rewrite list_lookup_fmap in Hj.
    destruct (goroutines sc !! j) as [v|] eqn:Hv; [|done]. injection Hj as <-. apply Hne.
    pose proof (Forall_lookup_1 _ _ _ _ Ht Hv) as [_ Hn]. rewrite Forall_forall in Hn.
    apply (Hal (Name (w_cfg w))); [|by exists w]. exists v. split; [done|]. split; [|by rewrite <- (Hn r Hr)].
    unfold exited. destruct (w_phase v); try done. by apply not_elem_of_nil in Hr. }
  exists (flight (take id (phases sc))), (flight (drop (S id) (phases sc))). split_and!.
  - unfold flight. rewrite <- (take_drop_middle _ _ _ Hph) at 1. by rewrite fmap_app, concat_app.
  - intros ph. unfold flight. rewrite insert_take_drop by (by apply lookup_lt_Some in Hph). by rewrite fmap_app, concat_app.
  - apply mine_none. intros r (j & ph & Hj & Hr)%flight_elem. pose proof (lookup_lt_Some _ _ _ Hj) as Hlt.
    rewrite length_take in Hlt. rewrite lookup_take_lt in Hj by lia. apply (Hother j ph); [lia|done|done].
  - apply mine_none. intros r (j & ph & Hj & Hr)%flight_elem. rewrite lookup_drop in Hj. apply (Hother (S id + j)%nat ph); [lia|done|done].
Qed.

(** The results of a probe: those handled, in the order produced, then those the
    goroutine at work still has to send; the accepted ones are among the former. *)
Definition ordered (s : System P) : Prop := forall name, exists handled,
  mine name (produced s) = handled ++ mine name (flight (phases (sched s))) /\
  mine name (accepted (pipe s)) `sublist_of` handled.

Lemma moves_phases s s' id w ph : moves s s' id w ph -> phases (sched s') = <[id := ph]> (phases (sched s)).
Proof. intros (_ & _ & Hg). unfold phases. by rewrite Hg, list_fmap_insert. Qed.

Lemma not_exited (w : Worker P) : w_phase w <> WExited -> exited w = false.
Proof. unfold exited. by destruct (w_phase w). Qed.

Lemma moves_live s s' id w ph : moves s s' id w ph -> goroutines (sched s) !! id = Some w /\ exited w = false.
Proof. intros (Hid & Hne & _). split; [done|by apply not_exited]. Qed.

Lemma ordered_same s s' :
  flight (phases (sched s')) = flight (phases (sched s)) -> produced s' = produced s ->
  accepted (pipe s') = accepted (pipe s) -> ordered s -> ordered s'.
Proof. intros Hf Hp Ha H name. rewrite Hf, Hp, Ha. apply H. Qed.

Lemma ordered_return s s' id w rs :
  alone (sched s) -> Forall (taggedWorker factory) (goroutines (sched s)) -> Forall (fun r => ProbeName r = Name (w_cfg w)) rs ->
  moves s s' id w (WSending rs) -> w_phase w = WRunning -> produced s' = produced s ++ rs ->
  accepted (pipe s') = accepted (pipe s) -> ordered s -> ordered s'.
Proof.
  intros Hal Ht Hrs Hm Hph Hp Ha H name. destruct (moves_live _ _ _ _ _ Hm) as [Hid He].
  destruct (flight_mine _ _ _ Hal Ht Hid He) as (A & B & E1 & E2 & HA & HB). rewrite Hph in E1.
  destruct (H name) as (L & Hl & Hs). exists L. rewrite Ha. split; [|done].
  rewrite (moves_phases _ _ _ _ _ Hm), E2, Hp. rewrite E1 in Hl. rewrite !mine_app, Hl, !mine_app. simpl.
  destruct (decide (name = Name (w_cfg w))) as [->|Hne].
  - by rewrite HA, HB, (mine_all _ rs) by done; simpl; rewrite !app_nil_r.
  - rewrite (mine_none name rs); [by rewrite !app_nil_r|]. rewrite Forall_forall in Hrs. intros r Hr. rewrite (Hrs r Hr). congruence.
Qed.

Lemma ordered_send s s' id w r rs (ok : bool) :
  alone (sched s) -> Forall (taggedWorker factory) (goroutines (sched s)) ->
  moves s s' id w (WSending rs) -> w_phase w = WSending (r :: rs) -> produced s' = produced s ->
  accepted (pipe s') = (if ok then accepted (pipe s) ++ [r] else accepted (pipe s)) -> ordered s -> ordered s'.
Proof.
  intros Hal Ht Hm Hph Hp Ha H name. destruct (moves_live _ _ _ _ _ Hm) as [Hid He].
  destruct (flight_mine _ _ _ Hal Ht Hid He) as (A & B & E1 & E2 & HA & HB). rewrite Hph in E1.
  pose proof (Forall_lookup_1 _ _ _ _ Ht Hid) as [_ Hn]. rewrite Hph in Hn. simpl in Hn. apply Forall_cons in Hn as [Hr Hrs].
  destruct (H name) as (L & Hl & Hs). rewrite E1 in Hl. rewrite (moves_phases _ _ _ _ _ Hm), E2, Hp, Ha.
  simpl in Hl. change (r :: rs ++ B) with ([r] ++ rs ++ B) in Hl. rewrite !mine_app in *.
  destruct (decide (name = Name (w_cfg w))) as [->|Hne].
  - exists (L ++ [r]). rewrite HA, HB, (mine_all _ [r]) in Hl by (by constructor).
    rewrite HA, HB, Hl. split; [by rewrite <- app_assoc|].
    destruct ok; [|by apply sublist_inserts_r]. rewrite mine_app, (mine_all _ [r]) by (by constructor). by apply sublist_app.
  - assert (mine name [r] = []) as Hr0 by (apply mine_none; intros x ->%list_elem_of_singleton; congruence).
    exists L. rewrite Hl, Hr0. split; [done|]. destruct ok; [|done]. by rewrite mine_app, Hr0, app_nil_r.
Qed.

Context (runs_name : forall cfg p rs, factory cfg = Ok p -> runs p rs -> Forall (fun r => ProbeName r = Name cfg) rs).
Context (loads_good : forall cfgs, loads cfgs -> good factory cfgs).

(** What holds of every calm execution. *)
Record orderly (s : System P) : Prop := {
  or_ctl : exists c, at_ctl factory c s;
  or_map : exact_map (sched s);
  or_tagged : tagged factory (sched s);
  or_alone : alone (sched s);
  or_ordered : ordered s
}.

Lemma calmStep_orderly s s' : orderly s -> calmStep factory runs loads s s' -> orderly s'.
Proof.
  intros [[c Ha] Hex Ht Hal Ho] [Hs Hcalm]. split.
  - by eapply calmStep_at_ctl.
  - by eapply step_exact.
  - by eapply step_tagged.
  - by eapply step_alone.
  - destruct Ht as [Ht _]. destruct (step_effect c s s' Ha Hs) as [_ Hp Hpr Hac|cfg p Hg _ _ Hpr Hac|id w ph Hm H0 H1 Hpr Hac
      |id w rs Hm Hph Hr Hpr Hac|id w r rs ok Hm Hph Hpr Hac].
    + apply (ordered_same s); [by rewrite Hp|done..].
    + apply (ordered_same s); [|done..]. unfold phases. by rewrite Hg, fmap_app, flight_new.
    + apply (ordered_same s); [|done..]. destruct (moves_live _ _ _ _ _ Hm) as [Hid He].
      destruct (flight_mine _ _ _ Hal Ht Hid He) as (A & B & E1 & E2 & _). by rewrite (moves_phases _ _ _ _ _ Hm), E2, E1, H0, H1.
    + eapply (ordered_return s s' id w rs); try done. destruct (moves_live _ _ _ _ _ Hm) as [Hid _].
      destruct (Forall_lookup_1 _ _ _ _ Ht Hid) as [Hf _]. by eapply runs_name.
    + by eapply ordered_send.
Qed.

Lemma calm_orderly exps n cfgs s :
  good factory cfgs -> rtc (calmStep factory runs loads) (boot exps n cfgs) s -> orderly s.
Proof.
  intros Hg H. assert (orderly (boot exps n cfgs)) as Hb.
  { split.
    - exact (calm_reachable factory runs loads exps n cfgs _ loads_good Hg (rtc_refl _ _)).
    - exact (calm_exact factory runs loads exps n cfgs _ loads_good Hg (rtc_refl _ _)).
    - by repeat split.
    - intros name i j (w & Hw & _). simpl in Hw. by rewrite lookup_nil in Hw.
    - intros name. by exists []. }
  revert Hb. induction H; eauto using calmStep_orderly.
Qed.

Lemma orderly_exported s : orderly s -> forall name, mine name (exported (pipe s)) `sublist_of` mine name (produced s).
Proof.
  intros [[c Ha] _ _ _ Ho] name. destruct (Ho name) as (L & -> & Hs). apply sublist_inserts_r.
  rewrite (inv_fifo _ (ac_pipe_inv _ _ _ Ha)), mine_app in Hs. etrans; [|exact Hs]. by apply sublist_inserts_r.
Qed.
End Order.

(** ** The wired program *)

(** C15: one probe at a time, in order.  In every state of a calm execution of
    the program, through any reloads: no probe has two goroutines at work, not
    even while a reload replaces them; and for every probe, the results handed
    to the exporters are a subsequence of the results its runs have returned, in
    the order they were returned, whatever was dropped or is still under way and
    however the probes interleave. *)
Theorem probe_results_in_order u env exps n cfgs s :
  runnable env cfgs ->
  rtc (calmStep (probeFactory u) proberRuns (runnable env)) (boot exps n cfgs) s ->
  (forall i j v w, goroutines (sched s) !! i = Some v -> goroutines (sched s) !! j = Some w ->
     w_phase v <> WExited -> w_phase w <> WExited -> Name (w_cfg v) = Name (w_cfg w) -> i = j) /\
  forall name, List.filter (hasName name) (exported (pipe s)) `sublist_of` List.filter (hasName name) (produced s).
Proof.
  intros Hr H. assert (orderly (probeFactory u) s) as Ho.
  { eapply (calm_orderly _ proberRuns (runnable env)); [by apply proberRuns_name|intros; by eapply runnable_good
      |by eapply runnable_good|exact H]. }
  split; [|by eapply orderly_exported].
  intros i j v w Hi Hj Hv Hw E. apply (or_alone _ _ Ho (Name (w_cfg w))); [exists v|exists w];
    (split; [done|]; split; [by apply not_exited|done]).
Qed.

(** One result exported, one dropped. *)
Lemma probe_results_in_order_witness :
  exists s, rtc (calmStep (probeFactory demoTables) proberRuns (runnable demoEnv)) (boot demoExporters 1 [demoGw]) s /\
    length (exported (pipe s)) = 1%nat /\ length (dropped (sched s)) = 1%nat /\
    List.filter (hasName "gw") (exported (pipe s)) `sublist_of` List.filter (hasName "gw") (produced s).
Proof.
  destruct (demo_full_run (runnable demoEnv)) as (s & H & _ & He & Hd). exists s. split; [exact H|]. split; [exact He|]. split; [exact Hd|].
  exact (proj2 (probe_results_in_order demoTables demoEnv demoExporters 1 [demoGw] s demoGw_runnable H) "gw").
Defined.
