(* ===== verification/Serving.v ===== *)
(** * Reloads: the probes that run are the probes that are served.

    The reload callback of main loads a configuration, stops the workers, starts
    the new ones, stores the configuration for GET /config and counts the reload,
    while everything else keeps running.  [Serving] adds the state of the HTTP
    server to the system of System.v and splits the callback accordingly; its steps
    ([serveStep]) have every interleaving, the races of Main.v included.  Two
    things are shown of its calm executions ([calmServe]), through any number of
    reloads: the goroutines that run are
    those of the stored configuration; and whenever no callback is in progress
    the server's state is the one the handlers of Server.v, each run in one go,
    would have produced. *)

From S2P Require Import Prelude.
From S2P Require Import GoStrings.
From S2P Require Import GoFmt.
From S2P Require Import Types.
From S2P Require Import Probe.
From S2P Require Import Prober.
From S2P Require Import Config.
From S2P Require Import ConfigLoad.
From S2P Require Import Icmp.
From S2P Require Import Pipeline.
From S2P Require Import Log.
From S2P Require Import Server.
From S2P Require Import Scheduler.
From S2P Require Import System.
From S2P Require Import Main.
From S2P Require Import Gauge.

Section Serving.
Context {P : Type} (factory : ProbeConfig -> res string P).
Context (runs : P -> list ProbeResult -> Prop).
(** What [config.Load] may return on a reload, and the server. *)
Context (loads : Config -> Prop) (rejects : cfg_error -> Prop) (srv : Server).

(** The probes a reload may ask for. *)
Definition loadsProbes (cfgs : list ProbeConfig) : Prop := exists cfg, loads cfg /\ Probes cfg = cfgs.

(** A callback has loaded a configuration and is in [sched.Reload], or it has
    stored it. *)
Inductive Callback := CbReloading (newCfg : Config) | CbStored (newCfg : Config).

Record Serving := {
  sys : System P;
  world : World;
  callback : option Callback;               (* the one that holds reloadMu *)
  handled : list (res cfg_error Config)     (* history: the reload requests answered *)
}.

(** main stores the configuration it loaded before it starts anything. *)
Definition serveBoot (exps : list Exporter) (n : Z) (cfg : Config) (w : World) : Serving :=
  {| sys := boot exps n (Probes cfg); world := UpdateConfig cfg w; callback := None; handled := [] |}.

Inductive serveStep : Serving -> Serving -> Prop :=
  | serve_rejected x err :       (* loadErr != nil: 400, and a line in the log *)
      alive (sys x) -> callback x = None -> srvUp (sys x) = true -> rejects err ->
      serveStep x {| sys := sys x; world := logError srv (LogReloadFailed err) (world x); callback := None;
                     handled := handled x ++ [Err err] |}
  | serve_load x s' newCfg :     (* sched.Reload(newCfg.Probes) is called *)
      alive (sys x) -> callback x = None -> loads newCfg -> requestReload (Probes newCfg) (sys x) = Some s' ->
      serveStep x {| sys := s'; world := schedReload (Probes newCfg) (world x); callback := Some (CbReloading newCfg);
                     handled := handled x |}
  | serve_system x s' :          (* every other move, those of sched.Reload included *)
      step factory runs loadsProbes (sys x) s' -> (reloadPC (sys x) = None -> reloadPC s' = None) ->
      serveStep x {| sys := s'; world := world x; callback := callback x; handled := handled x |}
  | serve_UpdateConfig x newCfg :
      alive (sys x) -> callback x = Some (CbReloading newCfg) -> reloadPC (sys x) = None ->
      serveStep x {| sys := sys x; world := UpdateConfig newCfg (world x); callback := Some (CbStored newCfg);
                     handled := handled x |}
  | serve_RecordConfigReload x newCfg :
      alive (sys x) -> callback x = Some (CbStored newCfg) ->
      serveStep x {| sys := sys x; world := countReload (world x); callback := None;
                     handled := handled x ++ [Ok newCfg] |}.

(** The executions without a reload during the start or the shutdown. *)
Definition calmServe (x y : Serving) : Prop := serveStep x y /\ calm (sys y).

(** Underneath, the system makes a step or none. *)
Lemma serve_step x y : serveStep x y -> sys y = sys x \/ step factory runs loadsProbes (sys x) (sys y).
Proof.
  destruct 1 as [x err| x s' newCfg Ha _ Hl Hq| x s' Hs| |]; simpl; auto.
  right. apply (step_request _ _ _ _ _ (Probes newCfg)); [done| |done]. by exists newCfg.
Qed.

(** ** The configurations of the running goroutines *)

Definition liveCfgs (sc : Scheduler P) : list ProbeConfig :=
  w_cfg <$> List.filter (fun w => negb (exited w)) (goroutines sc).

(** The probes the factory builds a prober for. *)
Definition buildable (cfgs : list ProbeConfig) : list ProbeConfig := List.filter (fun c => is_ok (factory c)) cfgs.

Lemma buildable_snoc done cfg : buildable (done ++ [cfg]) = buildable done ++ (if is_ok (factory cfg) then [cfg] else []).
Proof. unfold buildable. rewrite List.filter_app. simpl. by destruct (is_ok (factory cfg)). Qed.

Lemma startLocked_live (sc : Scheduler P) cfg sc' :
  startLocked factory sc cfg = Ok sc' ->
  liveCfgs sc' = liveCfgs sc ++ (if is_ok (factory cfg) then [cfg] else []).
Proof.
  unfold startLocked, liveCfgs. destruct (factory cfg) as [p| |]; [| |done]; intros [= <-]; simpl.
  - by rewrite List.filter_app, fmap_app.
  - by rewrite app_nil_r.
Qed.

Lemma insert_live (gs : list (Worker P)) id w w' :
  gs !! id = Some w -> exited w' = exited w -> w_cfg w' = w_cfg w ->
  w_cfg <$> List.filter (fun w => negb (exited w)) (<[id := w']> gs) = w_cfg <$> List.filter (fun w => negb (exited w)) gs.
Proof.
  intros Hid He Hc. revert id Hid. induction gs as [|g gs IH]; intros [|id] Hid; simplify_eq/=.
  - rewrite He. destruct (exited w); [done|]. simpl. by rewrite Hc.
  - destruct (exited g); simpl; [by apply IH|]. f_equal. by apply IH.
Qed.

(** With no [Stop] under way no goroutine exits. *)
Lemma workerStep_stays (sc : Scheduler P) id w m w' :
  exact_map sc -> covered sc [] -> goroutines sc !! id = Some w -> workerStep m w = Ok (Some w') ->
  exited w' = exited w /\ w_cfg w' = w_cfg w.
Proof.
  intros He Hc Hid. unfold workerStep. destruct (w_phase w) as [| | |[|r rs]|] eqn:Eph, m; try done; unfold exited; rewrite Eph.
  - destruct (_ <=? 0); [done|]. by intros [= <-].
  - by intros [= <-].
  - destruct (w_cancelled w) eqn:Ec; [|done]. exfalso.
    assert (exited w = false) as Hx by (unfold exited; by rewrite Eph).
    destruct (Hc id w Hid Hx) as [Hn|[name Hn]]; [by apply not_elem_of_nil in Hn|].
    destruct (em_map _ He _ _ Hn) as (v & Hv & _ & Hcv). congruence.
  - by intros [= <-].
Qed.

Lemma exited_none_live (sc : Scheduler P) :
  (forall id w, goroutines sc !! id = Some w -> w_phase w = WExited) -> liveCfgs sc = [].
Proof.
  unfold liveCfgs. induction (goroutines sc) as [|g gs IH]; intros H; [done|]. simpl.
  pose proof (H 0%nat g eq_refl) as Hg. unfold exited at 1. rewrite Hg. apply IH. intros id w Hid. by apply (H (S id)).
Qed.

(** ** The invariant *)

(** [rest] is still to be started of the probes [all]. *)
Definition started (all rest : list ProbeConfig) (sc : Scheduler P) : Prop :=
  exists done, all = done ++ rest /\ liveCfgs sc = buildable done.

Definition serving_inv (cur : list ProbeConfig) (pend : option (list ProbeConfig)) (s : System P) : Prop :=
  let sc := sched s in
  match reloadPC s with
  | Some [IStarting rest] => exists all, pend = Some all /\ started all rest sc
  | Some [IStart cfgs] => pend = Some cfgs /\ liveCfgs sc = []
  | Some [ICollect; IStart cfgs] => pend = Some cfgs
  | Some [ICancel _; IWait _; IStart cfgs] => pend = Some cfgs
  | Some [IWait _; IStart cfgs] => pend = Some cfgs
  | Some _ => True
  | None =>
      match mainPC s with
      | ISrvStart :: IPipeGo :: IStart cfgs :: _ => pend = None /\ cur = cfgs /\ liveCfgs sc = []
      | IPipeGo :: IStart cfgs :: _ => pend = None /\ cur = cfgs /\ liveCfgs sc = []
      | IStart cfgs :: _ => pend = None /\ cur = cfgs /\ liveCfgs sc = []
      | IStarting rest :: _ => pend = None /\ started cur rest sc
      | (INotify | IWaitSignal) :: _ => liveCfgs sc = buildable (default cur pend)
      | _ => True
      end
  end.

Lemma started_next all cfg rest (sc sc' : Scheduler P) :
  started all (cfg :: rest) sc -> startLocked factory sc cfg = Ok sc' -> started all rest sc'.
Proof.
  intros (done & -> & Hl) E. exists (done ++ [cfg]). split; [by rewrite <- app_assoc|].
  rewrite (startLocked_live _ _ _ E), Hl. by rewrite buildable_snoc.
Qed.

Lemma started_none all (sc : Scheduler P) : liveCfgs sc = [] -> started all all sc.
Proof. intros H. by exists []. Qed.

Lemma started_all all (sc : Scheduler P) : started all [] sc -> liveCfgs sc = buildable all.
Proof. intros (done & -> & H). by rewrite app_nil_r. Qed.

(** The other goroutines move. *)
Lemma inv_same c cur pend s s' :
  at_ctl factory c s -> serving_inv cur pend s -> mainPC s' = mainPC s -> reloadPC s' = reloadPC s ->
  (covered (sched s) [] -> liveCfgs (sched s') = liveCfgs (sched s)) -> serving_inv cur pend s'.
Proof.
  intros [_ Hm Hr _ _ _ Hc _ _ _ Hpi _] Hi Hm' Hr' Hl. unfold serving_inv, started in *. rewrite Hm', Hr', Hm, Hr in *.
  destruct c as [k cfgs|cfgs| |cfgs|ids cfgs|ids cfgs|cfgs|cfgs| |ids|ids| |k]; simpl in *; rewrite ?Hl by done; done.
Qed.

Lemma step_other c cur pend s s' :
  at_ctl factory c s -> exact_map (sched s) -> serving_inv cur pend s ->
  (exists m id, workerOwn m id s = Some s') \/ (exists id, workerSends id s = Some s') \/
  (exists m, pipeMoves m s = Some s') -> serving_inv cur pend s'.
Proof.
  intros Ha He Hi [(m & id & H)|[(id & H)|(m & H)]].
  - own_cases H; [|by eapply inv_same].
    eapply inv_same; eauto. intros Hc. destruct (workerStep_stays _ _ _ _ _ He Hc Hid E). by apply (insert_live _ _ w).
  - send_cases H; [|by eapply inv_same]. eapply inv_same; eauto. intros _.
    unfold liveCfgs. simpl. rewrite Hg. apply (insert_live _ _ w); [done| |done]. unfold exited. by rewrite Hph.
  - pipe_cases H; by eapply inv_same.
Qed.

(** Main serves: before and after [signal.Notify] the running probes are the same. *)
Lemma serving_inv_serve cur pend s b :
  mainPC s = serveMain b -> reloadPC s = None ->
  serving_inv cur pend s <-> liveCfgs (sched s) = buildable (default cur pend).
Proof. intros Hm Hr. unfold serving_inv. rewrite Hm, Hr. by destruct b. Qed.

Lemma step_main_serving c cur pend s s' :
  at_ctl factory c s -> calm s' -> ctlNotified c = None -> serving_inv cur pend s -> mainStep factory s = Some s' ->
  serving_inv cur pend s'.
Proof.
  intros Ha Hcalm Hn Hi H. pose proof (ac_main _ _ _ Ha) as Hm. pose proof (ac_reload _ _ _ Ha) as Hr.
  rewrite ctlMain_serving in Hm by done. unfold mainStep in H. rewrite Hm in H.
  destruct (notified s) eqn:En; simpl in H.
  - destruct (signalled s) eqn:Es; [|done]. injection H as <-. destruct Hcalm as [Hc|[Hc _]]; simpl in Hc; [|congruence].
    unfold serving_inv. simpl. by rewrite Hc.
  - injection H as <-. destruct (reloadPC s) as [pc|] eqn:Er.
    + unfold serving_inv in *. simpl in *. by rewrite Er in *.
    + apply (serving_inv_serve _ _ _ true); [done|done|]. simpl. by apply (serving_inv_serve _ _ _ false) in Hi.
Qed.

Lemma step_main_inv c cur pend s s' :
  at_ctl factory c s -> calm s' -> serving_inv cur pend s -> mainStep factory s = Some s' ->
  serving_inv cur pend s'.
Proof.
  intros Ha Hcalm Hi. destruct (ctlNotified c) as [b|] eqn:En; [|by eapply step_main_serving].
  destruct Ha as [_ Hm Hr Hmu _ Hf Hc Hg Hp _ Hpi _]. unfold mainStep. rewrite Hm.
  unfold serving_inv in *. rewrite Hm, Hr in Hi.
  destruct c as [k cfgs|cfgs| |cfgs|ids cfgs|ids cfgs|cfgs|cfgs| |ids|ids| |k]; try done; cbn [ctlMain ctlReload] in *.
  - destruct Hpi as [_ Hk]. destruct k as [|[|[|k]]]; [..|lia]; simpl in *; rewrite ?Hmu; intros [= <-];
      simpl; rewrite Hr; [done|done|]. destruct Hi as (-> & -> & Hi). split; [done|]. by apply started_none.
  - destruct cfgs as [|cfg cfgs]; simpl in *; destruct Hi as [-> Hi].
    + intros [= <-]. simpl. rewrite Hr. by apply started_all.
    + destruct (startLocked_ok factory (sched s) cfg cfgs Hg Hc (Hf eq_refl) Hp) as (sc & E & _). rewrite E.
      intros [= <-]. simpl. rewrite Hr. split; [done|]. by eapply started_next.
  - simpl. rewrite Hmu. intros [= <-]. simpl. by rewrite Hr.
  - simpl. intros [= <-]. simpl. by rewrite Hr.
  - simpl. destruct (allExited _ _); [|done]. intros [= <-]. simpl. by rewrite Hr.
  - simpl. intros [= <-]. simpl. by rewrite Hr.
  - clear Hi Hpi Hc Hg Hp Hf. destruct k as [|[|[|k]]]; simpl; [destruct (phase _); try done; [..]|idtac..|by destruct k]; intros [= <-]; simpl; by rewrite Hr.
Qed.

Lemma step_reload_inv c cur pend s s' :
  at_ctl factory c s -> serving_inv cur pend s -> reloadStep factory s = Some s' -> serving_inv cur pend s'.
Proof.
  intros [_ Hm Hr Hmu He Hf Hc Hg Hp _ _ _] Hi. unfold reloadStep. rewrite Hr. unfold serving_inv in *. rewrite Hr in Hi.
  destruct c as [k cfgs|cfgs| |cfgs|ids cfgs|ids cfgs|cfgs|cfgs| |ids|ids| |k]; cbn [ctlMain ctlReload] in *; try done; simpl in *.
  - rewrite Hmu. by intros [= <-].
  - by intros [= <-].
  - destruct (allExited (sched s) ids) eqn:Ea; [|done]. intros [= <-]. simpl.
    split; [done|]. apply exited_none_live. intros id w. apply drained_all_exited; [|by apply He].
    apply (allExited_covered _ ids); auto.
  - rewrite Hmu. intros [= <-]. simpl. destruct Hi as [-> Hi]. exists cfgs. split; [done|]. by apply started_none.
  - destruct Hi as (all & -> & Hi). destruct cfgs as [|cfg cfgs].
    + intros [= <-]. apply (serving_inv_serve _ _ _ (notified s)); [done|done|]. by apply started_all.
    + destruct (startLocked_ok factory (sched s) cfg cfgs Hg Hc (Hf eq_refl) Hp) as (sc & E & _). rewrite E.
      intros [= <-]. simpl. exists all. split; [done|]. by eapply started_next.
Qed.

(** Every move of the system but the start of a reload. *)
Lemma step_system_inv c cur pend s s' :
  at_ctl factory c s -> exact_map (sched s) -> serving_inv cur pend s -> calmStep factory runs loadsProbes s s' ->
  (reloadPC s = None -> reloadPC s' = None) -> serving_inv cur pend s'.
Proof.
  intros Ha He Hi [Hs Hcalm] Hn.
  step_cases Hs;
    try (by eapply step_other; eauto 10).
  - by eapply step_main_inv.
  - unfold requestReload in H. destruct (reloadPC s) eqn:Er; [done|]. destruct (srvUp _); simplify_eq. by specialize (Hn eq_refl).
  - by eapply step_reload_inv.
  - by eapply inv_same.
  - unfold workerReturn in H. destruct (w_phase w) eqn:Eph; simplify_eq. eapply inv_same; eauto. intros _.
    apply (insert_live _ _ w); [done| |done]. unfold exited. by rewrite Eph.
Qed.

(** ** The server's state *)

(** What one reload request does to the server when its handler runs in one go. *)
Definition answered (w : World) (outcome : res cfg_error Config) : World :=
  match outcome with
  | Ok newCfg => applyReload newCfg w
  | Err err => logError srv (LogReloadFailed err) w
  | Panic _ => w
  end.

(** That is what the handler of Server.v does. *)
Lemma handleReload_answered os env y ops probes w :
  reloadFunc srv = Some (reloadCallback os env y ops probes) ->
  snd (handleReload srv w) = answered w (Load os env y ops probes).
Proof. intros E. unfold handleReload. rewrite E. unfold reloadCallback. by destruct (Load os env y ops probes). Qed.

Definition currentProbes (x : Serving) : list ProbeConfig :=
  match currentCfg (world x) with Some cfg => Probes cfg | None => [] end.

Definition pendingProbes (x : Serving) : option (list ProbeConfig) :=
  match callback x with Some (CbReloading newCfg) => Some (Probes newCfg) | _ => None end.

(** The state [w] the server would be in after the answered requests, with what
    the callback in progress has already done. *)
Definition worldIs (x : Serving) (w : World) : Prop :=
  world x = match callback x with
            | None => w
            | Some (CbReloading newCfg) => schedReload (Probes newCfg) w
            | Some (CbStored newCfg) => UpdateConfig newCfg (schedReload (Probes newCfg) w)
            end.

Record served_inv (L : Config -> Prop) (w0 : World) (x : Serving) : Prop := {
  sv_ctl : exists c, at_ctl factory c (sys x);
  sv_map : exact_map (sched (sys x));
  sv_live : serving_inv (currentProbes x) (pendingProbes x) (sys x);
  sv_current : exists cfg, currentCfg (world x) = Some cfg /\ L cfg;
  sv_callback : forall newCfg, callback x = Some (CbReloading newCfg) \/ callback x = Some (CbStored newCfg) -> L newCfg;
  sv_idle : pendingProbes x = None -> reloadPC (sys x) = None;
  sv_world : worldIs x (foldl answered w0 (handled x))
}.

Lemma logError_current e w : currentCfg (logError srv e w) = currentCfg w.
Proof. unfold logError. by destruct (shown _ _). Qed.

Lemma step_served_inv L w0 x y :
  (forall cfg, loads cfg -> good factory (Probes cfg)) -> (forall cfg, loads cfg -> L cfg) ->
  served_inv L w0 x -> calmServe x y -> served_inv L w0 y.
Proof.
  intros Hgood HL [[c Ha] He Hi [cur [Hcur HLc]] Hcb Hid Hw] [Hs Hcalm].
  assert (forall cfgs, loadsProbes cfgs -> good factory cfgs) as Hg by (intros cfgs (cfg & Hl & <-); auto).
  assert (sys y = sys x \/ calmStep factory runs loadsProbes (sys x) (sys y)) as Hsys
    by (destruct (serve_step x y Hs); [by left|right; by split]).
  assert (exists c', at_ctl factory c' (sys y)) as Hctl.
  { destruct Hsys as [-> |Hst]; [by exists c|by eapply calmStep_at_ctl]. }
  assert (exact_map (sched (sys y))) as Hex.
  { destruct Hsys as [-> |[Hst _]]; [done|by eapply step_exact]. }
  unfold currentProbes, pendingProbes, worldIs in *.
  destruct Hs as [x err _ Hc _ _|x s' newCfg Hal Hc Hl Hq|x s' Hs Hn|x newCfg _ Hc Hr|x newCfg _ Hc]; rewrite ?Hc in *.
  - split; unfold currentProbes, pendingProbes, worldIs; simpl; rewrite ?logError_current; eauto.
    by rewrite foldl_app, Hw.
  - split; unfold currentProbes, pendingProbes, worldIs; simpl; eauto.
    + unfold requestReload in Hq. destruct (reloadPC (sys x)); [done|]. by destruct (srvUp (sys x)); simplify_eq.
    + intros ? [[= <-]|?]; [auto|done].
    + done.
    + by rewrite Hw.
  - split; unfold currentProbes, pendingProbes, worldIs; simpl; eauto.
    by eapply step_system_inv.
  - assert (L newCfg) as HLn by auto.
    split; unfold currentProbes, pendingProbes, worldIs; simpl; eauto; [|intros ? [?|[= <-]]; done|by rewrite Hw].
    unfold serving_inv in *. rewrite Hr in *. by repeat case_match; try done; destruct Hi.
  - split; unfold currentProbes, pendingProbes, worldIs; simpl; eauto; [by intros ? [?|?]|].
    by rewrite foldl_app, Hw.
Qed.

(** The system underneath makes its own moves. *)
Lemma serve_calm x y : rtc calmServe x y -> rtc (calmStep factory runs loadsProbes) (sys x) (sys y).
Proof.
  induction 1 as [|x y z [Hxy Hc] _ IH]; [apply rtc_refl|].
  destruct (serve_step x y Hxy) as [<-|Hs]; [done|]. eapply rtc_l; [|exact IH]. by split.
Qed.

Lemma serving_reachable L exps n cfg w x :
  (forall cfg, loads cfg -> good factory (Probes cfg)) -> (forall cfg, loads cfg -> L cfg) ->
  good factory (Probes cfg) -> L cfg ->
  rtc calmServe (serveBoot exps n cfg w) x -> served_inv L (UpdateConfig cfg w) x.
Proof.
  intros Hgood HL Hg Hc H.
  assert (forall cfgs, loadsProbes cfgs -> good factory cfgs) as Hl by (intros cfgs (c & Hl & <-); auto).
  assert (served_inv L (UpdateConfig cfg w) (serveBoot exps n cfg w)) as Hb.
  { split; simpl; [|exact (calm_exact factory runs loadsProbes exps n _ _ Hl Hg (rtc_refl _ _))|done|by eauto
                   |by intros ? [?|?]|done|done].
    exact (calm_reachable factory runs loadsProbes exps n _ _ Hl Hg (rtc_refl _ _)). }
  revert Hb. induction H as [|x y z Hxy _ IH]; [done|]. intros Hx. apply IH. by eapply step_served_inv.
Qed.

(** While main serves and no callback is in progress. *)
Lemma served_now L w0 x :
  served_inv L w0 x -> serving (mainPC (sys x)) = true -> callback x = None ->
  exists cur, currentCfg (world x) = Some cur /\ L cur /\ liveCfgs (sched (sys x)) = buildable (Probes cur) /\
    world x = foldl answered w0 (handled x).
Proof.
  intros [_ _ Hi (cur & Hcur & HL) _ Hid Hw] Hm Hcb.
  unfold pendingProbes, worldIs, currentProbes in *. rewrite Hcb in *. specialize (Hid eq_refl).
  exists cur. unfold serving_inv in Hi. rewrite Hid, Hcur in Hi. split_and!; try done.
  unfold serving in Hm. by repeat case_match.
Qed.
End Serving.

(** A run of the system alone, no reload being requested. *)
Definition quietStep {P} factory runs loads (s s' : System P) : Prop :=
  step factory runs (loadsProbes loads) s s' /\ calm s' /\ (reloadPC s = None -> reloadPC s' = None).

Lemma serve_quiet {P} factory runs loads rejects srv (s s' : System P) w cb h :
  rtc (quietStep factory runs loads) s s' ->
  rtc (calmServe factory runs loads rejects srv) {| sys := s; world := w; callback := cb; handled := h |}
    {| sys := s'; world := w; callback := cb; handled := h |}.
Proof.
  induction 1 as [|a b c (Hs & Hc & Hn) _ IH]; [apply rtc_refl|]. eapply rtc_l; [|exact IH]. split; [|exact Hc].
  exact (serve_system factory runs loads rejects srv {| sys := a; world := w; callback := cb; handled := h |} b Hs Hn).
Qed.

(** ** The wired program *)

Lemma buildable_runnable u env cfgs : runnable env cfgs -> buildable (probeFactory u) cfgs = cfgs.
Proof.
  intros [_ Hp Hc _]. unfold buildable. induction cfgs as [|c cfgs IH]; [done|].
  apply Forall_cons in Hp as [Hp Hps]. apply Forall_cons in Hc as [Hc Hcs]. simpl.
  destruct (probeFactory_wf u env c Hp Hc) as (p & -> & _). simpl. by rewrite IH.
Qed.

(** [GET /config] in the state [x], asking for JSON. *)
Definition getConfig {P} (yamlMarshal : configDump -> string + string) (srv : Server) (x : Serving (P := P)) : option Response :=
  fst (serve yamlMarshal srv "GET" "/config" "application/json" (world x)).

Lemma getConfig_stored {P} yamlMarshal srv (x : Serving (P := P)) cur :
  currentCfg (world x) = Some cur ->
  getConfig yamlMarshal srv x = Some (writeJSON StatusOK (marshalDump (toConfigDump cur))).
Proof. intros E. unfold getConfig, serve. simpl. unfold handleConfig. by rewrite E. Qed.

(** C14: what GET /config shows is what runs.  In every calm execution (a reload
    that loads is requested only once main has started its probes, and none is in
    progress when the signal arrives), started from and reloaded with runnable
    configurations (valid, with positive HTTP intervals and counts below 2^53),
    through any number of reload requests, accepted or rejected, in every state in
    which main is serving and no callback is in progress: the probe goroutines
    that have not returned are exactly one per probe of the stored configuration,
    in its order and with its settings, and GET /config answers with the dump of
    that configuration, which was loaded and validated; and the state of the
    server (the configuration stored, the reloads applied and counted, the log)
    is the one the reload handler of the server would have produced had it
    answered the same requests one after the other, each in one go. *)
Theorem served_probes_run u env yamlMarshal rejects srv exps n cfg w x :
  let loads c := runnable env (Probes c) in
  loads cfg ->
  rtc (calmServe (probeFactory u) proberRuns loads rejects srv) (serveBoot exps n cfg w) x ->
  serving (mainPC (sys x)) = true -> callback x = None ->
  (exists cur, currentCfg (world x) = Some cur /\ loads cur /\ liveCfgs (sched (sys x)) = Probes cur /\
     getConfig yamlMarshal srv x = Some (writeJSON StatusOK (marshalDump (toConfigDump cur)))) /\
  world x = foldl (answered srv) (UpdateConfig cfg w) (handled x).
Proof.
  intros loads Hr H Hm Hcb.
  assert (forall c, loads c -> good (probeFactory u) (Probes c)) as Hl by (intros; by eapply runnable_good).
  pose proof (serving_reachable (probeFactory u) proberRuns loads rejects srv loads exps n cfg w x Hl ltac:(done) (Hl _ Hr) Hr H) as Hi.
  destruct (served_now _ _ _ _ _ Hi Hm Hcb) as (cur & Hcur & HL & Hlive & Hw).
  split; [|done]. exists cur. split_and!; [done|done|by rewrite Hlive, (buildable_runnable u env)|by apply getConfig_stored].
Qed.

Lemma runnable_nil env : runnable env [].
Proof. split; constructor. Qed.

Ltac quiet t := eapply rtc_l; [split; [t|split; [vm_compute; eauto|vm_compute; done]]|].
Ltac quiet_main := quiet ltac:(eapply step_main; [by split|vm_compute; reflexivity]).
Ltac quiet_reload := quiet ltac:(eapply step_reload; [by split|vm_compute; reflexivity]).

Definition demoServed (probes : list ProbeConfig) : Config := {|
  Global := demoGlobal; Exporters := o_Exporters opsDefaults; ConfigLoad.Server := o_Server opsDefaults;
  ConfigLoad.Pipeline := o_Pipeline opsDefaults; Probes := probes; SHA256 := "" |}.

Abbreviation demoQuiet := (quietStep (probeFactory demoTables) proberRuns (fun c => runnable demoEnv (Probes c))).

(** The system serves no probes, is asked to reload, and has reloaded. *)
Lemma demo_reload_phases :
  exists s1 s2 s3 rest, rtc demoQuiet (boot demoExporters 1 []) s1 /\ alive s1 /\ srvUp s1 = true /\ reloadPC s1 = None /\
    requestReload [demoGw] s1 = Some s2 /\ calm s2 /\ rtc demoQuiet s2 s3 /\
    alive s3 /\ calm s3 /\ mainPC s3 = IWaitSignal :: rest /\ reloadPC s3 = None.
Proof.
  eexists _, _, _, _. split; [do 5 quiet_main; apply rtc_refl|]. split; [by split|]. split; [reflexivity|].
  split; [reflexivity|]. split; [vm_compute; reflexivity|]. split; [vm_compute; eauto|].
  split; [do 6 quiet_reload; apply rtc_refl|]. split; [by split|]. split; [vm_compute; eauto|]. split; reflexivity.
Qed.

(** Started without probes; one reload is rejected, the next brings one probe. *)
Lemma demo_reload_run :
  exists x rest, rtc (calmServe (probeFactory demoTables) proberRuns (fun c => runnable demoEnv (Probes c)) (fun _ => True)
                        demoServer) (serveBoot demoExporters 1 (demoServed []) demoWorld) x /\
    mainPC (sys x) = IWaitSignal :: rest /\ callback x = None /\ handled x = [Err EBufferSize; Ok (demoServed [demoGw])].
Proof.
  destruct demo_reload_phases as (s1 & s2 & s3 & rest & H1 & Ha & Hu & Hr & Hq & Hc & H3 & Ha3 & Hc3 & Hm & Hr3).
  eexists {| sys := s3 |}, rest. split; [|split; [exact Hm|split; reflexivity]].
  etrans; [exact (serve_quiet _ _ _ _ _ _ _ _ None [] H1)|].
  eapply rtc_l; [split; [by apply (serve_rejected _ _ _ _ _ _ EBufferSize)|by left]|].
  eapply rtc_l; [split; [apply (serve_load _ _ _ _ _ _ s2 (demoServed [demoGw])); [exact Ha|reflexivity|exact demoGw_runnable|exact Hq]
                        |exact Hc]|].
  etrans; [exact (serve_quiet _ _ _ _ _ _ _ _ _ _ H3)|].
  eapply rtc_l; [split; [by eapply serve_UpdateConfig|exact Hc3]|].
  eapply rtc_l; [split; [by eapply serve_RecordConfigReload|exact Hc3]|]. apply rtc_refl.
Qed.

Lemma served_probes_run_witness :
  exists x, rtc (calmServe (probeFactory demoTables) proberRuns (fun c => runnable demoEnv (Probes c)) (fun _ => True)
                   demoServer) (serveBoot demoExporters 1 (demoServed []) demoWorld) x /\
    liveCfgs (sched (sys x)) = [demoGw] /\ reloadCount (world x) = 1 /\
    world x = answered demoServer (answered demoServer (UpdateConfig (demoServed []) demoWorld) (Err EBufferSize))
                (Ok (demoServed [demoGw])).
Proof.
  destruct demo_reload_run as (x & rest & H & Hm & Hc & Hh). exists x. split; [exact H|].
  destruct (served_probes_run demoTables demoEnv (fun _ => inl "") (fun _ => True) demoServer demoExporters 1 (demoServed []) demoWorld x
    (runnable_nil _) H ltac:(rewrite Hm; reflexivity) Hc) as [(cur & Hcur & _ & Hl & _) Hw].
  rewrite Hh in Hw. rewrite Hw in Hcur. vm_compute in Hcur. injection Hcur as <-.
  split; [exact Hl|]. rewrite Hw. split; reflexivity.
Defined.
