(* ===== verification/Boot.v ===== *)
(** * cmd/trimon/main.go: from the command line to the running program.

    [main] parses the flags, builds the logger, loads the configuration, creates
    the exporters, wires the server, the pipeline and the scheduler, and binds
    the socket; each step can end the process with its exit status.  What runs
    after that is the system of System.v. *)

From S2P Require Import Prelude.
From S2P Require Import GoStrings.
From S2P Require Import GoParse.
From S2P Require Import Float64.
From S2P Require Import GoFmt.
From S2P Require Import Types.
From S2P Require Import Probe.
From S2P Require Import Prober.
From S2P Require Import Config.
From S2P Require Import ConfigLoad.
From S2P Require Import Otlp.
From S2P Require Import Stdout.
From S2P Require Import Pipeline.
From S2P Require Import Log.
From S2P Require Import Server.
From S2P Require Import Scheduler.
From S2P Require Import System.
From S2P Require Import Main.
From S2P Require Import Liveness.
From S2P Require Import Serving.
From Stdlib Require Import Ascii.

(** ** The flags *)

Record Flags := { configPath : string; probesPath : string; logLevel : string; logFormat : string }.

Definition flagDefaults : Flags := {| configPath := ""; probesPath := ""; logLevel := "info"; logFormat := "json" |}.

Inductive FlagName := FConfig | FProbes | FLogLevel | FLogFormat.

Definition flagText (n : FlagName) : string :=
  match n with FConfig => "config" | FProbes => "probes" | FLogLevel => "log-level" | FLogFormat => "log-format" end.

Definition formal (name : string) : option FlagName :=
  List.find (fun n => (flagText n =? name)%string) [FConfig; FProbes; FLogLevel; FLogFormat].

Definition setFlag (n : FlagName) (v : string) (f : Flags) : Flags :=
  match n with
  | FConfig => {| configPath := v; probesPath := probesPath f; logLevel := logLevel f; logFormat := logFormat f |}
  | FProbes => {| configPath := configPath f; probesPath := v; logLevel := logLevel f; logFormat := logFormat f |}
  | FLogLevel => {| configPath := configPath f; probesPath := probesPath f; logLevel := v; logFormat := logFormat f |}
  | FLogFormat => {| configPath := configPath f; probesPath := probesPath f; logLevel := logLevel f; logFormat := v |}
  end.

Inductive flagError :=
  | BadFlagSyntax (arg : string)
  | FlagNotDefined (name : string)
  | FlagNeedsArgument (name : string).

Inductive parsedFlags := FlagsOk (f : Flags) | FlagsHelp | FlagsBad (e : flagError).

(** The argument as [parseOne] reads it: not a flag, the terminator, or the name
    of a flag with the value after its equals sign, if any. *)
Inductive argShape := ArgPlain | ArgTerminator | ArgBad | ArgFlag (name : string) (value : option string).

(** What follows the dashes. *)
Definition splitFlag (name : string) : argShape :=
  match name with
  | EmptyString => ArgBad
  | String c _ =>
      if (c =? "-")%char || (c =? "=")%char then ArgBad
      else match IndexByte name "=" with
           | Some i => ArgFlag (GoStrings.take i name) (Some (GoStrings.drop (S i) name))
           | None => ArgFlag name None
           end
  end.

Definition shapeOf (s : string) : argShape :=
  match s with
  | String c0 (String c1 rest) =>
      if negb (c0 =? "-")%char then ArgPlain
      else if (c1 =? "-")%char then match rest with EmptyString => ArgTerminator | _ => splitFlag rest end
      else splitFlag (String c1 rest)
  | _ => ArgPlain
  end.

(** [flag.Parse()] with string flags only. *)
Fixpoint parseFlags (args : list string) (f : Flags) : parsedFlags :=
  match args with
  | [] => FlagsOk f
  | s :: rest =>
      match shapeOf s with
      | ArgPlain | ArgTerminator => FlagsOk f
      | ArgBad => FlagsBad (BadFlagSyntax s)
      | ArgFlag name value =>
          match formal name with
          | None => if ((name =? "help") || (name =? "h"))%string then FlagsHelp else FlagsBad (FlagNotDefined name)
          | Some n =>
              match value with
              | Some v => parseFlags rest (setFlag n v f)
              | None => match rest with
                        | v :: rest' => parseFlags rest' (setFlag n v f)
                        | [] => FlagsBad (FlagNeedsArgument name)
                        end
              end
          end
      end
  end.

Example flags_mixed : parseFlags ["-config"; "ops.yaml"; "--probes=probes.d"; "--log-level"; "-"; "x"; "-h"] flagDefaults =
  FlagsOk {| configPath := "ops.yaml"; probesPath := "probes.d"; logLevel := "-"; logFormat := "json" |}.
Proof. reflexivity. Qed.
Example flags_help : parseFlags ["--config=a=b"; "--help"] flagDefaults = FlagsHelp. Proof. reflexivity. Qed.
Example flags_missing : parseFlags ["--config"] flagDefaults = FlagsBad (FlagNeedsArgument "config"). Proof. reflexivity. Qed.
Example flags_dashes : parseFlags ["---config=x"] flagDefaults = FlagsBad (BadFlagSyntax "---config=x"). Proof. reflexivity. Qed.

(** ** Starting up *)

(** What the program finds: files, resolver, YAML package, metrics SDK, the
    error of binding an address, the error of a write to standard output during the
    n-th export,
    Unicode tables, and the version stamps of the build. *)
Record MainEnv := {
  me_os : OSEnv;
  me_env : ConfigEnv;
  me_yaml : YAML;
  me_sdk : SDK;
  me_listen : string -> option string;
  me_write : nat -> Record_ -> option string;
  me_version : string;
  me_commit : string
}.

Inductive ExitReason :=
  | ExitHelp
  | ExitFlags (e : flagError)
  | ExitConfigFlag                     (* flag --config is required *)
  | ExitProbesFlag                     (* flag --probes is required *)
  | ExitLoad (e : cfg_error)           (* failed to load config *)
  | ExitExporter (e : string)          (* failed to create telemetry exporter *)
  | ExitListen (e : string).           (* failed to start HTTP server *)

(** The wired program when main starts the goroutines. *)
Record Program := {
  p_flags : Flags;
  p_cfg : Config;
  p_logger : Logger;
  p_exporter : Otlp.Exporter;
  p_world : World;
  p_system : System AnyProber
}.

Inductive Outcome :=
  | Exits (status : Z) (why : ExitReason)
  | Crashes (p : go_panic)
  | Runs (p : Program).

(** [Export] of the telemetry exporter always returns nil; the stdout exporter, in
    the state its earlier calls have left it in, returns the error of encoding or
    writing. *)
Definition otlpSink : Pipeline.Exporter := {| ex_Name := otlpName; ex_Export := fun _ _ => None |}.

Definition stdoutSink (e : MainEnv) (x : StdoutExporter) : Pipeline.Exporter :=
  {| ex_Name := stdoutName;
     ex_Export := fun before r =>
       let '(x', _, _) := Exports (unicodeTables (me_env e)) x (me_write e) 0 before in
       snd (Stdout.Export (unicodeTables (me_env e)) x' (me_write e (length before)) r) |}.

Definition exportersOf (e : MainEnv) (cfg : Config) : list Pipeline.Exporter :=
  otlpSink :: (if stdout_Enabled (Stdout (Exporters cfg))
               then [stdoutSink e (NewStdout (stdout_Format (Stdout (Exporters cfg))))] else []).

(** The server as main wires it, with the health of the pipeline in state [s]. *)
Definition serverOf (e : MainEnv) (p : Program) (s : System AnyProber) : Server :=
  SetReloadFunc (reloadCallback (me_os e) (me_env e) (me_yaml e) (configPath (p_flags p)) (probesPath (p_flags p)))
    (SetHealthChecker (fun _ => BufferUsage (pipe s))
      (SetMetricsHandler (SetLogger (Some (p_logger p)) (NewServer (Listen (ConfigLoad.Server (p_cfg p))))))).

Definition initialWorld : World := {| currentCfg := None; reloads := []; reloadCount := 0; serverLog := [] |}.

Definition main (e : MainEnv) (args : list string) : Outcome :=
  match parseFlags args flagDefaults with
  | FlagsHelp => Exits 0 ExitHelp
  | FlagsBad err => Exits 2 (ExitFlags err)
  | FlagsOk f =>
      if (configPath f =? "")%string then Exits 1 ExitConfigFlag
      else if (probesPath f =? "")%string then Exits 1 ExitProbesFlag
      else
        let logger := buildLogger (logLevel f) (logFormat f) in
        match Load (me_os e) (me_env e) (me_yaml e) (configPath f) (probesPath f) with
        | Err err => Exits 1 (ExitLoad err)
        | Panic p => Crashes p
        | Ok cfg =>
            match Otlp.New (me_sdk e) (OTLP (Exporters cfg)) (me_version e) (me_commit e) with
            | Err err => Exits 1 (ExitExporter err)
            | Panic p => Crashes p
            | Ok exp =>
                let p := {| p_flags := f; p_cfg := cfg; p_logger := logger; p_exporter := exp;
                            p_world := UpdateConfig cfg initialWorld;
                            p_system := boot (exportersOf e cfg) (BufferSize (ConfigLoad.Pipeline cfg)) (Probes cfg) |} in
                match StartServer (me_listen e) (serverOf e p (p_system p)) with
                | Err err => Exits 1 (ExitListen err)
                | Panic q => Crashes q
                | Ok _ => Runs p
                end
            end
        end
  end.

(** ** Command lines *)

(** The four ways to write an assignment. *)
Inductive Spelling := OneDash | TwoDashes | OneDashEquals | TwoDashesEquals.

Definition spell (a : Spelling * FlagName * string) : list string :=
  let '(sp, n, v) := a in
  match sp with
  | OneDash => ["-" +:+ flagText n; v]
  | TwoDashes => ["--" +:+ flagText n; v]
  | OneDashEquals => ["-" +:+ flagText n +:+ "=" +:+ v]
  | TwoDashesEquals => ["--" +:+ flagText n +:+ "=" +:+ v]
  end.

Definition assign (f : Flags) (a : Spelling * FlagName * string) : Flags := setFlag (snd (fst a)) (snd a) f.

(** Flag parsing stops here. *)
Definition stops (tail : list string) : Prop :=
  match tail with [] => True | a :: _ => shapeOf a = ArgPlain \/ shapeOf a = ArgTerminator end.

Lemma splitFlag_equals n v : splitFlag (flagText n +:+ "=" +:+ v) = ArgFlag (flagText n) (Some v).
Proof.
  assert (without "=" (flagText n)) as Hn by by destruct n.
  change ("=" +:+ v) with (String "=" v). pose proof (IndexByte_app (flagText n) "=" v Hn) as Hi.
  pose proof (take_app_len (flagText n) (String "=" v)) as Ht.
  pose proof (drop_app_len (flagText n +:+ "=") v) as Hd. rewrite app_assoc_str, length_app_str, Nat.add_1_r in Hd.
  change ("=" +:+ v) with (String "=" v) in Hd.
  unfold splitFlag. rewrite Hi, Ht, Hd. by destruct n.
Qed.

Lemma splitFlag_bare n : splitFlag (flagText n) = ArgFlag (flagText n) None.
Proof. by destruct n. Qed.

Lemma formal_text n : formal (flagText n) = Some n.
Proof. by destruct n. Qed.

Lemma shapeOf_dashes s name v :
  splitFlag s = ArgFlag name v -> shapeOf ("-" +:+ s) = splitFlag s /\ shapeOf ("--" +:+ s) = splitFlag s.
Proof.
  intros Hs. destruct s as [|c s]; [done|]. split; [|done]. unfold shapeOf. simpl. destruct (c =? "-")%char eqn:E; [|done].
  unfold splitFlag in Hs. rewrite E in Hs. done.
Qed.

Lemma parseFlags_spell a rest f : parseFlags (spell a ++ rest) f = parseFlags rest (assign f a).
Proof.
  destruct a as [[sp n] v]. unfold assign. simpl fst. simpl snd.
  destruct (shapeOf_dashes _ _ _ (splitFlag_bare n)) as [H1 H2].
  destruct (shapeOf_dashes _ _ _ (splitFlag_equals n v)) as [H3 H4].
  destruct sp; cbn [spell app parseFlags];
    rewrite ?H1, ?H2, ?H3, ?H4, ?splitFlag_bare, ?splitFlag_equals, formal_text; done.
Qed.

(** the command line.  Any sequence of assignments to the four flags, each
    written with one dash or two, with an equals sign or as two arguments, is
    read as exactly those assignments in order: the last one of a flag wins, a
    value may be empty, contain equals signs or begin with a dash, and what
    follows the first plain argument or the terminator is ignored. *)
Theorem flags_last_wins assigns tail f :
  stops tail -> parseFlags (concat (spell <$> assigns) ++ tail) f = FlagsOk (foldl assign f assigns).
Proof.
  intros Ht. revert f. induction assigns as [|a assigns IH]; intros f.
  - simpl. destruct tail as [|t tail]; [done|]. simpl in *. by destruct Ht as [-> | ->].
  - cbn [fmap list_fmap concat foldl]. rewrite <- app_assoc, parseFlags_spell. apply IH.
Qed.

Lemma flags_last_wins_witness :
  parseFlags ["-config=a.yaml"; "--probes"; "-d"; "--config"; "k=v.yaml"; "--"; "--probes=x"] flagDefaults =
  FlagsOk {| configPath := "k=v.yaml"; probesPath := "-d"; logLevel := "info"; logFormat := "json" |}.
Proof.
  exact (flags_last_wins [(OneDashEquals, FConfig, "a.yaml"); (TwoDashes, FProbes, "-d"); (TwoDashes, FConfig, "k=v.yaml")]
    ["--"; "--probes=x"] flagDefaults (or_intror eq_refl)).
Defined.

(** ** From the command line to the end of the process *)

(** What the validation does not check: the interval of HTTP probes and a count
    beyond the exact range of float64. *)
Definition checked (cfgs : list ProbeConfig) : Prop :=
  Forall (fun c => Count c < 2 ^ 53) cfgs /\ Forall (fun c => Type_ c = ProbeTypeHTTP -> 0 < Interval c) cfgs.

(** What a reload may find, the files and the resolver having changed. *)
Definition reloadable (e : MainEnv) (f : Flags) (cfg : Config) : Prop :=
  exists os env, range_ok env /\ Load os env (me_yaml e) (configPath f) (probesPath f) = Ok cfg /\ checked (Probes cfg).

Definition rejectable (e : MainEnv) (f : Flags) (err : cfg_error) : Prop :=
  exists os env, Load os env (me_yaml e) (configPath f) (probesPath f) = Err err.

(** The program as main leaves it when [srv.Start()] is about to serve, and its
    executions. *)
Definition launchedProgram (p : Program) : Serving :=
  {| sys := p_system p; world := p_world p; callback := None; handled := [] |}.

Definition programStep (e : MainEnv) (p : Program) : Serving -> Serving -> Prop :=
  calmServe (probeFactory (unicodeTables (me_env e))) proberRuns (reloadable e (p_flags p)) (rejectable e (p_flags p))
    (serverOf e p (p_system p)).

Lemma Load_runnable os env y opsPath probesDir cfg :
  range_ok env -> Load os env y opsPath probesDir = Ok cfg -> checked (Probes cfg) -> runnable env (Probes cfg).
Proof.
  intros Hr Hl [Hc Hh]. destruct (Load_interface _ _ _ _ _ _ Hr Hl) as [[Hn _ Hp _ _ _] _]. by split.
Qed.

Lemma reloadable_runnable e f cfg : reloadable e f cfg -> exists env, runnable env (Probes cfg).
Proof. intros (os & env & Hr & Hl & Hc). exists env. by eapply Load_runnable. Qed.

Lemma reloadable_good u e f cfg : reloadable e f cfg -> good (probeFactory u) (Probes cfg).
Proof. intros [env H]%reloadable_runnable. by eapply runnable_good. Qed.

Lemma reloads_good u e f cfgs : loadsProbes (reloadable e f) cfgs -> good (probeFactory u) cfgs.
Proof. intros (cfg & H & <-). by eapply reloadable_good. Qed.

Lemma reloads_return u e f cfgs : loadsProbes (reloadable e f) cfgs -> Forall (canReturn (probeFactory u) proberRuns) cfgs.
Proof. intros (cfg & [env H]%reloadable_runnable & <-). by eapply runnable_returns. Qed.

Lemma main_runs e args p :
  main e args = Runs p ->
  Load (me_os e) (me_env e) (me_yaml e) (configPath (p_flags p)) (probesPath (p_flags p)) = Ok (p_cfg p) /\
  p_system p = boot (exportersOf e (p_cfg p)) (BufferSize (ConfigLoad.Pipeline (p_cfg p))) (Probes (p_cfg p)) /\
  p_world p = UpdateConfig (p_cfg p) initialWorld.
Proof.
  unfold main. destruct (parseFlags args flagDefaults) as [f| |]; [|done..].
  destruct (configPath f =? "")%string; [done|]. destruct (probesPath f =? "")%string; [done|].
  destruct (Load _ _ _ _ _) as [cfg| |] eqn:El; [|done..].
  destruct (Otlp.New _ _ _ _) as [exp| |]; [|done..]. unfold StartServer.
  destruct (me_listen e _); [done|]. by intros [= <-].
Qed.

Lemma failing_stdout e cfg before r : Forall (fun n => n = "stdout") (failing (exportersOf e cfg) before r).
Proof.
  unfold failing, exportersOf. cbn [List.filter otlpSink ex_Export]. destruct (stdout_Enabled _); [|constructor].
  cbn [List.filter stdoutSink ex_Export]. case_match; by repeat constructor.
Qed.

Lemma failing_all_stdout e cfg before rs :
  Forall (fun n => n = "stdout") (failedExports (exportersOf e cfg) before rs).
Proof.
  revert before. induction rs as [|r rs IH]; intros before; [constructor|]. simpl.
  apply Forall_app. split; [apply failing_stdout|apply IH].
Qed.

(** The system, whatever the server did. *)
Lemma program_system_safe e args p s w :
  let u := unicodeTables (me_env e) in
  let buffer := BufferSize (ConfigLoad.Pipeline (p_cfg p)) in
  range_ok (me_env e) -> main e args = Runs p -> checked (Probes (p_cfg p)) -> buffer <= 2 ^ 50 ->
  rtc (calmStep (probeFactory u) proberRuns (loadsProbes (reloadable e (p_flags p)))) (p_system p) s ->
  panicked s = None /\
  rsp_Status (handleHealthz (serverOf e p s) w) =
    (if 9 * buffer <? 10 * Z.of_nat (length (buf (results (pipe s)))) then StatusServiceUnavailable else StatusOK) /\
  exportCalls (pipe s) = concat (replicate (length (exported (pipe s))) (ex_Name <$> exportersOf e (p_cfg p))) /\
  Forall (fun name => name = "stdout") (exportErrors (pipe s)) /\
  (signalled s = true -> forall k,
     inevitably (winding (probeFactory u) proberRuns)
       (fun x => mainPC (snd x) = [] /\ panicked (snd x) = None /\ wound (snd x)) (k, s)).
Proof.
  intros u buffer Hr Hm Hc Hb H. apply main_runs in Hm as (Hl & Hsys & _). rewrite Hsys in H.
  pose proof (Load_runnable _ _ _ _ _ _ Hr Hl Hc) as Hrun.
  pose proof (reachable_wired _ _ _ _ _ _ _ (calm_step _ _ _ _ _ H)) as [W1 W2 W3 W4 W5].
  destruct (Load_interface _ _ _ _ _ _ Hr Hl) as [[_ _ _ Hbuf _ _] _]. fold buffer in W1, Hbuf.
  pose proof (calm_kept (probeFactory u) proberRuns _ (reloads_good u e (p_flags p)) (reloads_return u e (p_flags p))
    _ _ _ _ (runnable_good u _ _ Hrun) (runnable_returns u _ _ Hrun) H) as Hk.
  destruct (kept_ctl _ _ _ Hk) as [c Ha]. split_and!.
  - apply Ha.
  - pose proof (inv_cap _ (ac_pipe_inv _ _ _ Ha)) as Hcap.
    assert (Z.of_nat (cap (results (pipe s))) = buffer) as Hz by (rewrite W1; apply Z2Nat.id; lia).
    rewrite (proj1 (healthz_response (pipe s) (serverOf e p s) w ltac:(lia) ltac:(lia) Hcap eq_refl)). by rewrite Hz.
  - by rewrite W4.
  - rewrite W5. apply failing_all_stdout.
  - intros Hs k. eapply inevitably_impl;
      [|apply (shutdown_inevitable _ _ _ (reloads_good u e (p_flags p)) (reloads_return u e (p_flags p)))].
    + intros x [Hend [[[c' Hc'] _ _ _] _ _]]. split; [done|]. split; [apply Hc'|by eapply at_ctl_wound].
    + split; [done|done|by eapply calm_signalled].
Qed.

(** The server, whatever the system did. *)
Lemma program_server_sound e args p x :
  let u := unicodeTables (me_env e) in
  range_ok (me_env e) -> main e args = Runs p -> checked (Probes (p_cfg p)) ->
  rtc (programStep e p) (launchedProgram p) x -> serving (mainPC (sys x)) = true -> callback x = None ->
  exists cur, currentCfg (world x) = Some cur /\ reloadable e (p_flags p) cur /\ liveCfgs (sched (sys x)) = Probes cur /\
    world x = foldl (answered (serverOf e p (p_system p))) (p_world p) (handled x).
Proof.
  intros u Hr Hm Hc H Hpc Hcb. apply main_runs in Hm as (Hl & Hsys & Hw).
  assert (reloadable e (p_flags p) (p_cfg p)) as Hself by (by exists (me_os e), (me_env e)).
  unfold launchedProgram in H. rewrite Hsys, Hw in H.
  pose proof (serving_reachable (probeFactory u) proberRuns (reloadable e (p_flags p)) (rejectable e (p_flags p))
    (serverOf e p (p_system p)) (reloadable e (p_flags p)) _ _ (p_cfg p) initialWorld x
    (reloadable_good u e (p_flags p)) ltac:(done) (reloadable_good u _ _ _ Hself) Hself H) as Hi.
  destruct (served_now _ _ _ _ _ Hi Hpc Hcb) as (cur & Hcur & HL & Hlive & Hx). exists cur.
  destruct (reloadable_runnable _ _ _ HL) as [env Hrun].
  split_and!; [done|done|by rewrite Hlive, (buildable_runnable u env)|by rewrite Hw].
Qed.


Definition demoMain : MainEnv := {|
  me_os := demoOS; me_env := demoEnv; me_yaml := demoYAML; me_sdk := acceptingSDK; me_listen := fun _ => None;
  me_write := fun _ _ => None; me_version := "v1.0.0"; me_commit := "abc1234" |}.

Definition demoArgs : list string := ["--config=ops.yaml"; "--probes"; "probes.d"].

(** Main has started both probes and claimed the signals, a run is in progress,
    and the signal arrives. *)
Lemma demo_started_run exps n loads :
  exists s w, rtc (quietStep (probeFactory demoUnicode) proberRuns loads) (boot exps n (Probes demoConfig)) s /\
    signalled s = true /\ mainPC s = IWaitSignal :: shutdown /\ buf (results (pipe s)) = [] /\
    goroutines (sched s) !! 1%nat = Some w /\ w_phase w = WRunning.
Proof.
  do 2 eexists. split.
  - do 7 quiet_main. quiet ltac:(eapply (step_worker _ _ _ _ _ MBegin 1%nat); [by split|vm_compute; reflexivity]).
    quiet ltac:(eapply (step_worker _ _ _ _ _ MTick 1%nat); [by split|vm_compute; reflexivity]).
    quiet ltac:(eapply step_signal; by split). apply rtc_refl.
  - do 4 (split; [reflexivity|]). reflexivity.
Qed.

