(* ===== verification/Smoke.v ===== *)
(** * test/smoke/parse.go: reading back the metrics page.

    The smoke test scrapes GET /metrics and asserts on the parsed series.  The
    page is written by the Prometheus client, which is not part of the
    repository: [render] states the text exposition format for it, with the
    printing of floats as an argument. *)

From S2P Require Import Prelude.
From S2P Require Import GoStrings.
From S2P Require Import Float64.
From S2P Require Import GoTime.
From S2P Require Import GoFmt.
From S2P Require Import GoParse.
From Stdlib Require Import Ascii.

Record sample := {
  s_name : string;
  s_labels : gmap string string;
  s_value : float64
}.

(** Anything unparseable degrades to NaN. *)
Definition parseValue (tok : string) : float64 := default NaN (ParseFloat tok).

Definition quoteByte : ascii := chr 34.

Fixpoint parsePairs (labels : gmap string string) (kvs : list string) : res unit (gmap string string) :=
  match kvs with
  | [] => Ok labels
  | kv :: rest =>
      let kv := TrimSpace kv in
      match IndexByte kv "=" with
      | None => parsePairs labels rest                                  (* continue *)
      | Some eq =>
          key ← sliceOf kv 0 eq;
          val ← sliceOf kv (eq + 1) (String.length kv);
          parsePairs (<[key := TrimByte val quoteByte]> labels) rest
      end
  end.

Definition parseLabels (s : string) : res unit (gmap string string) := parsePairs ∅ (Split s ",").

(** What is before and after the label block of a line, with its labels; [None]
    is the [continue] of a closing brace before the opening one. *)
Definition splitLine (line : string) : res unit (option (string * gmap string string * string)) :=
  match IndexByte line "{" with
  | Some i =>
      match IndexByte line "}" with
      | None => Ok None
      | Some j =>
          if (j <? i)%nat then Ok None
          else name ← sliceOf line 0 i;
               inner ← sliceOf line (i + 1) j;
               labels ← parseLabels inner;
               after ← sliceOf line (j + 1) (String.length line);
               Ok (Some (name, labels, TrimSpace after))
      end
  | None =>
      match IndexByte line " " with
      | Some i =>
          name ← sliceOf line 0 i;
          after ← sliceOf line (i + 1) (String.length line);
          Ok (Some (name, ∅, TrimSpace after))
      | None => Ok (Some (line, ∅, ""))
      end
  end.

Definition parseLine (line : string) : res unit (option sample) :=
  let line := TrimSpace line in
  if ((line =? "") || HasPrefix line "#")%string then Ok None
  else parts ← splitLine line;
       match parts with
       | None => Ok None
       | Some (name, labels, rest) =>
           match Fields rest with
           | [] => Ok None
           | tok :: _ => Ok (Some {| s_name := name; s_labels := labels; s_value := parseValue tok |})
           end
       end.

Fixpoint parseLines (lines : list string) : res unit (list sample) :=
  match lines with
  | [] => Ok []
  | line :: rest =>
      s ← parseLine line;
      out ← parseLines rest;
      Ok (match s with Some x => x :: out | None => out end)
  end.

Definition lineFeed : ascii := chr 10.
Definition parsePromText (body : string) : res unit (list sample) := parseLines (Split body lineFeed).

(** [s.labels["probe_type"] == typ]: a missing label reads as the empty string. *)
Definition hasType (name typ : string) (s : sample) : bool :=
  ((s_name s =? name) && (default "" (s_labels s !! "probe_type") =? typ))%string.
Definition ofType (samples : list sample) (name typ : string) : list sample :=
  List.filter (hasType name typ) samples.

Definition anyValue (samples : list sample) (v : float64) : bool := existsb (fun s => feqb (s_value s) v) samples.
Definition anyNonNaN (samples : list sample) : bool := existsb (fun s => negb (isNaN (s_value s))) samples.

(** ** The text exposition format *)

Inductive promLine :=
  | Comment (text : string)                                  (* # HELP ..., # TYPE ... *)
  | Blank
  | Series (name : string) (labels : list (string * string)) (value : float64).

Section Render.
Variable fmtFloat : float64 -> string.

Definition quoted (s : string) : string := String quoteByte (s +:+ String quoteByte "").
Definition renderLabel (kv : string * string) : string := fst kv +:+ "=" +:+ quoted (snd kv).
Definition renderLabels (labels : list (string * string)) : string :=
  match labels with [] => "" | _ => "{" +:+ Join (renderLabel <$> labels) "," +:+ "}" end.

Definition renderLine (l : promLine) : string :=
  match l with
  | Comment text => "#" +:+ text
  | Blank => ""
  | Series name labels value => name +:+ renderLabels labels +:+ " " +:+ fmtFloat value
  end.

(** Every line ends with a line feed. *)
Fixpoint render (page : list promLine) : string :=
  match page with
  | [] => ""
  | l :: rest => renderLine l +:+ String lineFeed (render rest)
  end.
End Render.

(** The series of a page. *)
Definition seriesOf (l : promLine) : option sample :=
  match l with
  | Series name labels value => Some {| s_name := name; s_labels := list_to_map labels; s_value := value |}
  | _ => None
  end.

(** ** The parser never panics *)

Lemma parsePairs_ok labels kvs : exists m, parsePairs labels kvs = Ok m.
Proof.
  revert labels. induction kvs as [|kv kvs IH]; intros labels; simpl; [eauto|].
  destruct (IndexByte (TrimSpace kv) "=") as [eq|] eqn:E; [|apply IH]. apply IndexByte_lt in E.
  destruct (sliceOf_ok (E := unit) (TrimSpace kv) 0 eq) as [k ->]; [lia..|].
  destruct (sliceOf_ok (E := unit) (TrimSpace kv) (eq + 1) (String.length (TrimSpace kv))) as [v ->]; [lia..|].
  apply IH.
Qed.

Lemma splitLine_ok line : exists parts, splitLine line = Ok parts.
Proof.
  unfold splitLine. destruct (IndexByte line "{") as [i|] eqn:Ei.
  - destruct (IndexByte line "}") as [j|] eqn:Ej; [|eauto]. destruct (Nat.ltb_spec j i); [eauto|].
    assert (i <> j) as Hne by (intros ->; by pose proof (IndexByte_ne line _ _ j Ei Ej)).
    apply IndexByte_lt in Ei. apply IndexByte_lt in Ej.
    destruct (sliceOf_ok (E := unit) line 0 i) as [a ->]; [lia..|].
    destruct (sliceOf_ok (E := unit) line (i + 1) j) as [b ->]; [lia..|].
    destruct (sliceOf_ok (E := unit) line (j + 1) (String.length line)) as [c Hc]; [lia..|].
    simpl. unfold parseLabels. destruct (parsePairs_ok ∅ (Split b ",")) as [m ->]. simpl. rewrite Hc. simpl. eauto.
  - destruct (IndexByte line " ") as [i|] eqn:Es; [|eauto]. apply IndexByte_lt in Es.
    destruct (sliceOf_ok (E := unit) line 0 i) as [a ->]; [lia..|].
    destruct (sliceOf_ok (E := unit) line (i + 1) (String.length line)) as [c Hc]; [lia..|].
    simpl. rewrite Hc. simpl. eauto.
Qed.

Lemma parseLine_ok line : exists s, parseLine line = Ok s.
Proof.
  unfold parseLine. destruct (_ || _); [eauto|]. destruct (splitLine_ok (TrimSpace line)) as [[[[a b] c]|] ->]; simpl; [|eauto].
  destruct (Fields c); eauto.
Qed.

Lemma parseLines_ok lines : exists out, parseLines lines = Ok out /\ (length out <= length lines)%nat.
Proof.
  induction lines as [|l lines (out & IH & Hl)]; simpl; [by eexists|].
  destruct (parseLine_ok l) as [s ->]. rewrite IH. simpl. eexists. split; [reflexivity|]. destruct s; simpl; lia.
Qed.

(** ** Reading a rendered page *)

(** Letters, digits and the punctuation of names and numbers. *)
Definition wordChar (c : ascii) : bool :=
  isDigit c || ((97 <=? code (lower c)) && (code (lower c) <=? 122)) ||
  existsb (Ascii.eqb c) ["_"; ":"; "."; "+"; "-"]%char.

Definition word (s : string) : Prop := s <> "" /\ forallb_str wordChar s = true.

(** The bytes the comment in the source rules out, and the closing brace. *)
Definition forbidden : list ascii := [chr 10; ","; quoteByte; "\"; "}"]%char.
Definition plainValue (v : string) : Prop := Forall (fun c => without c v) forbidden.

Lemma wordChar_facts c : wordChar c = true -> solid c = true /\ c ∉ [" "; "{"; "}"; "="; ","; "#"; chr 10; chr 34]%char.
Proof.
  assert (implb (wordChar c) (solid c && bool_decide (c ∉ [" "; "{"; "}"; "="; ","; "#"; chr 10; chr 34]%char)) = true) as H
    by (destruct c as [[] [] [] [] [] [] [] []]; vm_compute; reflexivity).
  intros Hc. rewrite Hc in H. simpl in H. apply andb_true_iff in H as [? H]. by apply bool_decide_eq_true in H.
Qed.

Lemma word_without s c : word s -> c ∈ [" "; "{"; "}"; "="; ","; "#"; chr 10; chr 34]%char -> without c s.
Proof.
  intros [_ Hs] Hc. eapply without_forall; [exact Hs|]. destruct (wordChar c) eqn:E; [|done].
  by apply wordChar_facts in E as [_ E].
Qed.

Lemma word_solid s : word s -> forallb_str solid s = true.
Proof.
  intros [_ Hs]. rewrite forallb_str_spec in *. eapply Forall_impl; [exact Hs|]. intros c Hc. by apply wordChar_facts.
Qed.

Lemma word_first s : word s -> exists c t, s = String c t /\ solid c = true /\ c <> "#"%char.
Proof.
  intros [Hne Hs]. destruct s as [|c t]; [done|]. exists c, t. rewrite forallb_str_spec in Hs. simpl in Hs.
  apply Forall_cons in Hs as [Hc _]. apply wordChar_facts in Hc as [? Hc]. split_and!; [done..|]. intros ->. set_solver.
Qed.

Lemma forallb_last p s : s <> "" -> forallb_str p s = true -> exists c, lastByte s = Some c /\ p c = true.
Proof.
  rewrite forallb_str_spec. intros Hne H. induction s as [|c s IH]; [done|]. simpl in H. apply Forall_cons in H as [Hc H].
  destruct s as [|d s]; [by exists c|]. destruct IH as (x & Hx & Hp); [done..|]. exists x. by split.
Qed.

Lemma word_last s : word s -> exists c, lastByte s = Some c /\ solid c = true.
Proof. intros Hw. apply forallb_last; [apply Hw|by apply word_solid]. Qed.

Lemma TrimSpace_between a m b :
  word a -> (exists c, lastByte b = Some c /\ solid c = true) -> TrimSpace (a +:+ m +:+ b) = a +:+ m +:+ b.
Proof.
  intros Ha (d & Hd & Hs). destruct (word_first a Ha) as (c & t & -> & Hc & _).
  change (String c t +:+ m +:+ b) with (String c (t +:+ m +:+ b)). apply (TrimSpace_solid c _ d); [done| |done].
  change (lastByte ((String c t) +:+ m +:+ b) = Some d). rewrite <- app_assoc_str.
  destruct b as [|x b]; [done|]. by rewrite lastByte_app.
Qed.

Definition plainLabel (kv : string * string) : Prop := word (fst kv) /\ plainValue (snd kv).

Lemma solid_quote : solid quoteByte = true. Proof. reflexivity. Qed.

Lemma TrimSpace_label kv : plainLabel kv -> TrimSpace (renderLabel kv) = renderLabel kv.
Proof.
  intros [Hk _]. unfold renderLabel. apply TrimSpace_between; [done|]. exists quoteByte. split; [|apply solid_quote].
  unfold quoted. change (String quoteByte (snd kv +:+ String quoteByte "")) with (String quoteByte (snd kv) +:+ String quoteByte "").
  by rewrite lastByte_app.
Qed.

Lemma parsePairs_label labels kv rest :
  plainLabel kv -> parsePairs labels (renderLabel kv :: rest) = parsePairs (<[fst kv := snd kv]> labels) rest.
Proof.
  intros Hp. cbn [parsePairs]. rewrite TrimSpace_label by done. destruct Hp as [Hk Hv]. unfold renderLabel.
  change ("=" +:+ quoted (snd kv)) with (String "=" (quoted (snd kv))).
  rewrite IndexByte_app by (apply word_without; [done|set_solver]).
  rewrite (sliceOf_app "" (fst kv) (String "=" (quoted (snd kv))) 0 (String.length (fst kv))) by reflexivity. cbn [mbind res_bind].
  replace (fst kv +:+ String "=" (quoted (snd kv))) with ((fst kv +:+ "=") +:+ quoted (snd kv) +:+ "")
    by (rewrite app_assoc_str, append_empty; done).
  rewrite sliceOf_app; [|by rewrite length_app_str|by rewrite append_empty]. cbn [mbind res_bind].
  unfold quoted. rewrite TrimByte_quoted; [done|]. unfold plainValue, forbidden in Hv. rewrite Forall_forall in Hv. apply Hv. set_solver.
Qed.

Lemma parsePairs_labels labels kvs :
  Forall plainLabel kvs -> NoDup kvs.*1 -> (forall k, k ∈ kvs.*1 -> labels !! k = None) ->
  parsePairs labels (renderLabel <$> kvs) = Ok (list_to_map kvs ∪ labels).
Proof.
  intros Hp. revert labels. induction Hp as [|[k v] kvs Hkv _ IH]; intros labels Hd Hf.
  { simpl. by rewrite map_empty_union. }
  simpl in Hd. apply NoDup_cons in Hd as [Hk Hd].
  rewrite fmap_cons, parsePairs_label by done. rewrite IH; [|done|].
  - f_equal. simpl. rewrite <- insert_union_l. rewrite <- insert_union_r; [done|]. by apply not_elem_of_list_to_map_1.
  - intros j Hj. simpl. rewrite lookup_insert_ne by (by intros ->). apply Hf. simpl. by apply elem_of_cons; right.
Qed.

Lemma without_label c kv : plainLabel kv -> c = ","%char \/ c = "}"%char -> without c (renderLabel kv).
Proof.
  intros [Hk Hv] Hc. unfold renderLabel, quoted. unfold plainValue, forbidden in Hv. rewrite Forall_forall in Hv.
  apply without_app. split; [apply word_without; [done|]; destruct Hc as [-> | ->]; set_solver|].
  change ("=" +:+ ?x) with (String "=" x). rewrite !without_cons, without_app.
  split_and!; [by destruct Hc as [-> | ->]..| |by destruct Hc as [-> | ->]].
  apply Hv. destruct Hc as [-> | ->]; set_solver.
Qed.

Lemma without_Join c sep parts :
  without c sep -> Forall (without c) parts -> without c (Join parts sep).
Proof.
  intros Hs H. induction H as [|x parts Hx Hp IH]; [done|]. destruct parts as [|y parts]; [done|].
  change (Join (x :: y :: parts) sep) with (x +:+ sep +:+ Join (y :: parts) sep). by rewrite !without_app.
Qed.

Lemma parseLabels_rendered kvs :
  Forall plainLabel kvs -> NoDup kvs.*1 -> kvs <> [] ->
  parseLabels (Join (renderLabel <$> kvs) ",") = Ok (list_to_map kvs).
Proof.
  intros Hp Hd Hne. unfold parseLabels. rewrite Split_Join.
  - rewrite parsePairs_labels by done. by rewrite map_union_empty.
  - by destruct kvs.
  - apply Forall_fmap. eapply Forall_impl; [exact Hp|]. intros kv Hkv. apply without_label; auto.
Qed.

Section RoundTrip.
Variable fmtFloat : float64 -> string.

(** The printed value is a word that parses back to it. *)
Definition printsBack (x : float64) : Prop := word (fmtFloat x) /\ ParseFloat (fmtFloat x) = Some x.

Definition plainLine (l : promLine) : Prop :=
  match l with
  | Comment text => without lineFeed text
  | Blank => True
  | Series name labels value =>
      word name /\ NoDup labels.*1 /\ Forall plainLabel labels /\ printsBack value
  end.

Lemma TrimSpace_value tok : word tok -> TrimSpace (" " +:+ tok) = tok.
Proof.
  intros Hw. unfold TrimSpace. change (" " +:+ tok) with (String " " tok). cbn [trimLeftSpace].
  change (spaceWidth (String " " tok)) with 1%nat.
  destruct (word_last tok Hw) as (d & Hd & Hs). destruct (word_first tok Hw) as (c & t & -> & Hc & _).
  cbn [trimLeftSpace]. rewrite spaceWidth_solid by done. by eapply trimRightSpace_solid.
Qed.

Lemma TrimSpace_word tok : word tok -> TrimSpace tok = tok.
Proof.
  intros Hw. destruct (word_last tok Hw) as (d & Hd & Hs). destruct (word_first tok Hw) as (c & t & -> & Hc & _).
  by apply (TrimSpace_solid c t d).
Qed.

Lemma splitLine_labelled name kvs tok :
  word name -> Forall plainLabel kvs -> NoDup kvs.*1 -> kvs <> [] -> word tok ->
  splitLine (name +:+ renderLabels kvs +:+ " " +:+ tok) = Ok (Some (name, list_to_map kvs, tok)).
Proof.
  intros Hn Hp Hd Hne Ht. unfold splitLine, renderLabels. destruct kvs as [|kv0 kvs0]; [done|]. set (kvs := kv0 :: kvs0) in *.
  set (inner := Join (renderLabel <$> kvs) ",").
  assert (without "}" inner) as Hin.
  { apply without_Join; [done|]. apply Forall_fmap. eapply Forall_impl; [exact Hp|]. intros. apply without_label; auto. }
  replace (name +:+ ("{" +:+ inner +:+ "}") +:+ " " +:+ tok) with (name +:+ String "{" (inner +:+ String "}" (" " +:+ tok)))
    by (rewrite !app_assoc_str; reflexivity).
  rewrite IndexByte_app by (apply word_without; [done|set_solver]).
  assert (name +:+ String "{" (inner +:+ String "}" (" " +:+ tok)) = (name +:+ "{" +:+ inner) +:+ String "}" (" " +:+ tok)) as E.
  { rewrite app_assoc_str. done. }
  rewrite E, IndexByte_app.
  2: { rewrite !without_app. split_and!; [apply word_without; [done|set_solver]|done|done]. }
  rewrite !length_app_str. destruct (Nat.ltb_spec (String.length name + (String.length "{" + String.length inner)) (String.length name)); [lia|].
  rewrite <- E. rewrite (sliceOf_app "" name (String "{" (inner +:+ String "}" (" " +:+ tok))) 0 (String.length name)) by reflexivity. cbn [mbind res_bind].
  replace (name +:+ String "{" (inner +:+ String "}" (" " +:+ tok))) with ((name +:+ "{") +:+ inner +:+ String "}" (" " +:+ tok))
    by (by rewrite app_assoc_str).
  rewrite (sliceOf_app (name +:+ "{") inner _ (String.length name + 1)); [|by rewrite length_app_str|].
  2: { rewrite !length_app_str. change (String.length (String "}" (" " +:+ tok))) with (S (S (String.length tok))).
       change (String.length "{") with 1%nat. change (String.length "}") with 1%nat. change (String.length " ") with 1%nat. lia. }
  cbn [mbind res_bind].
  rewrite (parseLabels_rendered kvs Hp Hd Hne : parseLabels inner = _). cbn [mbind res_bind].
  replace ((name +:+ "{") +:+ inner +:+ String "}" (" " +:+ tok)) with (((name +:+ "{") +:+ inner +:+ "}") +:+ (" " +:+ tok) +:+ "")
    by (rewrite !app_assoc_str, append_empty; done).
  rewrite sliceOf_app; [|rewrite !length_app_str; simpl; lia|].
  2: { rewrite !length_app_str. change (String.length (String "}" (" " +:+ tok))) with (S (S (String.length tok))).
       change (String.length "{") with 1%nat. change (String.length "}") with 1%nat. change (String.length " ") with 1%nat. lia. }
  cbn [mbind res_bind].
  by rewrite TrimSpace_value.
Qed.

Lemma splitLine_bare name tok :
  word name -> word tok -> splitLine (name +:+ "" +:+ " " +:+ tok) = Ok (Some (name, ∅, tok)).
Proof.
  intros Hn Ht. unfold splitLine. change ("" +:+ " " +:+ tok) with (String " " tok).
  rewrite IndexByte_none.
  2: { apply without_app. split; [apply word_without; [done|set_solver]|]. apply without_cons. split; [done|].
       apply word_without; [done|set_solver]. }
  rewrite IndexByte_app by (apply word_without; [done|set_solver]).
  rewrite (sliceOf_app "" name (String " " tok) 0 (String.length name)) by reflexivity. cbn [mbind res_bind].
  replace (name +:+ String " " tok) with ((name +:+ " ") +:+ tok +:+ "") by (rewrite app_assoc_str, append_empty; done).
  rewrite sliceOf_app; [|by rewrite length_app_str|by rewrite append_empty]. cbn [mbind res_bind].
  by rewrite TrimSpace_word.
Qed.

Lemma parseLine_series name kvs x :
  plainLine (Series name kvs x) ->
  parseLine (renderLine fmtFloat (Series name kvs x)) = Ok (seriesOf (Series name kvs x)).
Proof.
  intros (Hn & Hd & Hp & Hw & Hx). unfold parseLine, renderLine.
  assert (TrimSpace (name +:+ renderLabels kvs +:+ " " +:+ fmtFloat x) = name +:+ renderLabels kvs +:+ " " +:+ fmtFloat x) as ->.
  { rewrite <- (app_assoc_str (renderLabels kvs)). apply TrimSpace_between; [done|by apply word_last]. }
  assert (splitLine (name +:+ renderLabels kvs +:+ " " +:+ fmtFloat x) = Ok (Some (name, list_to_map kvs, fmtFloat x))) as ->.
  { destruct kvs as [|kv kvs]; [by apply splitLine_bare|by apply splitLine_labelled]. }
  destruct (word_first name Hn) as (c & t & -> & _ & Hc).
  change (String c t +:+ ?r) with (String c (t +:+ r)). cbn [String.eqb HasPrefix orb].
  rewrite (proj2 (Ascii.eqb_neq "#" c)) by congruence. cbn [andb mbind res_bind].
  rewrite Fields_solid by (apply Hw || by apply word_solid). unfold parseValue. by rewrite Hx.
Qed.

Lemma trimRight_hash t : exists t', trimRightSpace (String "#" t) = String "#" t'.
Proof.
  cbn [trimRightSpace]. destruct (existsb _ spaces) eqn:E; [|eauto].
  apply existsb_exists in E as (sp & Hin & Heq). apply String.eqb_eq in Heq as <-.
  by destruct (solid_spec "#" _ eq_refl Hin).
Qed.

Lemma parseLine_rendered l : plainLine l -> parseLine (renderLine fmtFloat l) = Ok (seriesOf l).
Proof.
  destruct l as [text| |name kvs x]; [intros _|done|apply parseLine_series].
  unfold parseLine, renderLine, TrimSpace. change ("#" +:+ text) with (String "#" text). cbn [trimLeftSpace].
  rewrite spaceWidth_solid by done. by destruct (trimRight_hash text) as [t' ->].
Qed.

Lemma rendered_without_lineFeed l : plainLine l -> without lineFeed (renderLine fmtFloat l).
Proof.
  destruct l as [text| |name kvs x]; [by intros|done|]. intros (Hn & Hd & Hp & Hw & Hx). unfold renderLine.
  rewrite !without_app. split_and!; [apply word_without; [done|set_solver]| |done|apply word_without; [done|set_solver]].
  unfold renderLabels. destruct kvs as [|kv kvs]; [done|]. rewrite !without_app. split_and!; [done| |done].
  apply without_Join; [done|]. apply Forall_fmap. eapply Forall_impl; [exact Hp|]. intros [k v] [Hk Hv].
  unfold compose, renderLabel, quoted. simpl fst in *. simpl snd in *. rewrite !without_app, !without_cons, without_app.
  unfold plainValue, forbidden in Hv. rewrite Forall_forall in Hv.
  split_and!; try done; [apply word_without; [done|set_solver]|apply Hv; set_solver].
Qed.

Lemma Split_render page : Forall plainLine page -> Split (render fmtFloat page) lineFeed = (renderLine fmtFloat <$> page) ++ [""].
Proof.
  induction 1 as [|l page Hl _ IH]; [done|]. cbn [render]. rewrite Split_app by (by apply rendered_without_lineFeed).
  by rewrite IH.
Qed.

Lemma parse_rendered page : Forall plainLine page -> parsePromText (render fmtFloat page) = Ok (omap seriesOf page).
Proof.
  intros Hp. unfold parsePromText. rewrite Split_render by done.
  induction Hp as [|l page Hl _ IH]; [done|]. cbn [fmap list_fmap app parseLines]. rewrite parseLine_rendered by done.
  cbn [mbind res_bind]. rewrite IH. cbn [mbind res_bind omap list_omap]. by destruct (seriesOf l).
Qed.
End RoundTrip.

(** the metrics parser is total: on any bytes whatsoever (unbalanced braces,
    a closing brace first, no value, invalid UTF-8) none of its slice expressions
    is out of range, and it returns at most one series per line. *)
Theorem parsePromText_total body :
  exists samples, parsePromText body = Ok samples /\ (length samples <= length (Split body lineFeed))%nat.
Proof. apply parseLines_ok. Qed.

Lemma anyValue_spec samples name typ v :
  anyValue (ofType samples name typ) v = true <->
  exists s, In s samples /\ hasType name typ s = true /\ feqb (s_value s) v = true.
Proof.
  unfold anyValue, ofType. rewrite existsb_exists. setoid_rewrite filter_In. naive_solver.
Qed.

Lemma anyNonNaN_spec samples name typ :
  anyNonNaN (ofType samples name typ) = true <->
  exists s, In s samples /\ hasType name typ s = true /\ isNaN (s_value s) = false.
Proof.
  unfold anyNonNaN, ofType. rewrite existsb_exists. setoid_rewrite filter_In. setoid_rewrite negb_true_iff. naive_solver.
Qed.

(** Some series [name] with [probe_type = typ] on the page has a value in [P]. *)
Definition shows (page : list promLine) (name typ : string) (P : float64 -> Prop) : Prop :=
  exists kvs x, Series name kvs x ∈ page /\
    default "" ((list_to_map kvs : gmap string string) !! "probe_type") = typ /\ P x.

Lemma shows_spec page name typ (P : float64 -> Prop) :
  (exists s, In s (omap seriesOf page) /\ hasType name typ s = true /\ P (s_value s)) <-> shows page name typ P.
Proof.
  unfold hasType, shows. split.
  - intros (s & Hin & Ht & HP). apply list_elem_of_In, list_elem_of_omap in Hin as (l & Hl & E).
    destruct l as [| |n kvs x]; simplify_eq/=. apply andb_true_iff in Ht as [H1 H2].
    apply String.eqb_eq in H1 as ->. apply String.eqb_eq in H2. eauto 10.
  - intros (kvs & x & Hin & Ht & HP). exists {| s_name := name; s_labels := list_to_map kvs; s_value := x |}.
    split; [|by simpl; rewrite Ht, !String.eqb_refl]. apply list_elem_of_In, list_elem_of_omap. eauto.
Qed.

(** C24: the smoke test sees exactly what the page says.  For a page in the text
    exposition format whose names are plain, whose label values contain no comma,
    quote, backslash, closing brace or line feed, and whose values print to words
    that parse back: the parser returns exactly the series of the page, in order,
    comments and blank lines skipped, with their labels and values; and the two
    assertions of the test hold exactly when some series of that name and probe
    type shows the value, or a value that is not NaN. *)
Theorem prom_text_roundtrip fmtFloat page :
  Forall (plainLine fmtFloat) page ->
  exists samples, parsePromText (render fmtFloat page) = Ok samples /\ samples = omap seriesOf page /\
    forall name typ,
      (forall v, anyValue (ofType samples name typ) v = true <-> shows page name typ (fun x => feqb x v = true)) /\
      (anyNonNaN (ofType samples name typ) = true <-> shows page name typ (fun x => isNaN x = false)).
Proof.
  intros Hp. exists (omap seriesOf page). split; [by apply parse_rendered|]. split; [done|]. intros name typ.
  split; [intros v; rewrite anyValue_spec|rewrite anyNonNaN_spec].
  - apply (shows_spec page name typ (fun x => feqb x v = true)).
  - apply (shows_spec page name typ (fun x => isNaN x = false)).
Qed.

(** ** The page of parse_test.go *)

Definition demoPage : list promLine := [
  Comment " HELP trimon_probe_up ..."; Comment " TYPE trimon_probe_up gauge";
  Series "trimon_probe_up" [("otel_scope_name", "github.com/gtataranni/trimon"); ("probe_name", "internet");
    ("probe_source_ip", "0.0.0.0"); ("probe_target", "8.8.8.8"); ("probe_type", "icmp")] (f64 1);
  Series "trimon_probe_rtt_mean_milliseconds" [("probe_name", "internet"); ("probe_target", "8.8.8.8");
    ("probe_type", "icmp")] (fdiv (f64 25) (f64 2));
  Series "trimon_probe_rtt_mean_milliseconds" [("probe_name", "http-example"); ("probe_target", "example.com");
    ("probe_type", "http")] NaN;
  Blank;
  Series "trimon_scheduler_goroutines" [] (f64 7)].

#[local] Instance word_dec s : Decision (word s).
Proof. unfold word. apply _. Defined.
#[local] Instance plainLabel_dec kv : Decision (plainLabel kv).
Proof. unfold plainLabel, plainValue, without. apply _. Defined.
#[local] Instance plainLine_dec fmtFloat l : Decision (plainLine fmtFloat l).
Proof. destruct l; unfold plainLine, printsBack, without; apply _. Defined.

(** One decimal is enough for these values. *)
Lemma demoPage_plain : Forall (plainLine (fmtFixed 1)) demoPage.
Proof. apply (bool_decide_eq_true_1 (Forall (plainLine (fmtFixed 1)) demoPage)). vm_compute. reflexivity. Qed.

Lemma prom_text_roundtrip_witness :
  exists samples, parsePromText (render (fmtFixed 1) demoPage) = Ok samples /\ length samples = 4%nat /\
    anyValue (ofType samples "trimon_probe_up" "icmp") (f64 1) = true /\
    anyNonNaN (ofType samples "trimon_probe_rtt_mean_milliseconds" "http") = false.
Proof.
  destruct (prom_text_roundtrip (fmtFixed 1) demoPage demoPage_plain) as (samples & H & -> & _).
  exists (omap seriesOf demoPage). split; [exact H|]. split; [reflexivity|]. split; reflexivity.
Defined.

(** A comma inside a label value cuts it, and a quote around it is lost. *)
Example comma_cuts_value :
  parsePromText ("up{site=" +:+ quoted "rack 1, row 2" +:+ "} 1") =
    Ok [{| s_name := "up"; s_labels := {["site" := "rack 1"]}; s_value := f64 1 |}].
Proof. vm_compute. reflexivity. Qed.
